(** * AutoSeat: seat layout, pair weights, top-N solving and metrics

    A shallow embedding of the pure parts of the AutoSeat utilities
    ([utils/seat_layout.py], [utils/data_processor.py],
    [utils/optimizer.py], [utils/exporter.py]) together with the
    properties of them that the specification states.

    Conventions.
    - Python [int] is [Z]; Python [float] is a binary64 [float].
    - A Python [list] is a [list]; indexing goes through [py_index], which
      implements negative indices and raises [IndexError] out of range.
    - A [frozenset] of names is a [gset string]; a [dict] whose iteration
      order matters is an association list in iteration order, a [dict]
      that is only looked up is a [gmap].
    - Code that can raise lives in the [result] monad, whose [Raise] carries
      the Python exception. *)

From Stdlib Require Import ZArith Ascii String PrimFloat.
From Stdlib Require Uint63.
From stdpp Require Import gmap strings list fin_maps pretty sorting.

Local Open Scope Z_scope.
#[local] Set Warnings "-inexact-float".

(** ** Python runtime: exceptions, loops, indexing *)

Inductive exn : Type :=
  | IndexError
  | KeyError
  | ValueError (msg : string).

Inductive result (A : Type) : Type :=
  | Ok (a : A)
  | Raise (e : exn).
Arguments Ok {A} a.
Arguments Raise {A} e.

Definition bind {A B : Type} (m : result A) (k : A → result B) : result B :=
  match m with
  | Ok a => k a
  | Raise e => Raise e
  end.

Notation "'let!' x ':=' m 'in' k" := (bind m (fun x => k))
  (at level 10, x name, m at level 100, k at level 200, only parsing).

(** [for x in xs: body], threading the loop state and stopping at the first
    exception. *)
Fixpoint for_each {A S : Type} (xs : list A) (body : A → S → result S)
    (s : S) : result S :=
  match xs with
  | [] => Ok s
  | x :: xs' =>
      match body x s with
      | Ok s' => for_each xs' body s'
      | Raise e => Raise e
      end
  end.

(** [range(n)]: empty for [n ≤ 0]. *)
Definition range (n : Z) : list Z := seqZ 0 n.

(** [l[i]] with Python's negative indices. *)
Definition py_index {A : Type} (l : list A) (i : Z) : result A :=
  let j := if bool_decide (i < 0) then i + Z.of_nat (length l) else i in
  if bool_decide (j < 0) then Raise IndexError
  else match l !! Z.to_nat j with
       | Some a => Ok a
       | None => Raise IndexError
       end.

(** [l.index(x)]: position of the first occurrence, [ValueError] if none. *)
Fixpoint list_index `{EqDecision A} (x : A) (l : list A) : option nat :=
  match l with
  | [] => None
  | y :: l' => if decide (x = y) then Some 0%nat else S <$> list_index x l'
  end.

(** [sum(l)] and [any(p(x) for x in l)]. *)
Definition py_sum (l : list Z) : Z := foldl Z.add 0 l.
Definition py_any {A : Type} (p : A → bool) (l : list A) : bool := existsb p l.

(** [enumerate(l)]. *)
Definition enumerate {A : Type} (l : list A) : list (Z * A) :=
  zip (range (Z.of_nat (length l))) l.

(** [d[k]] on a dictionary: [KeyError] when the key is missing. *)
Definition dict_get `{Countable K} {V : Type} (d : gmap K V) (k : K)
    : result V :=
  match d !! k with
  | Some v => Ok v
  | None => Raise KeyError
  end.

(** [{k: v for v, k in enumerate(l)}]: a later occurrence of a key
    overwrites an earlier one. *)
Definition index_dict `{Countable K} (l : list K) : gmap K Z :=
  foldl (fun d '(i, k) => <[k := i]> d) ∅ (enumerate l).

(** The float of a Python [int] in a float expression, for a non-negative
    [int] below 2^53, which binary64 holds exactly. *)
Definition float_of_int (n : Z) : float := of_uint63 (Uint63.of_Z n).

Definition seat : Type := (Z * Z)%type.
Definition edge : Type := (seat * seat)%type.

(** ** utils/seat_layout.py *)

Module SeatLayout.

(** [generate_seats], lines 12-26. *)
Definition generate_seats (n_cols : Z) (rows_per_col : list Z)
    : result (list seat) :=
  for_each (range n_cols) (fun c seats =>
    let! rows := py_index rows_per_col c in
    for_each (range rows) (fun r seats => Ok (seats ++ [(c, r)])) seats) [].

(** The nested helper [has_aisle_between], lines 45-50. *)
Fixpoint has_aisle_between (aisles : list (Z * Z)) (col1 col2 : Z) : bool :=
  match aisles with
  | [] => false
  | (left_col, right_col) :: rest =>
      if (bool_decide (col1 = left_col) && bool_decide (col2 = right_col))
         || (bool_decide (col1 = right_col) && bool_decide (col2 = left_col))
      then true
      else has_aisle_between rest col1 col2
  end.

(** [a and b] where [b] may raise: [b] is evaluated only when [a] holds. *)
Definition and_then (a : bool) (b : result bool) : result bool :=
  if a then b else Ok false.

(** Both orientations of one neighbour relation, as appended at lines 60-61,
    65-66, 72-73 and 77-78. *)
Definition both_ways (curr other : seat) : list edge :=
  [(curr, other); (other, curr)].

(** The body of the inner loop of [generate_adjacent_edges], lines 55-78. *)
Definition edges_of_seat (n_cols : Z) (rows_per_col : list Z)
    (include_diag : bool) (aisles : list (Z * Z)) (c r : Z)
    (edges : list edge) : result (list edge) :=
  let curr : seat := (c, r) in
  let! to_right :=
    and_then (bool_decide (c + 1 < n_cols))
             (let! rows := py_index rows_per_col (c + 1) in
              Ok (bool_decide (r < rows)
                  && negb (has_aisle_between aisles c (c + 1)))) in
  let edges := if to_right then edges ++ both_ways curr (c + 1, r) else edges in
  let! rows_c := py_index rows_per_col c in
  let edges :=
    if bool_decide (r + 1 < rows_c) then edges ++ both_ways curr (c, r + 1)
    else edges in
  if include_diag then
    let! to_up :=
      and_then (bool_decide (c + 1 < n_cols))
           (let! rows := py_index rows_per_col (c + 1) in
            Ok (bool_decide (r + 1 < rows)
                && negb (has_aisle_between aisles c (c + 1)))) in
    let edges :=
      if to_up then edges ++ both_ways curr (c + 1, r + 1) else edges in
    let! to_down :=
      and_then (bool_decide (c + 1 < n_cols) && bool_decide (r - 1 >= 0))
             (let! rows := py_index rows_per_col (c + 1) in
              Ok (bool_decide (r - 1 < rows)
                  && negb (has_aisle_between aisles c (c + 1)))) in
    Ok (if to_down then edges ++ both_ways curr (c + 1, r - 1) else edges)
  else Ok edges.

(** [generate_adjacent_edges], lines 29-80. [aisles = None] is replaced by
    the empty list. *)
Definition generate_adjacent_edges (n_cols : Z) (rows_per_col : list Z)
    (include_diag : bool) (aisles : option (list (Z * Z)))
    : result (list edge) :=
  let aisles := default [] aisles in
  for_each (range n_cols) (fun c edges =>
    let! rows := py_index rows_per_col c in
    for_each (range rows)
      (edges_of_seat n_cols rows_per_col include_diag aisles c) edges) [].

(** [validate_layout], lines 181-205. *)
Definition validate_layout (n_cols : Z) (rows_per_col : list Z)
    (num_people : Z) : bool * string :=
  if bool_decide (n_cols <= 0) then (false, "列数必须大于0")
  else if bool_decide (Z.of_nat (length rows_per_col) ≠ n_cols) then
    (false, "每列排数配置数量(" +:+ pretty (Z.of_nat (length rows_per_col))
            +:+ ")与列数(" +:+ pretty n_cols +:+ ")不匹配")
  else if py_any (fun r => bool_decide (r <= 0)) rows_per_col then
    (false, "每列排数必须大于0")
  else
    let total_seats := py_sum rows_per_col in
    if bool_decide (total_seats < num_people) then
      (false, "座位总数(" +:+ pretty total_seats +:+ ")少于人数("
              +:+ pretty num_people +:+ ")")
    else (true, "").

(** [get_adjacent_seat_pairs], lines 158-178: the unordered index pairs of
    the edges; [seats.index] raises [ValueError] for a coordinate that is not
    in the list, and the [except] clause skips that edge. *)
Definition get_adjacent_seat_pairs (seats : list seat) (edges : list edge)
    : gset (gset Z) :=
  foldl (fun adjacent_pairs '(seat1, seat2) =>
           match list_index seat1 seats, list_index seat2 seats with
           | Some idx1, Some idx2 =>
               adjacent_pairs
               ∪ {[ ({[Z.of_nat idx1; Z.of_nat idx2]} : gset Z) ]}
           | _, _ => adjacent_pairs
           end) ∅ edges.

(** [get_seat_info], lines 208-221. *)
Definition get_seat_info (seat_idx : Z) (seats : list seat) : result string :=
  if bool_decide (0 ≤ seat_idx)
     && bool_decide (seat_idx < Z.of_nat (length seats))
  then
    let! p := py_index seats seat_idx in
    Ok ("C" +:+ pretty (p.1 + 1) +:+ "-R" +:+ pretty (p.2 + 1))
  else Ok "未知座位".

End SeatLayout.

(** ** utils/data_processor.py *)

(** An unordered pair of names is a [frozenset] of strings: [gset string]. *)

(** Python's [str] methods and [int()]. A [str] is kept as its UTF-8
    encoding, so a character is one byte below 128 or a lead byte followed by
    continuation bytes. White space is written out for all of Unicode. What
    the interpreter's Unicode data say about the letters, the letter case
    and the decimal digits outside ASCII, and its limit on the digits of an
    integer literal, are the fields of a record [unicode]: the definitions
    that depend on them take such a record, and every property is proved
    for all of them. *)
Module PyStr.

Definition code (c : ascii) : Z := Z.of_N (N_of_ascii c).

Record unicode : Type := {
  (** [c.isalpha()] for a character outside ASCII. *)
  uni_alpha : list ascii → bool;
  (** [s.upper()] and [s.lower()] for a string with a character outside
      ASCII. *)
  uni_upper : string → string;
  uni_lower : string → string;
  (** The value of a decimal digit outside ASCII (a character of category
      Nd, such as a full-width digit); [None] for every other character. *)
  uni_digit : list ascii → option Z;
  (** [sys.get_int_max_str_digits()]: 0 where the interpreter has no limit. *)
  max_str_digits : Z;
}.

(** [c.isalpha()] for an ASCII character. *)
Definition isalpha (c : ascii) : bool :=
  (bool_decide (65 ≤ code c) && bool_decide (code c ≤ 90))
  || (bool_decide (97 ≤ code c) && bool_decide (code c ≤ 122)).

Definition isdigit (c : ascii) : bool :=
  bool_decide (48 ≤ code c) && bool_decide (code c ≤ 57).

(** The white space [int()] skips around an ASCII literal: the C locale's
    [isspace]. *)
Definition c_isspace (c : ascii) : bool :=
  (bool_decide (9 ≤ code c) && bool_decide (code c ≤ 13))
  || bool_decide (code c = 32).

(** [c.upper()] and [c.lower()] for an ASCII character. *)
Definition upper (c : ascii) : ascii :=
  if bool_decide (97 ≤ code c) && bool_decide (code c ≤ 122)
  then ascii_of_N (Z.to_N (code c - 32)) else c.
Definition lower (c : ascii) : ascii :=
  if bool_decide (65 ≤ code c) && bool_decide (code c ≤ 90)
  then ascii_of_N (Z.to_N (code c + 32)) else c.

(** Every byte of the string is below 128. *)
Definition is_ascii (s : string) : bool :=
  forallb (fun c => bool_decide (code c < 128)) (list_ascii_of_string s).

(** A continuation byte of UTF-8. *)
Definition is_cont (c : ascii) : bool :=
  bool_decide (128 ≤ code c) && bool_decide (code c < 192).

(** The characters of a string: every byte that is no continuation byte
    starts a character. *)
Fixpoint chars (cs : list ascii) : list (list ascii) :=
  match cs with
  | [] => []
  | c :: cs' =>
      match cs' with
      | d :: _ =>
          if is_cont d then
            match chars cs' with
            | ch :: rest => (c :: ch) :: rest
            | [] => [[c]]
            end
          else [c] :: chars cs'
      | [] => [[c]]
      end
  end.

(** The one byte of an ASCII character. *)
Definition ascii_of_char (ch : list ascii) : option ascii :=
  match ch with
  | [c] => if bool_decide (code c < 128) then Some c else None
  | _ => None
  end.

(** The code point of a character: one byte below 128, or a lead byte and
    one, two or three continuation bytes. *)
Definition code_point (ch : list ascii) : option Z :=
  let cont (c : ascii) : Z := code c - 128 in
  match ch with
  | [c] => if bool_decide (code c < 128) then Some (code c) else None
  | [c0; c1] =>
      if bool_decide (194 ≤ code c0 < 224)
      then Some ((code c0 - 192) * 64 + cont c1) else None
  | [c0; c1; c2] =>
      if bool_decide (224 ≤ code c0 < 240)
      then Some ((code c0 - 224) * 4096 + cont c1 * 64 + cont c2) else None
  | [c0; c1; c2; c3] =>
      if bool_decide (240 ≤ code c0 < 248)
      then Some ((code c0 - 240) * 262144 + cont c1 * 4096 + cont c2 * 64
                 + cont c3)
      else None
  | _ => None
  end.

(** The code points that are white space for [str.isspace()] and
    [str.strip()]: the interpreter's [_PyUnicode_IsWhitespace]. *)
Definition is_whitespace (n : Z) : bool :=
  (bool_decide (9 ≤ n) && bool_decide (n ≤ 13))
  || (bool_decide (28 ≤ n) && bool_decide (n ≤ 32))
  || bool_decide (n = 133) || bool_decide (n = 160)
  || bool_decide (n = 5760)
  || (bool_decide (8192 ≤ n) && bool_decide (n ≤ 8202))
  || bool_decide (n = 8232) || bool_decide (n = 8233)
  || bool_decide (n = 8239) || bool_decide (n = 8287)
  || bool_decide (n = 12288).

(** [c.isspace()] for a character. *)
Definition char_isspace (ch : list ascii) : bool :=
  match code_point ch with
  | Some n => is_whitespace n
  | None => false
  end.

(** [sep in s]. *)
Fixpoint contains (sep : ascii) (s : string) : bool :=
  match s with
  | EmptyString => false
  | String c s' => if decide (c = sep) then true else contains sep s'
  end.

(** [s.split(sep)] for a one-character ASCII separator: never the empty
    list. *)
Fixpoint split (sep : ascii) (s : string) : list string :=
  match s with
  | EmptyString => [EmptyString]
  | String c s' =>
      if decide (c = sep) then EmptyString :: split sep s'
      else match split sep s' with
           | h :: t => String c h :: t
           | [] => [String c EmptyString]
           end
  end.

(** The longest suffix that does not start with an element of [p]. *)
Fixpoint lstrip {A : Type} (p : A → bool) (l : list A) : list A :=
  match l with
  | x :: l' => if p x then lstrip p l' else l
  | [] => []
  end.
Definition strip {A : Type} (p : A → bool) (l : list A) : list A :=
  reverse (lstrip p (reverse (lstrip p l))).

(** The digit run of a base-10 literal: digits, with single underscores
    allowed between two digits. [after_digit] tells whether the previous
    character was a digit. *)
Fixpoint digits (acc : Z) (after_digit : bool) (cs : list ascii)
    : option Z :=
  match cs with
  | [] => if after_digit then Some acc else None
  | c :: cs' =>
      if isdigit c then digits (acc * 10 + (code c - 48)) true cs'
      else if decide (c = "_"%char) then
        if after_digit then digits acc false cs' else None
      else None
  end.

(** [s.strip()]. *)
Definition strip_str (s : string) : string :=
  string_of_list_ascii
    (concat (strip char_isspace (chars (list_ascii_of_string s)))).

Section Unicode.
Context (U : unicode).

(** [c.isalpha()] for a character. *)
Definition char_isalpha (ch : list ascii) : bool :=
  match ascii_of_char ch with
  | Some c => isalpha c
  | None => uni_alpha U ch
  end.

(** [s.upper()] and [s.lower()]. *)
Definition upper_str (s : string) : string :=
  if is_ascii s then string_of_list_ascii (upper <$> list_ascii_of_string s)
  else uni_upper U s.
Definition lower_str (s : string) : string :=
  if is_ascii s then string_of_list_ascii (lower <$> list_ascii_of_string s)
  else uni_lower U s.

(** The interpreter refuses a literal of [n_digits] digits: more than the
    limit, where there is one; below 640 digits nothing is checked. *)
Definition too_long (n_digits : Z) : bool :=
  bool_decide (640 < n_digits) && bool_decide (0 < max_str_digits U)
  && bool_decide (max_str_digits U < n_digits).

(** [int(s)] for an ASCII string: optional surrounding white space, an
    optional sign, then the digit run, which must not be too long;
    [ValueError] otherwise (its message is not modelled). *)
Definition ascii_int (cs : list ascii) : result Z :=
  let bad := Raise (ValueError "invalid literal for int() with base 10") in
  let run (sign : Z) (ds : list ascii) : result Z :=
    match digits 0 false ds with
    | Some n =>
        if too_long (Z.of_nat (length (filter (fun c => isdigit c = true) ds)))
        then bad else Ok (sign * n)
    | None => bad
    end in
  match strip c_isspace cs with
  | c :: cs' =>
      if decide (c = "-"%char) then run (-1) cs'
      else if decide (c = "+"%char) then run 1 cs'
      else run 1 (c :: cs')
  | [] => bad
  end.

(** What [int()] makes of a character of a string that is not all ASCII
    before it reads the literal: white space becomes a blank, a decimal
    digit its ASCII digit, and every other character from code 127 on a
    question mark. *)
Definition to_decimal (ch : list ascii) : ascii :=
  match ascii_of_char ch with
  | Some c => if bool_decide (code c < 127) then c else "?"%char
  | None =>
      if char_isspace ch then " "%char
      else match uni_digit U ch with
           | Some d =>
               if bool_decide (0 ≤ d ≤ 9) then ascii_of_N (Z.to_N (48 + d))
               else "?"%char
           | None => "?"%char
           end
  end.

(** [int(s)]. *)
Definition int (s : string) : result Z :=
  if is_ascii s then ascii_int (list_ascii_of_string s)
  else ascii_int (to_decimal <$> chars (list_ascii_of_string s)).

(** [str(n)], also inside an f-string: the decimal digits, refused like a
    literal when there are too many. *)
Definition str_of_int (n : Z) : result string :=
  if too_long (Z.of_nat (String.length (pretty (Z.abs n))))
  then Raise (ValueError "Exceeds the limit for integer string conversion")
  else Ok (pretty n).

End Unicode.

(** Tables for the examples, which are ASCII text: they know no letter, no
    letter case and no digit outside ASCII, and the limit on literals is
    4300 digits. *)
Definition plain_tables : unicode :=
  {| uni_alpha := fun _ => false;
     uni_upper := fun s => s;
     uni_lower := fun s => s;
     uni_digit := fun _ => None;
     max_str_digits := 4300 |}.

End PyStr.

Module DataProcessor.

Section Text.
Context (U : PyStr.unicode).

(** [openpyxl.utils.column_index_from_string]: the library looks the
    upper-cased name up in its table of the columns ["A"] to ["ZZZ"]
    (1 to 18278, bijective base 26) and raises [ValueError] for any other
    string. *)
Definition column_index_from_string (str_col : string) : result Z :=
  let cs := list_ascii_of_string (PyStr.upper_str U str_col) in
  if bool_decide (1 ≤ length cs ≤ 3)%nat
     && forallb (fun c => bool_decide (65 ≤ PyStr.code c)
                          && bool_decide (PyStr.code c ≤ 90)) cs
  then Ok (foldl (fun acc c => acc * 26 + (PyStr.code c - 64)) 0 cs)
  else Raise (ValueError (str_col +:+ " is not a valid column name")).

(** The two character loops of [parse_cell_range], lines 92-107: letters
    are appended to the column label, everything else to the row label. *)
Definition split_cell (cell : string) : string * string :=
  foldl (fun '(col, row) ch =>
           if PyStr.char_isalpha U ch
           then (col +:+ string_of_list_ascii ch, row)
           else (col, row +:+ string_of_list_ascii ch))
        (EmptyString, EmptyString)
        (PyStr.chars (list_ascii_of_string cell)).

Definition cell_range : Type := option Z * option Z * option Z * option Z.
Definition all_absent : cell_range := (None, None, None, None).

(** The body of the [try] block of [parse_cell_range], lines 89-117. *)
Definition parse_cell_range_try (range_spec : string) : result cell_range :=
  match PyStr.split ":"%char range_spec with
  | [start; end_] =>
      let '(start_col, start_row) := split_cell start in
      let '(end_col, end_row) := split_cell end_ in
      let! start_col_n := column_index_from_string start_col in
      let! end_col_n := column_index_from_string end_col in
      let! start_row_idx :=
        (if decide (start_row = EmptyString) then Ok 0
         else let! n := PyStr.int U start_row in Ok (n - 1)) in
      let! end_row_idx :=
        (if decide (end_row = EmptyString) then Ok None
         else let! n := PyStr.int U end_row in Ok (Some (n - 1))) in
      Ok (Some (start_col_n - 1), Some start_row_idx,
          Some (end_col_n - 1), end_row_idx)
  | _ => Raise (ValueError "not enough or too many values to unpack")
  end.

(** [parse_cell_range], lines 76-119: every exception of the [try] block is
    caught and turned into the all-absent tuple. *)
Definition parse_cell_range (range_spec : string) : cell_range :=
  if decide (range_spec = EmptyString) then all_absent
  else if negb (PyStr.contains ":"%char range_spec) then all_absent
  else match parse_cell_range_try range_spec with
       | Ok t => t
       | Raise _ => all_absent
       end.

(** A [Dict[int, Set]] as iterated by [.items()]: its entries in iteration
    order. *)
Definition ranked_pairs : Type := list (Z * gset (gset string)).

(** One rank of the willing loop, lines 378-380. *)
Definition assign_willing (w_weights : list float) (rank : Z)
    (pairs : gset (gset string)) (pair_weights : gmap (gset string) float)
    : result (gmap (gset string) float) :=
  if bool_decide (rank ≤ Z.of_nat (length w_weights)) then
    for_each (elements pairs) (fun pair pair_weights =>
      let! w := py_index w_weights (rank - 1) in
      Ok (<[pair := w]> pair_weights)) pair_weights
  else Ok pair_weights.

(** One rank of the unwilling loop, lines 384-387. *)
Definition assign_unwilling (uw_weights : list float) (rank : Z)
    (pairs : gset (gset string)) (pair_weights : gmap (gset string) float)
    : result (gmap (gset string) float) :=
  if bool_decide (rank < Z.of_nat (length uw_weights)) then
    for_each (elements pairs) (fun pair pair_weights =>
      let! w := py_index uw_weights rank in
      Ok (<[pair := w]> pair_weights)) pair_weights
  else Ok pair_weights.

(** The custom loop, lines 391-393; [float(weight)] is the identity on a
    float. *)
Definition assign_custom (custom_pairs : list (string * string * float))
    (pair_weights : gmap (gset string) float) : gmap (gset string) float :=
  foldl (fun pair_weights '(name1, name2, weight) =>
           <[({[name1; name2]} : (gset string)) := weight]> pair_weights)
        pair_weights custom_pairs.

(** [compute_pair_weights], lines 355-395. [custom_pairs] is skipped when it
    is [None] or empty. *)
Definition compute_pair_weights (willing_pairs_by_rank : ranked_pairs)
    (unwilling_pairs_by_rank : ranked_pairs)
    (w_weights uw_weights : list float)
    (custom_pairs : option (list (string * string * float)))
    : result (gmap (gset string) float) :=
  let! pair_weights :=
    for_each willing_pairs_by_rank
      (fun '(rank, pairs) => assign_willing w_weights rank pairs) ∅ in
  let! pair_weights :=
    for_each unwilling_pairs_by_rank
      (fun '(rank, pairs) => assign_unwilling uw_weights rank pairs)
      pair_weights in
  match custom_pairs with
  | Some (t :: ts) => Ok (assign_custom (t :: ts) pair_weights)
  | _ => Ok pair_weights
  end.

(** *** Names, lines 64-68 of [load_names_from_excel] *)

(** [list(dict.fromkeys(names))]: the first occurrence of every name, in
    order. *)
Definition fromkeys (names : list string) : list string :=
  foldl (fun keys name =>
           if bool_decide (name ∈ keys) then keys else keys ++ [name])
        [] names.

Definition header_keywords : list string :=
  ["姓名"; "name"; "名字"; "学生姓名"].

(** Lines 64-68, from the list that line 64 takes out of the data frame (the
    first column below its first row, empty cells dropped, as strings).
    Reading the file, lines 24-61, is left to pandas. *)
Definition load_names_from_excel (column : list string) : list string :=
  let names := fromkeys column in
  PyStr.strip_str
  <$> filter (fun name =>
                PyStr.strip_str name ≠ EmptyString
                ∧ PyStr.lower_str U (PyStr.strip_str name) ∉ header_keywords)
             names.

(** *** [parse_custom_weights], lines 327-352 *)

Section ParseCustomWeights.

(** [float(s)] for a string [s]: the number, or [None] for the [ValueError]
    of a string that is no float literal. *)
Variable py_float : string → option float.

(** One line of the text, lines 342-351; [continue] keeps the list. *)
Definition parse_line (custom_pairs : list (string * string * float))
    (line : string) : list (string * string * float) :=
  match PyStr.split ","%char line with
  | [part0; part1; part2] =>
      let name1 := PyStr.strip_str part0 in
      let name2 := PyStr.strip_str part1 in
      match py_float (PyStr.strip_str part2) with
      | Some weight =>
          if bool_decide (name1 ≠ EmptyString)
             && bool_decide (name2 ≠ EmptyString)
          then custom_pairs ++ [(name1, name2, weight)]
          else custom_pairs
      | None => custom_pairs
      end
  | _ => custom_pairs
  end.

Definition parse_custom_weights (text : string)
    : list (string * string * float) :=
  if decide (text = EmptyString) then []
  else foldl parse_line []
         (PyStr.split "010"%char (PyStr.strip_str text)).

End ParseCustomWeights.

(** *** [load_preferences_from_excel], lines 244-324 *)

(** A cell value other than [None], as far as the reader looks at it: its
    truth value [bool(v)] and its text [str(v)]. For a text cell these are
    "the text is not empty" and the text. *)
Record cell_value : Type := {
  truthy : bool;
  str : string;
}.

Definition text_cell (s : string) : cell_value :=
  {| truthy := bool_decide (s ≠ EmptyString); str := s |}.

(** The worksheet as the reader uses it: [ws.max_row], [ws.max_column] and
    [ws.cell(row=r, column=c).value], which may raise. *)
Record worksheet : Type := {
  max_row : Z;
  max_column : Z;
  cell : Z → Z → result (option cell_value);
}.

(** Lines 257-265: the pair a cell contributes, if any. *)
Definition pair_of_cell (cell_value : option cell_value)
    : option (gset string) :=
  match cell_value with
  | Some v =>
      if truthy v && bool_decide (PyStr.strip_str (str v) ≠ EmptyString) then
        match PyStr.split ","%char (PyStr.strip_str (str v)) with
        | [part0; part1] =>
            let a := PyStr.strip_str part0 in
            let b := PyStr.strip_str part1 in
            if bool_decide (a ≠ EmptyString) && bool_decide (b ≠ EmptyString)
               && bool_decide (a ≠ b)
            then Some {[a; b]} else None
        | _ => None
        end
      else None
  | None => None
  end.

(** [pairs_by_rank[rank].add(pair)] on a [defaultdict(set)]. *)
Definition add_pair (rank : Z) (pair : gset string)
    (pairs_by_rank : gmap Z (gset (gset string)))
    : gmap Z (gset (gset string)) :=
  <[rank := default ∅ (pairs_by_rank !! rank) ∪ {[pair]}]> pairs_by_rank.

(** The row loop of one column, lines 256-265 (and 291-300). *)
Definition read_column (ws : worksheet) (start_row col rank : Z)
    (pairs_by_rank : gmap Z (gset (gset string)))
    : result (gmap Z (gset (gset string))) :=
  for_each (seqZ (start_row + 1) (max_row ws + 1 - (start_row + 1)))
    (fun row pairs_by_rank =>
       let! cell_value := cell ws row (col + 1) in
       match pair_of_cell cell_value with
       | Some found => Ok (add_pair rank found pairs_by_rank)
       | None => Ok pairs_by_rank
       end) pairs_by_rank.

(** *** [auto_detect_preference_ranges], lines 122-207 *)

(** [cell_value and str(cell_value).strip()]. *)
Definition has_text (cell_value : option cell_value) : bool :=
  match cell_value with
  | Some v => truthy v && bool_decide (PyStr.strip_str (str v) ≠ EmptyString)
  | None => false
  end.

(** The row loops of lines 141-145 and 178-182: the first row of [rows]
    whose cell in column [col] holds text; the loop breaks there, so no
    later cell is read. *)
Fixpoint first_text_row (ws : worksheet) (col : Z) (rows : list Z)
    : result (option Z) :=
  match rows with
  | [] => Ok None
  | row :: rows' =>
      let! cell_value := cell ws row col in
      if has_text cell_value then Ok (Some row)
      else first_text_row ws col rows'
  end.

(** Lines 138-148. *)
Definition data_columns (ws : worksheet) : result (list Z) :=
  for_each (seqZ 1 (max_column ws)) (fun col data_columns =>
    let! found := first_text_row ws col (seqZ 1 (max_row ws)) in
    Ok (if found then data_columns ++ [col] else data_columns)) [].

(** Lines 157-169: the runs of consecutive columns. *)
Definition group_columns (data_columns : list Z) : result (list (list Z)) :=
  let! first := py_index data_columns 0 in
  let! st :=
    for_each (seqZ 1 (Z.of_nat (length data_columns) - 1)) (fun i st =>
      let '(groups, current_group) := st in
      let! col := py_index data_columns i in
      let! previous := py_index data_columns (i - 1) in
      if bool_decide (col - previous = 1)
      then Ok (groups, current_group ++ [col])
      else Ok (groups ++ [current_group], [col])) ([], [first]) in
  Ok (st.1 ++ [st.2]).

(** Lines 177-185; [range(max_row, 0, -1)] is the rows from the last one
    up. *)
Definition find_max_row_in_cols (ws : worksheet) (cols : list Z)
    : result Z :=
  for_each cols (fun col max_data_row =>
    let! found := first_text_row ws col (reverse (seqZ 1 (max_row ws))) in
    Ok (match found with
        | Some row => Z.max max_data_row row
        | None => max_data_row
        end)) 1.

(** [min(l)] and [max(l)]. *)
Definition py_min (l : list Z) : result Z :=
  match l with
  | [] => Raise (ValueError "min() arg is an empty sequence")
  | x :: l' => Ok (foldl Z.min x l')
  end.
Definition py_max (l : list Z) : result Z :=
  match l with
  | [] => Raise (ValueError "max() arg is an empty sequence")
  | x :: l' => Ok (foldl Z.max x l')
  end.

(** [chr(n)]: the character of code [n] in UTF-8, [ValueError] outside
    the code space. *)
Definition chr (n : Z) : result string :=
  let byte (k : Z) : ascii := ascii_of_N (Z.to_N k) in
  if bool_decide (0 ≤ n < 128) then Ok (string_of_list_ascii [byte n])
  else if bool_decide (128 ≤ n < 2048) then
    Ok (string_of_list_ascii [byte (192 + n / 64); byte (128 + n mod 64)])
  else if bool_decide (2048 ≤ n < 65536) then
    Ok (string_of_list_ascii
          [byte (224 + n / 4096); byte (128 + n / 64 mod 64);
           byte (128 + n mod 64)])
  else if bool_decide (65536 ≤ n < 1114112) then
    Ok (string_of_list_ascii
          [byte (240 + n / 262144); byte (128 + n / 4096 mod 64);
           byte (128 + n / 64 mod 64); byte (128 + n mod 64)])
  else Raise (ValueError "chr() arg not in range(0x110000)").

(** The f-strings of lines 194 and 200. *)
Definition range_text (start_col end_col max_row : Z) : result string :=
  let! start_letter := chr (64 + start_col) in
  let! end_letter := chr (64 + end_col) in
  let! rows := PyStr.str_of_int U max_row in
  Ok (start_letter +:+ "1:" +:+ end_letter +:+ rows).

(** Lines 190-194 and 196-200: the range of one group of columns, [None]
    for no columns. *)
Definition detect_range (ws : worksheet) (cols : list Z)
    : result (option string) :=
  match cols with
  | [] => Ok None
  | _ =>
      let! max_data_row := find_max_row_in_cols ws cols in
      let! start_col := py_min cols in
      let! end_col := py_max cols in
      let! text := range_text start_col end_col max_data_row in
      Ok (Some text)
  end.

(** [auto_detect_preference_ranges], lines 122-207: any exception gives
    [(None, None)]. *)
Definition auto_detect_preference_ranges (ws : worksheet)
    : option string * option string :=
  match
    (if bool_decide (max_row ws = 1) && bool_decide (max_column ws = 1)
     then Ok (None, None)
     else
       let! data_columns := data_columns ws in
       if bool_decide (length data_columns < 2)%nat then Ok (None, None)
       else
         let! groups := group_columns data_columns in
         let willing_cols := default [] (groups !! 0%nat) in
         let unwilling_cols := default [] (groups !! 1%nat) in
         let! willing_range := detect_range ws willing_cols in
         let! unwilling_range := detect_range ws unwilling_cols in
         Ok (willing_range, unwilling_range))
  with
  | Ok ranges => ranges
  | Raise _ => (None, None)
  end.

(** Lines 236-242: with [auto_detect] a detected range replaces the given
    one. *)
Definition range_specs (ws : worksheet) (auto_detect : bool)
    (willing_range_spec unwilling_range_spec : string) : string * string :=
  if auto_detect then
    let '(detected_willing, detected_unwilling) :=
      auto_detect_preference_ranges ws in
    (match detected_willing with
     | Some s => if decide (s = EmptyString) then willing_range_spec else s
     | None => willing_range_spec
     end,
     match detected_unwilling with
     | Some s => if decide (s = EmptyString) then unwilling_range_spec else s
     | None => unwilling_range_spec
     end)
  else (willing_range_spec, unwilling_range_spec).

Section LoadPreferences.

(** [openpyxl.utils.get_column_letter], which may raise. *)
Variable get_column_letter : Z → result string.

(** One block, lines 245-279 with [label] ["喜欢等级"] and lines 281-315
    with [label] ["不喜欢等级"]: the pairs by rank and the headers. The
    end row of the range is not used. The third case is a [TypeError] in
    Python ([None] in arithmetic); no exception escapes the caller. *)
Definition read_block (ws : worksheet) (label : string) (spec : cell_range)
    : result (gmap Z (gset (gset string)) * list (string * string)) :=
  match spec with
  | (None, _, _, _) => Ok (∅, [])
  | (Some start_col, Some start_row, Some end_col, _) =>
      let total_cols := end_col - start_col + 1 in
      let max_levels := total_cols in
      let! st :=
        for_each (range max_levels) (fun level st =>
          let '(pairs_by_rank, headers, rank) := st in
          let col := start_col + level in
          if bool_decide (col ≤ end_col) then
            let! pairs_by_rank :=
              read_column ws start_row col rank pairs_by_rank in
            let! col_letter := get_column_letter (col + 1) in
            let header := label +:+ pretty rank +:+ ":" +:+ col_letter
                          +:+ "列" in
            Ok (pairs_by_rank, headers ++ [(header, EmptyString)], rank + 1)
          else Ok st) (∅, [], 1) in
      Ok (st.1.1, st.1.2)
  | _ => Raise (ValueError "unsupported operand type(s)")
  end.

(** Lines 244-324 on the worksheet [ws] that lines 230-232 open, with the
    two range specifications as they stand after lines 234-242 (the given
    ones, or the detected ones). Any exception gives the empty result. *)
Definition load_preferences_from_excel (ws : worksheet)
    (willing_range_spec unwilling_range_spec : string)
    : gmap Z (gset (gset string)) * gmap Z (gset (gset string))
      * list (string * string) * list (string * string) :=
  match
    (let! willing :=
       read_block ws "喜欢等级" (parse_cell_range willing_range_spec) in
     let! unwilling :=
       read_block ws "不喜欢等级" (parse_cell_range unwilling_range_spec) in
     Ok (willing, unwilling))
  with
  | Ok (willing, unwilling) =>
      (willing.1, unwilling.1, willing.2, unwilling.2)
  | Raise _ => (∅, ∅, [], [])
  end.

End LoadPreferences.

End Text.

End DataProcessor.

(** ** utils/exporter.py *)

Module Exporter.

(** [seat_positions = {idx: (c, r) for idx, (c, r) in enumerate(seats)}],
    lines 177 and 355. *)
Definition seat_positions (seats : list seat) : gmap Z seat :=
  map_seqZ 0 seats.

(** The nested function [are_seats_adjacent], lines 179-199 of
    [export_assignment_to_image]; lines 357-377 of
    [_create_split_visualization] repeat it word for word. *)
Definition are_seats_adjacent (assignment : gmap string Z)
    (seats : list seat) (person1 person2 : string) : bool :=
  match assignment !! person1, assignment !! person2 with
  | Some seat1_idx, Some seat2_idx =>
      match seat_positions seats !! seat1_idx,
            seat_positions seats !! seat2_idx with
      | Some (c1, r1), Some (c2, r2) =>
          let dc := Z.abs (c1 - c2) in
          let dr := Z.abs (r1 - r2) in
          (bool_decide (dc ≤ 1) && bool_decide (dr ≤ 1))
          && bool_decide (dc + dr > 0)
      | _, _ => false
      end
  | _, _ => false
  end.

End Exporter.

(** ** utils/optimizer.py *)

Module Optimizer.

(** The constraint model handed to CP-SAT. A variable is its index in
    creation order. *)
Inductive cp_status : Type :=
  UNKNOWN | MODEL_INVALID | FEASIBLE | INFEASIBLE | OPTIMAL.

Global Instance cp_status_eq_dec : EqDecision cp_status.
Proof. solve_decision. Defined.

Definition var : Type := nat.

Inductive constraint : Type :=
  | SumEq (vs : list var) (rhs : Z)        (* sum(vs) == rhs *)
  | SumLe (vs : list var) (rhs : Z)        (* sum(vs) <= rhs *)
  | MulEq (target : var) (factors : list var).
                                           (* target == product(factors) *)

Record CpModel : Type := {
  variables : list string;
  constraints : list constraint;
  objective : option (list (float * var));
}.

Definition empty_model : CpModel :=
  {| variables := []; constraints := []; objective := None |}.

(** What one [solver.Solve(model)] call leaves behind: the status, the
    value of every variable and the objective value. *)
Record response : Type := {
  status : cp_status;
  value : var → Z;
  objective_value : float;
}.

(** The meaning of a constraint under a valuation. *)
Definition sum_values (v : var → Z) (vs : list var) : Z :=
  foldr (fun x acc => v x + acc) 0 vs.
Definition product_values (v : var → Z) (vs : list var) : Z :=
  foldr (fun x acc => v x * acc) 1 vs.
Definition holds (v : var → Z) (c : constraint) : bool :=
  match c with
  | SumEq vs rhs => bool_decide (sum_values v vs = rhs)
  | SumLe vs rhs => bool_decide (sum_values v vs ≤ rhs)
  | MulEq target factors => bool_decide (v target = product_values v factors)
  end.
Definition satisfies (v : var → Z) (model : CpModel) : bool :=
  forallb (holds v) (constraints model).

(** The observable effects of a run, in order. *)
Inductive event : Type :=
  | Progress (fraction : float) (message : string)
  | NewBoolVar (name : string)
  | AddConstraint (c : constraint)
  | Maximize (terms : list (float * var))
  | Solve (model : CpModel).

(** Computations that log events and may raise. *)
Definition io (A : Type) : Type := (list event * result A)%type.

Definition io_ret {A : Type} (a : A) : io A := ([], Ok a).
Definition io_bind {A B : Type} (m : io A) (k : A → io B) : io B :=
  match m with
  | (t, Ok a) => let '(t', r) := k a in (t ++ t', r)
  | (t, Raise e) => (t, Raise e)
  end.
Definition io_lift {A : Type} (r : result A) : io A := ([], r).

Notation "'do!' x ':=' m 'in' k" := (io_bind m (fun x => k))
  (at level 10, x name, m at level 100, k at level 200, only parsing).
Notation "'do!' ' p ':=' m 'in' k" := (io_bind m (fun p => k))
  (at level 10, p strict pattern, m at level 100, k at level 200,
   only parsing).

Fixpoint for_io {A S : Type} (xs : list A) (body : A → S → io S) (s : S)
    : io S :=
  match xs with
  | [] => io_ret s
  | x :: xs' => do! s' := body x s in for_io xs' body s'
  end.

Record SeatAssignmentResult : Type := {
  assignment : gmap string Z;
  result_objective : float;
  result_status : cp_status;
  satisfaction_rate : float;
  n_satisfied : Z;
  n_total_people_with_pref : Z;
  n_satisfied_pairs : Z;
}.

(** [SeatAssignmentResult.__init__], lines 16-23. *)
Definition new_result (assignment : gmap string Z) (objective : float)
    (status : cp_status) : SeatAssignmentResult :=
  {| assignment := assignment; result_objective := objective;
     result_status := status; satisfaction_rate := 0%float;
     n_satisfied := 0; n_total_people_with_pref := 0;
     n_satisfied_pairs := 0 |}.

(** [abs(w) > 1e-9]. *)
Definition significant (w : float) : bool := ltb 1e-9%float (abs w).

(** Line 51: the list comprehension over [pair_weights.items()]. The
    condition is tested first; [list(p)[0]] and [list(p)[1]] are evaluated
    only for the entries that pass it. *)
Definition weighted_pairs (pair_weights : list (gset string * float))
    : result (list (string * string * float)) :=
  for_each pair_weights (fun '(p, w) acc =>
    if significant w then
      let! a := py_index (elements p) 0 in
      let! b := py_index (elements p) 1 in
      Ok (acc ++ [(a, b, w)])
    else Ok acc) [].

(** Lines 71-79. *)
Definition weighted_idx_pairs (name_to_idx : gmap string Z)
    (weighted_pairs : list (string * string * float))
    : list (Z * Z * float) :=
  foldl (fun acc '(a, b, w) =>
           match name_to_idx !! a, name_to_idx !! b with
           | Some ia, Some ib =>
               if bool_decide (ia = ib) then acc
               else if bool_decide (ia > ib) then acc ++ [(ib, ia, w)]
               else acc ++ [(ia, ib, w)]
           | _, _ => acc
           end) [] weighted_pairs.

Section Solve.

(** The CP-SAT solver: what the [k]-th [Solve] call answers on [model]. *)
Variable solver : Z → CpModel → response.

(** Whether a progress callback was passed. *)
Variable progress_callback : bool.

Definition progress (fraction : float) (message : string) : io unit :=
  if progress_callback then ([Progress fraction message], Ok tt)
  else io_ret tt.

Definition new_bool_var (name : string) (model : CpModel)
    : io (var * CpModel) :=
  ([NewBoolVar name],
   Ok (length (variables model),
       {| variables := variables model ++ [name];
          constraints := constraints model;
          objective := objective model |})).

Definition add (c : constraint) (model : CpModel) : io CpModel :=
  ([AddConstraint c],
   Ok {| variables := variables model;
         constraints := constraints model ++ [c];
         objective := objective model |}).

Definition maximize (terms : list (float * var)) (model : CpModel)
    : io CpModel :=
  ([Maximize terms],
   Ok {| variables := variables model;
         constraints := constraints model;
         objective := Some terms |}).

Definition solve (k : Z) (model : CpModel) : io response :=
  ([Solve model], Ok (solver k model)).

(** Lines 100-103: one boolean per (person, seat). *)
Definition create_variables (P S : Z) (model : CpModel)
    : io (CpModel * gmap (Z * Z) var) :=
  for_io (range P) (fun i st =>
    for_io (range S) (fun s '(model, x) =>
      do! '(v, model) :=
        new_bool_var ("x_" +:+ pretty i +:+ "_" +:+ pretty s) model in
      io_ret (model, <[(i, s) := v]> x)) st) (model, ∅).

(** [[x[i, s] for s in ss]] and [[x[i, s] for i in is]]. *)
Definition lookup_all (x : gmap (Z * Z) var) (keys : list (Z * Z))
    : result (list var) :=
  for_each keys (fun k acc => let! v := dict_get x k in Ok (acc ++ [v])) [].

(** Lines 108-112: each person on exactly one seat, each seat for at most
    one person. *)
Definition add_assignment_constraints (P S : Z) (x : gmap (Z * Z) var)
    (model : CpModel) : io CpModel :=
  do! model :=
    for_io (range P) (fun i model =>
      do! vs := io_lift (lookup_all x ((fun s => (i, s)) <$> range S)) in
      add (SumEq vs 1) model) model in
  for_io (range S) (fun s model =>
    do! vs := io_lift (lookup_all x ((fun i => (i, s)) <$> range P)) in
    add (SumLe vs 1) model) model.

(** Lines 117-131: one product variable per weighted pair and edge. *)
Definition build_objective_terms (x : gmap (Z * Z) var)
    (seat_to_idx : gmap seat Z) (weighted_idx_pairs : list (Z * Z * float))
    (oriented_edges : list edge) (model : CpModel)
    : io (CpModel * list var * list float) :=
  for_io weighted_idx_pairs (fun '(i, j, w) st =>
    for_io oriented_edges (fun '(seat1, seat2) '(model, m_vars, m_coeffs) =>
      match seat_to_idx !! seat1, seat_to_idx !! seat2 with
      | Some s, Some t =>
          do! '(m, model) :=
            new_bool_var ("m_" +:+ pretty i +:+ "_" +:+ pretty j +:+ "_"
                          +:+ pretty s +:+ "_" +:+ pretty t) model in
          do! xis := io_lift (dict_get x (i, s)) in
          do! xjt := io_lift (dict_get x (j, t)) in
          do! model := add (MulEq m [xis; xjt]) model in
          io_ret (model, m_vars ++ [m], m_coeffs ++ [w])
      | _, _ => io_ret (model, m_vars, m_coeffs)
      end) st) (model, [], []).

(** Lines 165-169: the first seat whose variable has value 1, if any. *)
Fixpoint first_seat (value : var → Z) (x : gmap (Z * Z) var) (i : Z)
    (seats : list Z) : result (option Z) :=
  match seats with
  | [] => Ok None
  | s :: seats' =>
      let! v := dict_get x (i, s) in
      if bool_decide (value v = 1) then Ok (Some s)
      else first_seat value x i seats'
  end.

(** Lines 164-169. *)
Definition extract_assignment (value : var → Z) (x : gmap (Z * Z) var)
    (P S : Z) : result (gmap Z Z) :=
  for_each (range P) (fun i assign_idx =>
    let! found := first_seat value x i (range S) in
    Ok (match found with
        | Some s => <[i := s]> assign_idx
        | None => assign_idx
        end)) ∅.

(** Line 177: [{people[i]: assign_idx[i] for i in range(P)}]. *)
Definition name_assignment (people : list string) (assign_idx : gmap Z Z)
    (P : Z) : result (gmap string Z) :=
  for_each (range P) (fun i assignment =>
    let! name := py_index people i in
    let! s := dict_get assign_idx i in
    Ok (<[name := s]> assignment)) ∅.

(** Line 182: the variables [x[i, assign_idx[i]]] of the no-good cut. *)
Definition cut_variables (x : gmap (Z * Z) var) (assign_idx : gmap Z Z)
    (P : Z) : result (list var) :=
  for_each (range P) (fun i acc =>
    let! s := dict_get assign_idx i in
    let! v := dict_get x (i, s) in
    Ok (acc ++ [v])) [].

Record loop_state : Type := {
  model : CpModel;
  results : list SeatAssignmentResult;
  used_solutions : list (gmap Z Z);
}.

Inductive loop_exit : Type :=
  | Next (st : loop_state)
  | Break (st : loop_state).

(** One iteration of the top-N loop, lines 143-193. *)
Definition iteration (people : list string) (x : gmap (Z * Z) var)
    (m_vars : list var) (P S top_n k : Z) (st : loop_state) : io loop_exit :=
  do! _ := progress (0.5 + 0.4 * float_of_int k / float_of_int top_n)%float
             ("求解第 " +:+ pretty (k + 1) +:+ "/" +:+ pretty top_n
              +:+ " 个方案...") in
  do! answer := solve k (model st) in
  if negb (bool_decide (status answer = OPTIMAL)
           || bool_decide (status answer = FEASIBLE))
  then io_ret (Break st)
  else
    do! assign_idx := io_lift (extract_assignment (value answer) x P S) in
    let obj_value :=
      match m_vars with
      | [] => 0%float
      | _ :: _ => objective_value answer
      end in
    do! assignment := io_lift (name_assignment people assign_idx P) in
    do! cut := io_lift (cut_variables x assign_idx P) in
    do! model := add (SumLe cut (P - 1)) (model st) in
    io_ret (Next {| model := model;
                    results := results st
                               ++ [new_result assignment obj_value
                                     (status answer)];
                    used_solutions := used_solutions st ++ [assign_idx] |}).

(** The [for k in range(top_n)] loop with its [break]. *)
Fixpoint solve_loop (people : list string) (x : gmap (Z * Z) var)
    (m_vars : list var) (P S top_n : Z) (ks : list Z) (st : loop_state)
    : io loop_state :=
  match ks with
  | [] => io_ret st
  | k :: ks' =>
      do! step := iteration people x m_vars P S top_n k st in
      match step with
      | Next st' => solve_loop people x m_vars P S top_n ks' st'
      | Break st' => io_ret st'
      end
  end.

(** Lines 92-198: everything after the seat-count check. [debug_mode] only
    prints and is left out. *)
Definition build_and_solve (people : list string) (seats : list seat)
    (weighted_idx_pairs : list (Z * Z * float)) (oriented_edges : list edge)
    (top_n P S : Z) : io loop_state :=
  do! _ := progress 0.1%float "创建约束模型..." in
  let model := empty_model in
  do! _ := progress 0.2%float "创建决策变量..." in
  do! '(model, x) := create_variables P S model in
  do! _ := progress 0.3%float "添加座位分配约束..." in
  do! model := add_assignment_constraints P S x model in
  do! _ := progress 0.4%float "构建目标函数..." in
  let seat_to_idx := index_dict seats in
  do! '(model, m_vars, m_coeffs) :=
    build_objective_terms x seat_to_idx weighted_idx_pairs oriented_edges
      model in
  do! model :=
    match m_vars with
    | [] => io_ret model
    | _ :: _ => maximize (zip m_coeffs m_vars) model
    end in
  do! st :=
    solve_loop people x m_vars P S top_n (range top_n)
      {| model := model; results := []; used_solutions := [] |} in
  do! _ := progress 1.0%float "计算完成!" in
  io_ret st.

(** [solve_top_n_assignments], lines 26-198. *)
Definition solve_top_n_assignments (people : list string)
    (seats : list seat) (pair_weights : list (gset string * float))
    (oriented_edges : list edge) (top_n : Z)
    : io (list SeatAssignmentResult) :=
  do! weighted_pairs := io_lift (weighted_pairs pair_weights) in
  let name_to_idx := index_dict people in
  let P := Z.of_nat (length people) in
  let S := Z.of_nat (length seats) in
  do! _ := progress 0.0%float "初始化求解器..." in
  if bool_decide (P > S) then
    io_lift (Raise (ValueError ("座位数(" +:+ pretty S
                                +:+ ")不足以容纳全部人员(" +:+ pretty P
                                +:+ ")")))
  else
    let weighted_idx_pairs := weighted_idx_pairs name_to_idx weighted_pairs in
    do! st :=
      build_and_solve people seats weighted_idx_pairs oriented_edges top_n
        P S in
    io_ret (results st).

End Solve.

(** Lines 228-235: the set of unordered index pairs of the edges whose two
    ends are in the seat list; other edges are skipped. *)
Definition adjacent_seats (seats : list seat) (oriented_edges : list edge)
    : gset (gset Z) :=
  foldl (fun adjacent '(seat1, seat2) =>
           match list_index seat1 seats, list_index seat2 seats with
           | Some idx1, Some idx2 =>
               adjacent ∪ {[ ({[Z.of_nat idx1; Z.of_nat idx2]} : gset Z) ]}
           | _, _ => adjacent
           end) ∅ oriented_edges.

(** [person1, person2 = list(pair)]: [ValueError] unless the set has exactly
    two members. *)
Definition unpack_pair (pair : gset string) : result (string * string) :=
  match elements pair with
  | [person1; person2] => Ok (person1, person2)
  | _ => Raise (ValueError "not enough or too many values to unpack")
  end.

(** Whether both people are seated and their seats form an adjacent pair,
    lines 243-250 and 265-272. *)
Definition seated_adjacent (person_to_sidx : gmap string Z)
    (adjacent : gset (gset Z)) (person1 person2 : string) : bool :=
  match person_to_sidx !! person1, person_to_sidx !! person2 with
  | Some seat_idx1, Some seat_idx2 =>
      bool_decide (({[seat_idx1; seat_idx2]} : gset Z) ∈ adjacent)
  | _, _ => false
  end.

(** Lines 238-253. *)
Definition satisfied_loop (person_to_sidx : gmap string Z)
    (adjacent : gset (gset Z)) (positive_pairs : gset (gset string))
    : result (gset string * Z) :=
  for_each (elements positive_pairs)
    (fun pair '(satisfied_people, satisfied_pairs) =>
       let! persons := unpack_pair pair in
       if seated_adjacent person_to_sidx adjacent persons.1 persons.2 then
         Ok (satisfied_people ∪ {[persons.1]} ∪ {[persons.2]},
             satisfied_pairs + 1)
       else Ok (satisfied_people, satisfied_pairs))
    (∅, 0).

(** Lines 261-273. *)
Definition first_rank_loop (person_to_sidx : gmap string Z)
    (adjacent : gset (gset Z)) (first_rank_pairs : gset (gset string))
    : result Z :=
  for_each (elements first_rank_pairs)
    (fun pair satisfied_first_pairs =>
       let! persons := unpack_pair pair in
       if seated_adjacent person_to_sidx adjacent persons.1 persons.2 then
         Ok (satisfied_first_pairs + 1)
       else Ok satisfied_first_pairs)
    0.

(** [compute_satisfaction_metrics], lines 201-278. The dictionary
    [idx_to_seat] and the parameter [people] are never read. *)
Definition compute_satisfaction_metrics (assignment : gmap string Z)
    (people : list string) (seats : list seat)
    (positive_pairs : gset (gset string)) (oriented_edges : list edge)
    (willing_pairs_by_rank : option (gmap Z (gset (gset string))))
    : result (Z * Z * Z * float) :=
  let person_to_sidx := assignment in
  let adjacent := adjacent_seats seats oriented_edges in
  let! satisfied := satisfied_loop person_to_sidx adjacent positive_pairs in
  let total_people_with_pref :=
    if decide (positive_pairs = ∅) then 0
    else Z.of_nat (size (⋃ elements positive_pairs)) in
  let! first_preference_rate :=
    match willing_pairs_by_rank with
    | Some by_rank =>
        match by_rank !! 1 with
        | Some first_rank_pairs =>
            let! satisfied_first_pairs :=
              first_rank_loop person_to_sidx adjacent first_rank_pairs in
            let n := Z.of_nat (size first_rank_pairs) in
            if bool_decide (n > 0) then
              Ok (float_of_int satisfied_first_pairs / float_of_int n
                  * 100)%float
            else Ok 0%float
        | None => Ok 0%float
        end
    | None => Ok 0%float
    end in
  Ok (Z.of_nat (size satisfied.1), total_people_with_pref, satisfied.2,
      first_preference_rate).

(** [validate_assignment], lines 281-323. The dictionary [assignment] is the
    list of its items in iteration order. The text Python prints for a set
    of names and for a list of (name, index) tuples inside the messages
    depends on the interpreter (hash order, quoting), so the two printers
    are parameters. *)
Section ValidateAssignment.

Variable repr_names : gset string → string.
Variable repr_items : list (string * Z) → string.

(** Lines 317-323: the loop returns at the first seat index it meets a
    second time. *)
Fixpoint check_seat_counts (items : list (string * Z))
    (seat_counts : gmap Z string) : bool * string :=
  match items with
  | [] => (true, "")
  | (person, seat_idx) :: items' =>
      match seat_counts !! seat_idx with
      | Some other =>
          (false, "座位" +:+ pretty seat_idx +:+ "被重复分配给" +:+ other
                  +:+ "和" +:+ person)
      | None => check_seat_counts items' (<[seat_idx := person]> seat_counts)
      end
  end.

Definition validate_assignment (assignment : list (string * Z))
    (people : list string) (seats : list seat) : bool * string :=
  let keys : gset string := list_to_set (assignment.*1) in
  let people_set : gset string := list_to_set people in
  if bool_decide (keys ≠ people_set) then
    let missing := people_set ∖ keys in
    let extra := keys ∖ people_set in
    let msg := "" in
    let msg :=
      if bool_decide (missing ≠ ∅)
      then msg +:+ "缺少人员: " +:+ repr_names missing +:+ ". " else msg in
    let msg :=
      if bool_decide (extra ≠ ∅)
      then msg +:+ "多余人员: " +:+ repr_names extra +:+ ". " else msg in
    (false, msg)
  else
    let invalid_seats :=
      filter (fun item => ¬ (0 ≤ item.2 < Z.of_nat (length seats)))
             assignment in
    match invalid_seats with
    | _ :: _ => (false, "无效座位索引: " +:+ repr_items invalid_seats)
    | [] => check_seat_counts assignment ∅
    end.

End ValidateAssignment.

End Optimizer.


(** ** app.py: preferences typed by hand *)

Module App.

(** Lines 415-419: every typed triple becomes a preference entry; the
    weight decides between the two types and is dropped. *)
Definition manual_preferences (manual_prefs : list (string * string * float))
    (preferences : list (string * string * string))
    : list (string * string * string) :=
  foldl (fun preferences '(name1, name2, weight) =>
           let pref_type := if ltb 0 weight then "喜欢" else "不喜欢" in
           preferences ++ [(name1, pref_type, name2)])
        preferences manual_prefs.

(** Lines 621-634 (and 541-553): the entries grouped by level, the branch
    taken when the session holds no pairs read from a sheet. Every entry is
    a list of three strings, so the test [len(p) > 2] holds. [group_entry]
    is the body of the loop. *)
Definition group_entry (like_weights dislike_weights : list float)
    (current : gmap Z (gset (gset string)) * gmap Z (gset (gset string)))
    (p : string * string * string)
    : gmap Z (gset (gset string)) * gmap Z (gset (gset string)) :=
  let '(current_willing, current_unwilling) := current in
  let '(name1, pref_type, name2) := p in
  let pair : gset string := {[name1; name2]} in
  if decide (pref_type = "喜欢") then
    let level :=
      if bool_decide (length like_weights = 1%nat) then 0 else 1 in
    (DataProcessor.add_pair level pair current_willing, current_unwilling)
  else if decide (pref_type = "不喜欢") then
    let level :=
      if bool_decide (length dislike_weights = 1%nat) then 0 else 1 in
    (current_willing, DataProcessor.add_pair level pair current_unwilling)
  else (current_willing, current_unwilling).

Definition group_preferences (preferences : list (string * string * string))
    (like_weights dislike_weights : list float)
    : gmap Z (gset (gset string)) * gmap Z (gset (gset string)) :=
  foldl (group_entry like_weights dislike_weights) (∅, ∅) preferences.

End App.
(** ** Vocabulary of the statements *)

(** The number of rows of column [c]; 0 outside the list. *)
Definition rows_at (rows_per_col : list Z) (c : Z) : Z :=
  default 0 (rows_per_col !! Z.to_nat c).

(** [(c, r)] is a seat of the grid. *)
Definition is_seat (n_cols : Z) (rows_per_col : list Z) (p : seat) : Prop :=
  0 ≤ p.1 < n_cols ∧ 0 ≤ p.2 < rows_at rows_per_col p.1.

(** Column-major order on coordinates: by column, then by row. *)
Definition column_major (a b : seat) : Prop :=
  a.1 < b.1 ∨ (a.1 = b.1 ∧ a.2 < b.2).

(** The seats of one column, bottom row first. *)
Definition column_seats (rows_per_col : list Z) (c : Z) : list seat :=
  (fun r => (c, r)) <$> range (rows_at rows_per_col c).

(** An aisle is declared between two columns, in either order. *)
Definition aisle_between (aisles : list (Z * Z)) (c1 c2 : Z) : Prop :=
  (c1, c2) ∈ aisles ∨ (c2, c1) ∈ aisles.

(** The neighbours that seat [(c, r)] is linked to when the loop of
    [generate_adjacent_edges] visits it, in the order of the code: right,
    up, and with diagonals right-up and right-down. *)
Definition crosses (n_cols : Z) (rows_per_col : list Z)
    (aisles : list (Z * Z)) (c r' : Z) : bool :=
  bool_decide (c + 1 < n_cols)
  && bool_decide (0 ≤ r' < rows_at rows_per_col (c + 1))
  && negb (SeatLayout.has_aisle_between aisles c (c + 1)).

Definition neighbours (n_cols : Z) (rows_per_col : list Z)
    (include_diag : bool) (aisles : list (Z * Z)) (c r : Z) : list seat :=
  (if crosses n_cols rows_per_col aisles c r then [(c + 1, r)] else [])
  ++ (if bool_decide (r + 1 < rows_at rows_per_col c) then [(c, r + 1)]
      else [])
  ++ (if include_diag then
        (if crosses n_cols rows_per_col aisles c (r + 1)
         then [(c + 1, r + 1)] else [])
        ++ (if crosses n_cols rows_per_col aisles c (r - 1)
            then [(c + 1, r - 1)] else [])
      else []).

(** A cell reference the parser accepts: its letters name a column and its
    other characters are absent or an integer literal. *)
Definition cell_parses (U : PyStr.unicode) (cell : string) : Prop :=
  (∃ n, DataProcessor.column_index_from_string U
          (DataProcessor.split_cell U cell).1 = Ok n)
  ∧ ((DataProcessor.split_cell U cell).2 = EmptyString
     ∨ ∃ n, PyStr.int U (DataProcessor.split_cell U cell).2 = Ok n).

(** A range specification with exactly one colon and a parseable cell
    reference on each side of it. *)
Definition well_formed_range (U : PyStr.unicode) (range_spec : string)
    : Prop :=
  ∃ start end_,
    range_spec = start +:+ String ":"%char end_
    ∧ PyStr.contains ":"%char start = false
    ∧ PyStr.contains ":"%char end_ = false
    ∧ cell_parses U start ∧ cell_parses U end_.

(** The unordered pair a custom triple [(name1, name2, weight)] is about. *)
Definition custom_key (t : string * string * float) : gset string :=
  {[t.1.1; t.1.2]}.

(** The pair is named by one of the custom triples. *)
Definition in_custom (custom_pairs : option (list (string * string * float)))
    (p : gset string) : Prop :=
  ∃ l t, custom_pairs = Some l ∧ t ∈ l ∧ custom_key t = p.

(** The pair is at a willing rank [r] with [r ≤ len(w_weights)]. *)
Definition at_willing_rank (w_weights : list float)
    (entry : Z * gset (gset string)) (p : gset string) : Prop :=
  entry.1 ≤ Z.of_nat (length w_weights) ∧ p ∈ entry.2.

(** The pair is at an unwilling rank [r] with [r < len(uw_weights)]. *)
Definition at_unwilling_rank (uw_weights : list float)
    (entry : Z * gset (gset string)) (p : gset string) : Prop :=
  entry.1 < Z.of_nat (length uw_weights) ∧ p ∈ entry.2.

(** The edges appended when the loop visits seat [(c, r)]. *)
Definition seat_edges (n_cols : Z) (rows_per_col : list Z)
    (include_diag : bool) (aisles : list (Z * Z)) (c r : Z) : list edge :=
  concat (SeatLayout.both_ways (c, r)
          <$> neighbours n_cols rows_per_col include_diag aisles c r).

(** All edges, in the order the two loops append them. *)
Definition grid_edges (n_cols : Z) (rows_per_col : list Z)
    (include_diag : bool) (aisles : list (Z * Z)) : list edge :=
  concat ((fun c =>
             concat (seat_edges n_cols rows_per_col include_diag aisles c
                     <$> range (rows_at rows_per_col c)))
          <$> range n_cols).

(** The common shape of the willing and the unwilling loop body. *)
Definition assign_rank (guard : Z → bool) (weight_of : Z → result float)
    (entry : Z * gset (gset string)) (pair_weights : gmap (gset string) float)
    : result (gmap (gset string) float) :=
  if guard entry.1 then
    for_each (elements entry.2) (fun pair pair_weights =>
      let! w := weight_of entry.1 in
      Ok (<[pair := w]> pair_weights)) pair_weights
  else Ok pair_weights.

(** The rank of [entry] passes the guard and holds the pair. *)
Definition covers (guard : Z → bool) (entry : Z * gset (gset string))
    (p : gset string) : Prop :=
  guard entry.1 = true ∧ p ∈ entry.2.

(** Seat indices [i] and [j] form an adjacency pair: some edge has both ends
    in the seat list, at these two indices in either order. *)
Definition adjacent_indices (seats : list seat) (oriented_edges : list edge)
    (i j : Z) : Prop :=
  ∃ a b ia ib,
    (a, b) ∈ oriented_edges
    ∧ list_index a seats = Some ia ∧ list_index b seats = Some ib
    ∧ ((i = Z.of_nat ia ∧ j = Z.of_nat ib)
       ∨ (i = Z.of_nat ib ∧ j = Z.of_nat ia)).

(** Both members of the pair are in the assignment and sit on adjacent
    seats. *)
Definition pair_satisfied (assignment : gmap string Z) (seats : list seat)
    (oriented_edges : list edge) (p : gset string) : Prop :=
  ∃ a b idx1 idx2,
    p = {[a; b]}
    ∧ assignment !! a = Some idx1 ∧ assignment !! b = Some idx2
    ∧ adjacent_indices seats oriented_edges idx1 idx2.

(** The test the two loops of [compute_satisfaction_metrics] apply to a
    pair. *)
Definition satisfied_b (person_to_sidx : gmap string Z)
    (adjacent : gset (gset Z)) (p : gset string) : bool :=
  match Optimizer.unpack_pair p with
  | Ok persons =>
      Optimizer.seated_adjacent person_to_sidx adjacent persons.1 persons.2
  | Raise _ => false
  end.

(** The scenario of the end-to-end example: A and B on the two seats of
    column 0, C and D on those of column 1. *)
Definition example_assignment : gmap string Z :=
  {[ "A" := 0; "B" := 1; "C" := 2; "D" := 3 ]}.

(** Two index assignments put some person on different seats. *)
Definition differ (P : Z) (a1 a2 : gmap Z Z) : Prop :=
  ∃ i s1 s2, 0 ≤ i < P ∧ a1 !! i = Some s1 ∧ a2 !! i = Some s2 ∧ s1 ≠ s2.

(** The solver is sound: a solution reported as optimal or feasible
    satisfies every constraint of the model it was asked to solve. *)
Definition sound (solver : Z → Optimizer.CpModel → Optimizer.response)
    : Prop :=
  ∀ k model,
    Optimizer.status (solver k model) = Optimizer.OPTIMAL
    ∨ Optimizer.status (solver k model) = Optimizer.FEASIBLE →
    Optimizer.satisfies (Optimizer.value (solver k model)) model = true.

(** What the top-N loop maintains: every recorded solution has its result
    and its no-good cut in the model, and the recorded solutions differ
    pairwise. *)
Definition loop_invariant (people : list string)
    (x : gmap (Z * Z) Optimizer.var) (P : Z) (st : Optimizer.loop_state)
    : Prop :=
  (∀ k a, Optimizer.used_solutions st !! k = Some a →
     ∃ r vs,
       Optimizer.results st !! k = Some r
       ∧ Optimizer.name_assignment people a P = Ok (Optimizer.assignment r)
       ∧ Optimizer.cut_variables x a P = Ok vs
       ∧ Optimizer.SumLe vs (P - 1)
         ∈ Optimizer.constraints (Optimizer.model st))
  ∧ length (Optimizer.results st) = length (Optimizer.used_solutions st)
  ∧ (∀ k1 k2 a1 a2, k1 ≠ k2 →
       Optimizer.used_solutions st !! k1 = Some a1 →
       Optimizer.used_solutions st !! k2 = Some a2 → differ P a1 a2).

(** A solver for the examples: it proposes a fixed valuation for its [k]-th
    call and reports it as feasible only after checking it against every
    constraint of the model. *)
Definition checking_solver (candidate : Z → Optimizer.var → Z) (k : Z)
    (model : Optimizer.CpModel) : Optimizer.response :=
  if Optimizer.satisfies (candidate k) model then
    {| Optimizer.status := Optimizer.FEASIBLE;
       Optimizer.value := candidate k;
       Optimizer.objective_value := 0%float |}
  else
    {| Optimizer.status := Optimizer.INFEASIBLE;
       Optimizer.value := candidate k;
       Optimizer.objective_value := 0%float |}.

(** Two people on two seats: first the identity, then the swap. *)
Definition two_seat_candidates (k : Z) (v : Optimizer.var) : Z :=
  if bool_decide (k = 1) then
    (if bool_decide (v = 1%nat) || bool_decide (v = 2%nat) then 1 else 0)
  else
    (if bool_decide (v = 0%nat) || bool_decide (v = 3%nat) then 1 else 0).

(** Three people on four seats, where the indicator variable of person [i]
    and seat [s] has number [4 * i + s]: first the people 0, 1, 2 on the
    seats 0, 1, 2, then person 0 moved to seat 3. *)
Definition repeated_name_candidates (k : Z) (v : Optimizer.var) : Z :=
  if bool_decide (k = 0) then
    (if bool_decide (v = 0%nat) || bool_decide (v = 5%nat)
        || bool_decide (v = 10%nat) then 1 else 0)
  else
    (if bool_decide (v = 3%nat) || bool_decide (v = 5%nat)
        || bool_decide (v = 10%nat) then 1 else 0).

(** An event that only reports progress: no variable, constraint, objective
    or solver call. *)
Definition is_progress (ev : Optimizer.event) : Prop :=
  match ev with
  | Optimizer.Progress _ _ => True
  | _ => False
  end.

(** The computation does not end in a [ValueError]. *)
Definition no_value_error {A : Type} (r : result A) : Prop :=
  ∀ msg, r ≠ Raise (ValueError msg).

(** Every key that carries a non-negligible weight names two people. *)
Definition keys_are_pairs (pair_weights : list (gset string * float))
    : Prop :=
  ∀ p w, (p, w) ∈ pair_weights → Optimizer.significant w = true →
         (2 ≤ size p)%nat.

(** A pair-weight entry that the two filters drop: its weight is negligible,
    or its two distinct names are not both in the people list. *)
Definition ignorable (people : list string) (entry : gset string * float)
    : Prop :=
  Optimizer.significant entry.2 = false
  ∨ ∃ a b, a ≠ b ∧ entry.1 = {[a; b]} ∧ ¬ (a ∈ people ∧ b ∈ people).

(** Two coordinates are at Chebyshev distance 1: they differ, by at most one
    column and at most one row. *)
Definition chebyshev_one (a b : seat) : Prop :=
  Z.max (Z.abs (a.1 - b.1)) (Z.abs (a.2 - b.2)) = 1.

(** The neighbour relation of the grid in geometric terms: two seats of the
    grid at Chebyshev distance 1, with no aisle between their columns when
    they are in different columns, and diagonals only when enabled. *)
Definition geometric_neighbours (n_cols : Z) (rows_per_col : list Z)
    (include_diag : bool) (aisles : list (Z * Z)) (a b : seat) : Prop :=
  is_seat n_cols rows_per_col a ∧ is_seat n_cols rows_per_col b
  ∧ chebyshev_one a b
  ∧ (a.1 ≠ b.1 →
     ¬ aisle_between aisles (Z.min a.1 b.1) (Z.min a.1 b.1 + 1))
  ∧ (a.1 ≠ b.1 → a.2 ≠ b.2 → include_diag = true).

(** The number of seat [(c, r)] in column-major numbering: the seats of the
    columns before [c], then [r]. *)
Definition seat_number (rows_per_col : list Z) (c r : Z) : Z :=
  py_sum (take (Z.to_nat c) rows_per_col) + r.

(** The label [get_seat_info] gives to a coordinate. *)
Definition seat_label (p : seat) : string :=
  "C" +:+ pretty (p.1 + 1) +:+ "-R" +:+ pretty (p.2 + 1).

(** The computation returns, or it raises [IndexError]: no other exception
    leaves it. *)
Definition index_error_at_worst {A : Type} (r : result A) : Prop :=
  ∀ e, r = Raise e → e = IndexError.

(** An assignment, as the items of its dictionary, is valid for the people
    and the number of seats: its keys are exactly the people, every index is
    a seat index, and no index is used twice. *)
Definition valid_items (people : list string) (n_seats : Z)
    (items : list (string * Z)) : Prop :=
  (∀ p, p ∈ items.*1 ↔ p ∈ people)
  ∧ (∀ item, item ∈ items → 0 ≤ item.2 < n_seats)
  ∧ NoDup (items.*2).

(** The same for an assignment as a finite map. *)
Definition valid_assignment (people : list string) (n_seats : Z)
    (a : gmap string Z) : Prop :=
  (∀ p, is_Some (a !! p) ↔ p ∈ people)
  ∧ (∀ p s, a !! p = Some s → 0 ≤ s < n_seats)
  ∧ (∀ p q s, a !! p = Some s → a !! q = Some s → p = q).

(** Every variable of the model, each created by [NewBoolVar], has value 0
    or 1 in a solution reported as optimal or feasible. *)
Definition boolean_valued (solver : Z → Optimizer.CpModel → Optimizer.response)
    : Prop :=
  ∀ k model (v : Optimizer.var),
    Optimizer.status (solver k model) = Optimizer.OPTIMAL
    ∨ Optimizer.status (solver k model) = Optimizer.FEASIBLE →
    (v < length (Optimizer.variables model))%nat →
    Optimizer.value (solver k model) v = 0
    ∨ Optimizer.value (solver k model) v = 1.

(** The second model has the variables and the constraints of the first,
    and possibly more. *)
Definition extends (m m' : Optimizer.CpModel) : Prop :=
  (length (Optimizer.variables m) ≤ length (Optimizer.variables m'))%nat
  ∧ (∀ c, c ∈ Optimizer.constraints m → c ∈ Optimizer.constraints m').

(** While the variables are created the dictionary [x] gains keys only, and
    its values are variables of the model. *)
Definition grows (st st' : Optimizer.CpModel * gmap (Z * Z) Optimizer.var)
    : Prop :=
  ∀ k, is_Some (st.2 !! k) → is_Some (st'.2 !! k).
Definition bounded (st : Optimizer.CpModel * gmap (Z * Z) Optimizer.var)
    : Prop :=
  ∀ k v, st.2 !! k = Some v → (v < length (Optimizer.variables st.1))%nat.

(** What lines 100-112 establish: a variable for every person and seat, an
    exactly-one constraint over the seats of every person and an at-most-one
    constraint over the people of every seat. *)
Definition well_built (P S : Z) (x : gmap (Z * Z) Optimizer.var)
    (model : Optimizer.CpModel) : Prop :=
  (∀ i s, 0 ≤ i < P → 0 ≤ s < S →
     ∃ v, x !! (i, s) = Some v
          ∧ (v < length (Optimizer.variables model))%nat)
  ∧ (∀ i, 0 ≤ i < P →
       ∃ vs, Forall2 (fun s v => x !! (i, s) = Some v) (range S) vs
             ∧ Optimizer.SumEq vs 1 ∈ Optimizer.constraints model)
  ∧ (∀ s, 0 ≤ s < S →
       ∃ vs, Forall2 (fun i v => x !! (i, s) = Some v) (range P) vs
             ∧ Optimizer.SumLe vs 1 ∈ Optimizer.constraints model).

(** An index assignment gives every person a seat index, and no index
    twice. *)
Definition seats_everyone (P S : Z) (a : gmap Z Z) : Prop :=
  (∀ i, 0 ≤ i < P → ∃ s, a !! i = Some s)
  ∧ (∀ i s, a !! i = Some s → 0 ≤ i < P ∧ 0 ≤ s < S)
  ∧ (∀ i j s, a !! i = Some s → a !! j = Some s → i = j).

(** A returned plan is a valid assignment with a solved status. *)
Definition plan_ok (people : list string) (n_seats : Z)
    (r : Optimizer.SeatAssignmentResult) : Prop :=
  (Optimizer.result_status r = Optimizer.OPTIMAL
   ∨ Optimizer.result_status r = Optimizer.FEASIBLE)
  ∧ valid_assignment people n_seats (Optimizer.assignment r).


(** The string has no white space at either end: [s.strip() == s]. *)
Definition trimmed (s : string) : Prop :=
  PyStr.strip_str s = s.

(** The string is one of the header keywords, in any letter case. *)
Definition is_header (U : PyStr.unicode) (s : string) : Prop :=
  PyStr.lower_str U s ∈ DataProcessor.header_keywords.

(** A list of characters as [PyStr.chars] cuts them: every element is one
    byte followed by continuation bytes, and every element but the first
    starts with a byte that is no continuation byte. *)
Definition char_shaped (ch : list ascii) : Prop :=
  ∃ c t, ch = c :: t ∧ Forall (fun d => PyStr.is_cont d = true) t.
Definition starts_char (ch : list ascii) : Prop :=
  ∃ c t, ch = c :: t ∧ PyStr.is_cont c = false.
Definition chunked (l : list (list ascii)) : Prop :=
  Forall char_shaped l ∧ Forall starts_char (tail l).

(** A pair of two different names, both non-empty and without white space
    at their ends. *)
Definition two_names (p : gset string) : Prop :=
  ∃ a b, p = {[a; b]} ∧ a ≠ b ∧ a ≠ EmptyString ∧ b ≠ EmptyString
         ∧ trimmed a ∧ trimmed b.

(** The pairs a [defaultdict(set)] holds at a rank: the empty set when the
    rank has no entry. *)
Definition pairs_at (pairs_by_rank : gmap Z (gset (gset string)))
    (rank : Z) : gset (gset string) :=
  default ∅ (pairs_by_rank !! rank).

(** Every entry of the dictionary has a rank between 1 and [n_levels] and a
    non-empty set of pairs of two names. *)
Definition well_ranked (n_levels : Z)
    (pairs_by_rank : gmap Z (gset (gset string))) : Prop :=
  ∀ rank s, pairs_by_rank !! rank = Some s →
    1 ≤ rank ≤ n_levels ∧ s ≠ ∅ ∧ ∀ p, p ∈ s → two_names p.

(** What [d.items()] can enumerate: every entry of the dictionary once, in
    some order. *)
Definition items_of {V : Type} (d : gmap Z V) (entries : list (Z * V))
    : Prop :=
  entries ≡ₚ map_to_list d.

(** The cell at [row] and one-based [column] holds the pair [p]. *)
Definition cell_holds (ws : DataProcessor.worksheet) (row column : Z)
    (p : gset string) : Prop :=
  ∃ v, DataProcessor.cell ws row column = Ok v
       ∧ DataProcessor.pair_of_cell v = Some p.

(** Every cell with a row and a column of at least 1 can be read. *)
Definition readable (ws : DataProcessor.worksheet) : Prop :=
  ∀ row column, 1 ≤ row → 1 ≤ column →
    ∃ v, DataProcessor.cell ws row column = Ok v.

(** [get_column_letter] answers for the columns 1 to 18278 (A to ZZZ). *)
Definition letters_defined (get_column_letter : Z → result string) : Prop :=
  ∀ n, 1 ≤ n ≤ 18278 → ∃ l, get_column_letter n = Ok l.

(** The start row of a parsed range, when there is one, is not negative:
    the range names a first row of at least 1, or none. *)
Definition starts_on_sheet (spec : DataProcessor.cell_range) : Prop :=
  ∀ start_row, spec.1.1.2 = Some start_row → 0 ≤ start_row.

(** The dictionary and the headers mirror the block of the sheet that a
    parsed range names: one header per column of the range, and at rank [k]
    the pairs held by the cells of the [k]-th column of the range, from its
    start row down to the last row of the sheet. Nothing is read for a range
    that did not parse. *)
Definition mirrors_block (ws : DataProcessor.worksheet)
    (spec : DataProcessor.cell_range)
    (pairs_by_rank : gmap Z (gset (gset string)))
    (headers : list (string * string)) : Prop :=
  match spec with
  | (Some start_col, Some start_row, Some end_col, _) =>
      length headers = Z.to_nat (end_col - start_col + 1)
      ∧ ∀ rank p,
          p ∈ pairs_at pairs_by_rank rank
          ↔ 1 ≤ rank ≤ end_col - start_col + 1
            ∧ ∃ row, start_row + 1 ≤ row ≤ DataProcessor.max_row ws
                     ∧ cell_holds ws row (start_col + rank) p
  | _ => pairs_by_rank = ∅ ∧ headers = []
  end.

(** A sheet of three rows for the examples: the pair Ann, Bob in A1, the
    pair Cid, Dan in A3 and the pair Ann, Dan in C1; every other cell is
    empty. *)
Definition example_sheet : DataProcessor.worksheet :=
  {| DataProcessor.max_row := 3;
     DataProcessor.max_column := 3;
     DataProcessor.cell := fun row column =>
       Ok (if bool_decide (row = 1 ∧ column = 1)
           then Some (DataProcessor.text_cell "Ann, Bob")
           else if bool_decide (row = 3 ∧ column = 1)
           then Some (DataProcessor.text_cell "Cid,Dan")
           else if bool_decide (row = 1 ∧ column = 3)
           then Some (DataProcessor.text_cell "Ann,Dan")
           else None) |}.

(** Column letters for the examples: every column is called X. *)
Definition example_letters (n : Z) : result string := Ok "X".

(** The zero-based column that [parse_cell_range] reads out of the label
    [chr(64 + c)] of column [c]: the column itself up to Z, nothing for the
    six signs after Z, and for the small letters that follow the column 32
    places to the left. *)
Definition label_column (c : Z) : option Z :=
  if bool_decide (1 ≤ c ≤ 26) then Some (c - 1)
  else if bool_decide (33 ≤ c ≤ 58) then Some (c - 33)
  else None.

(** What [parse_cell_range] makes of the text detected for the columns
    [a] to [b] and the rows down to [m]. *)
Definition detected_parse (a b m : Z) : DataProcessor.cell_range :=
  match label_column a, label_column b with
  | Some start_col, Some end_col =>
      (Some start_col, Some 0, Some end_col, Some (m - 1))
  | _, _ => DataProcessor.all_absent
  end.

(** Some cell of the column, between row 1 and the last row, holds text. *)
Definition column_has_text (ws : DataProcessor.worksheet) (col : Z) : Prop :=
  ∃ row v, 1 ≤ row ≤ DataProcessor.max_row ws
           ∧ DataProcessor.cell ws row col = Ok v
           ∧ DataProcessor.has_text v = true.

(** A sheet whose only cells with text are AG1 and AH1, in the columns 33
    and 34. *)
Definition wide_sheet : DataProcessor.worksheet :=
  {| DataProcessor.max_row := 2;
     DataProcessor.max_column := 34;
     DataProcessor.cell := fun row column =>
       Ok (if bool_decide (row = 1 ∧ column = 33)
           then Some (DataProcessor.text_cell "Ann,Bob")
           else if bool_decide (row = 1 ∧ column = 34)
           then Some (DataProcessor.text_cell "Cid,Dan")
           else None) |}.

(** What the reader returns for the example sheet and the ranges A1:A2 and
    C1:C2. *)
Definition example_loaded
    : gmap Z (gset (gset string)) * gmap Z (gset (gset string))
      * list (string * string) * list (string * string) :=
  DataProcessor.load_preferences_from_excel PyStr.plain_tables
    example_letters example_sheet "A1:A2" "C1:C2".

(** The pair is named by a typed triple whose weight is positive. *)
Definition typed_like (manual_prefs : list (string * string * float))
    (p : gset string) : Prop :=
  ∃ name1 name2 weight,
    (name1, name2, weight) ∈ manual_prefs ∧ ltb 0 weight = true
    ∧ p = {[name1; name2]}.

(** The pair is named by a typed triple whose weight is not positive (zero,
    negative or not a number). *)
Definition typed_dislike (manual_prefs : list (string * string * float))
    (p : gset string) : Prop :=
  ∃ name1 name2 weight,
    (name1, name2, weight) ∈ manual_prefs ∧ ltb 0 weight = false
    ∧ p = {[name1; name2]}.

(** The dislike weight that reaches a typed pair: the only one of a list of
    one, the second one of a longer list. *)
Definition typed_dislike_weight (dislike_weights : list float)
    : option float :=
  match dislike_weights with
  | [] => None
  | [w] => Some w
  | _ :: w :: _ => Some w
  end.

(** [float()] for the examples: it knows the literal ["1"] only. *)
Definition example_float (s : string) : option float :=
  if decide (s = "1") then Some 1%float else None.

(** The line has three comma-separated fields: the two names of the triple,
    both non-empty once stripped, and a float literal of its weight. *)
Definition line_gives (py_float : string → option float) (line : string)
    (t : string * string * float) : Prop :=
  ∃ part0 part1 part2,
    PyStr.split ","%char line = [part0; part1; part2]
    ∧ t.1.1 = PyStr.strip_str part0 ∧ t.1.2 = PyStr.strip_str part1
    ∧ py_float (PyStr.strip_str part2) = Some t.2
    ∧ t.1.1 ≠ EmptyString ∧ t.1.2 ≠ EmptyString.

(** The level at which the application files a typed pair: 0 when there is
    exactly one weight of its kind, 1 otherwise. *)
Definition typed_level (weights : list float) : Z :=
  if bool_decide (length weights = 1%nat) then 0 else 1.
(** * Properties *)

(** ** Loops and indexing *)

Lemma bind_ok {A B : Type} (m : result A) (k : A → result B) (b : B) :
  bind m k = Ok b ↔ ∃ a, m = Ok a ∧ k a = Ok b.
Proof.
  destruct m as [a|e]; simpl; split.
  - eauto.
  - intros (a' & [= <-] & Hk). exact Hk.
  - discriminate.
  - intros (a' & Habs & _). discriminate.
Qed.

Lemma for_each_app {A S : Type} (xs ys : list A) (body : A → S → result S)
    (s : S) :
  for_each (xs ++ ys) body s = bind (for_each xs body s) (for_each ys body).
Proof.
  revert s. induction xs as [|x xs IH]; intros s; simpl; [done|].
  destruct (body x s); simpl; [apply IH | done].
Qed.

Lemma for_each_ext {A S : Type} (xs : list A) (body body' : A → S → result S)
    (s : S) :
  (∀ x s, body x s = body' x s) → for_each xs body s = for_each xs body' s.
Proof.
  intros Hext. revert s. induction xs as [|x xs IH]; intros s; simpl; [done|].
  rewrite Hext. destruct (body' x s); [apply IH|done].
Qed.

(** A loop whose body never raises is a left fold. *)
Lemma for_each_foldl {A S : Type} (xs : list A) (body : A → S → result S)
    (f : S → A → S) (s : S) :
  (∀ x s, x ∈ xs → body x s = Ok (f s x)) →
  for_each xs body s = Ok (foldl f s xs).
Proof.
  revert s. induction xs as [|x xs IH]; intros s Hbody; simpl; [done|].
  rewrite Hbody by left. apply IH. intros y t Hy. apply Hbody. by right.
Qed.

(** A loop whose body only appends produces the concatenation. *)
Lemma for_each_append {A B : Type} (xs : list A)
    (body : A → list B → result (list B)) (g : A → list B) (acc : list B) :
  (∀ x acc, x ∈ xs → body x acc = Ok (acc ++ g x)) →
  for_each xs body acc = Ok (acc ++ concat (g <$> xs)).
Proof.
  revert acc. induction xs as [|x xs IH]; intros acc Hbody; simpl.
  - by rewrite app_nil_r.
  - rewrite Hbody by left. rewrite IH.
    + by rewrite <-app_assoc.
    + intros y acc' Hy. apply Hbody. by right.
Qed.

Lemma elem_of_range (n i : Z) : i ∈ range n ↔ 0 ≤ i < n.
Proof. unfold range. rewrite elem_of_seqZ. lia. Qed.

Lemma py_index_nonneg {A : Type} (l : list A) (i : Z) (a : A) :
  0 ≤ i → l !! Z.to_nat i = Some a → py_index l i = Ok a.
Proof.
  intros Hi Hl. unfold py_index.
  rewrite (bool_decide_eq_false_2 (i < 0)) by lia. simpl.
  rewrite bool_decide_eq_false_2 by lia. by rewrite Hl.
Qed.

Lemma py_index_in_range {A : Type} (l : list A) (i : Z) :
  0 ≤ i < Z.of_nat (length l) → ∃ a, l !! Z.to_nat i = Some a ∧ py_index l i = Ok a.
Proof.
  intros Hi. destruct (lookup_lt_is_Some_2 l (Z.to_nat i)) as [a Ha]; [lia|].
  exists a. split; [done|]. apply py_index_nonneg; [lia|done].
Qed.

Lemma py_index_nonneg_inv {A : Type} (l : list A) (i : Z) (a : A) :
  0 ≤ i → py_index l i = Ok a → l !! Z.to_nat i = Some a.
Proof.
  intros Hi. unfold py_index.
  rewrite (bool_decide_eq_false_2 (i < 0)) by lia. simpl.
  rewrite bool_decide_eq_false_2 by lia.
  destruct (l !! Z.to_nat i); [by intros [= ->]|discriminate].
Qed.

(** ** Seat generation *)

Section SeatGeneration.
Import SeatLayout.

Lemma concat_singletons {A B : Type} (f : A → B) (l : list A) :
  concat ((fun x => [f x]) <$> l) = f <$> l.
Proof. induction l as [|x l IH]; csimpl; [done | by rewrite IH]. Qed.

Lemma elem_of_concat_fmap {A B : Type} (f : A → list B) (l : list A) (y : B) :
  y ∈ concat (f <$> l) ↔ ∃ x, x ∈ l ∧ y ∈ f x.
Proof.
  induction l as [|x l IH]; csimpl.
  - split; [intros H; inversion H | intros (x & H & _); inversion H].
  - rewrite elem_of_app, IH. split.
    + intros [H | (x' & H1 & H2)]; [exists x | exists x']; split; auto;
        [left | by right].
    + intros (x' & H1 & H2). apply elem_of_cons in H1 as [-> | H1]; eauto.
Qed.

Lemma rows_at_lookup (rows_per_col : list Z) (c rows : Z) :
  0 ≤ c → rows_per_col !! Z.to_nat c = Some rows →
  rows_at rows_per_col c = rows.
Proof. intros _ H. unfold rows_at. by rewrite H. Qed.

Lemma py_index_rows (rows_per_col : list Z) (c : Z) :
  0 ≤ c < Z.of_nat (length rows_per_col) →
  py_index rows_per_col c = Ok (rows_at rows_per_col c).
Proof.
  intros Hc. destruct (py_index_in_range rows_per_col c Hc) as (a & Ha & ->).
  unfold rows_at. by rewrite Ha.
Qed.

Lemma generate_seats_concat (n_cols : Z) (rows_per_col : list Z) :
  n_cols ≤ Z.of_nat (length rows_per_col) →
  generate_seats n_cols rows_per_col
  = Ok (concat (column_seats rows_per_col <$> range n_cols)).
Proof.
  intros Hn. unfold generate_seats.
  rewrite (for_each_append _ _ (column_seats rows_per_col)); [done|].
  intros c acc Hc%elem_of_range.
  rewrite py_index_rows by lia. simpl.
  rewrite (for_each_append _ _ (fun r => [(c, r)])) by done.
  unfold column_seats. by rewrite concat_singletons.
Qed.

Lemma elem_of_column_seats (rows_per_col : list Z) (c : Z) (p : seat) :
  p ∈ column_seats rows_per_col c ↔
  p.1 = c ∧ 0 ≤ p.2 < rows_at rows_per_col c.
Proof.
  unfold column_seats. rewrite list_elem_of_fmap. split.
  - intros (r & -> & Hr%elem_of_range). done.
  - intros [<- Hr]. exists p.2. split; [by destruct p | by apply elem_of_range].
Qed.

Lemma elem_of_grid (n_cols : Z) (rows_per_col : list Z) (p : seat) :
  p ∈ concat (column_seats rows_per_col <$> range n_cols)
  ↔ is_seat n_cols rows_per_col p.
Proof.
  rewrite elem_of_concat_fmap. unfold is_seat. split.
  - intros (c & Hc%elem_of_range & [-> Hr]%elem_of_column_seats). done.
  - intros [Hc Hr]. exists p.1. split; [by apply elem_of_range|].
    by apply elem_of_column_seats.
Qed.

Lemma sorted_seqZ_fmap {B : Type} (R : relation B) (f : Z → B) (m n : Z) :
  (∀ i j, m ≤ i → i < j → j < m + n → R (f i) (f j)) →
  StronglySorted R (f <$> seqZ m n).
Proof.
  destruct (decide (0 ≤ n)) as [Hn|Hn];
    [|rewrite seqZ_nil by lia; intros _; constructor].
  rewrite <-(Z2Nat.id n) by done. clear Hn.
  induction (Z.to_nat n) as [|k IH]; intros HR; [constructor|].
  rewrite seqZ_S, fmap_app. apply StronglySorted_app_2.
  - intros x1 x2 (i & -> & Hi%elem_of_seqZ)%list_elem_of_fmap
      ->%list_elem_of_singleton. apply HR; lia.
  - apply IH. intros i j ? ? ?. apply HR; lia.
  - repeat constructor.
Qed.

Lemma sorted_concat_seqZ {B : Type} (R : relation B) (f : Z → list B)
    (n : Z) :
  (∀ c, StronglySorted R (f c)) →
  (∀ c1 c2 a b, 0 ≤ c1 → c1 < c2 → a ∈ f c1 → b ∈ f c2 → R a b) →
  StronglySorted R (concat (f <$> seqZ 0 n)).
Proof.
  intros Hloc Hcross.
  destruct (decide (0 ≤ n)) as [Hn|Hn];
    [|rewrite seqZ_nil by lia; constructor].
  rewrite <-(Z2Nat.id n) by done. clear Hn.
  induction (Z.to_nat n) as [|k IH]; [constructor|].
  rewrite seqZ_S, fmap_app, concat_app. simpl. rewrite app_nil_r.
  apply StronglySorted_app_2; [|done|apply Hloc].
  intros a b (c & Hc%elem_of_seqZ & Ha)%elem_of_concat_fmap Hb.
  apply (Hcross c (0 + Z.of_nat k)); [lia|lia|done|done].
Qed.

Lemma grid_sorted (n_cols : Z) (rows_per_col : list Z) :
  StronglySorted column_major
    (concat (column_seats rows_per_col <$> range n_cols)).
Proof.
  apply sorted_concat_seqZ.
  - intros c. unfold column_seats, range. apply sorted_seqZ_fmap.
    intros i j _ Hij _. right. simpl. lia.
  - intros c1 c2 a b _ Hc [Ha _]%elem_of_column_seats
      [Hb _]%elem_of_column_seats.
    left. lia.
Qed.

Lemma sorted_irrefl_NoDup {B : Type} (R : relation B) (l : list B) :
  (∀ x, ¬ R x x) → StronglySorted R l → NoDup l.
Proof.
  intros Hirr. induction 1 as [|x l Hs IH Hall]; constructor; [|done].
  intros Hx. rewrite Forall_forall in Hall. by apply (Hirr x), Hall.
Qed.

Lemma py_sum_snoc (l : list Z) (x : Z) : py_sum (l ++ [x]) = py_sum l + x.
Proof. unfold py_sum. by rewrite foldl_snoc. Qed.

Lemma column_seats_app_l (rows_per_col extra : list Z) (c : Z) :
  0 ≤ c < Z.of_nat (length rows_per_col) →
  column_seats (rows_per_col ++ extra) c = column_seats rows_per_col c.
Proof.
  intros Hc. unfold column_seats, rows_at.
  by rewrite lookup_app_l by lia.
Qed.

Lemma grid_length (rows_per_col : list Z) :
  Forall (fun r => 0 ≤ r) rows_per_col →
  Z.of_nat (length (concat (column_seats rows_per_col
                              <$> range (Z.of_nat (length rows_per_col)))))
  = py_sum rows_per_col.
Proof.
  induction rows_per_col as [|x l IH] using rev_ind; intros Hall; [done|].
  apply Forall_app in Hall as [Hl Hx]. apply Forall_inv in Hx.
  rewrite length_app, py_sum_snoc. simpl length.
  replace (Z.of_nat (length l + 1)) with (Z.of_nat (S (length l))) by lia.
  unfold range. rewrite seqZ_S, fmap_app, concat_app, length_app.
  csimpl. rewrite app_nil_r, Nat2Z.inj_add.
  assert (column_seats (l ++ [x]) <$> seqZ 0 (Z.of_nat (length l))
          = column_seats l <$> seqZ 0 (Z.of_nat (length l))) as ->.
  { apply list_fmap_ext. intros i c Hc%lookup_seqZ.
    apply column_seats_app_l. lia. }
  unfold range in IH. rewrite IH by done. f_equal.
  unfold column_seats, rows_at, range.
  rewrite length_fmap, length_seqZ.
  replace (Z.to_nat (0 + Z.of_nat (length l))) with (length l) by lia.
  rewrite list_lookup_middle by done. simpl. lia.
Qed.

End SeatGeneration.

Section SeatTheorems.
Import SeatLayout.

(** C8. [generate_seats] lists the seats in column-major order: it appends
    [(c, r)] for [c] from 0 to [n_cols - 1] and, within a column, for [r]
    from 0 to [rows_per_col[c] - 1]. The result holds exactly the seats of
    the grid and is strictly increasing by column, then row. For 3 columns
    with rows [2, 1, 2] it is [(0,0), (0,1), (1,0), (2,0), (2,1)], whose
    element of index 3 is [(2, 0)]. *)
Theorem generate_seats_column_major :
  (∀ n_cols rows_per_col,
     n_cols ≤ Z.of_nat (length rows_per_col) →
     ∃ seats,
       generate_seats n_cols rows_per_col = Ok seats
       ∧ seats = concat ((fun c => (fun r => (c, r))
                                     <$> range (rows_at rows_per_col c))
                         <$> range n_cols)
       ∧ (∀ p, p ∈ seats ↔ is_seat n_cols rows_per_col p)
       ∧ StronglySorted column_major seats)
  ∧ generate_seats 3 [2; 1; 2] = Ok [(0,0); (0,1); (1,0); (2,0); (2,1)]
  ∧ (∀ seats, generate_seats 3 [2; 1; 2] = Ok seats →
              seats !! 3%nat = Some (2, 0)).
Proof.
  split; [|split].
  - intros n_cols rows_per_col Hn. eexists. split; [|split; [|split]].
    + by apply generate_seats_concat.
    + done.
    + intros p. apply elem_of_grid.
    + apply grid_sorted.
  - reflexivity.
  - intros seats [= <-]. reflexivity.
Qed.

Lemma generate_seats_column_major_witness :
  3 ≤ Z.of_nat (length [2; 1; 2])
  ∧ ∃ seats,
      generate_seats 3 [2; 1; 2] = Ok seats
      ∧ seats = concat ((fun c => (fun r => (c, r))
                                    <$> range (rows_at [2; 1; 2] c))
                        <$> range 3)
      ∧ (∀ p, p ∈ seats ↔ is_seat 3 [2; 1; 2] p)
      ∧ StronglySorted column_major seats.
Proof.
  assert (3 ≤ Z.of_nat (length [2; 1; 2])) as H by (simpl; lia).
  split; [exact H|].
  exact (proj1 generate_seats_column_major 3 [2; 1; 2] H).
Defined.

Lemma validate_layout_true (n_cols : Z) (rows_per_col : list Z)
    (num_people : Z) (msg : string) :
  validate_layout n_cols rows_per_col num_people = (true, msg) →
  0 < n_cols
  ∧ Z.of_nat (length rows_per_col) = n_cols
  ∧ Forall (fun r => 0 < r) rows_per_col
  ∧ num_people ≤ py_sum rows_per_col.
Proof.
  unfold validate_layout.
  case_bool_decide as H1; [discriminate|].
  case_bool_decide as H2; [discriminate|].
  destruct (py_any _ rows_per_col) eqn:H3; [discriminate|].
  simpl. case_bool_decide as H4; [discriminate|].
  intros _. repeat split; [lia | | | lia].
  - destruct (decide (Z.of_nat (length rows_per_col) = n_cols)); [done|].
    by destruct H2.
  - apply Forall_forall. intros r Hr%list_elem_of_In.
    destruct (decide (0 < r)) as [|Hneg]; [done|].
    assert (py_any (fun r => bool_decide (r <= 0)) rows_per_col = true)
      as Habs; [|congruence].
    apply existsb_exists. exists r. split; [done|].
    apply bool_decide_eq_true. lia.
Qed.

(** C9. When [validate_layout] accepts a configuration, [generate_seats] on
    the same column count and rows returns a list whose length is the sum of
    the rows-per-column values, that length is at least the number of
    people, and no coordinate occurs twice. *)
Theorem validate_layout_generate_seats (n_cols : Z) (rows_per_col : list Z)
    (num_people : Z) :
  validate_layout n_cols rows_per_col num_people = (true, EmptyString) →
  ∃ seats,
    generate_seats n_cols rows_per_col = Ok seats
    ∧ Z.of_nat (length seats) = py_sum rows_per_col
    ∧ num_people ≤ Z.of_nat (length seats)
    ∧ NoDup seats.
Proof.
  intros (Hn & Hlen & Hrows & Hsum)%validate_layout_true.
  eexists. split; [apply generate_seats_concat; lia|].
  assert (Z.of_nat (length (concat (column_seats rows_per_col
                                      <$> range n_cols)))
          = py_sum rows_per_col) as Hl.
  { rewrite <-Hlen. apply grid_length.
    eapply Forall_impl; [exact Hrows|]. simpl. lia. }
  split; [done|]. split; [lia|].
  apply (sorted_irrefl_NoDup column_major); [|apply grid_sorted].
  intros [c r]. unfold column_major. simpl. lia.
Qed.

Lemma validate_layout_generate_seats_witness :
  validate_layout 3 [2; 1; 2] 4 = (true, EmptyString)
  ∧ ∃ seats,
      generate_seats 3 [2; 1; 2] = Ok seats
      ∧ Z.of_nat (length seats) = py_sum [2; 1; 2]
      ∧ 4 ≤ Z.of_nat (length seats)
      ∧ NoDup seats.
Proof.
  assert (validate_layout 3 [2; 1; 2] 4 = (true, EmptyString)) as H
    by reflexivity.
  split; [exact H|].
  exact (validate_layout_generate_seats 3 [2; 1; 2] 4 H).
Defined.

End SeatTheorems.

(** ** Adjacency edges *)

Section AdjacentEdges.
Import SeatLayout.

Lemma has_aisle_between_spec (aisles : list (Z * Z)) (c1 c2 : Z) :
  has_aisle_between aisles c1 c2 = true ↔ aisle_between aisles c1 c2.
Proof.
  unfold aisle_between. induction aisles as [|[l r] aisles IH]; simpl.
  - split; [discriminate|]. intros [H|H]; inversion H.
  - rewrite !elem_of_cons. destruct (_ || _) eqn:E.
    + split; [intros _|done].
      apply orb_true_iff in E as [E|E];
        apply andb_true_iff in E as [?%bool_decide_eq_true ?%bool_decide_eq_true];
        subst; auto.
    + rewrite IH. apply orb_false_iff in E as [E1 E2].
      apply andb_false_iff in E1, E2.
      rewrite !bool_decide_eq_false in E1, E2.
      split; [tauto|]. intros [[[= -> ->]|?]|[[= -> ->]|?]]; tauto.
Qed.

Lemma crosses_spec (n_cols : Z) (rows_per_col : list Z)
    (aisles : list (Z * Z)) (c r' : Z) :
  0 ≤ c →
  crosses n_cols rows_per_col aisles c r' = true
  ↔ is_seat n_cols rows_per_col (c + 1, r')
    ∧ ¬ aisle_between aisles c (c + 1).
Proof.
  intros Hc. unfold crosses, is_seat. simpl.
  rewrite !andb_true_iff, !bool_decide_eq_true, negb_true_iff.
  rewrite <-has_aisle_between_spec, not_true_iff_false. intuition lia.
Qed.

(** The guarded tests of a right-hand neighbour never raise inside the grid
    and compute [crosses]. *)
Lemma right_test (n_cols : Z) (rows_per_col : list Z) (aisles : list (Z * Z))
    (c r' : Z) :
  0 ≤ c → n_cols ≤ Z.of_nat (length rows_per_col) → 0 ≤ r' →
  and_then (bool_decide (c + 1 < n_cols))
    (let! rows := py_index rows_per_col (c + 1) in
     Ok (bool_decide (r' < rows)
         && negb (has_aisle_between aisles c (c + 1))))
  = Ok (crosses n_cols rows_per_col aisles c r').
Proof.
  intros Hc Hn Hr. unfold crosses, and_then.
  case_bool_decide as H1; simpl; [|done].
  rewrite py_index_rows by lia. simpl. do 2 f_equal.
  apply bool_decide_ext. lia.
Qed.

Lemma right_down_test (n_cols : Z) (rows_per_col : list Z)
    (aisles : list (Z * Z)) (c r' : Z) :
  0 ≤ c → n_cols ≤ Z.of_nat (length rows_per_col) →
  and_then (bool_decide (c + 1 < n_cols) && bool_decide (r' >= 0))
    (let! rows := py_index rows_per_col (c + 1) in
     Ok (bool_decide (r' < rows)
         && negb (has_aisle_between aisles c (c + 1))))
  = Ok (crosses n_cols rows_per_col aisles c r').
Proof.
  intros Hc Hn. unfold crosses, and_then.
  case_bool_decide as H1; simpl; [|done].
  case_bool_decide as H2; simpl.
  - rewrite py_index_rows by lia. simpl. do 2 f_equal.
    apply bool_decide_ext. lia.
  - rewrite (bool_decide_eq_false_2 (0 ≤ r' < _)) by lia. done.
Qed.

Lemma edges_of_seat_ok (n_cols : Z) (rows_per_col : list Z)
    (include_diag : bool) (aisles : list (Z * Z)) (c r : Z)
    (edges : list edge) :
  0 ≤ c < n_cols → n_cols ≤ Z.of_nat (length rows_per_col) → 0 ≤ r →
  edges_of_seat n_cols rows_per_col include_diag aisles c r edges
  = Ok (edges ++ seat_edges n_cols rows_per_col include_diag aisles c r).
Proof.
  intros Hc Hn Hr. unfold edges_of_seat, seat_edges, neighbours.
  rewrite right_test by lia. simpl.
  rewrite py_index_rows by lia. simpl.
  destruct include_diag.
  - rewrite right_test by lia. simpl.
    rewrite right_down_test by lia. simpl. f_equal.
    destruct (crosses _ _ _ c r), (bool_decide (r + 1 < _)),
      (crosses _ _ _ c (r + 1)), (crosses _ _ _ c (r - 1));
      simpl; rewrite <-?app_assoc, ?app_nil_r; reflexivity.
  - f_equal.
    destruct (crosses _ _ _ c r), (bool_decide (r + 1 < _));
      simpl; rewrite <-?app_assoc, ?app_nil_r; reflexivity.
Qed.

Lemma generate_adjacent_edges_concat (n_cols : Z) (rows_per_col : list Z)
    (include_diag : bool) (aisles : option (list (Z * Z))) :
  n_cols ≤ Z.of_nat (length rows_per_col) →
  generate_adjacent_edges n_cols rows_per_col include_diag aisles
  = Ok (grid_edges n_cols rows_per_col include_diag (default [] aisles)).
Proof.
  intros Hn. unfold generate_adjacent_edges, grid_edges.
  rewrite (for_each_append _ _ (fun c =>
    concat (seat_edges n_cols rows_per_col include_diag (default [] aisles) c
            <$> range (rows_at rows_per_col c)))); [done|].
  intros c acc Hc%elem_of_range.
  rewrite py_index_rows by lia. simpl.
  apply for_each_append. intros r acc' Hr%elem_of_range.
  apply edges_of_seat_ok; lia.
Qed.

Lemma elem_of_neighbours (n_cols : Z) (rows_per_col : list Z)
    (include_diag : bool) (aisles : list (Z * Z)) (c r : Z) (q : seat) :
  0 ≤ c → 0 ≤ r →
  q ∈ neighbours n_cols rows_per_col include_diag aisles c r ↔
    (q = (c + 1, r) ∧ is_seat n_cols rows_per_col q
       ∧ ¬ aisle_between aisles c (c + 1))
    ∨ (q = (c, r + 1) ∧ r + 1 < rows_at rows_per_col c)
    ∨ (include_diag = true ∧ q = (c + 1, r + 1)
       ∧ is_seat n_cols rows_per_col q ∧ ¬ aisle_between aisles c (c + 1))
    ∨ (include_diag = true ∧ q = (c + 1, r - 1)
       ∧ is_seat n_cols rows_per_col q ∧ ¬ aisle_between aisles c (c + 1)).
Proof.
  intros Hc Hr. unfold neighbours. rewrite !elem_of_app.
  pose proof (crosses_spec n_cols rows_per_col aisles c r Hc) as H1.
  pose proof (crosses_spec n_cols rows_per_col aisles c (r + 1) Hc) as H2.
  pose proof (crosses_spec n_cols rows_per_col aisles c (r - 1) Hc) as H3.
  assert (∀ (b : bool) (x : seat), q ∈ (if b then [x] else []) ↔ b = true ∧ q = x)
    as Hif.
  { intros [] x; rewrite ?list_elem_of_singleton; [naive_solver|].
    split; [intros H; inversion H | intros [? _]; discriminate]. }
  destruct include_diag.
  - rewrite elem_of_app, !Hif, H1, H2, H3, bool_decide_eq_true.
    split.
    + intros [[[? ?] ->]|[[? ->]|[[[? ?] ->]|[[? ?] ->]]]]; auto 10.
    + intros [(-> & ? & ?)|[(-> & ?)|[(_ & -> & ? & ?)|(_ & -> & ? & ?)]]];
        auto 10.
  - rewrite !Hif, H1, bool_decide_eq_true. split.
    + intros [[[? ?] ->]|[[? ->]|H]]; [auto 10..|inversion H].
    + intros [(-> & ? & ?)|[(-> & ?)|[(? & _)|(? & _)]]];
        [auto 10..|discriminate|discriminate].
Qed.

Lemma elem_of_both_ways (p q : seat) (e : edge) :
  e ∈ both_ways p q ↔ e = (p, q) ∨ e = (q, p).
Proof.
  unfold both_ways. rewrite !elem_of_cons. split; [|naive_solver].
  intros [?|[?|H]]; [auto..|inversion H].
Qed.

(** An edge is in the result exactly when some seat of the grid is linked
    to one of its neighbours by it, in one of the two orientations. *)
Lemma elem_of_grid_edges (n_cols : Z) (rows_per_col : list Z)
    (include_diag : bool) (aisles : list (Z * Z)) (e : edge) :
  e ∈ grid_edges n_cols rows_per_col include_diag aisles ↔
  ∃ c r q, is_seat n_cols rows_per_col (c, r)
    ∧ q ∈ neighbours n_cols rows_per_col include_diag aisles c r
    ∧ (e = ((c, r), q) ∨ e = (q, (c, r))).
Proof.
  unfold grid_edges, seat_edges. rewrite elem_of_concat_fmap. split.
  - intros (c & Hc%elem_of_range
              & (r & Hr%elem_of_range
                 & (q & Hq & He%elem_of_both_ways)%elem_of_concat_fmap)
                %elem_of_concat_fmap).
    exists c, r, q. split; [split; simpl; lia|done].
  - intros (c & r & q & [Hc Hr] & Hq & He). simpl in *.
    exists c. split; [by apply elem_of_range|].
    apply elem_of_concat_fmap. exists r. split; [by apply elem_of_range|].
    apply elem_of_concat_fmap. exists q. split; [done|].
    by apply elem_of_both_ways.
Qed.

(** An edge that leaves a seat towards a later seat of the column-major
    order was appended when the loop visited that seat. *)
Lemma forward_edge (n_cols : Z) (rows_per_col : list Z) (include_diag : bool)
    (aisles : list (Z * Z)) (c r : Z) (q : seat) :
  is_seat n_cols rows_per_col (c, r) → column_major (c, r) q →
  ((c, r), q) ∈ grid_edges n_cols rows_per_col include_diag aisles
  ↔ q ∈ neighbours n_cols rows_per_col include_diag aisles c r.
Proof.
  intros [Hc Hr] Hq. simpl in Hc, Hr. unfold column_major in Hq.
  simpl in Hq. rewrite elem_of_grid_edges. split.
  - intros (c' & r' & q' & [Hc' Hr'] & Hq' & [He|He]); simpl in *.
    + by simplify_eq.
    + simplify_eq. apply elem_of_neighbours in Hq'; [|lia..].
      destruct Hq' as [(? & _)|[(? & _)|[(_ & ? & _)|(_ & ? & _)]]];
        simplify_eq; simpl in *; lia.
  - intros Hn. exists c, r, q. split; [done|]. by split; [|left].
Qed.

Lemma edges_symmetric (n_cols : Z) (rows_per_col : list Z)
    (include_diag : bool) (aisles : list (Z * Z)) (a b : seat) :
  (a, b) ∈ grid_edges n_cols rows_per_col include_diag aisles →
  (b, a) ∈ grid_edges n_cols rows_per_col include_diag aisles.
Proof.
  rewrite !elem_of_grid_edges.
  intros (c & r & q & Hs & Hq & [He|He]); simplify_eq;
    exists c, r, q; auto.
Qed.

(** C4. [generate_adjacent_edges] returns exactly the specified edges. For a
    seat [(c, r)]: the edge to [(c+1, r)] is present iff that seat exists
    and no aisle is declared between columns [c] and [c+1], in either
    order; the edge to [(c, r+1)] is present iff that seat exists, whatever
    the aisles; the edges to [(c+1, r+1)] and [(c+1, r-1)] are present iff
    diagonals are enabled, the target exists and no aisle separates the
    columns. Every edge comes with its reverse, every edge links a seat to
    one of these four neighbours, and two columns of one row with an aisle
    between them and no diagonals give the empty list. *)
Theorem generate_adjacent_edges_exact :
  (∀ n_cols rows_per_col include_diag aisles,
     n_cols ≤ Z.of_nat (length rows_per_col) →
     ∃ edges,
       generate_adjacent_edges n_cols rows_per_col include_diag aisles
       = Ok edges
       ∧ (∀ c r, is_seat n_cols rows_per_col (c, r) →
            (((c, r), (c + 1, r)) ∈ edges ↔
               is_seat n_cols rows_per_col (c + 1, r)
               ∧ ¬ aisle_between (default [] aisles) c (c + 1))
            ∧ (((c, r), (c, r + 1)) ∈ edges ↔
                 is_seat n_cols rows_per_col (c, r + 1))
            ∧ (((c, r), (c + 1, r + 1)) ∈ edges ↔
                 include_diag = true
                 ∧ is_seat n_cols rows_per_col (c + 1, r + 1)
                 ∧ ¬ aisle_between (default [] aisles) c (c + 1))
            ∧ (((c, r), (c + 1, r - 1)) ∈ edges ↔
                 include_diag = true
                 ∧ is_seat n_cols rows_per_col (c + 1, r - 1)
                 ∧ ¬ aisle_between (default [] aisles) c (c + 1)))
       ∧ (∀ a b, (a, b) ∈ edges → (b, a) ∈ edges)
       ∧ (∀ a b, (a, b) ∈ edges →
            ∃ c r q,
              is_seat n_cols rows_per_col (c, r)
              ∧ q ∈ [(c + 1, r); (c, r + 1); (c + 1, r + 1); (c + 1, r - 1)]
              ∧ ((a, b) = ((c, r), q) ∨ (a, b) = (q, (c, r)))))
  ∧ generate_adjacent_edges 2 [1; 1] false (Some [(0, 1)]) = Ok [].
Proof.
  split; [|reflexivity].
  intros n_cols rows_per_col include_diag aisles Hn.
  eexists. split; [by apply generate_adjacent_edges_concat|].
  split; [|split].
  - intros c r Hs. pose proof Hs as [Hc Hr]. simpl in Hc, Hr.
    rewrite !forward_edge by (done || unfold column_major; simpl; lia).
    rewrite !elem_of_neighbours by lia.
    unfold is_seat. simpl. split; [|split; [|split]]; split.
    + intros [(_ & ? & ?)|[(? & _)|[(_ & ? & _)|(_ & ? & _)]]];
        [done|simplify_eq; lia..].
    + intros [? ?]. left. done.
    + intros [(? & _)|[(_ & ?)|[(_ & ? & _)|(_ & ? & _)]]];
        [simplify_eq; lia|lia|simplify_eq; lia..].
    + intros [? ?]. right. left. split; [done|lia].
    + intros [(? & _)|[(? & _)|[(? & _ & ? & ?)|(_ & ? & _)]]];
        [simplify_eq; lia..|done|simplify_eq; lia].
    + intros (? & ? & ?). right. right. left. done.
    + intros [(? & _)|[(? & _)|[(_ & ? & _)|(? & _ & ? & ?)]]];
        [simplify_eq; lia..|done].
    + intros (? & ? & ?). right. right. right. done.
  - intros a b. apply edges_symmetric.
  - intros a b (c & r & q & Hs & Hq & He)%elem_of_grid_edges.
    exists c, r, q. split; [done|]. split; [|done].
    destruct Hs as [Hc Hr]. simpl in Hc, Hr.
    apply elem_of_neighbours in Hq; [|lia..].
    rewrite !elem_of_cons.
    destruct Hq as [(? & _)|[(? & _)|[(_ & ? & _)|(_ & ? & _)]]]; auto.
Qed.

Lemma generate_adjacent_edges_exact_witness :
  2 ≤ Z.of_nat (length [2; 2])
  ∧ ∃ edges,
      generate_adjacent_edges 2 [2; 2] true None = Ok edges
      ∧ (((0, 0), (1, 1)) ∈ edges ↔
           true = true ∧ is_seat 2 [2; 2] (0 + 1, 0 + 1)
           ∧ ¬ aisle_between (default [] None) 0 (0 + 1)).
Proof.
  assert (2 ≤ Z.of_nat (length [2; 2])) as H by (simpl; lia).
  split; [exact H|].
  destruct (proj1 generate_adjacent_edges_exact 2 [2; 2] true None H)
    as (edges & Hgen & Hseat & _).
  exists edges. split; [exact Hgen|].
  assert (is_seat 2 [2; 2] (0, 0)) as Hs by (unfold is_seat, rows_at; simpl; lia).
  exact (proj1 (proj2 (proj2 (Hseat 0 0 Hs)))).
Defined.

End AdjacentEdges.

(** ** Drawing adjacency of the image exporter *)

Section ExporterAdjacency.
Import Exporter.

Lemma seat_positions_lookup (seats : list seat) (idx : Z) (p : seat) :
  seat_positions seats !! idx = Some p
  ↔ 0 ≤ idx ∧ seats !! Z.to_nat idx = Some p.
Proof.
  unfold seat_positions. rewrite lookup_map_seqZ_Some.
  by rewrite Z.sub_0_r.
Qed.

(** C6. The adjacency predicate of the image exporter holds exactly when
    both people are in the assignment, both seat indices resolve to
    coordinates of the seat list, and the coordinates are at Chebyshev
    distance 1. It reads neither the diagonal setting nor the edge list: on
    the 2 by 2 grid generated without diagonals, the people on [(0, 0)] and
    [(1, 1)] are adjacent for the exporter although no edge joins their
    seats. *)
Theorem are_seats_adjacent_chebyshev :
  (∀ (assignment : gmap string Z) (seats : list seat) (person1 person2 : string),
     are_seats_adjacent assignment seats person1 person2 = true
     ↔ (∃ idx1 idx2 c1 r1 c2 r2,
         assignment !! person1 = Some idx1
         ∧ assignment !! person2 = Some idx2
         ∧ 0 ≤ idx1 ∧ seats !! Z.to_nat idx1 = Some (c1, r1)
         ∧ 0 ≤ idx2 ∧ seats !! Z.to_nat idx2 = Some (c2, r2)
         ∧ Z.max (Z.abs (c1 - c2)) (Z.abs (r1 - r2)) = 1))
  ∧ (∃ seats edges,
       SeatLayout.generate_seats 2 [2; 2] = Ok seats
       ∧ SeatLayout.generate_adjacent_edges 2 [2; 2] false None = Ok edges
       ∧ seats !! 0%nat = Some (0, 0) ∧ seats !! 3%nat = Some (1, 1)
       ∧ (((0, 0), (1, 1)) ∉ edges)
       ∧ are_seats_adjacent {[ "A" := 0; "B" := 3 ]} seats "A" "B" = true).
Proof.
  split.
  - intros assignment seats person1 person2. unfold are_seats_adjacent.
    split.
    + destruct (assignment !! person1) as [idx1|]; [|discriminate].
      destruct (assignment !! person2) as [idx2|]; [|discriminate].
      destruct (seat_positions seats !! idx1) as [[c1 r1]|] eqn:H1;
        [|discriminate].
      destruct (seat_positions seats !! idx2) as [[c2 r2]|] eqn:H2;
        [|discriminate].
      apply seat_positions_lookup in H1 as [? ?], H2 as [? ?].
      rewrite !andb_true_iff, !bool_decide_eq_true. intros [[? ?] ?].
      exists idx1, idx2, c1, r1, c2, r2. repeat split; try done. lia.
    + intros (idx1 & idx2 & c1 & r1 & c2 & r2
              & -> & -> & ? & H1 & ? & H2 & Hd).
      cbv iota.
      assert (seat_positions seats !! idx1 = Some (c1, r1)) as ->
        by (by apply seat_positions_lookup).
      assert (seat_positions seats !! idx2 = Some (c2, r2)) as ->
        by (by apply seat_positions_lookup).
      cbv iota zeta beta. rewrite !andb_true_iff, !bool_decide_eq_true. lia.
  - eexists _, _. split; [reflexivity|]. split; [reflexivity|].
    split; [reflexivity|]. split; [reflexivity|].
    split; [|by vm_compute].
    intros H. repeat (apply elem_of_cons in H as [H|H]; [discriminate|]).
    inversion H.
Qed.

End ExporterAdjacency.

(** ** Cell ranges *)

Section CellRanges.
Import DataProcessor.
Context (U : PyStr.unicode).

Lemma split_nonempty (sep : ascii) (s : string) : PyStr.split sep s ≠ [].
Proof.
  destruct s as [|c s]; simpl; [done|].
  destruct (decide (c = sep)); [done|].
  by destruct (PyStr.split sep s).
Qed.

Lemma split_one (sep : ascii) (s a : string) :
  PyStr.split sep s = [a] ↔ s = a ∧ PyStr.contains sep a = false.
Proof.
  revert a. induction s as [|c s IH]; intros a; simpl.
  - split; [by intros [= <-]|by intros [<- _]].
  - destruct (decide (c = sep)) as [->|Hc].
    + split.
      * intros [= _ H]. by destruct (split_nonempty sep s).
      * intros [<- H]. simpl in H. by rewrite decide_True in H.
    + destruct (PyStr.split sep s) as [|h t] eqn:E;
        [by destruct (split_nonempty sep s)|].
      split.
      * intros [= <- ->]. destruct (proj1 (IH h) eq_refl) as [-> Hh].
        simpl. by rewrite decide_False.
      * intros [<- H]. simpl in H. rewrite decide_False in H by done.
        by injection (proj2 (IH s) (conj eq_refl H)) as -> ->.
Qed.

Lemma split_two (sep : ascii) (s a b : string) :
  PyStr.split sep s = [a; b]
  ↔ s = a +:+ String sep b
    ∧ PyStr.contains sep a = false ∧ PyStr.contains sep b = false.
Proof.
  revert a. induction s as [|c s IH]; intros a; simpl.
  - split; [discriminate|]. intros [H _]. by destruct a.
  - destruct (decide (c = sep)) as [->|Hc].
    + split.
      * intros [= <- H]. apply split_one in H as [-> H]. done.
      * intros (H & Ha & Hb). destruct a as [|c' a]; simpl in *.
        -- injection H as ->. f_equal. by apply split_one.
        -- injection H as <- _. by rewrite decide_True in Ha.
    + destruct (PyStr.split sep s) as [|h t] eqn:E;
        [by destruct (split_nonempty sep s)|].
      split.
      * intros [= <- ->]. destruct (proj1 (IH h) eq_refl) as (-> & Hh & Hb).
        simpl. by rewrite decide_False.
      * intros (H & Ha & Hb). destruct a as [|c' a]; simpl in *.
        -- by injection H as -> _.
        -- injection H as <- ->. rewrite decide_False in Ha by done.
           by injection (proj2 (IH a) (conj eq_refl (conj Ha Hb))) as -> ->.
Qed.

Lemma contains_app (sep : ascii) (a b : string) :
  PyStr.contains sep (a +:+ b)
  = PyStr.contains sep a || PyStr.contains sep b.
Proof.
  induction a as [|c a IH]; simpl; [done|].
  by destruct (decide (c = sep)).
Qed.

(** What the parser answers on a specification with one colon. *)
Lemma parse_one_colon (start end_ : string) :
  PyStr.contains ":"%char start = false →
  PyStr.contains ":"%char end_ = false →
  parse_cell_range U (start +:+ String ":"%char end_)
  = match parse_cell_range_try U (start +:+ String ":"%char end_) with
    | Ok t => t
    | Raise _ => all_absent
    end
  ∧ PyStr.split ":"%char (start +:+ String ":"%char end_) = [start; end_].
Proof.
  intros Hs He. split; [|by apply split_two].
  unfold parse_cell_range.
  rewrite decide_False by (by destruct start).
  rewrite contains_app. simpl. by rewrite orb_true_r.
Qed.

Lemma parse_try_ok (range_spec : string) (t : cell_range) :
  parse_cell_range_try U range_spec = Ok t → well_formed_range U range_spec.
Proof.
  unfold parse_cell_range_try. intros E.
  destruct (PyStr.split ":"%char range_spec) as [|start [|end_ [|? ?]]] eqn:Es;
    try discriminate.
  apply split_two in Es as (-> & Hs & He).
  exists start, end_. split; [done|]. split; [done|]. split; [done|].
  unfold cell_parses.
  destruct (split_cell U start) as [start_col start_row].
  destruct (split_cell U end_) as [end_col end_row]. simpl.
  destruct (column_index_from_string U start_col) as [n|]; [|discriminate].
  destruct (column_index_from_string U end_col) as [m|]; [|discriminate].
  simpl in E.
  destruct (decide (start_row = EmptyString)) as [->|Hsr].
  - destruct (decide (end_row = EmptyString)) as [->|Her]; [by eauto 10|].
    destruct (PyStr.int U end_row) as [k|]; [by eauto 10|discriminate].
  - destruct (PyStr.int U start_row) as [j|]; [|discriminate]. simpl in E.
    destruct (decide (end_row = EmptyString)) as [->|Her]; [by eauto 10|].
    destruct (PyStr.int U end_row) as [k|]; [by eauto 10|discriminate].
Qed.

(** C7. [parse_cell_range] maps ["B2:D10"] to the zero-based tuple
    (1, 1, 3, 9). On a specification with one colon whose two column labels
    are valid, the start row is 0 when the start cell has no row part and
    its literal minus one otherwise, and the end row is absent when the end
    cell has no row part and its literal minus one otherwise. On every
    malformed specification (empty, without colon, or without a parseable
    cell reference on each side of exactly one colon) the result is the
    all-absent tuple; as the function is total, nothing is raised. *)
Theorem parse_cell_range_total :
  parse_cell_range U "B2:D10" = (Some 1, Some 1, Some 3, Some 9)
  ∧ (∀ start end_ n m,
       PyStr.contains ":"%char start = false →
       PyStr.contains ":"%char end_ = false →
       column_index_from_string U (split_cell U start).1 = Ok n →
       column_index_from_string U (split_cell U end_).1 = Ok m →
       ∀ b d,
         ((split_cell U start).2 = EmptyString ∧ b = 0
          ∨ (split_cell U start).2 ≠ EmptyString
            ∧ ∃ k, PyStr.int U (split_cell U start).2 = Ok k ∧ b = k - 1) →
         ((split_cell U end_).2 = EmptyString ∧ d = None
          ∨ (split_cell U end_).2 ≠ EmptyString
            ∧ ∃ k, PyStr.int U (split_cell U end_).2 = Ok k
                   ∧ d = Some (k - 1)) →
         parse_cell_range U (start +:+ String ":"%char end_)
         = (Some (n - 1), Some b, Some (m - 1), d))
  ∧ (∀ range_spec,
       range_spec = EmptyString
       ∨ PyStr.contains ":"%char range_spec = false
       ∨ ¬ well_formed_range U range_spec →
       parse_cell_range U range_spec = all_absent).
Proof.
  split; [by vm_compute|]. split.
  - intros start end_ n m Hs He Hn Hm b d Hb Hd.
    destruct (parse_one_colon start end_ Hs He) as [-> Hsplit].
    unfold parse_cell_range_try. rewrite Hsplit.
    destruct (split_cell U start) as [start_col start_row].
    destruct (split_cell U end_) as [end_col end_row]. simpl in *.
    rewrite Hn, Hm. simpl.
    destruct Hb as [[-> ->]|(Hsr & k & Hk & ->)],
             Hd as [[-> ->]|(Her & k' & Hk' & ->)].
    + done.
    + rewrite (decide_False (P := end_row = EmptyString)) by done.
      rewrite Hk'. done.
    + rewrite (decide_False (P := start_row = EmptyString)) by done.
      rewrite Hk. done.
    + rewrite (decide_False (P := start_row = EmptyString)) by done.
      rewrite (decide_False (P := end_row = EmptyString)) by done.
      rewrite Hk, Hk'. done.
  - intros range_spec H. unfold parse_cell_range.
    destruct (decide (range_spec = EmptyString)); [done|].
    destruct (PyStr.contains ":"%char range_spec) eqn:Hc; [|done].
    simpl.
    destruct (parse_cell_range_try U range_spec) as [t|] eqn:E; [|done].
    apply parse_try_ok in E. destruct H as [?|[?|?]]; done.
Qed.

End CellRanges.

Lemma parse_cell_range_total_witness :
  (("garbage" = EmptyString
    ∨ PyStr.contains ":"%char "garbage" = false
    ∨ ¬ well_formed_range PyStr.plain_tables "garbage")
   ∧ DataProcessor.parse_cell_range PyStr.plain_tables "garbage"
     = DataProcessor.all_absent)
  ∧ DataProcessor.parse_cell_range PyStr.plain_tables
      ("A7" +:+ String ":"%char "C")
    = (Some (1 - 1), Some (7 - 1), Some (3 - 1), None).
Proof.
  assert ("garbage" = EmptyString
          ∨ PyStr.contains ":"%char "garbage" = false
          ∨ ¬ well_formed_range PyStr.plain_tables "garbage") as H
    by (right; left; reflexivity).
  destruct (parse_cell_range_total PyStr.plain_tables)
    as (_ & Hrows & Hbad).
  split; [split; [exact H|]|].
  - exact (Hbad "garbage" H).
  - apply (Hrows "A7" "C" 1 3); try reflexivity.
    + right. split; [discriminate|]. exists 7. split; reflexivity.
    + left. split; reflexivity.
Defined.

(** ** Merged pair weights *)

Section PairWeights.
Import DataProcessor.

Lemma py_index_ok {A : Type} (l : list A) (i : Z) :
  - Z.of_nat (length l) ≤ i < Z.of_nat (length l) →
  ∃ a, py_index l i = Ok a.
Proof.
  intros Hi. unfold py_index.
  destruct (bool_decide_reflect (i < 0)) as [Hneg|Hpos]; simpl.
  - rewrite bool_decide_eq_false_2 by lia.
    destruct (lookup_lt_is_Some_2 l (Z.to_nat (i + Z.of_nat (length l))))
      as [a ->]; [lia|eauto].
  - rewrite bool_decide_eq_false_2 by lia.
    destruct (lookup_lt_is_Some_2 l (Z.to_nat i)) as [a ->]; [lia|eauto].
Qed.

Lemma assign_willing_rank (w_weights : list float) (rank : Z)
    (pairs : gset (gset string)) (m : gmap (gset string) float) :
  assign_willing w_weights rank pairs m
  = assign_rank (fun r => bool_decide (r ≤ Z.of_nat (length w_weights)))
      (fun r => py_index w_weights (r - 1)) (rank, pairs) m.
Proof. reflexivity. Qed.

Lemma assign_unwilling_rank (uw_weights : list float) (rank : Z)
    (pairs : gset (gset string)) (m : gmap (gset string) float) :
  assign_unwilling uw_weights rank pairs m
  = assign_rank (fun r => bool_decide (r < Z.of_nat (length uw_weights)))
      (fun r => py_index uw_weights r) (rank, pairs) m.
Proof. reflexivity. Qed.

Lemma lookup_insert_all {K V : Type} `{Countable K} (ks : list K) (v : V)
    (m : gmap K V) (k : K) :
  foldl (fun m k => <[k := v]> m) m ks !! k
  = if decide (k ∈ ks) then Some v else m !! k.
Proof.
  revert m. induction ks as [|k' ks IH]; intros m; simpl.
  - destruct (decide (k ∈ [])) as [Hk|]; [inversion Hk|done].
  - rewrite IH.
    destruct (decide (k ∈ ks)) as [Hin|Hin],
             (decide (k ∈ k' :: ks)) as [Hin'|Hin']; try done.
    + destruct Hin'. by right.
    + apply elem_of_cons in Hin' as [->|?]; [|done].
      apply lookup_insert_eq.
    + apply lookup_insert_ne. intros ->. apply Hin'. left.
Qed.

Section RankLoop.
Context (guard : Z → bool) (weight_of : Z → result float).

Lemma assign_rank_ok (entry : Z * gset (gset string))
    (m : gmap (gset string) float) (w : float) :
  guard entry.1 = true → weight_of entry.1 = Ok w →
  ∃ m', assign_rank guard weight_of entry m = Ok m'
        ∧ ∀ p, m' !! p = if decide (p ∈ entry.2) then Some w else m !! p.
Proof.
  intros Hg Hw. unfold assign_rank. rewrite Hg.
  rewrite (for_each_foldl _ _ (fun m p => <[p := w]> m)).
  - eexists. split; [done|]. intros p. rewrite lookup_insert_all.
    destruct (decide (p ∈ elements entry.2)) as [Hin|Hin],
             (decide (p ∈ entry.2)) as [Hin'|Hin']; try done;
      rewrite elem_of_elements in Hin; done.
  - intros p m' _. by rewrite Hw.
Qed.

Lemma assign_rank_skip (entry : Z * gset (gset string))
    (m : gmap (gset string) float) :
  guard entry.1 = false → assign_rank guard weight_of entry m = Ok m.
Proof. intros Hg. unfold assign_rank. by rewrite Hg. Qed.

(** The loop succeeds when every rank that passes the guard has a weight. *)
Lemma rank_loop_ok (entries : list (Z * gset (gset string)))
    (m : gmap (gset string) float) :
  (∀ e, e ∈ entries → guard e.1 = true → ∃ w, weight_of e.1 = Ok w) →
  ∃ m', for_each entries (assign_rank guard weight_of) m = Ok m'.
Proof.
  revert m. induction entries as [|e entries IH]; intros m Hw; simpl;
    [eauto|].
  destruct (guard e.1) eqn:Hg.
  - destruct (Hw e) as [w Hwe]; [left|done|].
    destruct (assign_rank_ok e m w Hg Hwe) as (m' & -> & _).
    apply IH. intros e' He'. apply Hw. by right.
  - rewrite assign_rank_skip by done. apply IH.
    intros e' He'. apply Hw. by right.
Qed.

Lemma insert_loop_preserve (qs : list (gset string)) (wt : result float)
    (m m1 : gmap (gset string) float) (p : gset string) :
  p ∉ qs →
  for_each qs (fun pair pair_weights =>
                 let! w := wt in Ok (<[pair := w]> pair_weights)) m = Ok m1 →
  m1 !! p = m !! p.
Proof.
  destruct wt as [w|err]; simpl.
  - revert m. induction qs as [|q qs IHq]; intros m Hel; simpl.
    + by intros [= ->].
    + intros Hq. rewrite (IHq (<[q := w]> m)); [| |done].
      * apply lookup_insert_ne. intros ->. apply Hel. left.
      * intros Hin. apply Hel. by right.
  - destruct qs; simpl; [by intros _ [= ->]|discriminate].
Qed.

(** Ranks that do not cover a pair leave its entry alone. *)
Lemma rank_loop_preserve (entries : list (Z * gset (gset string)))
    (m m' : gmap (gset string) float) (p : gset string) :
  (∀ e, e ∈ entries → ¬ covers guard e p) →
  for_each entries (assign_rank guard weight_of) m = Ok m' →
  m' !! p = m !! p.
Proof.
  revert m. induction entries as [|e entries IH]; intros m Hcov; simpl.
  - by intros [= ->].
  - destruct (assign_rank guard weight_of e m) as [m1|] eqn:E1;
      [|discriminate].
    intros Hrest. rewrite (IH m1); [|intros e' He'; apply Hcov; by right|done].
    unfold assign_rank in E1. destruct (guard e.1) eqn:Hg;
      [|by injection E1 as ->].
    eapply insert_loop_preserve; [|exact E1].
    rewrite elem_of_elements. intros Hin.
    apply (Hcov e); [left|by split].
Qed.

(** The last rank that covers a pair decides its entry. *)
Lemma rank_loop_last (pre post : list (Z * gset (gset string)))
    (e : Z * gset (gset string)) (m m' : gmap (gset string) float)
    (p : gset string) :
  covers guard e p → (∀ e', e' ∈ post → ¬ covers guard e' p) →
  for_each (pre ++ e :: post) (assign_rank guard weight_of) m = Ok m' →
  ∃ w, weight_of e.1 = Ok w ∧ m' !! p = Some w.
Proof.
  intros [Hg Hp] Hpost. rewrite for_each_app.
  intros (m1 & _ & Hloop)%bind_ok. simpl in Hloop.
  destruct (assign_rank guard weight_of e m1) as [m2|] eqn:E2;
    [|discriminate].
  rewrite (rank_loop_preserve post m2 m' p Hpost Hloop).
  destruct (weight_of e.1) as [w|err] eqn:Hw.
  - destruct (assign_rank_ok e m1 w Hg Hw) as (m2' & E2' & Hlook).
    rewrite E2 in E2'. injection E2' as <-. exists w. split; [done|].
    rewrite Hlook. by destruct (decide (p ∈ e.2)).
  - exfalso. unfold assign_rank in E2. rewrite Hg, Hw in E2.
    apply elem_of_elements in Hp.
    destruct (elements e.2) as [|q qs]; [inversion Hp|discriminate].
Qed.

End RankLoop.

Lemma custom_preserve (l : list (string * string * float))
    (m : gmap (gset string) float) (p : gset string) :
  (∀ t, t ∈ l → custom_key t ≠ p) → assign_custom l m !! p = m !! p.
Proof.
  unfold assign_custom. revert m.
  induction l as [|[[n1 n2] wt] l IH]; intros m Hl; simpl; [done|].
  rewrite IH by (intros t Ht; apply Hl; by right).
  apply lookup_insert_ne. apply (Hl (n1, n2, wt)). left.
Qed.

(** The last custom triple about a pair decides its entry. *)
Lemma custom_last (pre post : list (string * string * float))
    (t : string * string * float) (m : gmap (gset string) float) :
  (∀ t', t' ∈ post → custom_key t' ≠ custom_key t) →
  assign_custom (pre ++ t :: post) m !! custom_key t = Some t.2.
Proof.
  intros Hpost.
  assert (assign_custom (pre ++ t :: post) m
          = assign_custom post (<[custom_key t := t.2]> (assign_custom pre m)))
    as ->.
  { unfold assign_custom. rewrite foldl_app. by destruct t as [[n1 n2] wt]. }
  rewrite custom_preserve by done. apply lookup_insert_eq.
Qed.

Lemma not_in_custom (custom_pairs : option (list (string * string * float)))
    (p : gset string) :
  ¬ in_custom custom_pairs p →
  ∀ t, t ∈ default [] custom_pairs → custom_key t ≠ p.
Proof.
  intros Hc t Ht Hk. apply Hc. destruct custom_pairs as [l|]; simpl in Ht.
  - by exists l, t.
  - inversion Ht.
Qed.

(** The merge rules, for all inputs whose ranks Python can index. *)
Lemma compute_pair_weights_rules :
  ∀ willing unwilling w_weights uw_weights custom_pairs,
     (∀ e, e ∈ willing → - Z.of_nat (length w_weights) < e.1) →
     (∀ e, e ∈ unwilling → - Z.of_nat (length uw_weights) ≤ e.1) →
     ∃ merged,
       compute_pair_weights willing unwilling w_weights uw_weights
         custom_pairs = Ok merged
       ∧ (∀ p pre e post,
            willing = pre ++ e :: post →
            at_willing_rank w_weights e p →
            (∀ e', e' ∈ post → ¬ at_willing_rank w_weights e' p) →
            (∀ e', e' ∈ unwilling → ¬ at_unwilling_rank uw_weights e' p) →
            ¬ in_custom custom_pairs p →
            ∃ wt, py_index w_weights (e.1 - 1) = Ok wt
                  ∧ merged !! p = Some wt
                  ∧ (1 ≤ e.1 → w_weights !! Z.to_nat (e.1 - 1) = Some wt))
       ∧ (∀ p pre e post,
            unwilling = pre ++ e :: post →
            at_unwilling_rank uw_weights e p →
            (∀ e', e' ∈ post → ¬ at_unwilling_rank uw_weights e' p) →
            ¬ in_custom custom_pairs p →
            ∃ wt, py_index uw_weights e.1 = Ok wt
                  ∧ merged !! p = Some wt
                  ∧ (0 ≤ e.1 → uw_weights !! Z.to_nat e.1 = Some wt))
       ∧ (∀ l pre t post,
            custom_pairs = Some l → l = pre ++ t :: post →
            (∀ t', t' ∈ post → custom_key t' ≠ custom_key t) →
            merged !! custom_key t = Some t.2)
       ∧ (∀ p,
            (∀ e, e ∈ willing → ¬ at_willing_rank w_weights e p) →
            (∀ e, e ∈ unwilling → ¬ at_unwilling_rank uw_weights e p) →
            ¬ in_custom custom_pairs p →
            merged !! p = None).
Proof.
  intros willing unwilling w_weights uw_weights custom_pairs Hw Huw.
  set (guard_w := fun r => bool_decide (r ≤ Z.of_nat (length w_weights))).
  set (weight_w := fun r => py_index w_weights (r - 1)).
  set (guard_u := fun r => bool_decide (r < Z.of_nat (length uw_weights))).
  set (weight_u := fun r => py_index uw_weights r).
  assert (∀ e p, at_willing_rank w_weights e p ↔ covers guard_w e p) as Hcw.
  { intros e p. unfold at_willing_rank, covers, guard_w.
    by rewrite bool_decide_eq_true. }
  assert (∀ e p, at_unwilling_rank uw_weights e p ↔ covers guard_u e p)
    as Hcu.
  { intros e p. unfold at_unwilling_rank, covers, guard_u.
    by rewrite bool_decide_eq_true. }
  unfold compute_pair_weights.
  rewrite (for_each_ext willing _ (assign_rank guard_w weight_w))
    by (by intros [rank pairs] s).
  destruct (rank_loop_ok guard_w weight_w willing ∅) as [m1 E1].
  { intros e He Hg%bool_decide_eq_true. apply py_index_ok.
    specialize (Hw e He). lia. }
  rewrite E1. simpl.
  rewrite (for_each_ext unwilling _ (assign_rank guard_u weight_u))
    by (by intros [rank pairs] s).
  destruct (rank_loop_ok guard_u weight_u unwilling m1) as [m2 E2].
  { intros e He Hg%bool_decide_eq_true. apply py_index_ok.
    specialize (Huw e He). lia. }
  rewrite E2. simpl.
  exists (assign_custom (default [] custom_pairs) m2). split.
  { by destruct custom_pairs as [[|t ts]|]. }
  split; [|split; [|split]].
  - intros p pre e post -> He Hpost Hun Hcus.
    destruct (rank_loop_last guard_w weight_w pre post e ∅ m1 p)
      as (wt & Hwt & Hm1); [by apply Hcw| |done|].
    { intros e' He'. rewrite <-Hcw. by apply Hpost. }
    exists wt. split; [done|]. split.
    + rewrite custom_preserve by (by apply not_in_custom).
      rewrite (rank_loop_preserve guard_u weight_u unwilling m1 m2 p);
        [done| |done].
      intros e' He'. rewrite <-Hcu. by apply Hun.
    + intros Hr. apply py_index_nonneg_inv; [lia|done].
  - intros p pre e post -> He Hpost Hcus.
    destruct (rank_loop_last guard_u weight_u pre post e m1 m2 p)
      as (wt & Hwt & Hm2); [by apply Hcu| |done|].
    { intros e' He'. rewrite <-Hcu. by apply Hpost. }
    exists wt. split; [done|]. split.
    + by rewrite custom_preserve by (by apply not_in_custom).
    + intros Hr. by apply py_index_nonneg_inv.
  - intros l pre t post -> -> Hpost. simpl. by apply custom_last.
  - intros p Hwill Hun Hcus.
    rewrite custom_preserve by (by apply not_in_custom).
    rewrite (rank_loop_preserve guard_u weight_u unwilling m1 m2 p);
      [| |done].
    + rewrite (rank_loop_preserve guard_w weight_w willing ∅ m1 p);
        [done| |done].
      intros e He. rewrite <-Hcw. by apply Hwill.
    + intros e He. rewrite <-Hcu. by apply Hun.
Qed.

(** C1. [compute_pair_weights] builds the merged map as specified, for
    ranks that Python can index ([-len < r] on the willing side, [-len ≤ r]
    on the unwilling side; every rank from 1 on is such). Writers are
    applied in the order willing ranks, unwilling ranks, custom triples, and
    the last writer of a pair decides its entry:
    - a pair at a willing rank [r ≤ len(w_weights)] gets [w_weights[r-1]],
      the [r]-th weight counted from 1;
    - a pair at an unwilling rank [r < len(uw_weights)] gets
      [uw_weights[r]], the weight at zero-based index [r];
    - a custom triple overwrites the entry of its unordered pair, so a pair
      both at a rank and in the custom list ends with the custom weight;
    - a pair covered by none of these has no entry.
    With a pair at willing rank 1 of weight 5.0 and a custom weight 2.0 for
    it, the merged map holds 2.0. *)
Theorem compute_pair_weights_merged :
  (∀ willing unwilling w_weights uw_weights custom_pairs,
     (∀ e, e ∈ willing → - Z.of_nat (length w_weights) < e.1) →
     (∀ e, e ∈ unwilling → - Z.of_nat (length uw_weights) ≤ e.1) →
     ∃ merged,
       compute_pair_weights willing unwilling w_weights uw_weights
         custom_pairs = Ok merged
       ∧ (∀ p pre e post,
            willing = pre ++ e :: post →
            at_willing_rank w_weights e p →
            (∀ e', e' ∈ post → ¬ at_willing_rank w_weights e' p) →
            (∀ e', e' ∈ unwilling → ¬ at_unwilling_rank uw_weights e' p) →
            ¬ in_custom custom_pairs p →
            ∃ wt, py_index w_weights (e.1 - 1) = Ok wt
                  ∧ merged !! p = Some wt
                  ∧ (1 ≤ e.1 → w_weights !! Z.to_nat (e.1 - 1) = Some wt))
       ∧ (∀ p pre e post,
            unwilling = pre ++ e :: post →
            at_unwilling_rank uw_weights e p →
            (∀ e', e' ∈ post → ¬ at_unwilling_rank uw_weights e' p) →
            ¬ in_custom custom_pairs p →
            ∃ wt, py_index uw_weights e.1 = Ok wt
                  ∧ merged !! p = Some wt
                  ∧ (0 ≤ e.1 → uw_weights !! Z.to_nat e.1 = Some wt))
       ∧ (∀ l pre t post,
            custom_pairs = Some l → l = pre ++ t :: post →
            (∀ t', t' ∈ post → custom_key t' ≠ custom_key t) →
            merged !! custom_key t = Some t.2)
       ∧ (∀ p,
            (∀ e, e ∈ willing → ¬ at_willing_rank w_weights e p) →
            (∀ e, e ∈ unwilling → ¬ at_unwilling_rank uw_weights e p) →
            ¬ in_custom custom_pairs p →
            merged !! p = None))
  ∧ (∃ merged,
       compute_pair_weights [(1, {[ {["A"; "B"]} ]})] [] [5%float] []
         (Some [("A", "B", 2%float)]) = Ok merged
       ∧ merged !! ({["A"; "B"]} : gset string) = Some 2%float).
Proof.
  split; [exact compute_pair_weights_rules|].
  destruct (compute_pair_weights_rules [(1, {[ {["A"; "B"]} ]})] []
              [5%float] [] (Some [("A", "B", 2%float)]))
    as (merged & Hm & _ & _ & Hcustom & _).
  - intros e ->%list_elem_of_singleton. simpl. lia.
  - intros e He. inversion He.
  - exists merged. split; [exact Hm|].
    apply (Hcustom _ [] ("A", "B", 2%float) [] eq_refl eq_refl).
    intros t' Ht'. inversion Ht'.
Qed.

Lemma compute_pair_weights_merged_witness :
  ((∀ e, e ∈ [(1, ({[ {["A"; "B"]} ]} : gset (gset string)))] →
         - Z.of_nat (length [5%float; 4%float]) < e.1)
   ∧ (∀ e, e ∈ [(1, ({[ {["C"; "D"]} ]} : gset (gset string)))] →
           - Z.of_nat (length [(-5)%float; (-4)%float]) ≤ e.1))
  ∧ ∃ merged,
      compute_pair_weights [(1, {[ {["A"; "B"]} ]})] [(1, {[ {["C"; "D"]} ]})]
        [5%float; 4%float] [(-5)%float; (-4)%float]
        (Some [("A", "B", 2%float)]) = Ok merged
      ∧ merged !! custom_key ("A", "B", 2%float) = Some 2%float.
Proof.
  assert (∀ e, e ∈ [(1, ({[ {["A"; "B"]} ]} : gset (gset string)))] →
               - Z.of_nat (length [5%float; 4%float]) < e.1) as Hw.
  { intros e ->%list_elem_of_singleton. simpl. lia. }
  assert (∀ e, e ∈ [(1, ({[ {["C"; "D"]} ]} : gset (gset string)))] →
               - Z.of_nat (length [(-5)%float; (-4)%float]) ≤ e.1) as Hu.
  { intros e ->%list_elem_of_singleton. simpl. lia. }
  split; [by split|].
  destruct (proj1 compute_pair_weights_merged _ _ _ _
              (Some [("A", "B", 2%float)]) Hw Hu)
    as (merged & Hm & _ & _ & Hcustom & _).
  exists merged. split; [exact Hm|].
  apply (Hcustom _ [] ("A", "B", 2%float) [] eq_refl eq_refl).
  intros t' Ht'. inversion Ht'.
Defined.

End PairWeights.

(** ** Satisfaction metrics *)

Section Metrics.
Import Optimizer.

Lemma elem_of_adjacent_seats (seats : list seat) (oriented_edges : list edge)
    (s : gset Z) :
  s ∈ adjacent_seats seats oriented_edges ↔
  ∃ a b ia ib,
    (a, b) ∈ oriented_edges
    ∧ list_index a seats = Some ia ∧ list_index b seats = Some ib
    ∧ s = {[Z.of_nat ia; Z.of_nat ib]}.
Proof.
  unfold adjacent_seats.
  assert (∀ (init : gset (gset Z)) l,
    s ∈ foldl (fun adjacent '(seat1, seat2) =>
                 match list_index seat1 seats, list_index seat2 seats with
                 | Some idx1, Some idx2 =>
                     adjacent ∪ {[ ({[Z.of_nat idx1; Z.of_nat idx2]} : gset Z) ]}
                 | _, _ => adjacent
                 end) init l
    ↔ s ∈ init ∨ ∃ a b ia ib,
        (a, b) ∈ l
        ∧ list_index a seats = Some ia ∧ list_index b seats = Some ib
        ∧ s = {[Z.of_nat ia; Z.of_nat ib]}) as Hgen.
  { intros init l. revert init.
    induction l as [|[a b] l IH]; intros init; simpl.
    - split; [auto|]. intros [?|(a & b & ia & ib & H & _)]; [done|].
      inversion H.
    - rewrite IH. clear IH. split.
      + intros [Hinit|(a' & b' & ia & ib & Hin & Ha & Hb & ->)].
        * destruct (list_index a seats) as [ia|] eqn:Ea; [|by left].
          destruct (list_index b seats) as [ib|] eqn:Eb; [|by left].
          apply elem_of_union in Hinit as [?| ->%elem_of_singleton];
            [by left|].
          right. exists a, b, ia, ib. split; [left|done].
        * right. exists a', b', ia, ib. split; [by right|done].
      + intros [Hinit|(a' & b' & ia & ib & Hin & Ha & Hb & ->)].
        * left. destruct (list_index a seats), (list_index b seats);
            try done. apply elem_of_union. by left.
        * apply elem_of_cons in Hin as [[= -> ->]|Hin].
          -- left. rewrite Ha, Hb. apply elem_of_union. right.
             by apply elem_of_singleton.
          -- right. by exists a', b', ia, ib. }
  rewrite Hgen. split; [|by right].
  intros [H|H]; [|done]. by apply not_elem_of_empty in H.
Qed.

Lemma pair_set_eq (i j i' j' : Z) :
  ({[i; j]} : gset Z) = {[i'; j']}
  ↔ (i = i' ∧ j = j') ∨ (i = j' ∧ j = i').
Proof.
  split.
  - intros H.
    assert (i ∈ ({[i'; j']} : gset Z)) as Hi by (rewrite <-H; set_solver).
    assert (j ∈ ({[i'; j']} : gset Z)) as Hj by (rewrite <-H; set_solver).
    assert (i' ∈ ({[i; j]} : gset Z)) as Hi' by (rewrite H; set_solver).
    assert (j' ∈ ({[i; j]} : gset Z)) as Hj' by (rewrite H; set_solver).
    rewrite elem_of_union, !elem_of_singleton in Hi, Hj, Hi', Hj'. lia.
  - intros [[-> ->]|[-> ->]]; [done|]. set_solver.
Qed.

Lemma seated_adjacent_spec (assignment : gmap string Z) (seats : list seat)
    (oriented_edges : list edge) (a b : string) :
  seated_adjacent assignment (adjacent_seats seats oriented_edges) a b = true
  ↔ ∃ idx1 idx2,
      assignment !! a = Some idx1 ∧ assignment !! b = Some idx2
      ∧ adjacent_indices seats oriented_edges idx1 idx2.
Proof.
  unfold seated_adjacent, adjacent_indices.
  destruct (assignment !! a) as [idx1|];
    [|split; [discriminate|by intros (? & ? & ? & _)]].
  destruct (assignment !! b) as [idx2|];
    [|split; [discriminate|by intros (? & ? & _ & ? & _)]].
  rewrite bool_decide_eq_true, elem_of_adjacent_seats. split.
  - intros (x & y & ia & ib & Hin & Ha & Hb & Heq%pair_set_eq).
    exists idx1, idx2. split; [done|]. split; [done|].
    by exists x, y, ia, ib.
  - intros (? & ? & [= <-] & [= <-] & x & y & ia & ib & Hin & Ha & Hb & Heq).
    exists x, y, ia, ib. split; [done|]. split; [done|]. split; [done|].
    by apply pair_set_eq.
Qed.

Lemma seated_adjacent_sym (assignment : gmap string Z) (seats : list seat)
    (oriented_edges : list edge) (a b : string) :
  seated_adjacent assignment (adjacent_seats seats oriented_edges) a b
  = seated_adjacent assignment (adjacent_seats seats oriented_edges) b a.
Proof.
  apply eq_true_iff_eq. rewrite !seated_adjacent_spec.
  unfold adjacent_indices. split;
    intros (i & j & ? & ? & x & y & ia & ib & ? & ? & ? & Hor);
    exists j, i; (split; [done|]); (split; [done|]);
    exists x, y, ia, ib; (split; [done|]); (split; [done|]);
    (split; [done|]); tauto.
Qed.

Lemma unpack_pair_two (p : gset string) :
  size p = 2%nat →
  ∃ a b, unpack_pair p = Ok (a, b) ∧ p = {[a; b]} ∧ a ≠ b.
Proof.
  intros Hsize. unfold unpack_pair.
  pose proof (NoDup_elements p) as Hnd.
  pose proof (list_to_set_elements_L p) as Hp.
  unfold size, set_size in Hsize. simpl in Hsize.
  destruct (elements p) as [|a [|b [|c l]]]; try discriminate.
  exists a, b. split; [done|]. split.
  - rewrite <-Hp. simpl. set_solver.
  - intros ->. apply NoDup_cons in Hnd as [Hnd _]. apply Hnd. left.
Qed.

Lemma satisfied_b_spec (assignment : gmap string Z) (seats : list seat)
    (oriented_edges : list edge) (p : gset string) :
  size p = 2%nat →
  satisfied_b assignment (adjacent_seats seats oriented_edges) p = true
  ↔ pair_satisfied assignment seats oriented_edges p.
Proof.
  intros (a & b & Hu & -> & Hab)%unpack_pair_two.
  unfold satisfied_b, pair_satisfied. rewrite Hu. simpl. split.
  - intros (i & j & ? & ? & ?)%seated_adjacent_spec. by exists a, b, i, j.
  - intros (a' & b' & i & j & Heq & Ha & Hb & Hadj).
    assert ((a' = a ∧ b' = b) ∨ (a' = b ∧ b' = a)) as [[-> ->]|[-> ->]].
    { assert (a' ∈ ({[a; b]} : gset string)) as H1 by (rewrite Heq; set_solver).
      assert (b' ∈ ({[a; b]} : gset string)) as H2 by (rewrite Heq; set_solver).
      assert (a ∈ ({[a'; b']} : gset string)) as H3 by (rewrite <-Heq; set_solver).
      assert (b ∈ ({[a'; b']} : gset string)) as H4 by (rewrite <-Heq; set_solver).
      rewrite elem_of_union, !elem_of_singleton in H1, H2, H3, H4.
      destruct H1 as [-> | ->], H2 as [-> | ->]; auto;
        destruct H3, H4; congruence. }
    + apply seated_adjacent_spec. by exists i, j.
    + rewrite seated_adjacent_sym. apply seated_adjacent_spec. by exists i, j.
Qed.

Lemma satisfied_loop_ok (assignment : gmap string Z) (adjacent : gset (gset Z))
    (l : list (gset string)) (people : gset string) (n : Z) :
  Forall (fun p => size p = 2%nat) l →
  for_each l
    (fun pair '(satisfied_people, satisfied_pairs) =>
       let! persons := unpack_pair pair in
       if seated_adjacent assignment adjacent persons.1 persons.2 then
         Ok (satisfied_people ∪ {[persons.1]} ∪ {[persons.2]},
             satisfied_pairs + 1)
       else Ok (satisfied_people, satisfied_pairs))
    (people, n)
  = Ok (people
        ∪ ⋃ filter (fun p => satisfied_b assignment adjacent p = true) l,
        n + Z.of_nat (length (filter (fun p =>
                                satisfied_b assignment adjacent p = true) l))).
Proof.
  intros Hall. revert people n.
  induction Hall as [|p l Hp Hall IH]; intros people n; simpl.
  - f_equal. f_equal; [set_solver|lia].
  - destruct (unpack_pair_two p Hp) as (a & b & Hu & Hpab & Hab).
    assert (satisfied_b assignment adjacent p
            = seated_adjacent assignment adjacent a b) as Hsb
      by (unfold satisfied_b; by rewrite Hu).
    rewrite Hu, filter_cons. simpl.
    destruct (seated_adjacent assignment adjacent a b) eqn:Hs.
    + rewrite decide_True by done. rewrite IH. simpl. f_equal. f_equal.
      * rewrite Hpab. set_solver.
      * lia.
    + rewrite decide_False by (by rewrite Hsb). apply IH.
Qed.

Lemma first_rank_loop_ok (assignment : gmap string Z)
    (adjacent : gset (gset Z)) (l : list (gset string)) (n : Z) :
  Forall (fun p => size p = 2%nat) l →
  for_each l
    (fun pair satisfied_first_pairs =>
       let! persons := unpack_pair pair in
       if seated_adjacent assignment adjacent persons.1 persons.2 then
         Ok (satisfied_first_pairs + 1)
       else Ok satisfied_first_pairs)
    n
  = Ok (n + Z.of_nat (length (filter (fun p =>
                                satisfied_b assignment adjacent p = true) l))).
Proof.
  intros Hall. revert n.
  induction Hall as [|p l Hp Hall IH]; intros n; simpl.
  - f_equal. lia.
  - destruct (unpack_pair_two p Hp) as (a & b & Hu & Hpab & Hab).
    assert (satisfied_b assignment adjacent p
            = seated_adjacent assignment adjacent a b) as Hsb
      by (unfold satisfied_b; by rewrite Hu).
    rewrite Hu, filter_cons. simpl.
    destruct (seated_adjacent assignment adjacent a b) eqn:Hs.
    + rewrite decide_True by done. rewrite IH. simpl. f_equal. lia.
    + rewrite decide_False by (by rewrite Hsb). apply IH.
Qed.

(** The satisfied pairs of a set of two-member pairs, as a set. *)
Lemma satisfied_subset (assignment : gmap string Z) (seats : list seat)
    (oriented_edges : list edge) (pairs : gset (gset string)) :
  (∀ p, p ∈ pairs → size p = 2%nat) →
  ∃ satisfied : gset (gset string),
    (∀ p, p ∈ satisfied ↔
          p ∈ pairs ∧ pair_satisfied assignment seats oriented_edges p)
    ∧ size satisfied
      = length (filter (fun p =>
                  satisfied_b assignment
                    (adjacent_seats seats oriented_edges) p = true)
                  (elements pairs))
    ∧ ⋃ elements satisfied
      = ⋃ filter (fun p =>
                    satisfied_b assignment
                      (adjacent_seats seats oriented_edges) p = true)
                 (elements pairs).
Proof.
  intros Hsize.
  set (l := filter (fun p => satisfied_b assignment
                               (adjacent_seats seats oriented_edges) p = true)
                   (elements pairs)).
  exists (list_to_set l). split; [|split].
  - intros p. unfold l.
    rewrite elem_of_list_to_set, list_elem_of_filter, elem_of_elements.
    split.
    + intros [Hs Hp]. split; [done|]. apply satisfied_b_spec; auto.
    + intros [Hp Hs]. split; [|done]. apply satisfied_b_spec; auto.
  - apply size_list_to_set. apply NoDup_filter, NoDup_elements.
  - apply set_eq. intros x. rewrite !elem_of_union_list.
    split; intros (X & HX & Hx); exists X; (split; [|done]).
    + by apply elem_of_elements, elem_of_list_to_set in HX.
    + by apply elem_of_elements, elem_of_list_to_set.
Qed.

(** The metrics, for pair sets all of whose pairs have two members. *)
Lemma compute_satisfaction_metrics_rules (assignment : gmap string Z)
    (people : list string) (seats : list seat)
    (positive_pairs : gset (gset string)) (oriented_edges : list edge)
    (willing_pairs_by_rank : option (gmap Z (gset (gset string)))) :
  (∀ p, p ∈ positive_pairs → size p = 2%nat) →
  (∀ by_rank first_rank_pairs p,
     willing_pairs_by_rank = Some by_rank →
     by_rank !! 1 = Some first_rank_pairs →
     p ∈ first_rank_pairs → size p = 2%nat) →
  ∃ (satisfied : gset (gset string)) (rate : float),
    compute_satisfaction_metrics assignment people seats positive_pairs
      oriented_edges willing_pairs_by_rank
    = Ok (Z.of_nat (size (⋃ elements satisfied)),
          Z.of_nat (size (⋃ elements positive_pairs)),
          Z.of_nat (size satisfied), rate)
    ∧ (∀ p, p ∈ satisfied ↔
            p ∈ positive_pairs
            ∧ pair_satisfied assignment seats oriented_edges p)
    ∧ match willing_pairs_by_rank ≫= (.!! 1) with
      | Some first_rank_pairs =>
          ∃ first_satisfied : gset (gset string),
            (∀ p, p ∈ first_satisfied ↔
                  p ∈ first_rank_pairs
                  ∧ pair_satisfied assignment seats oriented_edges p)
            ∧ rate = (if decide (size first_rank_pairs = 0%nat) then 0
                      else float_of_int (Z.of_nat (size first_satisfied))
                           / float_of_int (Z.of_nat (size first_rank_pairs))
                           * 100)%float
      | None => rate = 0%float
      end.
Proof.
  intros Hpos Hfirst. unfold compute_satisfaction_metrics.
  destruct (satisfied_subset assignment seats oriented_edges positive_pairs
              Hpos) as (satisfied & Hsat & Hsize & Hunion).
  unfold satisfied_loop. rewrite satisfied_loop_ok
    by (apply Forall_forall; intros p Hp%elem_of_elements; auto).
  simpl.
  assert ((if decide (positive_pairs = ∅) then 0
           else Z.of_nat (size (⋃ elements positive_pairs)))
          = Z.of_nat (size (⋃ elements positive_pairs))) as ->.
  { destruct (decide (positive_pairs = ∅)) as [->|]; [|done].
    by rewrite elements_empty. }
  rewrite <-Hunion, <-Hsize, Z.add_0_l.
  assert (∅ ∪ ⋃ elements satisfied = ⋃ elements satisfied) as ->
    by set_solver.
  destruct willing_pairs_by_rank as [by_rank|]; simpl;
    [|by exists satisfied, 0%float].
  destruct (by_rank !! 1) as [first_rank_pairs|] eqn:E1; simpl;
    [|by exists satisfied, 0%float].
  destruct (satisfied_subset assignment seats oriented_edges
              first_rank_pairs (fun p => Hfirst _ _ p eq_refl E1))
    as (first_satisfied & Hfsat & Hfsize & _).
  unfold first_rank_loop. rewrite first_rank_loop_ok
    by (apply Forall_forall; intros p Hp%elem_of_elements; eauto).
  simpl. rewrite <-Hfsize, Z.add_0_l.
  destruct (bool_decide_reflect (Z.of_nat (size first_rank_pairs) > 0))
    as [Hn|Hn]; simpl.
  - eexists satisfied, _. split; [done|]. split; [done|].
    exists first_satisfied. split; [done|].
    by rewrite decide_False by lia.
  - exists satisfied, 0%float. split; [done|]. split; [done|].
    exists first_satisfied. split; [done|].
    by rewrite decide_True by lia.
Qed.

(** C5. [compute_satisfaction_metrics] returns the tuple (satisfied people,
    people with a preference, satisfied pairs, first-preference rate). A
    positive pair is satisfied iff both members are in the assignment and
    their seat indices form an adjacency pair resolved from the edge list,
    edges with an end outside the seat list being skipped. The first count
    is the size of the union of the satisfied pairs, the second the size of
    the union of all positive pairs, the third the number of satisfied
    pairs. The rate is the percentage of rank-1 pairs that are satisfied,
    and 0 when rank 1 is empty or missing or no rank map is given. In the
    scenario with A, B, C, D on a 2 by 2 grid without diagonals and the
    positive pair {A, B} on adjacent rows of one column, the first three
    components are (2, 2, 1). *)
Theorem compute_satisfaction_metrics_counts :
  (∀ (assignment : gmap string Z) (people : list string) (seats : list seat)
     (positive_pairs : gset (gset string)) (oriented_edges : list edge)
     (willing_pairs_by_rank : option (gmap Z (gset (gset string)))),
     (∀ p, p ∈ positive_pairs → size p = 2%nat) →
     (∀ by_rank first_rank_pairs p,
        willing_pairs_by_rank = Some by_rank →
        by_rank !! 1 = Some first_rank_pairs →
        p ∈ first_rank_pairs → size p = 2%nat) →
     ∃ (satisfied : gset (gset string)) (rate : float),
       compute_satisfaction_metrics assignment people seats positive_pairs
         oriented_edges willing_pairs_by_rank
       = Ok (Z.of_nat (size (⋃ elements satisfied)),
             Z.of_nat (size (⋃ elements positive_pairs)),
             Z.of_nat (size satisfied), rate)
       ∧ (∀ p, p ∈ satisfied ↔
               p ∈ positive_pairs
               ∧ pair_satisfied assignment seats oriented_edges p)
       ∧ match willing_pairs_by_rank ≫= (.!! 1) with
         | Some first_rank_pairs =>
             ∃ first_satisfied : gset (gset string),
               (∀ p, p ∈ first_satisfied ↔
                     p ∈ first_rank_pairs
                     ∧ pair_satisfied assignment seats oriented_edges p)
               ∧ rate = (if decide (size first_rank_pairs = 0%nat) then 0
                         else float_of_int (Z.of_nat (size first_satisfied))
                              / float_of_int
                                  (Z.of_nat (size first_rank_pairs))
                              * 100)%float
         | None => rate = 0%float
         end)
  ∧ (let! seats := SeatLayout.generate_seats 2 [2; 2] in
     let! edges := SeatLayout.generate_adjacent_edges 2 [2; 2] false None in
     compute_satisfaction_metrics example_assignment ["A"; "B"; "C"; "D"]
       seats {[ {["A"; "B"]} ]} edges (Some {[ 1 := {[ {["A"; "B"]} ]} ]}))
    = Ok (2, 2, 1, 100%float).
Proof.
  split; [exact compute_satisfaction_metrics_rules|].
  vm_compute. reflexivity.
Qed.

Lemma compute_satisfaction_metrics_counts_witness :
  ((∀ p, p ∈ ({[ {["A"; "B"]} ]} : gset (gset string)) → size p = 2%nat)
   ∧ (∀ (by_rank : gmap Z (gset (gset string))) first_rank_pairs
        (p : gset string),
        None = Some by_rank → by_rank !! 1 = Some first_rank_pairs →
        p ∈ first_rank_pairs → size p = 2%nat))
  ∧ ∃ (satisfied : gset (gset string)) (rate : float),
      compute_satisfaction_metrics example_assignment ["A"; "B"; "C"; "D"]
        [(0, 0); (0, 1); (1, 0); (1, 1)] {[ {["A"; "B"]} ]}
        [((0, 0), (0, 1)); ((0, 1), (0, 0))] None
      = Ok (Z.of_nat (size (⋃ elements satisfied)),
            Z.of_nat (size (⋃ elements
                              ({[ {["A"; "B"]} ]} : gset (gset string)))),
            Z.of_nat (size satisfied), rate).
Proof.
  assert (∀ p, p ∈ ({[ {["A"; "B"]} ]} : gset (gset string)) →
               size p = 2%nat) as H1.
  { intros p ->%elem_of_singleton. reflexivity. }
  assert (∀ (by_rank : gmap Z (gset (gset string))) first_rank_pairs
            (p : gset string),
            None = Some by_rank → by_rank !! 1 = Some first_rank_pairs →
            p ∈ first_rank_pairs → size p = 2%nat) as H2
    by (intros ? ? ? Hnone; discriminate Hnone).
  split; [by split|].
  destruct (proj1 compute_satisfaction_metrics_counts example_assignment
              ["A"; "B"; "C"; "D"] [(0, 0); (0, 1); (1, 0); (1, 1)]
              {[ {["A"; "B"]} ]} [((0, 0), (0, 1)); ((0, 1), (0, 0))] None
              H1 H2) as (satisfied & rate & Hm & _).
  by exists satisfied, rate.
Defined.

End Metrics.

(** ** The top-N solve *)

Section IoMonad.
Import Optimizer.

Lemma io_bind_value {A B : Type} (m : io A) (k : A → io B) :
  (io_bind m k).2 = bind m.2 (fun a => (k a).2).
Proof.
  destruct m as [t [a|e]]; simpl; [|done]. by destruct (k a).
Qed.

Lemma io_bind_trace {A B : Type} (m : io A) (k : A → io B) :
  (io_bind m k).1
  = m.1 ++ match m.2 with Ok a => (k a).1 | Raise _ => [] end.
Proof.
  destruct m as [t [a|e]]; simpl; [|by rewrite app_nil_r].
  by destruct (k a).
Qed.

Lemma for_io_value {A S : Type} (xs : list A) (body : A → S → io S) (s : S) :
  (for_io xs body s).2 = for_each xs (fun x s => (body x s).2) s.
Proof.
  revert s. induction xs as [|x xs IH]; intros s; simpl; [done|].
  rewrite io_bind_value. destruct (body x s).2; simpl; [apply IH|done].
Qed.

End IoMonad.

Lemma Forall2_elem_of_l {A B : Type} (R : A → B → Prop) (l : list A)
    (k : list B) (a : A) :
  Forall2 R l k → a ∈ l → ∃ b, R a b.
Proof.
  induction 1 as [|a' b' l k HR Hrest IH]; intros Ha; [inversion Ha|].
  apply elem_of_cons in Ha as [->|Ha]; eauto.
Qed.

Section Extraction.
Import Optimizer.
Context (value : var → Z) (x : gmap (Z * Z) var).

Lemma dict_get_ok `{Countable K} {V : Type} (d : gmap K V) (k : K) (v : V) :
  dict_get d k = Ok v ↔ d !! k = Some v.
Proof.
  unfold dict_get. destruct (d !! k); split; intros [=]; by subst.
Qed.

Lemma first_seat_found (i : Z) (seats : list Z) (s : Z) :
  first_seat value x i seats = Ok (Some s) →
  ∃ v, x !! (i, s) = Some v ∧ value v = 1.
Proof.
  induction seats as [|s' seats IH]; simpl; [discriminate|].
  intros (v & Hv%dict_get_ok & Hrest)%bind_ok.
  case_bool_decide as Hval.
  - injection Hrest as <-. eauto.
  - by apply IH.
Qed.

(** Every seat recorded by the extraction has a variable of value 1. *)
Lemma extract_assignment_ones (P S : Z) (a : gmap Z Z) :
  extract_assignment value x P S = Ok a →
  ∀ i s, a !! i = Some s → ∃ v, x !! (i, s) = Some v ∧ value v = 1.
Proof.
  unfold extract_assignment.
  assert (∀ l (init a : gmap Z Z),
    (∀ i s, init !! i = Some s → ∃ v, x !! (i, s) = Some v ∧ value v = 1) →
    for_each l (fun i assign_idx =>
      let! found := first_seat value x i (range S) in
      Ok (match found with
          | Some s => <[i := s]> assign_idx
          | None => assign_idx
          end)) init = Ok a →
    ∀ i s, a !! i = Some s → ∃ v, x !! (i, s) = Some v ∧ value v = 1) as Hgen.
  { clear a. intros l. induction l as [|j l IH]; intros init a Hinit; simpl.
    - by intros [= <-].
    - destruct (first_seat value x j (range S)) as [found|] eqn:Ef;
        [|discriminate].
      simpl. apply IH. destruct found as [s'|]; [|done].
      intros i s. destruct (decide (i = j)) as [->|Hne].
      + rewrite lookup_insert_eq. intros [= <-].
        by apply (first_seat_found j (range S)).
      + rewrite lookup_insert_ne by done. apply Hinit. }
  apply Hgen. intros i s H. by rewrite lookup_empty in H.
Qed.

(** The variables of a cut, person by person. *)
Lemma cut_variables_spec (a : gmap Z Z) (P : Z) (vs : list var) :
  cut_variables x a P = Ok vs →
  Forall2 (fun i v => ∃ s, a !! i = Some s ∧ x !! (i, s) = Some v)
          (range P) vs.
Proof.
  unfold cut_variables.
  assert (∀ l acc vs,
    for_each l (fun i acc =>
      let! s := dict_get a i in
      let! v := dict_get x (i, s) in
      Ok (acc ++ [v])) acc = Ok vs →
    ∃ vs', vs = acc ++ vs'
      ∧ Forall2 (fun i v => ∃ s, a !! i = Some s ∧ x !! (i, s) = Some v)
                l vs') as Hgen.
  { clear vs. intros l. induction l as [|i l IH]; intros acc vs; simpl.
    - intros [= <-]. exists []. by rewrite app_nil_r.
    - destruct (dict_get a i) as [s|] eqn:Es; [|discriminate]. simpl.
      destruct (dict_get x (i, s)) as [v|] eqn:Ev; [|discriminate]. simpl.
      intros (vs' & -> & Hall)%IH. exists (v :: vs').
      rewrite <-app_assoc. split; [done|]. constructor; [|done].
      exists s. by rewrite <-!dict_get_ok. }
  intros (vs' & -> & Hall)%Hgen. done.
Qed.

Lemma sum_values_ones (vs : list var) :
  Forall (fun v => value v = 1) vs →
  sum_values value vs = Z.of_nat (length vs).
Proof.
  unfold sum_values.
  induction 1 as [|v vs Hv Hall IH]; simpl; [done|].
  rewrite IH, Hv. lia.
Qed.

(** A solution extracted from a valuation that satisfies the cut of an
    earlier solution differs from it. *)
Lemma cut_excludes (P S : Z) (a_old a : gmap Z Z) (vs_old vs : list var) :
  0 ≤ P →
  extract_assignment value x P S = Ok a →
  cut_variables x a P = Ok vs →
  cut_variables x a_old P = Ok vs_old →
  holds value (SumLe vs_old (P - 1)) = true →
  differ P a_old a.
Proof.
  intros HP Hext Hcut Hold Hholds.
  pose proof (extract_assignment_ones P S a Hext) as Hones.
  apply cut_variables_spec in Hcut, Hold.
  destruct (decide (Forall (fun i => a_old !! i = a !! i) (range P)))
    as [Hsame|Hdiff].
  - exfalso. simpl in Hholds. apply bool_decide_eq_true in Hholds.
    assert (Forall (fun v => value v = 1) vs_old) as Hall.
    { clear Hholds Hcut. revert Hsame.
      induction Hold as [|i v l vs' (s & Hs & Hx) Hrest IH];
        intros Hsame; constructor.
      - apply Forall_inv in Hsame. rewrite Hs in Hsame.
        destruct (Hones i s) as (v' & Hv' & Hval); [done|]. congruence.
      - apply IH. by apply Forall_inv_tail in Hsame. }
    rewrite (sum_values_ones _ Hall) in Hholds.
    apply Forall2_length in Hold. rewrite <-Hold in Hholds.
    unfold range in Hholds. rewrite length_seqZ in Hholds. lia.
  - apply not_Forall_Exists in Hdiff; [|intros i; apply _].
    apply Exists_exists in Hdiff as (i & Hi & Hne).
    apply elem_of_range in Hi as Hi'.
    destruct (Forall2_elem_of_l _ _ _ _ Hold Hi) as (v1 & s1 & Hs1 & _).
    destruct (Forall2_elem_of_l _ _ _ _ Hcut Hi) as (v2 & s2 & Hs2 & _).
    exists i, s1, s2. repeat split; [lia..|done|done|congruence].
Qed.

End Extraction.

Section TopNLoop.
Import Optimizer.
Context (solver : Z → CpModel → response) (progress_callback : bool).
Context (people : list string) (x : gmap (Z * Z) var) (m_vars : list var).
Context (P S top_n : Z).

#[local] Arguments io_bind : simpl never.

Lemma progress_value (fraction : float) (message : string) :
  (progress progress_callback fraction message).2 = Ok tt.
Proof. unfold progress. by destruct progress_callback. Qed.

(** The value computed by one iteration, without its events. *)
Lemma iteration_value (k : Z) (st : loop_state) :
  (iteration solver progress_callback people x m_vars P S top_n k st).2
  = let answer := solver k (model st) in
    if negb (bool_decide (status answer = OPTIMAL)
             || bool_decide (status answer = FEASIBLE))
    then Ok (Break st)
    else
      let! assign_idx := extract_assignment (value answer) x P S in
      let! assignment := name_assignment people assign_idx P in
      let! cut := cut_variables x assign_idx P in
      Ok (Next {| model :=
                    {| variables := variables (model st);
                       constraints :=
                         constraints (model st) ++ [SumLe cut (P - 1)];
                       objective := objective (model st) |};
                  results :=
                    results st
                    ++ [new_result assignment
                          match m_vars with
                          | [] => 0%float
                          | _ :: _ => objective_value answer
                          end (status answer)];
                  used_solutions := used_solutions st ++ [assign_idx] |}).
Proof.
  unfold iteration. rewrite io_bind_value, progress_value. simpl.
  rewrite io_bind_value. simpl.
  destruct (negb _); [done|].
  rewrite io_bind_value. simpl.
  destruct (extract_assignment _ x P S) as [a|]; [|done]. simpl.
  rewrite io_bind_value. simpl.
  destruct (name_assignment people a P) as [assignment|]; [|done]. simpl.
  rewrite io_bind_value. simpl.
  by destruct (cut_variables x a P).
Qed.

Lemma solve_loop_value (ks : list Z) (st : loop_state) :
  (solve_loop solver progress_callback people x m_vars P S top_n ks st).2
  = match ks with
    | [] => Ok st
    | k :: ks' =>
        let! step :=
          (iteration solver progress_callback people x m_vars P S top_n k
             st).2 in
        match step with
        | Next st' =>
            (solve_loop solver progress_callback people x m_vars P S top_n
               ks' st').2
        | Break st' => Ok st'
        end
    end.
Proof.
  destruct ks as [|k ks]; simpl; [done|].
  rewrite io_bind_value. destruct (iteration _ _ _ _ _ _ _ _ _ _).2; [|done].
  simpl. by destruct a.
Qed.

Hypothesis solver_sound : sound solver.
Hypothesis P_nonneg : 0 ≤ P.

(** One successful iteration keeps the invariant. *)
Lemma iteration_invariant (k : Z) (st st' : loop_state) :
  loop_invariant people x P st →
  (iteration solver progress_callback people x m_vars P S top_n k st).2
  = Ok (Next st') →
  loop_invariant people x P st'.
Proof.
  intros (Hcuts & Hlen & Hdiff). rewrite iteration_value. simpl.
  destruct (negb _) eqn:Hstatus; [discriminate|].
  apply negb_false_iff, orb_true_iff in Hstatus.
  rewrite !bool_decide_eq_true in Hstatus.
  pose proof (solver_sound k (model st) Hstatus) as Hsat.
  unfold satisfies in Hsat. rewrite forallb_forall in Hsat.
  intros (a & Hext & (assignment & Hname & (cut & Hcut & Hst)%bind_ok)%bind_ok)
    %bind_ok.
  injection Hst as <-. unfold loop_invariant. simpl.
  assert (∀ k' a', used_solutions st !! k' = Some a' → differ P a' a) as Hnew.
  { intros k' a' Hk'. destruct (Hcuts k' a' Hk') as (r & vs & _ & _ & Hvs & Hin).
    apply (cut_excludes (value (solver k (model st))) x P S a' a vs cut);
      try done.
    apply Hsat. by apply list_elem_of_In. }
  split; [|split].
  - intros k' a'. rewrite lookup_app_Some. intros [Hk'|[Hge Hk']].
    + destruct (Hcuts k' a' Hk') as (r & vs & Hr & Hn & Hvs & Hin).
      exists r, vs. split; [by apply lookup_app_l_Some|].
      split; [done|]. split; [done|]. apply elem_of_app. by left.
    + apply list_lookup_singleton_Some in Hk' as [Hk' <-].
      eexists _, cut. split; [|split; [|split]].
      * rewrite lookup_app_r by lia. rewrite Hlen.
        replace (k' - length (used_solutions st))%nat with 0%nat by lia.
        reflexivity.
      * done.
      * done.
      * apply elem_of_app. right. by apply list_elem_of_singleton.
  - rewrite !length_app. simpl. lia.
  - intros k1 k2 a1 a2 Hne. rewrite !lookup_app_Some.
    intros [H1|[Hge1 H1]] [H2|[Hge2 H2]].
    + by apply (Hdiff k1 k2).
    + apply list_lookup_singleton_Some in H2 as [_ <-]. by apply (Hnew k1).
    + apply list_lookup_singleton_Some in H1 as [_ <-].
      destruct (Hnew k2 a2 H2) as (i & s1 & s2 & ? & ? & ? & ?).
      exists i, s2, s1. repeat split; try done. lia. lia.
    + apply list_lookup_singleton_Some in H1 as [? _], H2 as [? _]. lia.
Qed.

Lemma iteration_break (k : Z) (st st' : loop_state) :
  (iteration solver progress_callback people x m_vars P S top_n k st).2
  = Ok (Break st') → st' = st.
Proof.
  rewrite iteration_value. simpl. destruct (negb _); [by intros [= <-]|].
  intros (a & _ & (assignment & _ & (cut & _ & [=])%bind_ok)%bind_ok)%bind_ok.
Qed.

Lemma solve_loop_invariant (ks : list Z) (st st' : loop_state) :
  loop_invariant people x P st →
  (solve_loop solver progress_callback people x m_vars P S top_n ks st).2
  = Ok st' →
  loop_invariant people x P st'.
Proof.
  revert st. induction ks as [|k ks IH]; intros st Hinv;
    rewrite solve_loop_value.
  - by intros [= <-].
  - intros ([st1|st1] & Hstep & Hrest)%bind_ok.
    + apply (IH st1); [|done]. by apply (iteration_invariant k st).
    + injection Hrest as <-. by rewrite (iteration_break k st st1).
Qed.

End TopNLoop.

Section DistinctPlans.
Import Optimizer.

Lemma name_assignment_lookup (people : list string) (a : gmap Z Z) (P : Z)
    (m : gmap string Z) (idx : Z) (name : string) (s : Z) :
  NoDup people → name_assignment people a P = Ok m →
  0 ≤ idx < P → people !! Z.to_nat idx = Some name → a !! idx = Some s →
  m !! name = Some s.
Proof.
  intros Hnd Hm Hidx Hname Hs. unfold name_assignment in Hm.
  assert (∀ l (init m : gmap string Z),
    (∀ i, i ∈ l → 0 ≤ i) → NoDup l →
    for_each l (fun i assignment =>
      let! name := py_index people i in
      let! s := dict_get a i in
      Ok (<[name := s]> assignment)) init = Ok m →
    (idx ∈ l → m !! name = Some s)
    ∧ (idx ∉ l → m !! name = init !! name)) as Hgen.
  { clear m Hm. intros l.
    induction l as [|j l IH]; intros init m Hpos Hndl; simpl.
    - intros [= <-]. split; [intros H; inversion H|done].
    - destruct (py_index people j) as [n|] eqn:Hn; simpl; [|discriminate].
      destruct (dict_get a j) as [s'|] eqn:Hs'; simpl; [|discriminate].
      apply dict_get_ok in Hs'. intros Hrest.
      apply py_index_nonneg_inv in Hn; [|apply Hpos; left].
      apply NoDup_cons in Hndl as [Hj Hndl].
      destruct (IH _ _ (fun i Hi => Hpos i (list_elem_of_further _ _ _ Hi))
                  Hndl Hrest) as [IH1 IH2].
      split.
      + intros [->|Hin]%elem_of_cons; [|by apply IH1].
        rewrite IH2 by done. simplify_eq. apply lookup_insert_eq.
      + intros Hnin. apply not_elem_of_cons in Hnin as [Hne Hnin].
        rewrite IH2 by done. apply lookup_insert_ne. intros ->.
        apply Hne. apply (NoDup_lookup _ _ _ _ Hnd Hname) in Hn.
        assert (0 ≤ j) by (apply Hpos; left). lia. }
  destruct (Hgen (range P) ∅ m) as [H1 _]; [| |done|].
  - intros i Hi%elem_of_range. lia.
  - apply NoDup_seqZ.
  - apply H1. by apply elem_of_range.
Qed.

Section Build.
Context (solver : Z → CpModel → response) (progress_callback : bool).
Context (people : list string) (seats : list seat).

#[local] Arguments io_bind : simpl never.

Lemma build_and_solve_invariant (weighted : list (Z * Z * float))
    (oriented_edges : list edge) (top_n : Z) (st : loop_state) :
  sound solver →
  (build_and_solve solver progress_callback people seats weighted
     oriented_edges top_n (Z.of_nat (length people))
     (Z.of_nat (length seats))).2 = Ok st →
  ∃ x, loop_invariant people x (Z.of_nat (length people)) st.
Proof.
  intros Hsound. unfold build_and_solve.
  rewrite io_bind_value, progress_value. simpl.
  rewrite io_bind_value, progress_value. simpl.
  rewrite io_bind_value.
  intros ([model1 x] & _ & Hrest)%bind_ok. exists x. revert Hrest.
  rewrite io_bind_value, progress_value. simpl.
  rewrite io_bind_value. intros (model2 & _ & Hrest)%bind_ok. revert Hrest.
  rewrite io_bind_value, progress_value. simpl.
  rewrite io_bind_value.
  intros ([[model3 m_vars] m_coeffs] & _ & Hrest)%bind_ok. revert Hrest.
  rewrite io_bind_value. intros (model4 & _ & Hrest)%bind_ok. revert Hrest.
  rewrite io_bind_value. intros (st' & Hloop & Hrest)%bind_ok. revert Hrest.
  rewrite io_bind_value, progress_value. simpl. intros [= <-].
  eapply solve_loop_invariant; [exact Hsound|lia| |exact Hloop].
  split; [|split]; simpl.
  - intros k a Hk. by rewrite lookup_nil in Hk.
  - done.
  - intros k1 k2 a1 a2 _ Hk. by rewrite lookup_nil in Hk.
Qed.

End Build.

(** C3, amended. Under a sound solver and for a list of people without
    repeated names, the assignments of a returned result list are pairwise
    distinct: any two results put at least one person on different seat
    indices. This holds because each extracted solution adds its no-good
    cut (the sum of the indicator variables of that solution is at most the
    person count minus one) and the cuts stay in the model for every later
    solve, which the loop invariant records for the final state of the
    loop. *)
Theorem top_n_results_distinct (solver : Z → CpModel → response)
    (progress_callback : bool) (people : list string) (seats : list seat)
    (pair_weights : list (gset string * float)) (oriented_edges : list edge)
    (top_n : Z) (plans : list SeatAssignmentResult) :
  sound solver → NoDup people →
  (solve_top_n_assignments solver progress_callback people seats
     pair_weights oriented_edges top_n).2 = Ok plans →
  (∀ i j r1 r2, i ≠ j → plans !! i = Some r1 → plans !! j = Some r2 →
     ∃ person idx1 idx2,
       person ∈ people
       ∧ assignment r1 !! person = Some idx1
       ∧ assignment r2 !! person = Some idx2
       ∧ idx1 ≠ idx2)
  ∧ ∃ x st,
      results st = plans
      ∧ loop_invariant people x (Z.of_nat (length people)) st.
Proof.
  intros Hsound Hnd. unfold solve_top_n_assignments.
  rewrite io_bind_value. simpl.
  intros (weighted & _ & Hrest)%bind_ok. revert Hrest.
  rewrite io_bind_value, progress_value. simpl.
  case_bool_decide as HPS; [discriminate|].
  rewrite io_bind_value.
  intros (st & (x & Hinv)%build_and_solve_invariant & [= <-])%bind_ok;
    [|done].
  split; [|by exists x, st].
  destruct Hinv as (Hcuts & Hlen & Hdiff).
  intros i j r1 r2 Hne Hr1 Hr2.
  destruct (lookup_lt_is_Some_2 (used_solutions st) i) as [a1 Ha1];
    [rewrite <-Hlen; by eapply lookup_lt_Some|].
  destruct (lookup_lt_is_Some_2 (used_solutions st) j) as [a2 Ha2];
    [rewrite <-Hlen; by eapply lookup_lt_Some|].
  destruct (Hcuts i a1 Ha1) as (r1' & vs1 & Hr1' & Hn1 & _).
  destruct (Hcuts j a2 Ha2) as (r2' & vs2 & Hr2' & Hn2 & _).
  simplify_eq.
  destruct (Hdiff i j a1 a2 Hne Ha1 Ha2) as (idx & s1 & s2 & Hidx & Hs1 & Hs2 & Hs).
  destruct (lookup_lt_is_Some_2 people (Z.to_nat idx)) as [person Hp]; [lia|].
  exists person, s1, s2. split; [by eapply list_elem_of_lookup_2|].
  split; [by eapply name_assignment_lookup|].
  split; [by eapply name_assignment_lookup|done].
Qed.

Lemma checking_solver_sound (candidate : Z → var → Z) :
  sound (checking_solver candidate).
Proof.
  intros k model. unfold checking_solver.
  destruct (satisfies (candidate k) model) eqn:E; simpl; [done|].
  intros [?|?]; discriminate.
Qed.

End DistinctPlans.

Section DistinctWitness.
Import Optimizer.

Lemma two_seat_run :
  (solve_top_n_assignments (checking_solver two_seat_candidates) false
     ["A"; "B"] [(0, 0); (0, 1)] [] [] 3).2
  = Ok [new_result {[ "A" := 0; "B" := 1 ]} 0%float FEASIBLE;
        new_result {[ "A" := 1; "B" := 0 ]} 0%float FEASIBLE].
Proof. vm_compute. reflexivity. Qed.

Lemma top_n_results_distinct_witness :
  (sound (checking_solver two_seat_candidates)
   ∧ NoDup ["A"; "B"]
   ∧ (solve_top_n_assignments (checking_solver two_seat_candidates) false
        ["A"; "B"] [(0, 0); (0, 1)] [] [] 3).2
     = Ok [new_result {[ "A" := 0; "B" := 1 ]} 0%float FEASIBLE;
           new_result {[ "A" := 1; "B" := 0 ]} 0%float FEASIBLE])
  ∧ ∃ person idx1 idx2,
      person ∈ ["A"; "B"]
      ∧ assignment (new_result {[ "A" := 0; "B" := 1 ]} 0%float FEASIBLE)
        !! person = Some idx1
      ∧ assignment (new_result {[ "A" := 1; "B" := 0 ]} 0%float FEASIBLE)
        !! person = Some idx2
      ∧ idx1 ≠ idx2.
Proof.
  assert (NoDup ["A"; "B"]) as Hnd.
  { apply NoDup_cons. split; [|apply NoDup_singleton].
    intros H%list_elem_of_singleton. discriminate. }
  split; [split; [apply checking_solver_sound|split; [exact Hnd|]];
          exact two_seat_run|].
  apply (proj1 (top_n_results_distinct (checking_solver two_seat_candidates)
                  false ["A"; "B"] [(0, 0); (0, 1)] [] [] 3 _
                  (checking_solver_sound _) Hnd two_seat_run)
           0%nat 1%nat); [lia|reflexivity|reflexivity].
Defined.

(** C3, counterexample. With a repeated name the plans need not differ.
    For the people A, A, B on four seats a sound solver that first seats
    the three people on the seats 0, 1, 2 and then moves the first one to
    seat 3 satisfies the no-good cut, yet both returned results hold the
    same assignment, A on seat 1 and B on seat 2: the dictionary of line
    172 keeps one seat per name. No person is mapped to two different
    seats by the two results. *)
Lemma repeated_name_plans_coincide :
  sound (checking_solver repeated_name_candidates)
  ∧ (solve_top_n_assignments (checking_solver repeated_name_candidates)
       false ["A"; "A"; "B"] [(0, 0); (0, 1); (1, 0); (1, 1)] [] [] 2).2
    = Ok [new_result {[ "A" := 1; "B" := 2 ]} 0%float FEASIBLE;
          new_result {[ "A" := 1; "B" := 2 ]} 0%float FEASIBLE]
  ∧ ¬ ∃ person idx1 idx2,
        person ∈ ["A"; "A"; "B"]
        ∧ assignment (new_result {[ "A" := 1; "B" := 2 ]} 0%float FEASIBLE)
          !! person = Some idx1
        ∧ assignment (new_result {[ "A" := 1; "B" := 2 ]} 0%float FEASIBLE)
          !! person = Some idx2
        ∧ idx1 ≠ idx2.
Proof.
  split; [apply checking_solver_sound|]. split; [vm_compute; reflexivity|].
  intros (person & idx1 & idx2 & _ & H1 & H2 & Hne). congruence.
Qed.

End DistinctWitness.

(** ** The pair-weight filters and the seat-count check *)

Section Filters.
Import Optimizer.

Lemma weighted_pairs_acc (l : list (gset string * float))
    (acc : list (string * string * float)) :
  for_each l (fun '(p, w) acc =>
    if significant w then
      let! a := py_index (elements p) 0 in
      let! b := py_index (elements p) 1 in
      Ok (acc ++ [(a, b, w)])
    else Ok acc) acc
  = let! r := weighted_pairs l in Ok (acc ++ r).
Proof.
  unfold weighted_pairs. revert acc.
  induction l as [|[p w] l IH]; intros acc; simpl.
  - by rewrite app_nil_r.
  - destruct (significant w); [|apply IH].
    destruct (py_index (elements p) 0) as [a|]; simpl; [|done].
    destruct (py_index (elements p) 1) as [b|]; simpl; [|done].
    rewrite (IH (acc ++ [(a, b, w)])), (IH [(a, b, w)]).
    destruct (for_each l _ []); simpl; [|done].
    by rewrite <-app_assoc.
Qed.

Lemma weighted_pairs_app (l1 l2 : list (gset string * float)) :
  weighted_pairs (l1 ++ l2)
  = let! a := weighted_pairs l1 in
    let! b := weighted_pairs l2 in Ok (a ++ b).
Proof.
  unfold weighted_pairs at 1. rewrite for_each_app.
  fold (weighted_pairs l1). destruct (weighted_pairs l1) as [a|]; simpl;
    [|done].
  apply weighted_pairs_acc.
Qed.

Lemma weighted_idx_pairs_acc (name_to_idx : gmap string Z)
    (l : list (string * string * float)) (acc : list (Z * Z * float)) :
  foldl (fun acc '(a, b, w) =>
           match name_to_idx !! a, name_to_idx !! b with
           | Some ia, Some ib =>
               if bool_decide (ia = ib) then acc
               else if bool_decide (ia > ib) then acc ++ [(ib, ia, w)]
               else acc ++ [(ia, ib, w)]
           | _, _ => acc
           end) acc l
  = acc ++ weighted_idx_pairs name_to_idx l.
Proof.
  unfold weighted_idx_pairs. revert acc.
  induction l as [|[[a b] w] l IH]; intros acc; simpl.
  - by rewrite app_nil_r.
  - rewrite IH. symmetry. rewrite IH.
    destruct (name_to_idx !! a) as [ia|]; [|done].
    destruct (name_to_idx !! b) as [ib|]; [|done].
    repeat case_bool_decide; simpl; by rewrite <-?app_assoc.
Qed.

Lemma weighted_idx_pairs_app (name_to_idx : gmap string Z)
    (l1 l2 : list (string * string * float)) :
  weighted_idx_pairs name_to_idx (l1 ++ l2)
  = weighted_idx_pairs name_to_idx l1 ++ weighted_idx_pairs name_to_idx l2.
Proof.
  unfold weighted_idx_pairs at 1. rewrite foldl_app.
  fold (weighted_idx_pairs name_to_idx l1). apply weighted_idx_pairs_acc.
Qed.

(** The second filter does skip a triple whose two names coincide. *)
Lemma self_pair_triple_skipped (name_to_idx : gmap string Z)
    (l : list (string * string * float)) (a : string) (w : float) :
  weighted_idx_pairs name_to_idx (l ++ [(a, a, w)])
  = weighted_idx_pairs name_to_idx l.
Proof.
  rewrite weighted_idx_pairs_app. unfold weighted_idx_pairs at 2. simpl.
  destruct (name_to_idx !! a); [|by rewrite app_nil_r].
  rewrite bool_decide_eq_true_2 by done. by rewrite app_nil_r.
Qed.

Lemma index_dict_is_Some `{Countable K} (l : list K) (k : K) :
  is_Some (index_dict l !! k) ↔ k ∈ l.
Proof.
  unfold index_dict.
  assert (∀ (ps : list (Z * K)) (d : gmap K Z),
    is_Some (foldl (fun d '(i, k) => <[k := i]> d) d ps !! k)
    ↔ is_Some (d !! k) ∨ k ∈ ps.*2) as Hgen.
  { intros ps. induction ps as [|[i k'] ps IH]; intros d; simpl.
    - split; [auto|]. intros [?|Hin]; [done|inversion Hin].
    - rewrite IH. destruct (decide (k = k')) as [->|Hne].
      + rewrite lookup_insert_eq. split; [intros _|by left]. right. left.
      + rewrite lookup_insert_ne by done. rewrite elem_of_cons.
        split; [intros [?|?]; auto|intros [?|[?|?]]; auto; done]. }
  rewrite Hgen, lookup_empty. unfold enumerate.
  rewrite snd_zip by (unfold range; rewrite length_seqZ; lia).
  split; [intros [[? ?]|?]; done|auto].
Qed.

Lemma elements_pair (a b : string) :
  a ≠ b →
  elements ({[a; b]} : gset string) = [a; b]
  ∨ elements ({[a; b]} : gset string) = [b; a].
Proof.
  intros Hab.
  pose proof (NoDup_elements ({[a; b]} : gset string)) as Hnd.
  assert (∀ x, x ∈ elements ({[a; b]} : gset string) ↔ x = a ∨ x = b) as Hel.
  { intros x. rewrite elem_of_elements. set_solver. }
  destruct (elements ({[a; b]} : gset string)) as [|x [|y [|z l]]].
  - assert (a ∈ @nil string) as Hin by (apply Hel; by left). inversion Hin.
  - exfalso.
    assert (a = x) by (apply list_elem_of_singleton, Hel; by left).
    assert (b = x) by (apply list_elem_of_singleton, Hel; by right).
    congruence.
  - assert (x = a ∨ x = b) as Hx by (apply Hel; left).
    assert (y = a ∨ y = b) as Hy by (apply Hel; right; left).
    apply NoDup_cons in Hnd as [Hxy _].
    rewrite list_elem_of_singleton in Hxy.
    destruct Hx as [-> | ->], Hy as [-> | ->]; auto; done.
  - exfalso.
    assert (x = a ∨ x = b) as Hx by (apply Hel; left).
    assert (y = a ∨ y = b) as Hy by (apply Hel; right; left).
    assert (z = a ∨ z = b) as Hz by (apply Hel; right; right; left).
    apply NoDup_cons in Hnd as [Hx' Hnd].
    apply NoDup_cons in Hnd as [Hy' _].
    rewrite !elem_of_cons in Hx', Hy'.
    destruct Hx as [-> | ->], Hy as [-> | ->], Hz as [-> | ->];
      solve [apply Hx'; auto | apply Hx'; right; left
             | apply Hy'; auto | apply Hy'; right; left].
Qed.

(** The two filters together drop every ignorable entry. *)
Lemma ignorable_dropped (people : list string)
    (extra : list (gset string * float)) :
  Forall (ignorable people) extra →
  ∃ triples,
    weighted_pairs extra = Ok triples
    ∧ weighted_idx_pairs (index_dict people) triples = [].
Proof.
  induction 1 as [|[p w] extra Hi Hall (triples & Ht & Hidx)].
  - by exists [].
  - change ((p, w) :: extra) with ([(p, w)] ++ extra).
    rewrite weighted_pairs_app, Ht.
    destruct Hi as [Hneg|(a & b & Hab & Hp & Hmem)]; simpl in *.
    + unfold weighted_pairs. simpl. rewrite Hneg. simpl. by exists triples.
    + unfold weighted_pairs. simpl.
      destruct (significant w); simpl; [|by exists triples]. subst p.
      assert (weighted_idx_pairs (index_dict people) [(a, b, w)] = []
              ∧ weighted_idx_pairs (index_dict people) [(b, a, w)] = [])
        as [H1 H2].
      { unfold weighted_idx_pairs. simpl.
        destruct (index_dict people !! a) as [ia|] eqn:Ea;
          destruct (index_dict people !! b) as [ib|] eqn:Eb; try done.
        destruct Hmem. split; apply index_dict_is_Some; eauto. }
      destruct (elements_pair a b Hab) as [-> | ->]; simpl;
        eexists; (split; [done|]);
        change (?t :: triples) with ([t] ++ triples);
        rewrite weighted_idx_pairs_app, Hidx; by rewrite ?H1, ?H2.
Qed.

(** The part of C10 that holds: entries with a negligible weight, and
    entries whose two distinct names are not both in the people list, change
    neither the filtered index-pair list nor anything computed from it. *)
Lemma ignorable_entries_ignored (solver : Z → CpModel → response)
    (progress_callback : bool) (people : list string) (seats : list seat)
    (before extra after : list (gset string * float))
    (oriented_edges : list edge) (top_n : Z) :
  Forall (ignorable people) extra →
  (let! triples := weighted_pairs (before ++ extra ++ after) in
   Ok (weighted_idx_pairs (index_dict people) triples))
  = (let! triples := weighted_pairs (before ++ after) in
     Ok (weighted_idx_pairs (index_dict people) triples))
  ∧ solve_top_n_assignments solver progress_callback people seats
      (before ++ extra ++ after) oriented_edges top_n
    = solve_top_n_assignments solver progress_callback people seats
        (before ++ after) oriented_edges top_n.
Proof.
  intros (triples & Ht & Hidx)%ignorable_dropped.
  unfold solve_top_n_assignments.
  rewrite !weighted_pairs_app, Ht.
  destruct (weighted_pairs before) as [a|]; simpl; [|done].
  destruct (weighted_pairs after) as [c|]; simpl; [|done].
  rewrite !weighted_idx_pairs_app, Hidx. done.
Qed.

(** What the code does on an entry whose two names coincide: the key is a
    one-element set, and [list(p)[1]] raises before any filtering. *)
Lemma singleton_key_raises (before after : list (gset string * float))
    (a : string) (w : float) (triples : list (string * string * float)) :
  significant w = true → weighted_pairs before = Ok triples →
  weighted_pairs (before ++ ({[a; a]}, w) :: after) = Raise IndexError.
Proof.
  intros Hw Hb.
  change (({[a; a]}, w) :: after) with ([(({[a; a]} : gset string), w)] ++ after).
  rewrite !weighted_pairs_app, Hb. simpl.
  unfold weighted_pairs at 1. simpl. rewrite Hw.
  assert (({[a; a]} : gset string) = {[a]}) as -> by set_solver.
  by rewrite elements_singleton.
Qed.

End Filters.

Section SeatCountCheck.
Import Optimizer.

(** C10. An entry whose two names coincide is not silently ignored. For
    the people A and B on two seats, the pair-weight
    map whose only entry is [frozenset(["A", "A"])] with weight 5.0 makes
    the call raise [IndexError] at line 51, before anything is built or
    solved, while the same call without that entry returns two plans. *)
Theorem coinciding_names_entry_raises :
  solve_top_n_assignments (checking_solver two_seat_candidates) false
    ["A"; "B"] [(0, 0); (0, 1)] [({["A"; "A"]}, 5%float)] [] 3
  = ([], Raise IndexError)
  ∧ (solve_top_n_assignments (checking_solver two_seat_candidates) false
       ["A"; "B"] [(0, 0); (0, 1)] [] [] 3).2
    = Ok [new_result {[ "A" := 0; "B" := 1 ]} 0%float FEASIBLE;
          new_result {[ "A" := 1; "B" := 0 ]} 0%float FEASIBLE].
Proof. split; vm_compute; reflexivity. Qed.

(** C2. The seat-count check is not reached for every call with more
    people than seats. For the people A, B, C on two seats, the pair-weight
    map whose only entry is [frozenset(["A"])] with weight 5.0 makes the
    call raise [IndexError] at line 51, before the first progress report
    and before the check of line 67, while the same call without that entry
    raises the [ValueError] of the check. *)
Theorem oversubscribed_short_key_index_error :
  solve_top_n_assignments (checking_solver two_seat_candidates) true
    ["A"; "B"; "C"] [(0, 0); (0, 1)] [({["A"]}, 5%float)] [] 3
  = ([], Raise IndexError)
  ∧ solve_top_n_assignments (checking_solver two_seat_candidates) true
      ["A"; "B"; "C"] [(0, 0); (0, 1)] [] [] 3
    = ([Progress 0%float "初始化求解器..."],
       Raise (ValueError "座位数(2)不足以容纳全部人员(3)")).
Proof. split; vm_compute; reflexivity. Qed.

Lemma no_value_error_ok {A : Type} (a : A) : no_value_error (Ok a).
Proof. intros msg. discriminate. Qed.

Lemma no_value_error_py_index {A : Type} (l : list A) (i : Z) :
  no_value_error (py_index l i).
Proof.
  intros msg. unfold py_index. case_bool_decide; [discriminate|].
  by destruct (l !! _).
Qed.

Lemma no_value_error_dict_get `{Countable K} {V : Type} (d : gmap K V)
    (k : K) :
  no_value_error (dict_get d k).
Proof. intros msg. unfold dict_get. by destruct (d !! k). Qed.

Lemma no_value_error_bind {A B : Type} (m : result A) (k : A → result B) :
  no_value_error m → (∀ a, no_value_error (k a)) → no_value_error (bind m k).
Proof.
  intros Hm Hk msg. destruct m as [a|e]; simpl; [apply Hk|].
  intros [= ->]. by apply (Hm msg).
Qed.

Lemma no_value_error_for_each {A S : Type} (xs : list A)
    (body : A → S → result S) (s : S) :
  (∀ x s, no_value_error (body x s)) → no_value_error (for_each xs body s).
Proof.
  intros Hbody. revert s. induction xs as [|x xs IH]; intros s msg; simpl;
    [discriminate|].
  destruct (body x s) as [s'|e] eqn:E; [apply IH|].
  intros [= ->]. by apply (Hbody x s msg).
Qed.

Lemma no_value_error_io_bind {A B : Type} (m : io A) (k : A → io B) :
  no_value_error m.2 → (∀ a, no_value_error (k a).2) →
  no_value_error (io_bind m k).2.
Proof. intros Hm Hk. rewrite io_bind_value. by apply no_value_error_bind. Qed.

Lemma no_value_error_for_io {A S : Type} (xs : list A) (body : A → S → io S)
    (s : S) :
  (∀ x s, no_value_error (body x s).2) → no_value_error (for_io xs body s).2.
Proof.
  intros Hbody. rewrite for_io_value. by apply no_value_error_for_each.
Qed.

Lemma no_value_error_weighted_pairs (pair_weights : list (gset string * float)) :
  no_value_error (weighted_pairs pair_weights).
Proof.
  apply no_value_error_for_each. intros [p w] acc.
  destruct (significant w); [|apply no_value_error_ok].
  apply no_value_error_bind; [apply no_value_error_py_index|]. intros a.
  apply no_value_error_bind; [apply no_value_error_py_index|]. intros b.
  apply no_value_error_ok.
Qed.

Section NoValueError.
Context (solver : Z → CpModel → response) (progress_callback : bool).

Lemma no_value_error_io_ret {A : Type} (a : A) :
  no_value_error (io_ret a).2.
Proof. apply no_value_error_ok. Qed.

Lemma no_value_error_io_lift {A : Type} (r : result A) :
  no_value_error r → no_value_error (io_lift r).2.
Proof. done. Qed.

Lemma no_value_error_progress (fraction : float) (message : string) :
  no_value_error (progress progress_callback fraction message).2.
Proof. rewrite progress_value. apply no_value_error_ok. Qed.

Lemma no_value_error_first_seat (value : var → Z) (x : gmap (Z * Z) var)
    (i : Z) (seats : list Z) :
  no_value_error (first_seat value x i seats).
Proof.
  induction seats as [|s seats IH]; simpl; [apply no_value_error_ok|].
  apply no_value_error_bind; [apply no_value_error_dict_get|].
  intros v. case_bool_decide; [apply no_value_error_ok|apply IH].
Qed.

Ltac no_value_error_step :=
  lazymatch goal with
  | |- no_value_error (Ok _) => apply no_value_error_ok
  | |- no_value_error (io_ret _).2 => apply no_value_error_io_ret
  | |- no_value_error (progress _ _ _).2 => apply no_value_error_progress
  | |- no_value_error (py_index _ _) => apply no_value_error_py_index
  | |- no_value_error (dict_get _ _) => apply no_value_error_dict_get
  | |- no_value_error (first_seat _ _ _ _) => apply no_value_error_first_seat
  | |- no_value_error (io_lift _).2 => apply no_value_error_io_lift
  | |- no_value_error (bind _ _) => apply no_value_error_bind
  | |- no_value_error (for_each _ _ _) => apply no_value_error_for_each
  | |- no_value_error (io_bind _ _).2 => apply no_value_error_io_bind
  | |- no_value_error (for_io _ _ _).2 => apply no_value_error_for_io
  | |- no_value_error (new_bool_var _ _).2 => apply no_value_error_ok
  | |- no_value_error (add _ _).2 => apply no_value_error_ok
  | |- no_value_error (maximize _ _).2 => apply no_value_error_ok
  | |- no_value_error (match ?p with _ => _ end).2 => destruct p
  | |- no_value_error ((match ?p with _ => _ end) _).2 => destruct p
  | |- no_value_error _ => fail
  | |- ∀ _, _ => intro
  end.

Lemma no_value_error_iteration (people : list string)
    (x : gmap (Z * Z) var) (m_vars : list var) (P S top_n k : Z)
    (st : loop_state) :
  no_value_error
    (iteration solver progress_callback people x m_vars P S top_n k st).2.
Proof.
  rewrite iteration_value. cbv zeta.
  destruct (negb _); [apply no_value_error_ok|].
  unfold extract_assignment, name_assignment, cut_variables.
  repeat no_value_error_step.
Qed.

Lemma no_value_error_solve_loop (people : list string)
    (x : gmap (Z * Z) var) (m_vars : list var) (P S top_n : Z)
    (ks : list Z) (st : loop_state) :
  no_value_error
    (solve_loop solver progress_callback people x m_vars P S top_n ks st).2.
Proof.
  revert st. induction ks as [|k ks IH]; intros st;
    rewrite solve_loop_value; [apply no_value_error_ok|].
  apply no_value_error_bind; [apply no_value_error_iteration|].
  intros [st'|st']; [apply IH|apply no_value_error_ok].
Qed.

Lemma no_value_error_build_and_solve (people : list string)
    (seats : list seat) (weighted : list (Z * Z * float))
    (oriented_edges : list edge) (top_n P S : Z) :
  no_value_error
    (build_and_solve solver progress_callback people seats weighted
       oriented_edges top_n P S).2.
Proof.
  unfold build_and_solve, create_variables, add_assignment_constraints,
    build_objective_terms, lookup_all.
  repeat no_value_error_step.
  apply no_value_error_solve_loop.
Qed.

End NoValueError.

Lemma weighted_pairs_ok (pair_weights : list (gset string * float)) :
  keys_are_pairs pair_weights →
  ∃ triples, weighted_pairs pair_weights = Ok triples.
Proof.
  induction pair_weights as [|[p w] l IH]; intros Hkeys; [by exists []|].
  destruct IH as [triples Ht].
  { intros p' w' Hin. apply Hkeys. by right. }
  change ((p, w) :: l) with ([(p, w)] ++ l).
  rewrite weighted_pairs_app, Ht. unfold weighted_pairs at 1. simpl.
  destruct (significant w) eqn:Hw; simpl; [|eauto].
  assert (2 ≤ length (elements p))%nat as Hlen by (apply (Hkeys p w); [left|done]).
  destruct (py_index_ok (elements p) 0) as [a ->]; [lia|].
  destruct (py_index_ok (elements p) 1) as [b ->]; [lia|].
  simpl. eauto.
Qed.

(** X26. The seat-count check. When there are strictly more people than
    seats, the call raises and logs nothing but progress reports: no
    variable, no constraint, no objective and no solver call. The exception
    is the [ValueError] of the seat-count check whenever line 51 gets past
    the pair-weight map, which it does when every key with a
    non-negligible weight names two people. When the people fit on the
    seats, no [ValueError] is raised. With 5 people and 4 seats the call
    raises that [ValueError] right after the first progress report. *)
Theorem oversubscription_rejected :
  (∀ solver progress_callback people seats pair_weights oriented_edges top_n,
     Z.of_nat (length people) > Z.of_nat (length seats) →
     (∃ e, (solve_top_n_assignments solver progress_callback people seats
              pair_weights oriented_edges top_n).2 = Raise e)
     ∧ Forall is_progress
         (solve_top_n_assignments solver progress_callback people seats
            pair_weights oriented_edges top_n).1
     ∧ (keys_are_pairs pair_weights →
        solve_top_n_assignments solver progress_callback people seats
          pair_weights oriented_edges top_n
        = (if progress_callback
           then [Progress 0%float "初始化求解器..."] else [],
           Raise (ValueError
                    ("座位数(" +:+ pretty (Z.of_nat (length seats))
                     +:+ ")不足以容纳全部人员("
                     +:+ pretty (Z.of_nat (length people)) +:+ ")")))))
  ∧ (∀ solver progress_callback people seats pair_weights oriented_edges
       top_n,
       Z.of_nat (length people) ≤ Z.of_nat (length seats) →
       no_value_error
         (solve_top_n_assignments solver progress_callback people seats
            pair_weights oriented_edges top_n).2)
  ∧ solve_top_n_assignments (checking_solver two_seat_candidates) true
      ["A"; "B"; "C"; "D"; "E"] [(0, 0); (0, 1); (1, 0); (1, 1)] [] [] 3
    = ([Progress 0%float "初始化求解器..."],
       Raise (ValueError "座位数(4)不足以容纳全部人员(5)")).
Proof.
  split; [|split; [|by vm_compute]].
  - intros solver progress_callback people seats pair_weights oriented_edges
      top_n HPS.
    assert (∀ triples, weighted_pairs pair_weights = Ok triples →
      solve_top_n_assignments solver progress_callback people seats
        pair_weights oriented_edges top_n
      = (if progress_callback
         then [Progress 0%float "初始化求解器..."] else [],
         Raise (ValueError
                  ("座位数(" +:+ pretty (Z.of_nat (length seats))
                   +:+ ")不足以容纳全部人员("
                   +:+ pretty (Z.of_nat (length people)) +:+ ")")))) as Hcheck.
    { intros triples Ht. unfold solve_top_n_assignments. rewrite Ht.
      rewrite bool_decide_eq_true_2 by done. unfold progress.
      by destruct progress_callback. }
    destruct (weighted_pairs pair_weights) as [triples|e] eqn:Ht.
    + rewrite (Hcheck triples eq_refl). simpl.
      split; [eauto|]. split; [|done].
      destruct progress_callback; repeat constructor.
    + split; [|split].
      * exists e. unfold solve_top_n_assignments. by rewrite Ht.
      * unfold solve_top_n_assignments. rewrite Ht. constructor.
      * intros [triples Ht']%weighted_pairs_ok. congruence.
  - intros solver progress_callback people seats pair_weights oriented_edges
      top_n HPS.
    unfold solve_top_n_assignments.
    apply no_value_error_io_bind;
      [apply no_value_error_weighted_pairs|]. intros triples.
    apply no_value_error_io_bind; [apply no_value_error_progress|].
    intros _. rewrite bool_decide_eq_false_2 by lia.
    apply no_value_error_io_bind;
      [apply no_value_error_build_and_solve|].
    intros st. apply no_value_error_ok.
Qed.

Lemma oversubscription_rejected_witness :
  (Z.of_nat (length ["A"; "B"; "C"; "D"; "E"])
   > Z.of_nat (length [(0, 0); (0, 1); (1, 0); (1, 1)])
   ∧ keys_are_pairs [])
  ∧ solve_top_n_assignments (checking_solver two_seat_candidates) false
      ["A"; "B"; "C"; "D"; "E"] [(0, 0); (0, 1); (1, 0); (1, 1)] [] [] 3
    = ([],
       Raise (ValueError
                ("座位数("
                 +:+ pretty (Z.of_nat (length [(0, 0); (0, 1); (1, 0); (1, 1)]))
                 +:+ ")不足以容纳全部人员("
                 +:+ pretty (Z.of_nat (length ["A"; "B"; "C"; "D"; "E"]))
                 +:+ ")"))).
Proof.
  assert (Z.of_nat (length ["A"; "B"; "C"; "D"; "E"])
          > Z.of_nat (length [(0, 0); (0, 1); (1, 0); (1, 1)])) as H
    by (simpl; lia).
  assert (keys_are_pairs []) as Hk by (intros p w Hin; inversion Hin).
  split; [by split|].
  exact (proj2 (proj2 (proj1 oversubscription_rejected
                         (checking_solver two_seat_candidates) false
                         ["A"; "B"; "C"; "D"; "E"]
                         [(0, 0); (0, 1); (1, 0); (1, 1)] [] [] 3 H)) Hk).
Defined.

End SeatCountCheck.

(** ** The neighbour relation in geometric terms *)

Section LayoutGeometry.
Import SeatLayout.

Lemma list_index_lookup `{EqDecision A} (x : A) (l : list A) (i : nat) :
  list_index x l = Some i → l !! i = Some x.
Proof.
  revert i. induction l as [|y l IH]; intros i; simpl; [done|].
  destruct (decide (x = y)) as [->|]; [by intros [= <-]|].
  destruct (list_index x l) as [j|]; [|done]. intros [= <-]. by apply IH.
Qed.

Lemma list_index_NoDup `{EqDecision A} (x : A) (l : list A) (i : nat) :
  NoDup l → l !! i = Some x → list_index x l = Some i.
Proof.
  intros Hnd. revert i. induction Hnd as [|y l Hy Hnd IH]; intros i; [done|].
  destruct i as [|i]; simpl.
  - intros [= ->]. by rewrite decide_True.
  - intros Hi. rewrite decide_False.
    + by rewrite (IH i Hi).
    + intros ->. apply Hy. by eapply list_elem_of_lookup_2.
Qed.

Lemma grid_edges_geometric (n_cols : Z) (rows_per_col : list Z)
    (include_diag : bool) (aisles : list (Z * Z)) (a b : seat) :
  (a, b) ∈ grid_edges n_cols rows_per_col include_diag aisles
  ↔ geometric_neighbours n_cols rows_per_col include_diag aisles a b.
Proof.
  rewrite elem_of_grid_edges. unfold geometric_neighbours, chebyshev_one.
  split.
  - intros (c & r & q & Hs & Hq & He).
    pose proof Hs as [[Hc0 Hc1] [Hr0 Hr1]]. simpl in Hc0, Hc1, Hr0, Hr1.
    apply elem_of_neighbours in Hq; [|done..].
    assert (Z.min c (c + 1) = c) as Hmin1 by lia.
    assert (Z.min (c + 1) c = c) as Hmin2 by lia.
    assert (is_seat n_cols rows_per_col q
            ∧ ((q = (c + 1, r) ∨ q = (c + 1, r + 1) ∨ q = (c + 1, r - 1))
               ∧ ¬ aisle_between aisles c (c + 1)
               ∨ q = (c, r + 1))
            ∧ (q.2 ≠ r → q.1 ≠ c → include_diag = true)) as (Hsq & Hpos & Hdg).
    { destruct Hq as [(-> & Hq & Ha)|[(-> & Hq)
                      |[(Hd & -> & Hq & Ha)|(Hd & -> & Hq & Ha)]]];
        simpl; (split; [|split]); auto 10; try (intros; lia).
      split; simpl; lia. }
    destruct He as [[= -> ->]|[= -> ->]];
      (split; [done|split; [done|]]);
      destruct Hpos as [[[-> | [-> | ->]] Ha]| ->]; simpl in *;
      rewrite ?Hmin1, ?Hmin2;
      (split; [lia|]); (split; [intros; done || lia|]);
      intros; apply Hdg; lia.
  - destruct a as [c1 r1], b as [c2 r2].
    intros (Ha & Hb & Hd & Haisle & Hdiag). simpl in Hd, Haisle, Hdiag.
    pose proof Ha as [[? ?] [? ?]]. pose proof Hb as [[? ?] [? ?]].
    simpl in *.
    assert (c1 = c2 ∧ r2 = r1 + 1 ∨ c1 = c2 ∧ r1 = r2 + 1
            ∨ c2 = c1 + 1 ∧ (r2 = r1 ∨ r2 = r1 + 1 ∨ r2 = r1 - 1)
            ∨ c1 = c2 + 1 ∧ (r1 = r2 ∨ r1 = r2 + 1 ∨ r1 = r2 - 1))
      as [[-> ->]|[[-> ->]|[[-> Hr]|[-> Hr]]]] by lia.
    + exists c2, r1, (c2, r1 + 1). split; [done|]. split; [|by left].
      apply elem_of_neighbours; [done..|]. right; left. split; [done|lia].
    + exists c2, r2, (c2, r2 + 1). split; [done|]. split; [|by right].
      apply elem_of_neighbours; [done..|]. right; left. split; [done|lia].
    + exists c1, r1, (c1 + 1, r2). split; [done|]. split; [|by left].
      assert (¬ aisle_between aisles c1 (c1 + 1)) as Hna.
      { replace c1 with (Z.min c1 (c1 + 1)) at 1 2 by lia. apply Haisle. lia. }
      apply elem_of_neighbours; [done..|].
      destruct Hr as [-> | [-> | ->]].
      * left. done.
      * right; right; left. split; [apply Hdiag; lia|done].
      * right; right; right. split; [apply Hdiag; lia|done].
    + exists c2, r2, (c2 + 1, r1). split; [done|]. split; [|by right].
      assert (¬ aisle_between aisles c2 (c2 + 1)) as Hna.
      { replace c2 with (Z.min (c2 + 1) c2) at 1 2 by lia. apply Haisle. lia. }
      apply elem_of_neighbours; [done..|].
      destruct Hr as [-> | [-> | ->]].
      * left. done.
      * right; right; left. split; [apply Hdiag; lia|done].
      * right; right; right. split; [apply Hdiag; lia|done].
Qed.

(** X1. For a configuration with a row count for every column, the edge
    list of [generate_adjacent_edges] is exactly the geometric neighbour
    relation: it holds [(a, b)] if and only if [a] and [b] are seats of the
    grid at Chebyshev distance 1, no aisle is declared between their columns
    when the columns differ, and diagonals are enabled when both the column
    and the row differ. In particular no edge leaves the grid and no seat is
    linked to itself. *)
Theorem generate_adjacent_edges_geometric (n_cols : Z) (rows_per_col : list Z)
    (include_diag : bool) (aisles : option (list (Z * Z))) :
  n_cols ≤ Z.of_nat (length rows_per_col) →
  ∃ edges,
    generate_adjacent_edges n_cols rows_per_col include_diag aisles = Ok edges
    ∧ (∀ a b, (a, b) ∈ edges
              ↔ geometric_neighbours n_cols rows_per_col include_diag
                  (default [] aisles) a b)
    ∧ (∀ a b, (a, b) ∈ edges →
              is_seat n_cols rows_per_col a ∧ is_seat n_cols rows_per_col b
              ∧ a ≠ b).
Proof.
  intros Hn. eexists. split; [by apply generate_adjacent_edges_concat|].
  split; [intros a b; apply grid_edges_geometric|].
  intros a b (Ha & Hb & Hd & _)%grid_edges_geometric.
  split; [done|]. split; [done|]. intros ->. unfold chebyshev_one in Hd. lia.
Qed.

Lemma generate_adjacent_edges_geometric_witness :
  2 ≤ Z.of_nat (length [2; 2])
  ∧ ∃ edges,
      generate_adjacent_edges 2 [2; 2] true (Some [(0, 1)]) = Ok edges
      ∧ (∀ a b, (a, b) ∈ edges
                ↔ geometric_neighbours 2 [2; 2] true
                    (default [] (Some [(0, 1)])) a b)
      ∧ (∀ a b, (a, b) ∈ edges →
                is_seat 2 [2; 2] a ∧ is_seat 2 [2; 2] b ∧ a ≠ b).
Proof.
  split; [simpl; lia|].
  apply (generate_adjacent_edges_geometric 2 [2; 2] true (Some [(0, 1)])).
  simpl; lia.
Defined.

End LayoutGeometry.

(** ** Seat numbers and seat labels *)

Section SeatNumbers.
Import SeatLayout.

Lemma py_index_beyond {A : Type} (l : list A) (i : Z) :
  Z.of_nat (length l) ≤ i → py_index l i = Raise IndexError.
Proof.
  intros Hi. unfold py_index.
  rewrite (bool_decide_eq_false_2 (i < 0)) by lia. simpl.
  rewrite (bool_decide_eq_false_2 (i < 0)) by lia.
  by rewrite lookup_ge_None_2 by lia.
Qed.

Lemma grid_prefix_length (rows_per_col : list Z) (c : Z) :
  Forall (fun rows => 0 ≤ rows) rows_per_col →
  0 ≤ c ≤ Z.of_nat (length rows_per_col) →
  Z.of_nat (length (concat (column_seats rows_per_col <$> range c)))
  = py_sum (take (Z.to_nat c) rows_per_col).
Proof.
  intros Hrows Hc.
  rewrite <-(grid_length (take (Z.to_nat c) rows_per_col))
    by (by apply Forall_take).
  rewrite length_take, Nat.min_l by lia. rewrite Z2Nat.id by lia.
  do 3 f_equal. apply Forall_fmap_ext_1, Forall_forall.
  intros c' Hc'%elem_of_range.
  rewrite <-(take_drop (Z.to_nat c) rows_per_col) at 1.
  apply column_seats_app_l. rewrite length_take. lia.
Qed.

Lemma lookup_app_middle {A : Type} (l1 l2 l3 : list A) (k r : Z) (x : A) :
  Z.of_nat (length l1) = k → 0 ≤ r → l2 !! Z.to_nat r = Some x →
  (l1 ++ l2 ++ l3) !! Z.to_nat (k + r) = Some x.
Proof.
  intros <- Hr Hx. rewrite lookup_app_r by lia.
  replace (Z.to_nat _ - _)%nat with (Z.to_nat r) by lia.
  by apply lookup_app_l_Some.
Qed.

Lemma grid_lookup (n_cols : Z) (rows_per_col : list Z) (c r : Z) :
  Forall (fun rows => 0 ≤ rows) rows_per_col →
  n_cols ≤ Z.of_nat (length rows_per_col) →
  is_seat n_cols rows_per_col (c, r) →
  concat (column_seats rows_per_col <$> range n_cols)
    !! Z.to_nat (seat_number rows_per_col c r) = Some (c, r).
Proof.
  intros Hrows Hn [[Hc0 Hc1] [Hr0 Hr1]]. simpl in *.
  unfold range. replace n_cols with (c + (n_cols - c)) by lia.
  rewrite seqZ_app by lia. rewrite (seqZ_cons (0 + c)) by lia.
  rewrite fmap_app, concat_app, fmap_cons, Z.add_0_l. simpl.
  apply lookup_app_middle; [by apply grid_prefix_length; [|lia]|done|].
  unfold column_seats, range. rewrite list_lookup_fmap.
  rewrite lookup_seqZ_lt by lia. simpl. do 2 f_equal. lia.
Qed.

(** X2. Seat numbers of a generated layout. With a non-negative row count
    for every column, the seat at column [c] and row [r] of the grid is the
    element number [rows_per_col[0] + ... + rows_per_col[c-1] + r] of the
    list of [generate_seats]; [seats.index] maps the coordinate back to that
    number, and [get_seat_info] of that number is the label
    [C{c+1}-R{r+1}]. *)
Theorem generate_seats_numbering (n_cols : Z) (rows_per_col : list Z)
    (seats : list seat) (c r : Z) :
  n_cols ≤ Z.of_nat (length rows_per_col) →
  Forall (fun rows => 0 ≤ rows) rows_per_col →
  generate_seats n_cols rows_per_col = Ok seats →
  is_seat n_cols rows_per_col (c, r) →
  0 ≤ seat_number rows_per_col c r < Z.of_nat (length seats)
  ∧ py_index seats (seat_number rows_per_col c r) = Ok (c, r)
  ∧ list_index (c, r) seats
    = Some (Z.to_nat (seat_number rows_per_col c r))
  ∧ get_seat_info (seat_number rows_per_col c r) seats
    = Ok ("C" +:+ pretty (c + 1) +:+ "-R" +:+ pretty (r + 1)).
Proof.
  intros Hn Hrows Hgen Hs.
  rewrite generate_seats_concat in Hgen by done. injection Hgen as <-.
  pose proof (grid_lookup n_cols rows_per_col c r Hrows Hn Hs) as Hlook.
  assert (0 ≤ seat_number rows_per_col c r) as Hnum.
  { unfold seat_number. destruct Hs as [[? ?] [? ?]]. simpl in *.
    rewrite <-(grid_prefix_length rows_per_col c) by (done || lia). lia. }
  pose proof (lookup_lt_Some _ _ _ Hlook) as Hlt.
  apply Nat2Z.inj_lt in Hlt. rewrite Z2Nat.id in Hlt by done.
  assert (py_index (concat (column_seats rows_per_col <$> range n_cols))
            (seat_number rows_per_col c r) = Ok (c, r)) as Hidx
    by (by apply py_index_nonneg).
  split; [exact (conj Hnum Hlt)|]. split; [done|]. split.
  - apply list_index_NoDup; [|done].
    apply (sorted_irrefl_NoDup column_major); [|apply grid_sorted].
    intros x. unfold column_major. lia.
  - unfold get_seat_info.
    rewrite (bool_decide_eq_true_2 _ Hnum), (bool_decide_eq_true_2 _ Hlt).
    cbn [andb]. by refine (eq_ind_r (fun m => bind m _ = _) _ Hidx).
Qed.

Lemma generate_seats_numbering_witness :
  (3 ≤ Z.of_nat (length [2; 1; 2])
   ∧ Forall (fun rows => 0 ≤ rows) [2; 1; 2]
   ∧ generate_seats 3 [2; 1; 2] = Ok [(0,0); (0,1); (1,0); (2,0); (2,1)]
   ∧ is_seat 3 [2; 1; 2] (2, 1))
  ∧ 0 ≤ seat_number [2; 1; 2] 2 1
      < Z.of_nat (length [(0,0); (0,1); (1,0); (2,0); (2,1)])
  ∧ py_index [(0,0); (0,1); (1,0); (2,0); (2,1)] (seat_number [2; 1; 2] 2 1)
    = Ok (2, 1)
  ∧ list_index (2, 1) [(0,0); (0,1); (1,0); (2,0); (2,1)]
    = Some (Z.to_nat (seat_number [2; 1; 2] 2 1))
  ∧ get_seat_info (seat_number [2; 1; 2] 2 1)
      [(0,0); (0,1); (1,0); (2,0); (2,1)]
    = Ok ("C" +:+ pretty (2 + 1) +:+ "-R" +:+ pretty (1 + 1)).
Proof.
  assert (3 ≤ Z.of_nat (length [2; 1; 2])) as H1 by (simpl; lia).
  assert (Forall (fun rows => 0 ≤ rows) [2; 1; 2]) as H2
    by (repeat constructor; lia).
  assert (generate_seats 3 [2; 1; 2]
          = Ok [(0,0); (0,1); (1,0); (2,0); (2,1)]) as H3 by reflexivity.
  assert (is_seat 3 [2; 1; 2] (2, 1)) as H4
    by (unfold is_seat, rows_at; simpl; lia).
  split; [done|].
  exact (generate_seats_numbering 3 [2; 1; 2] _ 2 1 H1 H2 H3 H4).
Defined.

(** Only digits, and no other character, are printed for a number. *)
Lemma contains_pretty_N_go (c : ascii) (x : N) (s : string) :
  (∀ d, pretty_N_char d ≠ c) →
  PyStr.contains c (pretty_N_go x s) = PyStr.contains c s.
Proof.
  intros Hc. revert s. induction (N.lt_wf_0 x) as [x _ IH]; intros s.
  assert (x = 0 ∨ 0 < x)%N as [->|?] by lia; [by rewrite pretty_N_go_0|].
  rewrite pretty_N_go_step by done. rewrite IH by (by apply N.div_lt).
  simpl. by rewrite decide_False by apply Hc.
Qed.

Lemma contains_pretty_Z (c : ascii) (z : Z) :
  (∀ d, pretty_N_char d ≠ c) → c ≠ "-"%char →
  PyStr.contains c (pretty z) = false.
Proof.
  intros Hc Hdash.
  assert (∀ p : positive, PyStr.contains c (pretty p) = false) as Hpos.
  { intros p. unfold pretty, pretty_positive, pretty, pretty_N.
    rewrite decide_False by done. by rewrite contains_pretty_N_go. }
  destruct z as [|p|p]; unfold pretty, pretty_Z.
  - simpl. rewrite decide_False; [done|]. apply (Hc 0%N).
  - apply Hpos.
  - rewrite contains_app, Hpos. simpl. by rewrite decide_False.
Qed.

Lemma string_app_cons (x : ascii) (a b : string) :
  String x a +:+ b = String x (a +:+ b).
Proof. reflexivity. Qed.

Lemma string_app_nil_l (a : string) : EmptyString +:+ a = a.
Proof. reflexivity. Qed.

Lemma string_app_assoc (a b c : string) : (a +:+ b) +:+ c = a +:+ b +:+ c.
Proof.
  induction a as [|x a IH]; [done|]. rewrite !string_app_cons. by f_equal.
Qed.

Lemma string_app_inj_r (s1 s2 : string) (c : ascii) :
  s1 +:+ String c EmptyString = s2 +:+ String c EmptyString → s1 = s2.
Proof.
  revert s2. induction s1 as [|a s1 IH]; intros [|b s2]; simpl; try done.
  - intros [= -> H]. by destruct s2.
  - intros [= -> H]. by destruct s1.
  - intros [= -> H]. f_equal. by apply IH.
Qed.

Lemma seat_label_inj (p q : seat) : seat_label p = seat_label q → p = q.
Proof.
  assert (∀ d, pretty_N_char d ≠ "R"%char) as HR
    by (intros d; unfold pretty_N_char; by repeat case_match).
  assert (∀ z : seat,
            PyStr.split "R"%char (seat_label z)
            = ["C" +:+ pretty (z.1 + 1) +:+ "-"; pretty (z.2 + 1)]) as Hsplit.
  { intros z. apply split_two. split.
    - unfold seat_label.
      by rewrite !string_app_cons, !string_app_nil_l, string_app_assoc.
    - rewrite !contains_app, !contains_pretty_Z by done. done. }
  intros Heq. pose proof (Hsplit p) as Hp. rewrite Heq, Hsplit in Hp.
  injection Hp as H1 H2.
  apply string_app_inj_r in H1.
  apply (inj pretty) in H1, H2. destruct p, q; simpl in *. f_equal; lia.
Qed.


End SeatNumbers.

(** ** A layout with too few row counts *)

Section LayoutErrors.
Import SeatLayout.

Lemma index_error_at_worst_ok {A : Type} (a : A) :
  index_error_at_worst (Ok a).
Proof. by intros e. Qed.

Lemma index_error_at_worst_py_index {A : Type} (l : list A) (i : Z) :
  index_error_at_worst (py_index l i).
Proof.
  intros e. unfold py_index. destruct (bool_decide _); [congruence|].
  destruct (_ !! _); congruence.
Qed.

Lemma index_error_at_worst_bind {A B : Type} (m : result A)
    (k : A → result B) :
  index_error_at_worst m → (∀ a, index_error_at_worst (k a)) →
  index_error_at_worst (bind m k).
Proof.
  intros Hm Hk e. destruct m as [a|e']; simpl.
  - apply Hk.
  - intros [= <-]. by apply Hm.
Qed.

Lemma index_error_at_worst_for_each {A S : Type} (xs : list A)
    (body : A → S → result S) (s : S) :
  (∀ x s, index_error_at_worst (body x s)) →
  index_error_at_worst (for_each xs body s).
Proof.
  intros Hbody. revert s. induction xs as [|x xs IH]; intros s e; simpl.
  - done.
  - destruct (body x s) as [s'|e'] eqn:E; [apply IH|].
    intros [= <-]. by apply (Hbody x s).
Qed.

Lemma index_error_at_worst_and_then (a : bool) (b : result bool) :
  index_error_at_worst b → index_error_at_worst (and_then a b).
Proof. destruct a; [done|]. intros _. apply index_error_at_worst_ok. Qed.

Ltac index_error_step :=
  lazymatch goal with
  | |- index_error_at_worst (Ok _) => apply index_error_at_worst_ok
  | |- index_error_at_worst (py_index _ _) =>
      apply index_error_at_worst_py_index
  | |- index_error_at_worst (and_then _ _) =>
      apply index_error_at_worst_and_then
  | |- index_error_at_worst (bind _ _) => apply index_error_at_worst_bind
  | |- index_error_at_worst (for_each _ _ _) =>
      apply index_error_at_worst_for_each
  | |- index_error_at_worst (if ?b then _ else _) => destruct b
  | |- index_error_at_worst _ => fail
  | |- ∀ _, _ => intro
  end.

Lemma index_error_at_worst_edges_of_seat (n_cols : Z) (rows_per_col : list Z)
    (include_diag : bool) (aisles : list (Z * Z)) (c r : Z)
    (edges : list edge) :
  index_error_at_worst
    (edges_of_seat n_cols rows_per_col include_diag aisles c r edges).
Proof. unfold edges_of_seat. cbv zeta. repeat index_error_step. Qed.

Lemma for_each_raises {A S : Type} (xs ys : list A) (x : A)
    (body : A → S → result S) (s : S) :
  (∀ x s, index_error_at_worst (body x s)) →
  (∀ s, body x s = Raise IndexError) →
  for_each (xs ++ x :: ys) body s = Raise IndexError.
Proof.
  intros Hall Hx. rewrite for_each_app.
  destruct (for_each xs body s) as [s'|e] eqn:E; simpl.
  - by rewrite Hx.
  - f_equal. by apply (index_error_at_worst_for_each xs body s Hall).
Qed.



End LayoutErrors.

(** ** The three views of adjacency *)

Section AdjacencyViews.
Import SeatLayout Exporter Optimizer.

Lemma generated_seats_NoDup (n_cols : Z) (rows_per_col : list Z)
    (seats : list seat) :
  n_cols ≤ Z.of_nat (length rows_per_col) →
  generate_seats n_cols rows_per_col = Ok seats →
  NoDup seats ∧ ∀ p, p ∈ seats ↔ is_seat n_cols rows_per_col p.
Proof.
  intros Hn Hgen. rewrite generate_seats_concat in Hgen by done.
  injection Hgen as <-. split; [|intros p; apply elem_of_grid].
  apply (sorted_irrefl_NoDup column_major); [|apply grid_sorted].
  intros x. unfold column_major. lia.
Qed.

(** X5. On a generated layout [get_adjacent_seat_pairs] skips no edge: its
    result holds exactly the index pairs [{i, j}] of seats that are
    geometric neighbours. Every member has two distinct indices, and the set
    is the one [compute_satisfaction_metrics] builds for itself. *)
Theorem get_adjacent_seat_pairs_generated (n_cols : Z) (rows_per_col : list Z)
    (include_diag : bool) (aisles : option (list (Z * Z)))
    (seats : list seat) (edges : list edge) :
  n_cols ≤ Z.of_nat (length rows_per_col) →
  generate_seats n_cols rows_per_col = Ok seats →
  generate_adjacent_edges n_cols rows_per_col include_diag aisles = Ok edges →
  (∀ s, s ∈ get_adjacent_seat_pairs seats edges ↔
        ∃ (i j : nat) a b,
          seats !! i = Some a ∧ seats !! j = Some b
          ∧ geometric_neighbours n_cols rows_per_col include_diag
              (default [] aisles) a b
          ∧ s = {[Z.of_nat i; Z.of_nat j]})
  ∧ (∀ s, s ∈ get_adjacent_seat_pairs seats edges → size s = 2%nat)
  ∧ get_adjacent_seat_pairs seats edges = adjacent_seats seats edges.
Proof.
  intros Hn Hseats Hedges.
  destruct (generated_seats_NoDup _ _ _ Hn Hseats) as [Hnd Hin].
  rewrite generate_adjacent_edges_concat in Hedges by done.
  injection Hedges as <-.
  assert (∀ s, s ∈ get_adjacent_seat_pairs seats
                     (grid_edges n_cols rows_per_col include_diag
                        (default [] aisles)) ↔
               ∃ (i j : nat) a b,
                 seats !! i = Some a ∧ seats !! j = Some b
                 ∧ geometric_neighbours n_cols rows_per_col include_diag
                     (default [] aisles) a b
                 ∧ s = {[Z.of_nat i; Z.of_nat j]}) as Hchar.
  { intros s.
    change (get_adjacent_seat_pairs seats ?e) with (adjacent_seats seats e).
    rewrite elem_of_adjacent_seats. split.
    - intros (a & b & ia & ib & He & Ha & Hb & ->).
      exists ia, ib, a, b. apply grid_edges_geometric in He.
      apply list_index_lookup in Ha, Hb. done.
    - intros (i & j & a & b & Ha & Hb & He & ->).
      exists a, b, i, j. apply grid_edges_geometric in He.
      apply (list_index_NoDup _ _ _ Hnd) in Ha, Hb. done. }
  split; [exact Hchar|]. split; [|reflexivity].
  intros s (i & j & a & b & Ha & Hb & (_ & _ & Hd & _) & ->)%Hchar.
  assert (i ≠ j) as Hij.
  { intros ->. rewrite Ha in Hb. injection Hb as ->.
    unfold chebyshev_one in Hd. lia. }
  rewrite size_union by set_solver. by rewrite !size_singleton.
Qed.

Lemma get_adjacent_seat_pairs_generated_witness :
  (2 ≤ Z.of_nat (length [2; 2])
   ∧ generate_seats 2 [2; 2] = Ok [(0, 0); (0, 1); (1, 0); (1, 1)]
   ∧ generate_adjacent_edges 2 [2; 2] false (Some [(0, 1)])
     = Ok [((0, 0), (0, 1)); ((0, 1), (0, 0));
           ((1, 0), (1, 1)); ((1, 1), (1, 0))])
  ∧ (∀ s, s ∈ get_adjacent_seat_pairs [(0, 0); (0, 1); (1, 0); (1, 1)]
                [((0, 0), (0, 1)); ((0, 1), (0, 0));
                 ((1, 0), (1, 1)); ((1, 1), (1, 0))] →
          size s = 2%nat).
Proof.
  assert (2 ≤ Z.of_nat (length [2; 2])) as H1 by (simpl; lia).
  assert (generate_seats 2 [2; 2] = Ok [(0, 0); (0, 1); (1, 0); (1, 1)])
    as H2 by reflexivity.
  assert (generate_adjacent_edges 2 [2; 2] false (Some [(0, 1)])
          = Ok [((0, 0), (0, 1)); ((0, 1), (0, 0));
                ((1, 0), (1, 1)); ((1, 1), (1, 0))]) as H3 by reflexivity.
  split; [done|].
  exact (proj1 (proj2 (get_adjacent_seat_pairs_generated 2 [2; 2] false
                         (Some [(0, 1)]) _ _ H1 H2 H3))).
Defined.

Lemma are_seats_adjacent_spec (assignment : gmap string Z) (seats : list seat)
    (person1 person2 : string) :
  are_seats_adjacent assignment seats person1 person2 = true
  ↔ ∃ idx1 idx2 a b,
      assignment !! person1 = Some idx1 ∧ assignment !! person2 = Some idx2
      ∧ 0 ≤ idx1 ∧ seats !! Z.to_nat idx1 = Some a
      ∧ 0 ≤ idx2 ∧ seats !! Z.to_nat idx2 = Some b
      ∧ chebyshev_one a b.
Proof.
  unfold are_seats_adjacent, chebyshev_one. split.
  - destruct (assignment !! person1) as [idx1|]; [|discriminate].
    destruct (assignment !! person2) as [idx2|]; [|discriminate].
    destruct (seat_positions seats !! idx1) as [[c1 r1]|] eqn:H1;
      [|discriminate].
    destruct (seat_positions seats !! idx2) as [[c2 r2]|] eqn:H2;
      [|discriminate].
    apply seat_positions_lookup in H1 as [? ?], H2 as [? ?].
    rewrite !andb_true_iff, !bool_decide_eq_true. intros [[? ?] ?].
    exists idx1, idx2, (c1, r1), (c2, r2). repeat split; try done.
    simpl. lia.
  - intros (idx1 & idx2 & [c1 r1] & [c2 r2]
            & -> & -> & ? & H1 & ? & H2 & Hd).
    cbv iota. simpl in Hd.
    assert (seat_positions seats !! idx1 = Some (c1, r1)) as ->
      by (by apply seat_positions_lookup).
    assert (seat_positions seats !! idx2 = Some (c2, r2)) as ->
      by (by apply seat_positions_lookup).
    cbv iota zeta beta. rewrite !andb_true_iff, !bool_decide_eq_true. lia.
Qed.

Lemma chebyshev_one_sym (a b : seat) : chebyshev_one a b → chebyshev_one b a.
Proof. unfold chebyshev_one. lia. Qed.

(** X6. Every pair that the metrics count as seated on adjacent seats is
    adjacent for the image exporter as well: with the edges of
    [generate_adjacent_edges], whatever the diagonal setting and the aisles,
    and for any seat list and assignment, the test of
    [compute_satisfaction_metrics] implies [are_seats_adjacent]. *)
Theorem counted_pairs_are_drawn (n_cols : Z) (rows_per_col : list Z)
    (include_diag : bool) (aisles : option (list (Z * Z)))
    (seats : list seat) (edges : list edge) (assignment : gmap string Z)
    (person1 person2 : string) :
  n_cols ≤ Z.of_nat (length rows_per_col) →
  generate_adjacent_edges n_cols rows_per_col include_diag aisles = Ok edges →
  seated_adjacent assignment (adjacent_seats seats edges) person1 person2
  = true →
  are_seats_adjacent assignment seats person1 person2 = true.
Proof.
  intros Hn Hedges. rewrite generate_adjacent_edges_concat in Hedges by done.
  injection Hedges as <-.
  intros (idx1 & idx2 & H1 & H2 & a & b & ia & ib & He & Ha & Hb & Hij)
    %seated_adjacent_spec.
  apply grid_edges_geometric in He as (_ & _ & Hd & _).
  apply list_index_lookup in Ha, Hb.
  apply are_seats_adjacent_spec.
  destruct Hij as [[-> ->]|[-> ->]].
  - exists (Z.of_nat ia), (Z.of_nat ib), a, b.
    rewrite !Nat2Z.id. repeat split; try done; lia.
  - exists (Z.of_nat ib), (Z.of_nat ia), b, a.
    rewrite !Nat2Z.id. repeat split; try done; try lia.
    by apply chebyshev_one_sym.
Qed.

Lemma counted_pairs_are_drawn_witness :
  (2 ≤ Z.of_nat (length [2; 2])
   ∧ generate_adjacent_edges 2 [2; 2] false (Some [(0, 1)])
     = Ok [((0, 0), (0, 1)); ((0, 1), (0, 0));
           ((1, 0), (1, 1)); ((1, 1), (1, 0))]
   ∧ seated_adjacent example_assignment
       (adjacent_seats [(0, 0); (0, 1); (1, 0); (1, 1)]
          [((0, 0), (0, 1)); ((0, 1), (0, 0));
           ((1, 0), (1, 1)); ((1, 1), (1, 0))]) "A" "B" = true)
  ∧ are_seats_adjacent example_assignment [(0, 0); (0, 1); (1, 0); (1, 1)]
      "A" "B" = true.
Proof.
  assert (2 ≤ Z.of_nat (length [2; 2])) as H1 by (simpl; lia).
  assert (generate_adjacent_edges 2 [2; 2] false (Some [(0, 1)])
          = Ok [((0, 0), (0, 1)); ((0, 1), (0, 0));
                ((1, 0), (1, 1)); ((1, 1), (1, 0))]) as H2 by reflexivity.
  assert (seated_adjacent example_assignment
            (adjacent_seats [(0, 0); (0, 1); (1, 0); (1, 1)]
               [((0, 0), (0, 1)); ((0, 1), (0, 0));
                ((1, 0), (1, 1)); ((1, 1), (1, 0))]) "A" "B" = true) as H3
    by (by vm_compute).
  split; [done|].
  exact (counted_pairs_are_drawn 2 [2; 2] false (Some [(0, 1)]) _ _ _ _ _
           H1 H2 H3).
Defined.

(** X7. With diagonals enabled and no aisle, the exporter and the metrics
    agree: on a generated layout [are_seats_adjacent] holds for two people
    exactly when [compute_satisfaction_metrics] finds their seats in its
    adjacency set. *)
Theorem exporter_agrees_without_aisles (n_cols : Z) (rows_per_col : list Z)
    (aisles : option (list (Z * Z))) (seats : list seat) (edges : list edge)
    (assignment : gmap string Z) (person1 person2 : string) :
  n_cols ≤ Z.of_nat (length rows_per_col) →
  default [] aisles = [] →
  generate_seats n_cols rows_per_col = Ok seats →
  generate_adjacent_edges n_cols rows_per_col true aisles = Ok edges →
  are_seats_adjacent assignment seats person1 person2
  = seated_adjacent assignment (adjacent_seats seats edges) person1 person2.
Proof.
  intros Hn Haisles Hseats Hedges. apply eq_true_iff_eq. split.
  - intros (idx1 & idx2 & a & b & H1 & H2 & ? & Ha & ? & Hb & Hd)
      %are_seats_adjacent_spec.
    destruct (generated_seats_NoDup _ _ _ Hn Hseats) as [Hnd Hin].
    rewrite generate_adjacent_edges_concat in Hedges by done.
    injection Hedges as <-. rewrite Haisles.
    apply seated_adjacent_spec. exists idx1, idx2. split; [done|].
    split; [done|]. exists a, b, (Z.to_nat idx1), (Z.to_nat idx2).
    split; [|split; [by apply list_index_NoDup|
                      split; [by apply list_index_NoDup|left; lia]]].
    apply grid_edges_geometric. split; [|split; [|split; [done|]]].
    + apply Hin. by eapply list_elem_of_lookup_2.
    + apply Hin. by eapply list_elem_of_lookup_2.
    + split; [|done]. intros _ [[]%elem_of_nil|[]%elem_of_nil].
  - by apply (counted_pairs_are_drawn n_cols rows_per_col true aisles).
Qed.

Lemma exporter_agrees_without_aisles_witness :
  (2 ≤ Z.of_nat (length [2; 2])
   ∧ default [] (None : option (list (Z * Z))) = []
   ∧ generate_seats 2 [2; 2] = Ok [(0, 0); (0, 1); (1, 0); (1, 1)]
   ∧ generate_adjacent_edges 2 [2; 2] true None
     = Ok (grid_edges 2 [2; 2] true []))
  ∧ are_seats_adjacent example_assignment [(0, 0); (0, 1); (1, 0); (1, 1)]
      "A" "D"
    = seated_adjacent example_assignment
        (adjacent_seats [(0, 0); (0, 1); (1, 0); (1, 1)]
           (grid_edges 2 [2; 2] true [])) "A" "D".
Proof.
  assert (2 ≤ Z.of_nat (length [2; 2])) as H1 by (simpl; lia).
  assert (default [] (None : option (list (Z * Z))) = []) as H2
    by reflexivity.
  assert (generate_seats 2 [2; 2] = Ok [(0, 0); (0, 1); (1, 0); (1, 1)])
    as H3 by reflexivity.
  assert (generate_adjacent_edges 2 [2; 2] true None
          = Ok (grid_edges 2 [2; 2] true [])) as H4 by reflexivity.
  split; [done|].
  exact (exporter_agrees_without_aisles 2 [2; 2] None _ _ example_assignment
           "A" "D" H1 H2 H3 H4).
Defined.

End AdjacencyViews.

(** ** Validating an assignment *)

Section ValidateAssignment.
Import Optimizer.

Context (repr_names : gset string → string).
Context (repr_items : list (string * Z) → string).

Lemma string_app_eq_nil (a b : string) :
  a +:+ b = EmptyString → a = EmptyString ∧ b = EmptyString.
Proof. destruct a; [done|]. by rewrite string_app_cons. Qed.

Lemma difference_empty_eq (X Y : gset string) :
  Y ∖ X = ∅ → X ∖ Y = ∅ → X = Y.
Proof.
  intros H1 H2. apply set_eq. intros x.
  destruct (decide (x ∈ X)), (decide (x ∈ Y)); set_solver.
Qed.

Lemma check_seat_counts_spec (items : list (string * Z))
    (seat_counts : gmap Z string) :
  (check_seat_counts items seat_counts).1 = true
  ↔ NoDup (items.*2) ∧ ∀ item, item ∈ items → seat_counts !! item.2 = None.
Proof.
  revert seat_counts.
  induction items as [|[person seat_idx] items IH]; intros seat_counts.
  - simpl. split; [|done]. intros _. split; [constructor|].
    by intros item ?%elem_of_nil.
  - cbn [check_seat_counts fmap list_fmap snd].
    destruct (seat_counts !! seat_idx) as [other|] eqn:E.
    + split; [done|]. intros [_ Hnone].
      specialize (Hnone (person, seat_idx)). simpl in Hnone.
      rewrite E in Hnone. discriminate Hnone. left.
    + rewrite IH, NoDup_cons. split.
      * intros [Hnd Hnone]. split; [split; [|done]|].
        -- intros (item & Heq & Hin)%list_elem_of_fmap.
           specialize (Hnone item Hin). rewrite <-Heq in Hnone.
           by rewrite lookup_insert_eq in Hnone.
        -- intros item [->| Hin]%elem_of_cons; [done|].
           specialize (Hnone item Hin).
           by apply lookup_insert_None in Hnone as [? _].
      * intros [[Hnotin Hnd] Hnone]. split; [done|]. intros item Hin.
        apply lookup_insert_None. split; [apply Hnone; by right|].
        intros Heq. apply Hnotin. apply list_elem_of_fmap. by exists item.
Qed.

Lemma check_seat_counts_message (items : list (string * Z))
    (seat_counts : gmap Z string) :
  ((check_seat_counts items seat_counts).1 = true →
   (check_seat_counts items seat_counts).2 = EmptyString)
  ∧ ((check_seat_counts items seat_counts).1 = false →
     (check_seat_counts items seat_counts).2 ≠ EmptyString).
Proof.
  revert seat_counts.
  induction items as [|[person seat_idx] items IH]; intros seat_counts.
  - simpl. done.
  - cbn [check_seat_counts].
    destruct (seat_counts !! seat_idx) as [other|]; [|apply IH].
    split; [done|]. intros _. cbn [snd]. by rewrite string_app_cons.
Qed.

Lemma filter_nil_iff {A : Type} (P : A → Prop) `{∀ x, Decision (P x)}
    (l : list A) :
  filter P l = [] ↔ ∀ x, x ∈ l → ¬ P x.
Proof.
  induction l as [|y l IH].
  - split; [|done]. by intros _ x ?%elem_of_nil.
  - rewrite filter_cons. destruct (decide (P y)) as [Hy|Hy].
    + split; [done|]. intros Hall. destruct (Hall y); [left|done].
    + rewrite IH. split.
      * intros Hall x [->| Hx]%elem_of_cons; auto.
      * intros Hall x Hx. apply Hall. by right.
Qed.

(** X8. [validate_assignment] accepts an assignment exactly when its keys
    are the people of the list, every value is an index into the seat list
    and no index is assigned twice. The message is empty when it accepts and
    non-empty when it rejects. *)
Theorem validate_assignment_characterised (assignment : list (string * Z))
    (people : list string) (seats : list seat) :
  ((validate_assignment repr_names repr_items assignment people seats).1
   = true
   ↔ valid_items people (Z.of_nat (length seats)) assignment)
  ∧ ((validate_assignment repr_names repr_items assignment people seats).1
     = true →
     validate_assignment repr_names repr_items assignment people seats
     = (true, EmptyString))
  ∧ ((validate_assignment repr_names repr_items assignment people seats).1
     = false →
     (validate_assignment repr_names repr_items assignment people seats).2
     ≠ EmptyString).
Proof.
  unfold validate_assignment, valid_items. cbv zeta.
  destruct (decide ((list_to_set assignment.*1 : gset string)
                    = list_to_set people)) as [Hkeys|Hkeys].
  - rewrite (bool_decide_eq_false_2 (_ ≠@{gset string} list_to_set people))
      by (intros Hne; by apply Hne).
    assert (∀ p, p ∈ assignment.*1 ↔ p ∈ people) as Hkeys'.
    { intros p. rewrite <-(elem_of_list_to_set (C := gset string)), Hkeys.
      apply elem_of_list_to_set. }
    destruct (filter (λ item : string * Z,
                ¬ 0 ≤ item.2 < Z.of_nat (length seats)) assignment)
      as [|bad rest] eqn:Hfilter.
    + rewrite filter_nil_iff in Hfilter.
      assert (∀ item, item ∈ assignment →
                      0 ≤ item.2 < Z.of_nat (length seats)) as Hin.
      { intros item Hitem. specialize (Hfilter item Hitem).
        destruct (decide (0 ≤ item.2 < Z.of_nat (length seats)));
          [done|]. by destruct Hfilter. }
      pose proof (check_seat_counts_message assignment ∅) as [Hm1 Hm2].
      split; [|split; [|done]].
      * rewrite check_seat_counts_spec. split.
        -- intros [Hnd _]. done.
        -- intros (_ & _ & Hnd). split; [done|]. intros. apply lookup_empty.
      * intros Hok. specialize (Hm1 Hok).
        destruct (check_seat_counts assignment ∅) as [ok msg].
        simpl in *. by subst.
    + assert (bad ∈ filter (λ item,
                ¬ 0 ≤ item.2 < Z.of_nat (length seats)) assignment)
        as [Hbad Hin]%list_elem_of_filter by (rewrite Hfilter; left).
      split; [|split; [done|]].
      * split; [done|]. intros (_ & Hall & _). destruct Hbad. by apply Hall.
      * intros _. cbn [snd]. by rewrite string_app_cons.
  - rewrite (bool_decide_eq_true_2 (_ ≠@{gset string} list_to_set people))
      by done.
    split; [|split; [done|]].
    + split; [done|]. intros (Hk & _). destruct Hkeys.
      apply set_eq. intros p. rewrite !elem_of_list_to_set. apply Hk.
    + intros _. cbn [snd].
      destruct (decide (list_to_set people ∖ list_to_set assignment.*1
                        = (∅ : gset string))) as [Hm|Hm].
      * rewrite (bool_decide_eq_false_2 (list_to_set people ∖ _ ≠ _))
          by (intros Hne; by apply Hne).
        destruct (decide (list_to_set assignment.*1 ∖ list_to_set people
                          = (∅ : gset string))) as [He|He].
        -- destruct Hkeys. by apply difference_empty_eq.
        -- rewrite (bool_decide_eq_true_2 (_ ∖ list_to_set people ≠ _))
             by done.
           by rewrite string_app_nil_l, string_app_cons.
      * rewrite (bool_decide_eq_true_2 (list_to_set people ∖ _ ≠ _)) by done.
        destruct (bool_decide _).
        -- intros [Habs _]%string_app_eq_nil.
           by rewrite string_app_nil_l, string_app_cons in Habs.
        -- by rewrite string_app_nil_l, string_app_cons.
Qed.

End ValidateAssignment.

(** ** The index pairs of the objective *)

Section IndexPairs.
Import Optimizer.

Lemma index_dict_lookup `{Countable K} (l : list K) (k : K) (i : Z) :
  index_dict l !! k = Some i →
  0 ≤ i < Z.of_nat (length l) ∧ l !! Z.to_nat i = Some k.
Proof.
  unfold index_dict.
  assert (∀ (ps : list (Z * K)) (d : gmap K Z),
    foldl (fun d '(i, k) => <[k := i]> d) d ps !! k = Some i →
    d !! k = Some i ∨ (i, k) ∈ ps) as Hgen.
  { intros ps. induction ps as [|[i' k'] ps IH]; intros d; simpl; [auto|].
    intros [Hd|Hin]%IH; [|right; by right].
    destruct (decide (k = k')) as [->|Hne].
    - rewrite lookup_insert_eq in Hd. injection Hd as ->. right. left.
    - rewrite lookup_insert_ne in Hd by done. by left. }
  intros [Hd|Hin]%Hgen; [by rewrite lookup_empty in Hd|].
  unfold enumerate in Hin.
  apply list_elem_of_lookup in Hin as [pos Hpos].
  apply lookup_zip_with_Some in Hpos as (i' & k' & [= <- <-] & Hi & Hk).
  unfold range in Hi. apply lookup_seqZ in Hi as [-> Hlt].
  rewrite Z.add_0_l, Nat2Z.id. split; [lia|done].
Qed.

Lemma weighted_pairs_elem (pair_weights : list (gset string * float))
    (triples : list (string * string * float)) (a b : string) (w : float) :
  weighted_pairs pair_weights = Ok triples → (a, b, w) ∈ triples →
  ∃ p, (p, w) ∈ pair_weights ∧ significant w = true ∧ a ∈ p ∧ b ∈ p.
Proof.
  revert triples.
  induction pair_weights as [|[p w'] l IH]; intros triples.
  - intros [= <-] Hin. inversion Hin.
  - unfold weighted_pairs. cbn [for_each].
    destruct (significant w') eqn:Hw.
    + destruct (py_index (elements p) 0) as [a'|] eqn:Ha; [|discriminate].
      destruct (py_index (elements p) 1) as [b'|] eqn:Hb; [|discriminate].
      cbn [bind]. rewrite weighted_pairs_acc.
      intros (rest & Hrest & [= <-])%bind_ok.
      intros [Hin|Hin]%elem_of_cons.
      * injection Hin as -> -> ->.
        exists p. split; [left|]. split; [done|].
        apply py_index_nonneg_inv in Ha; [|done].
        apply py_index_nonneg_inv in Hb; [|done].
        split; apply elem_of_elements; by eapply list_elem_of_lookup_2.
      * destruct (IH rest Hrest Hin) as (q & ? & ? & ? & ?).
        exists q. split; [by right|done].
    + intros Hrest Hin.
      destruct (IH triples Hrest Hin) as (q & ? & ? & ? & ?).
      exists q. split; [by right|done].
Qed.

Lemma weighted_idx_pairs_elem (name_to_idx : gmap string Z)
    (triples : list (string * string * float)) (i j : Z) (w : float) :
  (i, j, w) ∈ weighted_idx_pairs name_to_idx triples →
  i < j
  ∧ ∃ a b, ((a, b, w) ∈ triples ∨ (b, a, w) ∈ triples)
           ∧ name_to_idx !! a = Some i ∧ name_to_idx !! b = Some j.
Proof.
  induction triples as [|[[a b] w'] l IH].
  - intros Hin. inversion Hin.
  - unfold weighted_idx_pairs. cbn [foldl]. rewrite weighted_idx_pairs_acc.
    intros [Hin|Hin]%elem_of_app.
    + destruct (name_to_idx !! a) as [ia|] eqn:Ea;
        [|by apply elem_of_nil in Hin].
      destruct (name_to_idx !! b) as [ib|] eqn:Eb;
        [|by apply elem_of_nil in Hin].
      case_bool_decide as Heq; [by apply elem_of_nil in Hin|].
      case_bool_decide as Hgt; cbn [app] in Hin;
        apply list_elem_of_singleton in Hin; injection Hin as -> -> ->.
      * split; [lia|]. exists b, a. split; [right; left|done].
      * split; [lia|]. exists a, b. split; [left; left|done].
    + destruct (IH Hin) as (Hlt & a' & b' & Hor & ? & ?).
      split; [done|]. exists a', b'. split; [|done].
      destruct Hor; [left|right]; by right.
Qed.

(** X9. What the solver's objective is built from. Every index triple
    [(i, j, w)] that lines 51-79 produce is ordered and in range,
    [0 <= i < j < len(people)], and stems from an entry of [pair_weights]
    whose weight [w] passes [abs(w) > 1e-9] and whose key contains the two
    different names found at positions [i] and [j] of [people]. *)
Theorem weighted_idx_pairs_normalised (people : list string)
    (pair_weights : list (gset string * float))
    (triples : list (string * string * float)) (i j : Z) (w : float) :
  weighted_pairs pair_weights = Ok triples →
  (i, j, w) ∈ weighted_idx_pairs (index_dict people) triples →
  0 ≤ i ∧ i < j ∧ j < Z.of_nat (length people)
  ∧ significant w = true
  ∧ ∃ p a b,
      (p, w) ∈ pair_weights ∧ a ∈ p ∧ b ∈ p ∧ a ≠ b
      ∧ people !! Z.to_nat i = Some a ∧ people !! Z.to_nat j = Some b.
Proof.
  intros Htriples (Hlt & a & b & Hor & Ha & Hb)%weighted_idx_pairs_elem.
  assert (a ≠ b) as Hab.
  { intros ->. rewrite Ha in Hb. injection Hb as ->. lia. }
  apply index_dict_lookup in Ha as [Hi Ha], Hb as [Hj Hb].
  split; [lia|]. split; [lia|]. split; [lia|].
  destruct Hor as [Hin|Hin];
    destruct (weighted_pairs_elem _ _ _ _ _ Htriples Hin)
      as (p & Hp & Hw & H1 & H2);
    (split; [done|]); exists p, a, b; done.
Qed.

Lemma weighted_idx_pairs_normalised_witness :
  (weighted_pairs [({["A"; "B"]}, 5%float)] = Ok [("A", "B", 5%float)]
   ∧ ((0, 1, 5%float)
      ∈ weighted_idx_pairs (index_dict ["A"; "B"]) [("A", "B", 5%float)]))
  ∧ 0 ≤ 0 ∧ 0 < 1 ∧ 1 < Z.of_nat (length ["A"; "B"])
  ∧ significant 5 = true
  ∧ ∃ p a b,
      (p, 5%float) ∈ [(({["A"; "B"]} : gset string), 5%float)]
      ∧ a ∈ p ∧ b ∈ p ∧ a ≠ b
      ∧ ["A"; "B"] !! Z.to_nat 0 = Some a ∧ ["A"; "B"] !! Z.to_nat 1 = Some b.
Proof.
  assert (weighted_pairs [({["A"; "B"]}, 5%float)]
          = Ok [("A", "B", 5%float)]) as H1 by (by vm_compute).
  assert ((0, 1, 5%float)
          ∈ weighted_idx_pairs (index_dict ["A"; "B"])
              [("A", "B", 5%float)]) as H2 by (vm_compute; left).
  split; [done|].
  exact (weighted_idx_pairs_normalised ["A"; "B"] _ _ 0 1 5%float H1 H2).
Defined.

End IndexPairs.

(** ** Building the model *)

Section BuildModel.
Import Optimizer.

#[local] Arguments io_bind : simpl never.

(** A loop whose body keeps an invariant [I], moves the state along a
    preorder [R] and establishes [Q a] for its element [a], where [Q a]
    survives moves along [R]: the loop returns, and [Q] holds of every
    element at the end. *)
Lemma for_each_establish {A S : Type} (I : S → Prop) (R : S → S → Prop)
    (Q : A → S → Prop) (xs : list A) (body : A → S → result S) (s0 : S) :
  (∀ s, R s s) → (∀ s1 s2 s3, R s1 s2 → R s2 s3 → R s1 s3) →
  (∀ a s s', Q a s → R s s' → Q a s') →
  I s0 →
  (∀ a s, a ∈ xs → I s → R s0 s →
     ∃ s', body a s = Ok s' ∧ I s' ∧ R s s' ∧ Q a s') →
  ∃ s', for_each xs body s0 = Ok s' ∧ I s' ∧ R s0 s'
        ∧ ∀ a, a ∈ xs → Q a s'.
Proof.
  intros Hrefl Htrans Hmono. revert s0.
  induction xs as [|x xs IH]; intros s0 HI Hbody.
  - exists s0. split; [done|]. split; [done|]. split; [done|].
    by intros a ?%elem_of_nil.
  - destruct (Hbody x s0) as (s1 & Hs1 & HI1 & HR1 & HQ1); [left|done|done|].
    destruct (IH s1 HI1) as (s' & Hs' & HI' & HR' & HQ').
    { intros a s Ha HIs HRs. apply Hbody; [by right|done|].
      by apply (Htrans _ s1). }
    exists s'. simpl. rewrite Hs1. split; [done|]. split; [done|].
    split; [by apply (Htrans _ s1)|].
    intros a [->|Ha]%elem_of_cons; [|by apply HQ'].
    by apply (Hmono _ s1).
Qed.

Lemma extends_refl (m : CpModel) : extends m m.
Proof. by split. Qed.

Lemma extends_trans (m1 m2 m3 : CpModel) :
  extends m1 m2 → extends m2 m3 → extends m1 m3.
Proof. intros [? ?] [? ?]. split; [lia|auto]. Qed.

Lemma create_variables_total (P S : Z) (model : CpModel) :
  ∃ model' x,
    (create_variables P S model).2 = Ok (model', x)
    ∧ constraints model' = constraints model
    ∧ (∀ k v, x !! k = Some v → (v < length (variables model'))%nat)
    ∧ (∀ i s, 0 ≤ i < P → 0 ≤ s < S → is_Some (x !! (i, s))).
Proof.
  unfold create_variables. rewrite for_io_value.
  destruct (for_each_establish
              (fun st => bounded st ∧ constraints st.1 = constraints model)
              grows
              (fun i st => ∀ s, 0 ≤ s < S → is_Some (st.2 !! (i, s)))
              (range P)
              (fun i st =>
                 (for_io (range S) (fun s '(model, x) =>
                    do! '(v, model) :=
                      new_bool_var ("x_" +:+ pretty i +:+ "_" +:+ pretty s)
                        model in
                    io_ret (model, <[(i, s) := v]> x)) st).2)
              (model, ∅))
    as ([model' x] & Hrun & [Hb Hc] & _ & Hq).
  - by intros st k.
  - intros s1 s2 s3 H12 H23 k Hk. by apply H23, H12.
  - intros i st st' Hq Hgrow s Hs. by apply Hgrow, Hq.
  - split; [|done]. intros k v Hk. simpl in Hk. by rewrite lookup_empty in Hk.
  - intros i st Hi HI HR. rewrite for_io_value.
    destruct (for_each_establish
                (fun st => bounded st ∧ constraints st.1 = constraints model)
                grows
                (fun s st => is_Some (st.2 !! (i, s)))
                (range S)
                (fun s st =>
                   ((let '(model, x) := st in
                     do! '(v, model) :=
                       new_bool_var ("x_" +:+ pretty i +:+ "_" +:+ pretty s)
                         model in
                     io_ret (model, <[(i, s) := v]> x)) : io _).2)
                st)
      as (st' & Hrun & HI' & HR' & Hq).
    + by intros st0 k.
    + intros s1 s2 s3 H12 H23 k Hk. by apply H23, H12.
    + intros s st0 st1 Hq Hgrow. by apply Hgrow, Hq.
    + done.
    + intros s [m x] Hs [Hb Hc] _. eexists. split; [reflexivity|].
      split; [split|split].
      * intros k v. simpl. rewrite length_app. simpl.
        destruct (decide (k = (i, s))) as [->|Hne].
        -- rewrite lookup_insert_eq. intros [= <-]. lia.
        -- rewrite lookup_insert_ne by done. intros Hk.
           specialize (Hb k v Hk). simpl in Hb. lia.
      * done.
      * intros k. simpl. rewrite lookup_insert_is_Some'. auto.
      * simpl. by rewrite lookup_insert_eq.
    + exists st'. split; [|split; [done|split; [done|]]].
      * rewrite <-Hrun. apply for_each_ext. by intros s [m x].
      * intros s Hs. apply Hq. by apply elem_of_range.
  - exists model', x. split; [done|]. split; [done|]. split; [exact Hb|].
    intros i s Hi Hs. apply (Hq i); [by apply elem_of_range|done].
Qed.

Lemma lookup_all_total (x : gmap (Z * Z) var) (keys : list (Z * Z)) :
  (∀ k, k ∈ keys → is_Some (x !! k)) →
  ∃ vs, lookup_all x keys = Ok vs
        ∧ Forall2 (fun k v => x !! k = Some v) keys vs.
Proof.
  unfold lookup_all.
  assert (∀ acc,
    (∀ k, k ∈ keys → is_Some (x !! k)) →
    ∃ vs, for_each keys
            (fun k acc => let! v := dict_get x k in Ok (acc ++ [v])) acc
          = Ok (acc ++ vs)
          ∧ Forall2 (fun k v => x !! k = Some v) keys vs) as Hgen.
  { induction keys as [|k keys IH]; intros acc Hall.
    - exists []. by rewrite app_nil_r.
    - destruct (Hall k) as [v Hv]; [left|].
      destruct (IH (acc ++ [v])) as (vs & Hvs & Hall').
      { intros k' Hk'. apply Hall. by right. }
      exists (v :: vs). simpl. unfold dict_get at 1. rewrite Hv. simpl.
      rewrite Hvs, <-app_assoc. split; [done|]. by constructor. }
  intros Hall. destruct (Hgen [] Hall) as (vs & Hvs & HF). by exists vs.
Qed.

(** Lines 108-112 succeed on a complete dictionary and leave the two
    families of constraints in the model. *)
Lemma add_assignment_constraints_total (P S : Z) (x : gmap (Z * Z) var)
    (model : CpModel) :
  (∀ i s, 0 ≤ i < P → 0 ≤ s < S → is_Some (x !! (i, s))) →
  ∃ model',
    (add_assignment_constraints P S x model).2 = Ok model'
    ∧ extends model model'
    ∧ length (variables model') = length (variables model)
    ∧ (∀ i, 0 ≤ i < P →
         ∃ vs, Forall2 (fun s v => x !! (i, s) = Some v) (range S) vs
               ∧ SumEq vs 1 ∈ constraints model')
    ∧ (∀ s, 0 ≤ s < S →
         ∃ vs, Forall2 (fun i v => x !! (i, s) = Some v) (range P) vs
               ∧ SumLe vs 1 ∈ constraints model').
Proof.
  intros Hx. unfold add_assignment_constraints.
  rewrite io_bind_value, !for_io_value.
  assert (∀ (mk : list var → constraint) (key : Z → Z → Z * Z) (n m : Z)
            (model0 : CpModel),
    (∀ a b, 0 ≤ a < n → 0 ≤ b < m → is_Some (x !! key a b)) →
    ∃ model',
      for_each (range n)
        (fun a model =>
           (do! vs := io_lift (lookup_all x (key a <$> range m)) in
            add (mk vs) model).2) model0 = Ok model'
      ∧ extends model0 model'
      ∧ length (variables model') = length (variables model0)
      ∧ ∀ a, 0 ≤ a < n →
          ∃ vs, Forall2 (fun b v => x !! key a b = Some v) (range m) vs
                ∧ mk vs ∈ constraints model') as Hloop.
  { intros mk key n m model0 Hkeys.
    destruct (for_each_establish
                (fun model' =>
                   length (variables model') = length (variables model0))
                extends
                (fun a model' =>
                   ∃ vs, Forall2 (fun b v => x !! key a b = Some v)
                           (range m) vs
                         ∧ mk vs ∈ constraints model')
                (range n)
                (fun a model =>
                   (do! vs := io_lift (lookup_all x (key a <$> range m)) in
                    add (mk vs) model).2)
                model0)
      as (model' & Hrun & HI & HR & HQ).
    - apply extends_refl.
    - apply extends_trans.
    - intros a m1 m2 (vs & HF & Hin) [_ Hsub]. exists vs. auto.
    - done.
    - intros a m1 Ha%elem_of_range HI _.
      destruct (lookup_all_total x (key a <$> range m)) as (vs & Hvs & HF).
      { intros k (b & -> & Hb%elem_of_range)%list_elem_of_fmap.
        by apply Hkeys. }
      rewrite io_bind_value. simpl. rewrite Hvs. simpl.
      eexists. split; [reflexivity|]. simpl. split; [done|].
      split; [split; simpl; [lia|]|].
      + intros c Hc. apply elem_of_app. by left.
      + exists vs. split; [by apply Forall2_fmap_l in HF|].
        apply elem_of_app. right. left.
    - exists model'. split; [done|]. split; [done|]. split; [done|].
      intros a Ha. apply HQ. by apply elem_of_range. }
  destruct (Hloop (fun vs => SumEq vs 1) (fun i s => (i, s)) P S model)
    as (model1 & Hrun1 & Hext1 & Hlen1 & Hrows); [done|].
  destruct (Hloop (fun vs => SumLe vs 1) (fun s i => (i, s)) S P model1)
    as (model2 & Hrun2 & Hext2 & Hlen2 & Hcols); [by auto|].
  exists model2. rewrite Hrun1. cbn [bind]. rewrite for_io_value, Hrun2.
  split; [done|]. split; [by apply (extends_trans _ model1)|].
  split; [congruence|]. split; [|done].
  intros i Hi. destruct (Hrows i Hi) as (vs & HF & Hin).
  exists vs. split; [done|]. by apply Hext2.
Qed.

End BuildModel.

(** ** Reading a solution back *)

Section ExtractTotal.
Import Optimizer.

#[local] Arguments io_bind : simpl never.

(** Lines 117-131 succeed when every index pair names two people and the
    dictionary of variables is complete. *)
Lemma build_objective_terms_total (P S : Z) (x : gmap (Z * Z) var)
    (seat_to_idx : gmap seat Z) (weighted : list (Z * Z * float))
    (oriented_edges : list edge) (model : CpModel) :
  (∀ i s, 0 ≤ i < P → 0 ≤ s < S → is_Some (x !! (i, s))) →
  (∀ i j w, (i, j, w) ∈ weighted → 0 ≤ i < P ∧ 0 ≤ j < P) →
  (∀ p s, seat_to_idx !! p = Some s → 0 ≤ s < S) →
  ∃ model' m_vars m_coeffs,
    (build_objective_terms x seat_to_idx weighted oriented_edges model).2
    = Ok (model', m_vars, m_coeffs)
    ∧ extends model model'.
Proof.
  intros Hx Hw Hs. unfold build_objective_terms. rewrite for_io_value.
  destruct (for_each_establish (fun _ => True)
              (fun st st' : CpModel * list var * list float =>
                 extends st.1.1 st'.1.1)
              (fun _ _ => True) weighted
              (fun t st =>
                 ((let '(i, j, w) := t in
                   fun st =>
                     for_io oriented_edges
                       (fun '(seat1, seat2) '(model, m_vars, m_coeffs) =>
                          match seat_to_idx !! seat1, seat_to_idx !! seat2 with
                          | Some s, Some t =>
                              do! '(m, model) :=
                                new_bool_var
                                  ("m_" +:+ pretty i +:+ "_" +:+ pretty j
                                   +:+ "_" +:+ pretty s +:+ "_" +:+ pretty t)
                                  model in
                              do! xis := io_lift (dict_get x (i, s)) in
                              do! xjt := io_lift (dict_get x (j, t)) in
                              do! model := add (MulEq m [xis; xjt]) model in
                              io_ret (model, m_vars ++ [m], m_coeffs ++ [w])
                          | _, _ => io_ret (model, m_vars, m_coeffs)
                          end) st) st).2)
              (model, [], []))
    as ([[model' m_vars] m_coeffs] & Hrun & _ & HR & _).
  - intros st. apply extends_refl.
  - intros s1 s2 s3. apply extends_trans.
  - done.
  - done.
  - intros [[i j] w] st Hin _ _. rewrite for_io_value.
    destruct (Hw i j w Hin) as [Hi Hj].
    destruct (for_each_establish (fun _ => True)
                (fun st st' : CpModel * list var * list float =>
                   extends st.1.1 st'.1.1)
                (fun _ _ => True) oriented_edges
                (fun e st =>
                   ((let '(seat1, seat2) := e in
                     fun '(model, m_vars, m_coeffs) =>
                       match seat_to_idx !! seat1, seat_to_idx !! seat2 with
                       | Some s, Some t =>
                           do! '(m, model) :=
                             new_bool_var
                               ("m_" +:+ pretty i +:+ "_" +:+ pretty j
                                +:+ "_" +:+ pretty s +:+ "_" +:+ pretty t)
                               model in
                           do! xis := io_lift (dict_get x (i, s)) in
                           do! xjt := io_lift (dict_get x (j, t)) in
                           do! model := add (MulEq m [xis; xjt]) model in
                           io_ret (model, m_vars ++ [m], m_coeffs ++ [w])
                       | _, _ => io_ret (model, m_vars, m_coeffs)
                       end) st : io _).2)
                st)
      as (st' & Hrun & _ & HR & _).
    + intros st0. apply extends_refl.
    + intros s1 s2 s3. apply extends_trans.
    + done.
    + done.
    + intros [seat1 seat2] [[m mv] mc] _ _ _.
      destruct (seat_to_idx !! seat1) as [s|] eqn:E1;
        [|eexists; split; [reflexivity|]; repeat split; apply extends_refl].
      destruct (seat_to_idx !! seat2) as [t|] eqn:E2;
        [|eexists; split; [reflexivity|]; repeat split; apply extends_refl].
      destruct (Hx i s Hi (Hs _ _ E1)) as [xis Hxis].
      destruct (Hx j t Hj (Hs _ _ E2)) as [xjt Hxjt].
      unfold new_bool_var, io_lift, dict_get, add, io_ret, io_bind.
      rewrite Hxis, Hxjt. simpl.
      eexists. split; [reflexivity|]. split; [done|]. split; [|done].
      split; simpl; [rewrite length_app; lia|].
      intros c Hc. apply elem_of_app. by left.
    + exists st'. split; [|done].
      rewrite <-Hrun. apply for_each_ext. by intros [seat1 seat2] [[m mv] mc].
  - exists model', m_vars, m_coeffs. split; [|exact HR].
    rewrite <-Hrun. apply for_each_ext. by intros [[i j] w] st.
Qed.

Context (value : var → Z) (x : gmap (Z * Z) var).

Lemma first_seat_total (i : Z) (l : list Z) :
  (∀ s, s ∈ l → is_Some (x !! (i, s))) →
  ∃ r, first_seat value x i l = Ok r
       ∧ match r with
         | Some s => s ∈ l
         | None => ∀ s v, s ∈ l → x !! (i, s) = Some v → value v ≠ 1
         end.
Proof.
  induction l as [|s l IH]; intros Hl.
  - exists None. split; [done|]. by intros s v ?%elem_of_nil.
  - destruct (Hl s) as [v Hv]; [left|]. simpl. unfold dict_get.
    rewrite Hv. simpl. case_bool_decide as Hone.
    + exists (Some s). split; [done|left].
    + destruct IH as (r & Hr & Hspec); [intros s' Hs'; apply Hl; by right|].
      exists r. split; [done|]. destruct r as [s'|]; [by right|].
      intros s' v' [->|Hs']%elem_of_cons Hv'; [congruence|].
      by apply (Hspec s').
Qed.

Lemma sum_values_cons (v : var) (vs : list var) :
  sum_values value (v :: vs) = value v + sum_values value vs.
Proof. reflexivity. Qed.

Lemma sum_values_nonneg (vs : list var) :
  (∀ v, v ∈ vs → 0 ≤ value v) → 0 ≤ sum_values value vs.
Proof.
  induction vs as [|v vs IH]; intros Hall; [done|].
  rewrite sum_values_cons.
  assert (0 ≤ value v) by (apply Hall; left).
  assert (0 ≤ sum_values value vs) by (apply IH; intros; apply Hall; by right).
  lia.
Qed.

(** A row that sums to 1 over Boolean values has a 1. *)
Lemma row_has_one {A : Type} (f : A → option var) (l : list A)
    (vs : list var) :
  Forall2 (fun a v => f a = Some v) l vs →
  (∀ v, v ∈ vs → value v = 0 ∨ value v = 1) →
  sum_values value vs = 1 →
  ∃ a v, a ∈ l ∧ f a = Some v ∧ value v = 1.
Proof.
  induction 1 as [|a v l vs Hav HF IH]; intros Hbool;
    [by cbv|rewrite sum_values_cons].
  destruct (Hbool v) as [H0|H1]; [left| |].
  - rewrite H0. intros Hsum.
    destruct IH as (a' & v' & ? & ? & ?);
      [intros; apply Hbool; by right|lia|].
    exists a', v'. split; [by right|done].
  - intros _. exists a, v. split; [left|done].
Qed.

(** A column that sums to at most 1 over Boolean values has at most one
    1. *)
Lemma column_at_most_one {A : Type} (f : A → option var) (l : list A)
    (vs : list var) (a b : A) (va vb : var) :
  NoDup l → Forall2 (fun a v => f a = Some v) l vs →
  (∀ v, v ∈ vs → value v = 0 ∨ value v = 1) →
  sum_values value vs ≤ 1 →
  a ∈ l → b ∈ l → f a = Some va → f b = Some vb →
  value va = 1 → value vb = 1 → a = b.
Proof.
  intros Hnd HF. revert Hnd.
  assert (∀ l vs c vc,
    Forall2 (fun a v => f a = Some v) l vs →
    (∀ v, v ∈ vs → value v = 0 ∨ value v = 1) →
    c ∈ l → f c = Some vc → value vc = 1 → 1 ≤ sum_values value vs) as Hone.
  { clear. intros l vs c vc HF.
    induction HF as [|a' v' l vs Hav HF IH]; intros Hbool Hc Hvc H1.
    - inversion Hc.
    - assert (0 ≤ sum_values value vs).
      { apply sum_values_nonneg. intros v Hv.
        destruct (Hbool v); [by right|lia..]. }
      rewrite sum_values_cons.
      apply elem_of_cons in Hc as [->|Hc].
      + rewrite Hav in Hvc. injection Hvc as ->. lia.
      + assert (1 ≤ sum_values value vs)
          by (apply IH; [intros; apply Hbool; by right|done..]).
        destruct (Hbool v'); [left|lia..]. }
  induction HF as [|a' v' l vs Hav HF IH];
    intros Hnd Hbool Hsum Ha Hb Hva Hvb H1a H1b.
  - inversion Ha.
  - apply NoDup_cons in Hnd as [Hnotin Hnd].
    assert (∀ v, v ∈ vs → value v = 0 ∨ value v = 1) as Hbool'
      by (intros; apply Hbool; by right).
    assert (value v' = 0 ∨ value v' = 1) as Hv' by (apply Hbool; left).
    assert (0 ≤ sum_values value vs).
    { apply sum_values_nonneg. intros v Hv. destruct (Hbool' v Hv); lia. }
    rewrite sum_values_cons in Hsum.
    apply elem_of_cons in Ha as [->|Ha], Hb as [->|Hb]; [done| | |].
    + exfalso. rewrite Hav in Hva. injection Hva as ->.
      pose proof (Hone l vs b vb HF Hbool' Hb Hvb H1b). lia.
    + exfalso. rewrite Hav in Hvb. injection Hvb as ->.
      pose proof (Hone l vs a va HF Hbool' Ha Hva H1a). lia.
    + apply IH; try done. lia.
Qed.

Lemma Forall2_elem_of_r {A B : Type} (R : A → B → Prop) (l : list A)
    (k : list B) (b : B) :
  Forall2 R l k → b ∈ k → ∃ a, a ∈ l ∧ R a b.
Proof.
  induction 1 as [|a' b' l k HR Hrest IH]; intros Hb; [inversion Hb|].
  apply elem_of_cons in Hb as [->|Hb].
  - exists a'. split; [left|done].
  - destruct (IH Hb) as (a & ? & ?). exists a. split; [by right|done].
Qed.

(** On a well-built model, a Boolean valuation that satisfies the
    constraints is read back as a seat for every person, no seat twice. *)
Lemma extract_assignment_total (P S : Z) (model : CpModel) :
  well_built P S x model →
  satisfies value model = true →
  (∀ v, (v < length (variables model))%nat → value v = 0 ∨ value v = 1) →
  ∃ a, extract_assignment value x P S = Ok a ∧ seats_everyone P S a.
Proof.
  intros (Hx & Hrows & Hcols) Hsat Hbool.
  unfold satisfies in Hsat. rewrite forallb_forall in Hsat.
  assert (∀ {A : Type} (f : A → Z * Z) (l : list A) (vs : list var),
            (∀ a, a ∈ l → 0 ≤ (f a).1 < P ∧ 0 ≤ (f a).2 < S) →
            Forall2 (fun a v => x !! f a = Some v) l vs →
            ∀ v, v ∈ vs → value v = 0 ∨ value v = 1) as Hbits.
  { intros A f l vs Hl HF v Hv.
    destruct (Forall2_elem_of_r _ _ _ _ HF Hv) as (a & Ha & Hxa).
    destruct (Hl a Ha) as [Hi Hs]. destruct (f a) as [i s]. simpl in *.
    destruct (Hx i s Hi Hs) as (v' & Hv' & Hlt).
    apply Hbool.
    assert (Some v = Some v') as [= ->]
      by (etrans; [symmetry; exact Hxa|exact Hv']).
    done. }
  unfold extract_assignment.
  destruct (for_each_establish
              (fun acc : gmap Z Z =>
                 ∀ i s, acc !! i = Some s → 0 ≤ i < P ∧ 0 ≤ s < S)
              (fun acc acc' : gmap Z Z =>
                 ∀ i, is_Some (acc !! i) → is_Some (acc' !! i))
              (fun i (acc : gmap Z Z) => is_Some (acc !! i))
              (range P)
              (fun i assign_idx =>
                 let! found := first_seat value x i (range S) in
                 Ok (match found with
                     | Some s => <[i := s]> assign_idx
                     | None => assign_idx
                     end)) ∅)
    as (a & Hrun & HI & _ & HQ).
  - done.
  - intros a1 a2 a3 H12 H23 i Hi. by apply H23, H12.
  - intros i a1 a2 Hi H12. by apply H12.
  - intros i s Hi. by rewrite lookup_empty in Hi.
  - intros i acc Hi%elem_of_range HI _.
    destruct (first_seat_total i (range S)) as (r & Hr & Hspec).
    { intros s Hs%elem_of_range. destruct (Hx i s Hi Hs) as (v & Hv & _).
      by exists v. }
    rewrite Hr. simpl. destruct r as [s|].
    + apply elem_of_range in Hspec. eexists. split; [reflexivity|].
      split; [|split].
      * intros i' s'. destruct (decide (i' = i)) as [->|Hne].
        -- rewrite lookup_insert_eq. by intros [= <-].
        -- rewrite lookup_insert_ne by done. apply HI.
      * intros i'. rewrite lookup_insert_is_Some'. auto.
      * by rewrite lookup_insert_eq.
    + exfalso. destruct (Hrows i Hi) as (vs & HF & Hin).
      assert (holds value (SumEq vs 1) = true) as Hrow
        by (by apply Hsat, list_elem_of_In).
      simpl in Hrow. apply bool_decide_eq_true in Hrow.
      destruct (row_has_one (fun s => x !! (i, s)) (range S) vs HF)
        as (s & v & Hs & Hv & Hone); [|done|by apply (Hspec s v)].
      apply (Hbits Z (fun s => (i, s)) (range S)); [|done].
      intros s Hs%elem_of_range. simpl. lia.
  - exists a. split; [done|]. split; [|split; [exact HI|]].
    + intros i Hi. apply (HQ i). by apply elem_of_range.
    + intros i j s Hi Hj.
      pose proof (extract_assignment_ones value x P S a Hrun) as Hones.
      destruct (Hones i s Hi) as (vi & Hvi & H1i).
      destruct (Hones j s Hj) as (vj & Hvj & H1j).
      destruct (HI i s Hi) as [Hi' Hs]. destruct (HI j s Hj) as [Hj' _].
      destruct (Hcols s Hs) as (vs & HF & Hin).
      assert (holds value (SumLe vs 1) = true) as Hcol
        by (by apply Hsat, list_elem_of_In).
      simpl in Hcol. apply bool_decide_eq_true in Hcol.
      apply (column_at_most_one (fun i => x !! (i, s)) (range P) vs
               i j vi vj); try done.
      * apply NoDup_seqZ.
      * apply (Hbits Z (fun i => (i, s)) (range P)); [|done].
        intros i0 Hi0%elem_of_range. simpl. lia.
      * by apply elem_of_range.
      * by apply elem_of_range.
Qed.

Lemma cut_variables_total (P S : Z) (a : gmap Z Z) :
  (∀ i s, 0 ≤ i < P → 0 ≤ s < S → is_Some (x !! (i, s))) →
  seats_everyone P S a →
  ∃ cut, cut_variables x a P = Ok cut.
Proof.
  intros Hx (Hall & Hrange & _). unfold cut_variables.
  destruct (for_each_establish (fun _ => True) (fun _ _ : list var => True)
              (fun _ _ => True) (range P)
              (fun i acc =>
                 let! s := dict_get a i in
                 let! v := dict_get x (i, s) in
                 Ok (acc ++ [v])) [])
    as (cut & Hrun & _); try done.
  - intros i acc Hi%elem_of_range _ _.
    destruct (Hall i Hi) as [s Hs]. destruct (Hrange i s Hs) as [_ Hs'].
    destruct (Hx i s Hi Hs') as [v Hv].
    unfold dict_get. rewrite Hs. simpl. rewrite Hv. simpl. by eexists.
  - by exists cut.
Qed.

End ExtractTotal.

(** ** Every returned plan is a valid assignment *)

Section ValidPlans.
Import Optimizer.

#[local] Arguments io_bind : simpl never.

Lemma name_assignment_total (people : list string) (a : gmap Z Z) :
  (∀ i, 0 ≤ i < Z.of_nat (length people) → is_Some (a !! i)) →
  ∃ m, name_assignment people a (Z.of_nat (length people)) = Ok m
       ∧ ∀ name s, m !! name = Some s →
           ∃ idx, 0 ≤ idx < Z.of_nat (length people)
                  ∧ people !! Z.to_nat idx = Some name ∧ a !! idx = Some s.
Proof.
  intros Ha. unfold name_assignment.
  destruct (for_each_establish
              (fun m : gmap string Z =>
                 ∀ name s, m !! name = Some s →
                   ∃ idx, 0 ≤ idx < Z.of_nat (length people)
                          ∧ people !! Z.to_nat idx = Some name
                          ∧ a !! idx = Some s)
              (fun _ _ => True) (fun _ _ => True)
              (range (Z.of_nat (length people)))
              (fun i assignment =>
                 let! name := py_index people i in
                 let! s := dict_get a i in
                 Ok (<[name := s]> assignment)) ∅)
    as (m & Hrun & HI & _); [done|done|done| | |].
  - intros name s Hm. by rewrite lookup_empty in Hm.
  - intros i m Hi%elem_of_range HI _.
    destruct (py_index_in_range people i Hi) as (name & Hname & ->).
    destruct (Ha i Hi) as [s Hs]. unfold dict_get. rewrite Hs. simpl.
    eexists. split; [reflexivity|]. split; [|done].
    intros name' s'. destruct (decide (name' = name)) as [->|Hne].
    + rewrite lookup_insert_eq. intros [= <-]. by exists i.
    + rewrite lookup_insert_ne by done. apply HI.
  - by exists m.
Qed.

Lemma name_assignment_valid (people : list string) (a : gmap Z Z) (S : Z)
    (m : gmap string Z) :
  NoDup people →
  seats_everyone (Z.of_nat (length people)) S a →
  name_assignment people a (Z.of_nat (length people)) = Ok m →
  (∀ name s, m !! name = Some s →
     ∃ idx, 0 ≤ idx < Z.of_nat (length people)
            ∧ people !! Z.to_nat idx = Some name ∧ a !! idx = Some s) →
  valid_assignment people S m.
Proof.
  intros Hnd (Hall & Hrange & Hinj) Hm Hback. split; [|split].
  - intros p. split.
    + intros [s (idx & _ & Hp & _)%Hback]. by eapply list_elem_of_lookup_2.
    + intros [pos Hpos]%list_elem_of_lookup_1.
      pose proof (lookup_lt_Some _ _ _ Hpos) as Hlt.
      destruct (Hall (Z.of_nat pos)) as [s Hs]; [lia|].
      exists s.
      apply (name_assignment_lookup people a (Z.of_nat (length people)) m
               (Z.of_nat pos)); try done; [lia|by rewrite Nat2Z.id].
  - intros p s (idx & _ & _ & Hs)%Hback. by apply (Hrange idx s).
  - intros p q s (i & _ & Hp & Hi)%Hback (j & _ & Hq & Hj)%Hback.
    assert (i = j) as -> by (by apply (Hinj i j s)). congruence.
Qed.

Lemma well_built_extends (P S : Z) (x : gmap (Z * Z) var)
    (m m' : CpModel) :
  well_built P S x m → extends m m' → well_built P S x m'.
Proof.
  intros (Hx & Hrows & Hcols) [Hlen Hsub]. split; [|split].
  - intros i s Hi Hs. destruct (Hx i s Hi Hs) as (v & Hv & Hlt).
    exists v. split; [done|lia].
  - intros i Hi. destruct (Hrows i Hi) as (vs & HF & Hin). exists vs. auto.
  - intros s Hs. destruct (Hcols s Hs) as (vs & HF & Hin). exists vs. auto.
Qed.

Section Loop.
Context (solver : Z → CpModel → response) (progress_callback : bool).
Context (people : list string) (x : gmap (Z * Z) var) (m_vars : list var).
Context (S top_n : Z).
Context (solver_sound : sound solver) (solver_boolean : boolean_valued solver).
Context (people_distinct : NoDup people).

Lemma iteration_total (k : Z) (st : loop_state) :
  well_built (Z.of_nat (length people)) S x (model st) →
  ∃ step,
    (iteration solver progress_callback people x m_vars
       (Z.of_nat (length people)) S top_n k st).2 = Ok step
    ∧ match step with
      | Next st' =>
          well_built (Z.of_nat (length people)) S x (model st')
          ∧ ∃ r, results st' = results st ++ [r] ∧ plan_ok people S r
      | Break st' => st' = st
      end.
Proof.
  intros Hwb. rewrite iteration_value. cbv zeta.
  destruct (negb _) eqn:Hstatus; [by exists (Break st)|].
  apply negb_false_iff, orb_true_iff in Hstatus.
  rewrite !bool_decide_eq_true in Hstatus.
  destruct (extract_assignment_total (value (solver k (model st))) x
              (Z.of_nat (length people)) S (model st))
    as (a & Ha & Hseats); [done|by apply solver_sound| |].
  { intros v Hv. by apply solver_boolean. }
  destruct (name_assignment_total people a) as (m & Hm & Hback).
  { intros i Hi. destruct Hseats as (Hall & _). by apply Hall. }
  destruct (cut_variables_total x (Z.of_nat (length people)) S a)
    as (cut & Hcut); [|done|].
  { intros i s Hi Hs. destruct Hwb as (Hx & _).
    destruct (Hx i s Hi Hs) as (v & Hv & _). by exists v. }
  rewrite Ha. cbn [bind]. rewrite Hm. cbn [bind]. rewrite Hcut. cbn [bind].
  eexists. split; [reflexivity|]. cbn [model results]. split.
  - apply (well_built_extends _ _ _ (model st)); [done|].
    split; simpl; [done|]. intros c Hc. apply elem_of_app. by left.
  - eexists. split; [reflexivity|]. split; [done|].
    by apply (name_assignment_valid people a).
Qed.

Lemma solve_loop_total (ks : list Z) (st : loop_state) :
  well_built (Z.of_nat (length people)) S x (model st) →
  Forall (plan_ok people S) (results st) →
  ∃ st',
    (solve_loop solver progress_callback people x m_vars
       (Z.of_nat (length people)) S top_n ks st).2 = Ok st'
    ∧ Forall (plan_ok people S) (results st')
    ∧ (length (results st') ≤ length (results st) + length ks)%nat.
Proof.
  revert st. induction ks as [|k ks IH]; intros st Hwb Hres;
    rewrite solve_loop_value.
  - exists st. split; [done|]. split; [done|]. simpl. lia.
  - destruct (iteration_total k st Hwb) as (step & -> & Hstep). cbn [bind].
    destruct step as [st1|st1].
    + destruct Hstep as (Hwb1 & r & Hr & Hok).
      destruct (IH st1 Hwb1) as (st' & Hrun & Hres' & Hlen).
      { rewrite Hr. apply Forall_app. split; [done|]. by constructor. }
      exists st'. split; [done|]. split; [done|].
      rewrite Hr, length_app in Hlen. simpl in *. lia.
    + subst st1. exists st. split; [done|]. split; [done|]. simpl. lia.
Qed.

End Loop.

Lemma build_and_solve_total (solver : Z → CpModel → response)
    (progress_callback : bool) (people : list string) (seats : list seat)
    (weighted : list (Z * Z * float)) (oriented_edges : list edge)
    (top_n : Z) :
  sound solver → boolean_valued solver → NoDup people →
  (∀ i j w, (i, j, w) ∈ weighted →
     0 ≤ i < Z.of_nat (length people) ∧ 0 ≤ j < Z.of_nat (length people)) →
  ∃ st,
    (build_and_solve solver progress_callback people seats weighted
       oriented_edges top_n (Z.of_nat (length people))
       (Z.of_nat (length seats))).2 = Ok st
    ∧ Forall (plan_ok people (Z.of_nat (length seats))) (results st)
    ∧ (length (results st) ≤ Z.to_nat top_n)%nat.
Proof.
  intros Hsound Hbool Hnd Hweighted. unfold build_and_solve.
  rewrite io_bind_value, progress_value. cbn [bind].
  rewrite io_bind_value, progress_value. cbn [bind].
  destruct (create_variables_total (Z.of_nat (length people))
              (Z.of_nat (length seats)) empty_model)
    as (model1 & x & Hcv & _ & Hbounded & Hx).
  rewrite io_bind_value, Hcv. cbn [bind]. cbv beta iota.
  rewrite io_bind_value, progress_value. cbn [bind].
  destruct (add_assignment_constraints_total (Z.of_nat (length people))
              (Z.of_nat (length seats)) x model1 Hx)
    as (model2 & Hadd & Hext2 & Hlen2 & Hrows & Hcols).
  rewrite io_bind_value, Hadd. cbn [bind].
  rewrite io_bind_value, progress_value. cbn [bind].
  destruct (build_objective_terms_total (Z.of_nat (length people))
              (Z.of_nat (length seats)) x (index_dict seats) weighted
              oriented_edges model2 Hx Hweighted)
    as (model3 & m_vars & m_coeffs & Hobj & Hext3).
  { intros p s Hp. by apply index_dict_lookup in Hp as [? _]. }
  rewrite io_bind_value, Hobj. cbn [bind]. cbv beta iota.
  assert (well_built (Z.of_nat (length people)) (Z.of_nat (length seats)) x
            model2) as Hwb2.
  { split; [|done]. intros i s Hi Hs. destruct (Hx i s Hi Hs) as [v Hv].
    exists v. split; [done|]. rewrite Hlen2. by apply (Hbounded (i, s)). }
  rewrite io_bind_value.
  assert (∀ mv model4,
    well_built (Z.of_nat (length people)) (Z.of_nat (length seats)) x
      model4 →
    ∃ st,
      bind (Ok model4)
        (fun a =>
           (do! st :=
              solve_loop solver progress_callback people x mv
                (Z.of_nat (length people)) (Z.of_nat (length seats)) top_n
                (range top_n)
                {| model := a; results := []; used_solutions := [] |} in
            do! _ := progress progress_callback 1.0%float "计算完成!" in
            io_ret st).2) = Ok st
      ∧ Forall (plan_ok people (Z.of_nat (length seats))) (results st)
      ∧ (length (results st) ≤ Z.to_nat top_n)%nat) as Hrest.
  { intros mv model4 Hwb4. cbn [bind].
    destruct (solve_loop_total solver progress_callback people x mv
                (Z.of_nat (length seats)) top_n Hsound Hbool Hnd
                (range top_n)
                {| model := model4; results := []; used_solutions := [] |})
      as (st & Hloop & Hres & Hlen); [done|by constructor|].
    rewrite io_bind_value, Hloop. cbn [bind].
    rewrite io_bind_value, progress_value. cbn [bind].
    exists st. split; [done|]. split; [done|].
    unfold range in Hlen. rewrite length_seqZ in Hlen. simpl in Hlen. lia. }
  destruct m_vars as [|mv0 m_vars].
  - apply (Hrest [] model3). by apply (well_built_extends _ _ _ model2).
  - apply (Hrest (mv0 :: m_vars)).
    by apply (well_built_extends _ _ _ model2).
Qed.

Lemma valid_assignment_items (people : list string) (n_seats : Z)
    (a : gmap string Z) (items : list (string * Z)) :
  valid_assignment people n_seats a →
  NoDup (items.*1) → list_to_map items = a →
  valid_items people n_seats items.
Proof.
  intros (Hdom & Hrange & Hinj) Hnd <-. split; [|split].
  - intros p. rewrite <-Hdom. split.
    + intros (item & -> & Hin)%list_elem_of_fmap. exists item.2.
      apply elem_of_list_to_map_1; [done|]. by destruct item.
    + intros [s Hs]. apply elem_of_list_to_map_2 in Hs.
      apply list_elem_of_fmap. by exists (p, s).
  - intros [p s] Hin. simpl. apply (Hrange p).
    by apply elem_of_list_to_map_1.
  - apply NoDup_fmap_2_strong; [|by eapply NoDup_fmap_1].
    intros [p s] [q s'] Hp Hq. simpl. intros <-. f_equal.
    apply (Hinj p q s); by apply elem_of_list_to_map_1.
Qed.


Lemma two_seat_candidates_boolean :
  boolean_valued (checking_solver two_seat_candidates).
Proof.
  intros k model v _ _. unfold checking_solver.
  destruct (satisfies _ _); simpl; unfold two_seat_candidates;
    repeat case_match; auto.
Qed.


End ValidPlans.

(** ** Bounds on the satisfaction counts *)

Section MetricsBounds.
Import Optimizer.

Lemma size_union_list_pairs (l : list (gset string)) :
  Forall (fun p => size p = 2%nat) l → (size (⋃ l) ≤ 2 * length l)%nat.
Proof.
  induction 1 as [|p l Hp Hall IH].
  - rewrite union_list_nil, size_empty. simpl. lia.
  - rewrite union_list_cons, length_cons.
    pose proof (size_union_alt p (⋃ l)) as Hsz.
    assert (size (⋃ l ∖ p) ≤ size (⋃ l))%nat
      by (apply subseteq_size; set_solver).
    lia.
Qed.

Lemma union_list_mono (X Y : gset (gset string)) :
  X ⊆ Y → ⋃ elements X ⊆ ⋃ elements Y.
Proof.
  intros Hsub a (p & Hp & Ha)%elem_of_union_list.
  apply elem_of_union_list. exists p. split; [|done].
  apply elem_of_elements, Hsub. by apply elem_of_elements.
Qed.

(** X11. The satisfaction counts are consistent. For positive pairs of two
    names each, [compute_satisfaction_metrics] returns counts with: the
    satisfied people are at most the people with a preference, the
    satisfied pairs at most the positive pairs, the satisfied people at
    most twice the satisfied pairs and at least two as soon as one pair is
    satisfied, and the people with a preference at most twice the positive
    pairs. So the satisfaction percentage the application derives from the
    first two counts never exceeds 100. *)
Theorem compute_satisfaction_metrics_bounds (assignment : gmap string Z)
    (people : list string) (seats : list seat)
    (positive_pairs : gset (gset string)) (oriented_edges : list edge)
    (willing_pairs_by_rank : option (gmap Z (gset (gset string)))) :
  (∀ p, p ∈ positive_pairs → size p = 2%nat) →
  (∀ by_rank first_rank_pairs p,
     willing_pairs_by_rank = Some by_rank →
     by_rank !! 1 = Some first_rank_pairs →
     p ∈ first_rank_pairs → size p = 2%nat) →
  ∃ n_satisfied n_total n_pairs rate,
    compute_satisfaction_metrics assignment people seats positive_pairs
      oriented_edges willing_pairs_by_rank
    = Ok (n_satisfied, n_total, n_pairs, rate)
    ∧ 0 ≤ n_satisfied ≤ n_total
    ∧ 0 ≤ n_pairs ≤ Z.of_nat (size positive_pairs)
    ∧ n_satisfied ≤ 2 * n_pairs
    ∧ (1 ≤ n_pairs → 2 ≤ n_satisfied)
    ∧ n_total ≤ 2 * Z.of_nat (size positive_pairs).
Proof.
  intros Hpos Hfirst.
  destruct (compute_satisfaction_metrics_rules assignment people seats
              positive_pairs oriented_edges willing_pairs_by_rank Hpos Hfirst)
    as (satisfied & rate & Hrun & Hsat & _).
  assert (satisfied ⊆ positive_pairs) as Hsub
    by (intros p Hp; by apply Hsat in Hp as [? _]).
  assert (∀ X : gset (gset string), X ⊆ positive_pairs →
            (size (⋃ elements X) ≤ 2 * size X)%nat) as Htwice.
  { intros X HX. unfold size at 2, set_size. simpl.
    apply size_union_list_pairs, Forall_forall.
    intros p Hp%elem_of_elements. apply Hpos. by apply HX. }
  eexists _, _, _, rate. split; [exact Hrun|].
  pose proof (subseteq_size _ _ (union_list_mono _ _ Hsub)).
  pose proof (subseteq_size _ _ Hsub).
  pose proof (Htwice satisfied Hsub).
  pose proof (Htwice positive_pairs (reflexivity _)).
  split; [lia|]. split; [lia|]. split; [lia|]. split; [|lia].
  intros Hone.
  destruct (size_pos_elem_of satisfied) as [p Hp]; [lia|].
  assert (p ⊆ ⋃ elements satisfied) as Hp'.
  { intros a Ha. apply elem_of_union_list. exists p.
    split; [by apply elem_of_elements|done]. }
  apply subseteq_size in Hp'. rewrite (Hpos p) in Hp' by (by apply Hsub).
  lia.
Qed.

Lemma compute_satisfaction_metrics_bounds_witness :
  ((∀ p, p ∈ ({[ {["A"; "B"]} ]} : gset (gset string)) → size p = 2%nat)
   ∧ (∀ (by_rank : gmap Z (gset (gset string))) first_rank_pairs
        (p : gset string),
        None = Some by_rank → by_rank !! 1 = Some first_rank_pairs →
        p ∈ first_rank_pairs → size p = 2%nat))
  ∧ ∃ n_satisfied n_total n_pairs rate,
      compute_satisfaction_metrics example_assignment ["A"; "B"; "C"; "D"]
        [(0, 0); (0, 1); (1, 0); (1, 1)] {[ {["A"; "B"]} ]}
        [((0, 0), (0, 1)); ((0, 1), (0, 0))] None
      = Ok (n_satisfied, n_total, n_pairs, rate)
      ∧ 0 ≤ n_satisfied ≤ n_total
      ∧ 0 ≤ n_pairs
          ≤ Z.of_nat (size ({[ {["A"; "B"]} ]} : gset (gset string)))
      ∧ n_satisfied ≤ 2 * n_pairs
      ∧ (1 ≤ n_pairs → 2 ≤ n_satisfied)
      ∧ n_total
        ≤ 2 * Z.of_nat (size ({[ {["A"; "B"]} ]} : gset (gset string))).
Proof.
  assert (∀ p, p ∈ ({[ {["A"; "B"]} ]} : gset (gset string)) →
               size p = 2%nat) as H1.
  { intros p ->%elem_of_singleton. by vm_compute. }
  assert (∀ (by_rank : gmap Z (gset (gset string))) first_rank_pairs
            (p : gset string),
            None = Some by_rank → by_rank !! 1 = Some first_rank_pairs →
            p ∈ first_rank_pairs → size p = 2%nat) as H2 by discriminate.
  split; [done|].
  exact (compute_satisfaction_metrics_bounds example_assignment
           ["A"; "B"; "C"; "D"] [(0, 0); (0, 1); (1, 0); (1, 1)]
           {[ {["A"; "B"]} ]} [((0, 0), (0, 1)); ((0, 1), (0, 0))] None
           H1 H2).
Defined.

End MetricsBounds.

(** ** Where a pair weight comes from, and when the merge fails *)

Section WeightProvenance.
Import DataProcessor.

Section RankLoop.
Context (guard : Z → bool) (weight_of : Z → result float).

Lemma assign_rank_cases (e : Z * gset (gset string))
    (m : gmap (gset string) float) :
  (guard e.1 = true ∧ e.2 ≠ ∅
   ∧ ∃ err, weight_of e.1 = Raise err
            ∧ assign_rank guard weight_of e m = Raise err)
  ∨ ((guard e.1 = true → e.2 ≠ ∅ → ∃ w, weight_of e.1 = Ok w)
     ∧ ∃ m', assign_rank guard weight_of e m = Ok m'
             ∧ ∀ p wt, m' !! p = Some wt →
                 m !! p = Some wt
                 ∨ (covers guard e p ∧ weight_of e.1 = Ok wt)).
Proof.
  destruct (guard e.1) eqn:Hg.
  - destruct (weight_of e.1) as [w|err] eqn:Hw.
    + right. split; [by exists w|].
      destruct (assign_rank_ok guard weight_of e m w Hg Hw)
        as (m' & Hm' & Hlook).
      exists m'. split; [done|]. intros p wt. rewrite Hlook.
      destruct (decide (p ∈ e.2)); [|auto].
      intros [= <-]. right. by split.
    + unfold assign_rank. rewrite Hg.
      destruct (elements e.2) as [|q qs] eqn:He.
      * right. split.
        { intros _ Hne. by apply elements_empty_inv, leibniz_equiv in He. }
        exists m. split; [done|auto].
      * left. split; [done|]. split.
        { intros Hempty. rewrite Hempty, elements_empty in He.
          discriminate. }
        exists err. split; [done|]. simpl. by rewrite Hw.
  - right. split; [done|]. exists m.
    split; [by apply assign_rank_skip|auto].
Qed.

Lemma rank_loop_cases (entries : list (Z * gset (gset string)))
    (m : gmap (gset string) float) :
  (∃ e err, e ∈ entries ∧ guard e.1 = true ∧ e.2 ≠ ∅
            ∧ weight_of e.1 = Raise err
            ∧ for_each entries (assign_rank guard weight_of) m = Raise err)
  ∨ ((∀ e, e ∈ entries → guard e.1 = true → e.2 ≠ ∅ →
        ∃ w, weight_of e.1 = Ok w)
     ∧ ∃ m', for_each entries (assign_rank guard weight_of) m = Ok m'
             ∧ ∀ p wt, m' !! p = Some wt →
                 m !! p = Some wt
                 ∨ ∃ e, e ∈ entries ∧ covers guard e p
                        ∧ weight_of e.1 = Ok wt).
Proof.
  revert m. induction entries as [|e entries IH]; intros m.
  - right. split; [by intros e ?%elem_of_nil|].
    exists m. split; [done|auto].
  - cbn [for_each].
    destruct (assign_rank_cases e m)
      as [(Hg & Hne & err & Hw & ->)|(Hdef & m1 & -> & Hm1)].
    + left. exists e, err. split; [left|done].
    + destruct (IH m1)
        as [(e' & err & He' & Hg & Hne & Hw & ->)
           |(Hall & m' & -> & Hm')].
      * left. exists e', err. split; [by right|done].
      * right. split.
        { intros e' [->|He']%elem_of_cons; [done|by apply Hall]. }
        exists m'. split; [done|]. intros p wt Hp.
        destruct (Hm' p wt Hp) as [Hold|(e' & He' & Hc & Hw)].
        -- destruct (Hm1 p wt Hold) as [?|[Hc Hw]]; [by left|].
           right. exists e. split; [left|done].
        -- right. exists e'. split; [by right|done].
Qed.

End RankLoop.

Lemma assign_custom_cases (l : list (string * string * float))
    (m : gmap (gset string) float) (p : gset string) (wt : float) :
  assign_custom l m !! p = Some wt →
  m !! p = Some wt ∨ ∃ t, t ∈ l ∧ custom_key t = p ∧ t.2 = wt.
Proof.
  unfold assign_custom. revert m.
  induction l as [|[[n1 n2] w] l IH]; intros m; simpl; [auto|].
  intros [Hm|(t & Ht & Hk & Hw)]%IH.
  - destruct (decide (p = {[n1; n2]})) as [->|Hne].
    + rewrite lookup_insert_eq in Hm. injection Hm as <-.
      right. exists (n1, n2, w). split; [left|done].
    + rewrite lookup_insert_ne in Hm by done. by left.
  - right. exists t. split; [by right|done].
Qed.

Lemma pair_weight_sources (willing unwilling : ranked_pairs)
    (w_weights uw_weights : list float)
    (custom_pairs : option (list (string * string * float)))
    (merged : gmap (gset string) float) (p : gset string) (wt : float) :
  compute_pair_weights willing unwilling w_weights uw_weights custom_pairs
  = Ok merged →
  merged !! p = Some wt →
  (∃ e, e ∈ willing ∧ at_willing_rank w_weights e p
        ∧ py_index w_weights (e.1 - 1) = Ok wt)
  ∨ (∃ e, e ∈ unwilling ∧ at_unwilling_rank uw_weights e p
          ∧ py_index uw_weights e.1 = Ok wt)
  ∨ (∃ l t, custom_pairs = Some l ∧ t ∈ l ∧ custom_key t = p ∧ t.2 = wt).
Proof.
  set (guard_w := fun r => bool_decide (r ≤ Z.of_nat (length w_weights))).
  set (weight_w := fun r => py_index w_weights (r - 1)).
  set (guard_u := fun r => bool_decide (r < Z.of_nat (length uw_weights))).
  set (weight_u := fun r => py_index uw_weights r).
  unfold compute_pair_weights.
  rewrite (for_each_ext willing _ (assign_rank guard_w weight_w))
    by (by intros [rank pairs] s).
  destruct (rank_loop_cases guard_w weight_w willing ∅)
    as [(e & err & _ & _ & _ & _ & ->)|(_ & m1 & -> & Hm1)];
    [discriminate|]. cbn [bind].
  rewrite (for_each_ext unwilling _ (assign_rank guard_u weight_u))
    by (by intros [rank pairs] s).
  destruct (rank_loop_cases guard_u weight_u unwilling m1)
    as [(e & err & _ & _ & _ & _ & ->)|(_ & m2 & -> & Hm2)];
    [discriminate|]. cbn [bind].
  assert (∀ wt, m2 !! p = Some wt →
    (∃ e, e ∈ willing ∧ at_willing_rank w_weights e p
          ∧ py_index w_weights (e.1 - 1) = Ok wt)
    ∨ (∃ e, e ∈ unwilling ∧ at_unwilling_rank uw_weights e p
            ∧ py_index uw_weights e.1 = Ok wt)) as Hranks.
  { intros wt' [Hold|(e & He & [Hg Hp] & Hw)]%Hm2.
    - apply Hm1 in Hold as [Hold|(e & He & [Hg Hp] & Hw)].
      + by rewrite lookup_empty in Hold.
      + left. exists e. split; [done|]. split; [|done].
        split; [by apply bool_decide_eq_true in Hg|done].
    - right. exists e. split; [done|]. split; [|done].
      split; [by apply bool_decide_eq_true in Hg|done]. }
  destruct custom_pairs as [[|t ts]|]; intros [= <-] Hp.
  - destruct (Hranks wt Hp); auto.
  - apply (assign_custom_cases (t :: ts) m2) in Hp
      as [Hp|(t' & Ht' & Hk & Hw)].
    + destruct (Hranks wt Hp); auto.
    + right; right. by exists (t :: ts), t'.
  - destruct (Hranks wt Hp); auto.
Qed.

(** X12. Nothing in the merged map is invented. Every entry of the map
    returned by [compute_pair_weights] is the weight [w_weights[r-1]] of a
    willing rank [r <= len(w_weights)] that holds the pair, or the weight
    [uw_weights[r]] of an unwilling rank [r < len(uw_weights)] that holds
    it, or the weight of a custom triple naming the pair. *)
Theorem compute_pair_weights_provenance (willing unwilling : ranked_pairs)
    (w_weights uw_weights : list float)
    (custom_pairs : option (list (string * string * float)))
    (merged : gmap (gset string) float) (p : gset string) (wt : float) :
  compute_pair_weights willing unwilling w_weights uw_weights custom_pairs
  = Ok merged →
  merged !! p = Some wt →
  (∃ e, e ∈ willing ∧ at_willing_rank w_weights e p
        ∧ py_index w_weights (e.1 - 1) = Ok wt)
  ∨ (∃ e, e ∈ unwilling ∧ at_unwilling_rank uw_weights e p
          ∧ py_index uw_weights e.1 = Ok wt)
  ∨ (∃ l t, custom_pairs = Some l ∧ t ∈ l ∧ custom_key t = p ∧ t.2 = wt).
Proof.
  apply pair_weight_sources.
Qed.

Lemma compute_pair_weights_provenance_witness :
  ∃ merged,
    (compute_pair_weights [(1, {[ {["A"; "B"]} ]})] [] [5%float] []
       (Some [("A", "B", 2%float)]) = Ok merged
     ∧ merged !! custom_key ("A", "B", 2%float) = Some 2%float)
    ∧ ((∃ e, e ∈ [(1, ({[ {["A"; "B"]} ]} : gset (gset string)))]
             ∧ at_willing_rank [5%float] e (custom_key ("A", "B", 2%float))
             ∧ py_index [5%float] (e.1 - 1) = Ok 2%float)
       ∨ (∃ e, e ∈ [] ∧ at_unwilling_rank [] e (custom_key ("A", "B", 2%float))
               ∧ py_index [] e.1 = Ok 2%float)
       ∨ (∃ l t, Some [("A", "B", 2%float)] = Some l ∧ t ∈ l
                 ∧ custom_key t = custom_key ("A", "B", 2%float)
                 ∧ t.2 = 2%float)).
Proof.
  destruct (compute_pair_weights_rules
              [(1, ({[ {["A"; "B"]} ]} : gset (gset string)))] []
              [5%float] [] (Some [("A", "B", 2%float)]))
    as (merged & Hm & _ & _ & Hcustom & _).
  { intros e ->%list_elem_of_singleton. simpl. lia. }
  { intros e He. inversion He. }
  assert (merged !! custom_key ("A", "B", 2%float) = Some 2%float) as Hp.
  { apply (Hcustom _ [] ("A", "B", 2%float) [] eq_refl eq_refl).
    intros t' Ht'. inversion Ht'. }
  exists merged. split; [by split|].
  exact (compute_pair_weights_provenance _ _ _ _ _ _ _ _ Hm Hp).
Defined.

(** X13. When [compute_pair_weights] fails. The call returns a map exactly
    when every non-empty willing rank [r <= len(w_weights)] has
    [r > -len(w_weights)] and every non-empty unwilling rank
    [r < len(uw_weights)] has [r >= -len(uw_weights)]; otherwise it raises
    [IndexError]. A rank whose set of pairs is empty, or that fails the
    length test, never raises. *)
Theorem compute_pair_weights_defined (willing unwilling : ranked_pairs)
    (w_weights uw_weights : list float)
    (custom_pairs : option (list (string * string * float))) :
  ((∃ merged,
      compute_pair_weights willing unwilling w_weights uw_weights
        custom_pairs = Ok merged)
   ↔ (∀ e, e ∈ willing → e.1 ≤ Z.of_nat (length w_weights) → e.2 ≠ ∅ →
           - Z.of_nat (length w_weights) < e.1)
     ∧ (∀ e, e ∈ unwilling → e.1 < Z.of_nat (length uw_weights) →
             e.2 ≠ ∅ → - Z.of_nat (length uw_weights) ≤ e.1))
  ∧ index_error_at_worst
      (compute_pair_weights willing unwilling w_weights uw_weights
         custom_pairs).
Proof.
  set (guard_w := fun r => bool_decide (r ≤ Z.of_nat (length w_weights))).
  set (weight_w := fun r => py_index w_weights (r - 1)).
  set (guard_u := fun r => bool_decide (r < Z.of_nat (length uw_weights))).
  set (weight_u := fun r => py_index uw_weights r).
  assert (∀ {A : Type} (l : list A) i,
            (∃ a, py_index l i = Ok a)
            ↔ - Z.of_nat (length l) ≤ i < Z.of_nat (length l)) as Hidx.
  { intros A l i. split; [|apply py_index_ok].
    intros [a Ha]. unfold py_index in Ha.
    destruct (bool_decide_reflect (i < 0)); simpl in Ha.
    - case_bool_decide; [discriminate|].
      destruct (l !! _) eqn:E; [|discriminate].
      apply lookup_lt_Some in E. lia.
    - rewrite bool_decide_eq_false_2 in Ha by lia.
      destruct (l !! _) eqn:E; [|discriminate].
      apply lookup_lt_Some in E. lia. }
  unfold compute_pair_weights.
  rewrite (for_each_ext willing _ (assign_rank guard_w weight_w))
    by (by intros [rank pairs] s).
  destruct (rank_loop_cases guard_w weight_w willing ∅)
    as [(e & err & He & Hg & Hne & Hw & ->)|(Hallw & m1 & -> & _)].
  { cbn [bind]. split.
    - split; [by intros [? ?]|]. intros [Hcond _]. exfalso.
      apply bool_decide_eq_true in Hg. specialize (Hcond e He Hg Hne).
      destruct (proj2 (Hidx _ w_weights (e.1 - 1))) as [a Ha]; [lia|].
      unfold weight_w in Hw. congruence.
    - intros err' [= <-].
      by apply (index_error_at_worst_py_index w_weights (e.1 - 1)). }
  cbn [bind].
  rewrite (for_each_ext unwilling _ (assign_rank guard_u weight_u))
    by (by intros [rank pairs] s).
  destruct (rank_loop_cases guard_u weight_u unwilling m1)
    as [(e & err & He & Hg & Hne & Hw & ->)|(Hallu & m2 & -> & _)].
  { cbn [bind]. split.
    - split; [by intros [? ?]|]. intros [_ Hcond]. exfalso.
      apply bool_decide_eq_true in Hg. specialize (Hcond e He Hg Hne).
      destruct (proj2 (Hidx _ uw_weights e.1)) as [a Ha]; [lia|].
      unfold weight_u in Hw. congruence.
    - intros err' [= <-].
      by apply (index_error_at_worst_py_index uw_weights e.1). }
  cbn [bind]. split.
  - split; [intros _|by destruct custom_pairs as [[|? ?]|]; eexists].
    split.
    + intros e He Hg Hne.
      destruct (Hallw e He) as [w Hw];
        [by apply bool_decide_eq_true|done|].
      destruct (proj1 (Hidx _ w_weights (e.1 - 1))); [by exists w|lia].
    + intros e He Hg Hne.
      destruct (Hallu e He) as [w Hw];
        [by apply bool_decide_eq_true|done|].
      destruct (proj1 (Hidx _ uw_weights e.1)); [by exists w|lia].
  - by destruct custom_pairs as [[|? ?]|]; intros err.
Qed.

End WeightProvenance.

(** ** Keys that do not name two people *)

Section ShortKeys.
Import Optimizer.

Lemma weighted_pairs_short_key (pair_weights : list (gset string * float))
    (p : gset string) (w : float) :
  (p, w) ∈ pair_weights → significant w = true → (size p < 2)%nat →
  weighted_pairs pair_weights = Raise IndexError.
Proof.
  intros (pre & post & ->)%list_elem_of_split Hw Hsz. unfold weighted_pairs.
  apply for_each_raises.
  - intros [q v] acc. destruct (significant v);
      [|apply index_error_at_worst_ok].
    apply index_error_at_worst_bind; [apply index_error_at_worst_py_index|].
    intros a.
    apply index_error_at_worst_bind; [apply index_error_at_worst_py_index|].
    intros b. apply index_error_at_worst_ok.
  - intros acc. rewrite Hw.
    change (size p) with (length (elements p)) in Hsz.
    destruct (elements p) as [|a [|b l]] eqn:E; simpl in Hsz; [done|done|lia].
Qed.

(** X14. A key with fewer than two names stops the solver at once. Whenever
    the pair-weight map holds an entry whose weight passes
    [abs(w) > 1e-9] and whose key has fewer than two members,
    [solve_top_n_assignments] raises [IndexError] at line 51, for every
    solver, people list, seat list, edge list and [top_n]: no progress is
    reported and nothing is built or solved, and the check of the seat count
    is not reached. *)
Theorem short_key_raises (solver : Z → CpModel → response)
    (progress_callback : bool) (people : list string) (seats : list seat)
    (pair_weights : list (gset string * float)) (oriented_edges : list edge)
    (top_n : Z) (p : gset string) (w : float) :
  (p, w) ∈ pair_weights → significant w = true → (size p < 2)%nat →
  solve_top_n_assignments solver progress_callback people seats pair_weights
    oriented_edges top_n
  = ([], Raise IndexError).
Proof.
  intros Hin Hw Hsz. unfold solve_top_n_assignments.
  by rewrite (weighted_pairs_short_key pair_weights p w).
Qed.

Lemma short_key_raises_witness :
  (({["A"; "A"]} : gset string, 5%float) ∈ [(({["A"; "A"]} : gset string), 5%float)]
   ∧ significant 5%float = true
   ∧ (size ({["A"; "A"]} : gset string) < 2)%nat)
  ∧ solve_top_n_assignments (checking_solver two_seat_candidates) true
      ["A"; "B"] [(0, 0); (0, 1)] [({["A"; "A"]}, 5%float)] [] 3
    = ([], Raise IndexError).
Proof.
  assert ((({["A"; "A"]} : gset string), 5%float)
          ∈ [(({["A"; "A"]} : gset string), 5%float)]) as H1 by left.
  assert (significant 5%float = true) as H2 by reflexivity.
  assert (size ({["A"; "A"]} : gset string) < 2)%nat as H3
    by (vm_compute; lia).
  split; [done|].
  exact (short_key_raises _ _ _ _ _ _ _ _ _ H1 H2 H3).
Defined.

End ShortKeys.

(** ** The cleaned name list *)

Section Stripping.
Context {A : Type} (p : A → bool).

Lemma lstrip_length (l : list A) :
  (length (PyStr.lstrip p l) ≤ length l)%nat.
Proof.
  induction l as [|x l IH]; simpl; [lia|].
  destruct (p x); simpl; lia.
Qed.

Lemma lstrip_cons_fixed (x : A) (l : list A) :
  PyStr.lstrip p (x :: l) = x :: l ↔ p x = false.
Proof.
  simpl. destruct (p x) eqn:E; [|done].
  split; [|done]. intros H. pose proof (lstrip_length l) as Hlen.
  rewrite H in Hlen. simpl in Hlen. lia.
Qed.

Lemma lstrip_idemp (l : list A) :
  PyStr.lstrip p (PyStr.lstrip p l) = PyStr.lstrip p l.
Proof.
  induction l as [|x l IH]; simpl; [done|].
  destruct (p x) eqn:E; [done|]. simpl. by rewrite E.
Qed.

Lemma lstrip_split (l : list A) :
  ∃ pre, l = pre ++ PyStr.lstrip p l.
Proof.
  induction l as [|x l [pre IH]]; simpl; [by exists []|].
  destruct (p x); [|by exists []].
  exists (x :: pre). simpl. by f_equal.
Qed.

(** Stripping the right end keeps a stripped left end. *)
Lemma lstrip_reverse_lstrip (l : list A) :
  PyStr.lstrip p l = l →
  PyStr.lstrip p (reverse (PyStr.lstrip p (reverse l)))
  = reverse (PyStr.lstrip p (reverse l)).
Proof.
  intros Hfix. destruct (lstrip_split (reverse l)) as [pre Hpre].
  apply (f_equal reverse) in Hpre.
  rewrite reverse_involutive, reverse_app in Hpre.
  destruct (reverse (PyStr.lstrip p (reverse l))) as [|x m]; [done|].
  apply lstrip_cons_fixed. rewrite Hpre in Hfix. simpl in Hfix.
  by apply lstrip_cons_fixed in Hfix.
Qed.

Lemma strip_fixed (l : list A) :
  PyStr.strip p l = l
  ↔ PyStr.lstrip p l = l ∧ PyStr.lstrip p (reverse l) = reverse l.
Proof.
  unfold PyStr.strip. split.
  - intros H.
    assert (PyStr.lstrip p l = l) as Hl.
    { rewrite <- H at 1 2.
      apply lstrip_reverse_lstrip, lstrip_idemp. }
    split; [done|]. rewrite Hl in H.
    apply (f_equal reverse) in H. by rewrite reverse_involutive in H.
  - intros [-> ->]. apply reverse_involutive.
Qed.

Lemma strip_idemp (l : list A) :
  PyStr.strip p (PyStr.strip p l) = PyStr.strip p l.
Proof.
  apply strip_fixed. unfold PyStr.strip. split.
  - apply lstrip_reverse_lstrip, lstrip_idemp.
  - rewrite reverse_involutive. apply lstrip_idemp.
Qed.

(** What is stripped is cut off at the two ends. *)
Lemma strip_segment (l : list A) :
  ∃ pre post, l = pre ++ PyStr.strip p l ++ post.
Proof.
  unfold PyStr.strip. destruct (lstrip_split l) as [pre Hpre].
  destruct (lstrip_split (reverse (PyStr.lstrip p l))) as [post Hpost].
  exists pre, (reverse post). rewrite Hpre at 1. f_equal.
  apply (f_equal reverse) in Hpost.
  by rewrite reverse_involutive, reverse_app in Hpost.
Qed.

Lemma lstrip_no_match (l : list A) :
  Forall (fun x => p x = false) l → PyStr.lstrip p l = l.
Proof. destruct 1 as [|x l Hx _]; simpl; [done|]. by rewrite Hx. Qed.

Lemma strip_no_match (l : list A) :
  Forall (fun x => p x = false) l → PyStr.strip p l = l.
Proof.
  intros Hl. apply strip_fixed. split; apply lstrip_no_match; [done|].
  by apply Forall_reverse.
Qed.

End Stripping.

Section Characters.

Lemma chars_concat (cs : list ascii) : concat (PyStr.chars cs) = cs.
Proof.
  induction cs as [|c cs IH]; [done|]. cbn [PyStr.chars].
  destruct cs as [|d cs]; [done|].
  destruct (PyStr.is_cont d).
  - destruct (PyStr.chars (d :: cs)) as [|ch rest]; [done|].
    cbn [concat app] in IH |- *. by rewrite IH.
  - cbn [concat app]. by rewrite IH.
Qed.

Lemma chars_nonempty (c : ascii) (cs : list ascii) :
  PyStr.chars (c :: cs) ≠ [].
Proof.
  cbn [PyStr.chars]. destruct cs as [|d cs]; [done|].
  destruct (PyStr.is_cont d); [|done].
  by destruct (PyStr.chars (d :: cs)).
Qed.

(** What [chars] does with a byte in front. *)
Lemma chars_cons (c d : ascii) (cs : list ascii) :
  PyStr.chars (c :: d :: cs)
  = if PyStr.is_cont d then
      match PyStr.chars (d :: cs) with
      | ch :: rest => (c :: ch) :: rest
      | [] => [[c]]
      end
    else [c] :: PyStr.chars (d :: cs).
Proof. reflexivity. Qed.

Lemma chars_head (d : ascii) (cs : list ascii) :
  ∃ t rest, PyStr.chars (d :: cs) = (d :: t) :: rest.
Proof.
  revert d. induction cs as [|e cs IH]; intros d; [by exists [], []|].
  rewrite chars_cons. destruct (PyStr.is_cont e); [|by eexists _, _].
  destruct (IH e) as (t & rest & ->). by eexists _, _.
Qed.

Lemma chars_chunked (cs : list ascii) : chunked (PyStr.chars cs).
Proof.
  induction cs as [|c cs IH]; [by split|].
  destruct cs as [|d cs].
  { split; [|done]. repeat constructor. by exists c, []. }
  rewrite chars_cons. destruct (PyStr.is_cont d) eqn:Hd.
  - destruct (chars_head d cs) as (t & rest & Heq). rewrite Heq in IH |- *.
    destruct IH as [Hshape Hstart]. split; [|done].
    apply Forall_cons in Hshape as [(c' & t' & [= <- <-] & Ht) Hrest].
    constructor; [|done]. exists c, (d :: t). split; [done|].
    by constructor.
  - destruct (chars_head d cs) as (t & rest & Heq). rewrite Heq in IH |- *.
    destruct IH as [Hshape Hstart]. split.
    + constructor; [by exists c, []|done].
    + simpl. constructor; [by exists d, t|done].
Qed.

Lemma chunked_app (a b : list (list ascii)) :
  chunked (a ++ b) → chunked a ∧ chunked b.
Proof.
  intros [[Ha Hb]%Forall_app Hstart]. split; split; try done.
  - destruct a as [|x a]; [done|]. simpl in *.
    by apply Forall_app in Hstart as [? _].
  - destruct a as [|x a]; [done|]. simpl in Hstart.
    apply Forall_app in Hstart as [_ Hstart].
    destruct b; [done|]. by inversion Hstart.
Qed.

Lemma chars_char (c : ascii) (t rest : list ascii) :
  Forall (fun d => PyStr.is_cont d = true) t →
  (rest = [] ∨ ∃ d r, rest = d :: r ∧ PyStr.is_cont d = false) →
  PyStr.chars ((c :: t) ++ rest) = (c :: t) :: PyStr.chars rest.
Proof.
  intros Ht Hrest. revert c.
  induction Ht as [|x t Hx Ht IH]; intros c.
  - destruct Hrest as [->|(d & r & -> & Hd)]; [done|].
    simpl app. rewrite chars_cons. by rewrite Hd.
  - simpl app. rewrite chars_cons, Hx.
    change (x :: t ++ rest) with ((x :: t) ++ rest). by rewrite IH.
Qed.

Lemma chars_of_chunked (l : list (list ascii)) :
  chunked l → PyStr.chars (concat l) = l.
Proof.
  induction l as [|ch l IH]; [done|]. intros [Hshape Hstart].
  apply Forall_cons in Hshape as [(c & t & -> & Ht) Hrest].
  simpl in Hstart. cbn [concat].
  rewrite chars_char; [f_equal; apply IH| done |].
  - split; [done|]. destruct l; [done|]. by inversion Hstart.
  - destruct l as [|ch' l]; [by left|]. right.
    apply Forall_cons in Hstart as [(d & r & -> & Hd) _].
    by exists d, (r ++ concat l).
Qed.

(** The characters of an ASCII string are its bytes. *)
Lemma chars_ascii (cs : list ascii) :
  Forall (fun c => PyStr.is_cont c = false) cs →
  PyStr.chars cs = (fun c => [c]) <$> cs.
Proof.
  induction 1 as [|c cs Hc Hcs IH]; [done|].
  destruct cs as [|d cs]; [done|]. rewrite chars_cons.
  apply Forall_cons in Hcs as [Hd Hcs']. rewrite Hd. by rewrite IH.
Qed.

Lemma chars_snoc (cs : list ascii) (d : ascii) :
  PyStr.is_cont d = false →
  PyStr.chars (cs ++ [d]) = PyStr.chars cs ++ [[d]].
Proof.
  intros Hd. induction cs as [|c cs IH]; [done|].
  destruct cs as [|e cs].
  { simpl app. rewrite chars_cons. by rewrite Hd. }
  change ((c :: e :: cs) ++ [d]) with (c :: e :: (cs ++ [d])).
  rewrite !chars_cons. change (e :: cs ++ [d]) with ((e :: cs) ++ [d]).
  rewrite IH. destruct (PyStr.is_cont e); [|done].
  destruct (chars_head e cs) as (t & rest & ->). done.
Qed.

End Characters.

Section Names.
Import DataProcessor.
Context (U : PyStr.unicode).

Lemma strip_chars_of_string (s : string) :
  PyStr.chars (list_ascii_of_string (PyStr.strip_str s))
  = PyStr.strip (PyStr.char_isspace)
      (PyStr.chars (list_ascii_of_string s)).
Proof.
  unfold PyStr.strip_str. rewrite list_ascii_of_string_of_list_ascii.
  apply chars_of_chunked.
  destruct (strip_segment (PyStr.char_isspace)
              (PyStr.chars (list_ascii_of_string s))) as (pre & post & Hseg).
  pose proof (chars_chunked (list_ascii_of_string s)) as Hch.
  rewrite Hseg in Hch. apply chunked_app in Hch as [_ Hch].
  by apply chunked_app in Hch as [Hch _].
Qed.

Lemma strip_str_trimmed (s : string) : trimmed (PyStr.strip_str s).
Proof.
  unfold trimmed. unfold PyStr.strip_str at 1.
  rewrite strip_chars_of_string, strip_idemp. reflexivity.
Qed.

Lemma list_ascii_of_string_app (a b : string) :
  list_ascii_of_string (a +:+ b)
  = list_ascii_of_string a ++ list_ascii_of_string b.
Proof. induction a as [|c a IH]; simpl; [done|]. by rewrite IH. Qed.

Lemma trimmed_fixed (s : string) :
  trimmed s
  ↔ PyStr.strip (PyStr.char_isspace)
      (PyStr.chars (list_ascii_of_string s))
    = PyStr.chars (list_ascii_of_string s).
Proof.
  split.
  - intros H. rewrite <- strip_chars_of_string. by rewrite H.
  - intros H. unfold trimmed, PyStr.strip_str.
    by rewrite H, chars_concat, string_of_list_ascii_of_string.
Qed.

(** A blank appended to a trimmed, non-empty string is stripped again. *)
Lemma strip_str_trailing_space (s : string) :
  trimmed s → s ≠ EmptyString → PyStr.strip_str (s +:+ " ") = s.
Proof.
  intros [Hl Hr]%trimmed_fixed%strip_fixed Hne.
  unfold PyStr.strip_str, PyStr.strip.
  rewrite list_ascii_of_string_app. simpl (list_ascii_of_string " ").
  rewrite chars_snoc by done.
  destruct s as [|c s]; [done|]. simpl list_ascii_of_string in *.
  destruct (chars_head c (list_ascii_of_string s)) as (t & rest & Heq).
  rewrite Heq in Hl, Hr |- *.
  change (((c :: t) :: rest) ++ [[" "%char]])
    with ((c :: t) :: (rest ++ [[" "%char]])).
  apply lstrip_cons_fixed in Hl.
  rewrite (proj2 (lstrip_cons_fixed (PyStr.char_isspace) (c :: t)
                    (rest ++ [[" "%char]])) Hl).
  change ((c :: t) :: rest ++ [[" "%char]])
    with (((c :: t) :: rest) ++ [[" "%char]]).
  rewrite reverse_app.
  change (reverse [[" "%char]]) with [[" "%char]].
  change (PyStr.lstrip (PyStr.char_isspace)
            ([[" "%char]] ++ reverse ((c :: t) :: rest)))
    with (PyStr.lstrip (PyStr.char_isspace) (reverse ((c :: t) :: rest))).
  rewrite Hr, reverse_involutive, <- Heq, chars_concat.
  apply (string_of_list_ascii_of_string (String c s)).
Qed.

Lemma fromkeys_spec (names : list string) :
  NoDup (fromkeys names) ∧ ∀ name, name ∈ fromkeys names ↔ name ∈ names.
Proof.
  unfold fromkeys.
  assert (∀ keys, NoDup keys →
            NoDup (foldl (fun keys name =>
                            if bool_decide (name ∈ keys) then keys
                            else keys ++ [name]) keys names)
            ∧ ∀ name,
                name ∈ foldl (fun keys name =>
                                if bool_decide (name ∈ keys) then keys
                                else keys ++ [name]) keys names
                ↔ name ∈ keys ∨ name ∈ names) as H.
  { induction names as [|x names IH]; intros keys Hnd; simpl.
    - split; [done|]. intros name. rewrite elem_of_nil. tauto.
    - case_bool_decide as Hx.
      + destruct (IH keys Hnd) as [Hnd' Hin]. split; [done|].
        intros name. rewrite Hin, elem_of_cons.
        split; [tauto|]. intros [?|[->|?]]; auto.
      + destruct (IH (keys ++ [x])) as [Hnd' Hin].
        { apply NoDup_app. split; [done|]. split; [|apply NoDup_singleton].
          intros y Hy ->%list_elem_of_singleton. done. }
        split; [done|]. intros name.
        rewrite Hin, elem_of_app, list_elem_of_singleton, elem_of_cons.
        tauto. }
  destruct (H [] (NoDup_nil_2)) as [Hnd Hin]. split; [done|].
  intros name. rewrite Hin, elem_of_nil. tauto.
Qed.

(** X15. What the cleaned name list holds. Every name that lines 64-68 of
    [load_names_from_excel] return is the stripped text of a cell of the
    column; it is not empty, has no white space at either end, and is not
    one of the header keywords in any letter case. *)
Theorem load_names_from_excel_clean (column : list string) (name : string) :
  name ∈ load_names_from_excel U column →
  name ≠ EmptyString ∧ trimmed name ∧ ¬ is_header U name
  ∧ ∃ raw, raw ∈ column ∧ name = PyStr.strip_str raw.
Proof.
  unfold load_names_from_excel. cbv zeta.
  intros (raw & -> & [[Hne Hkw] Hraw]%list_elem_of_filter)%list_elem_of_fmap.
  split; [done|]. split; [apply strip_str_trimmed|]. split; [done|].
  exists raw. split; [|done]. by apply fromkeys_spec.
Qed.

(** X16. When the cleaned names are distinct. If no cell of the column has
    white space at either end, the names returned by lines 64-68 of
    [load_names_from_excel] are pairwise distinct. *)
Theorem load_names_from_excel_distinct (column : list string) :
  (∀ raw, raw ∈ column → trimmed raw) →
  NoDup (load_names_from_excel U column).
Proof.
  intros Htrim. unfold load_names_from_excel. cbv zeta.
  destruct (fromkeys_spec column) as [Hnd Hin].
  apply NoDup_fmap_2_strong; [|by apply NoDup_filter].
  intros a b [_ Ha%Hin%Htrim]%list_elem_of_filter
    [_ Hb%Hin%Htrim]%list_elem_of_filter.
  unfold trimmed in Ha, Hb. congruence.
Qed.

(** X17. Duplicates survive the cleaning. The duplicates are removed before
    the cells are stripped: for every non-empty name without white space at
    its ends that is no header keyword, a column that holds the name once
    as it is and once followed by a blank yields the name twice. *)
Theorem load_names_from_excel_duplicates (name : string) :
  name ≠ EmptyString → trimmed name → ¬ is_header U name →
  load_names_from_excel U [name; name +:+ " "] = [name; name].
Proof.
  intros Hne Htrim Hkw.
  assert (name ≠ name +:+ " ") as Hdiff.
  { clear. induction name as [|c name IH].
    - by rewrite string_app_nil_l.
    - rewrite string_app_cons. by intros [= H]. }
  pose proof (strip_str_trailing_space name Htrim Hne) as Hsp.
  unfold load_names_from_excel, fromkeys. cbv zeta. simpl.
  rewrite (bool_decide_eq_false_2 (name +:+ " " ∈ [name])).
  2:{ intros ?%list_elem_of_singleton. done. }
  simpl. rewrite !filter_cons, filter_nil. unfold trimmed in Htrim.
  rewrite Hsp, Htrim.
  rewrite !decide_True by done. simpl. by rewrite Htrim, Hsp.
Qed.

End Names.

Lemma load_names_from_excel_clean_witness :
  "Bob" ∈ DataProcessor.load_names_from_excel PyStr.plain_tables
            ["Name"; " Bob "; " "]
  ∧ ("Bob" ≠ EmptyString ∧ trimmed "Bob"
     ∧ ¬ is_header PyStr.plain_tables "Bob"
     ∧ ∃ raw, raw ∈ ["Name"; " Bob "; " "]
              ∧ "Bob" = PyStr.strip_str raw).
Proof.
  assert ("Bob" ∈ DataProcessor.load_names_from_excel PyStr.plain_tables
                    ["Name"; " Bob "; " "]) as H
    by (vm_compute; left).
  split; [exact H|].
  exact (load_names_from_excel_clean PyStr.plain_tables
           ["Name"; " Bob "; " "] "Bob" H).
Defined.

Lemma load_names_from_excel_distinct_witness :
  (∀ raw, raw ∈ ["Ann"; "Bob"; "Ann"] → trimmed raw)
  ∧ NoDup (DataProcessor.load_names_from_excel PyStr.plain_tables
             ["Ann"; "Bob"; "Ann"]).
Proof.
  assert (∀ raw, raw ∈ ["Ann"; "Bob"; "Ann"] →
                 trimmed raw) as H.
  { intros raw Hraw. repeat apply elem_of_cons in Hraw as [->|Hraw];
      [reflexivity..|by apply elem_of_nil in Hraw]. }
  split; [exact H|].
  exact (load_names_from_excel_distinct PyStr.plain_tables
           ["Ann"; "Bob"; "Ann"] H).
Defined.

Lemma load_names_from_excel_duplicates_witness :
  ("Ann" ≠ EmptyString ∧ trimmed "Ann"
   ∧ ¬ is_header PyStr.plain_tables "Ann")
  ∧ DataProcessor.load_names_from_excel PyStr.plain_tables
      ["Ann"; "Ann" +:+ " "]
    = ["Ann"; "Ann"].
Proof.
  assert ("Ann" ≠ EmptyString) as H1 by discriminate.
  assert (trimmed "Ann") as H2 by reflexivity.
  assert (¬ is_header PyStr.plain_tables "Ann") as H3.
  { unfold is_header. vm_compute.
    intros H. repeat apply elem_of_cons in H as [H|H]; try discriminate.
    by apply elem_of_nil in H. }
  split; [done|].
  exact (load_names_from_excel_duplicates PyStr.plain_tables "Ann" H1 H2 H3).
Defined.

(** ** Reading the preference blocks *)

Section Preferences.
Import DataProcessor.
Context (U : PyStr.unicode).

Lemma for_each_preserves {A S : Type} (I : S → Prop) (xs : list A)
    (body : A → S → result S) (s s' : S) :
  (∀ a t t', a ∈ xs → I t → body a t = Ok t' → I t') →
  I s → for_each xs body s = Ok s' → I s'.
Proof.
  revert s. induction xs as [|x xs IH]; intros s Hbody HI; simpl.
  - by intros [= <-].
  - destruct (body x s) as [t|e] eqn:E; [|done].
    apply IH; [|by apply (Hbody x s t); [left|..]].
    intros a u u' Ha. apply Hbody. by right.
Qed.

Lemma two_names_size (p : gset string) : two_names p → size p = 2%nat.
Proof.
  intros (a & b & -> & Hab & _).
  rewrite size_union by set_solver. by rewrite !size_singleton.
Qed.

Lemma pair_of_cell_two_names (v : option cell_value) (p : gset string) :
  pair_of_cell v = Some p → two_names p.
Proof.
  unfold pair_of_cell. destruct v as [v|]; [|done].
  destruct (truthy v && _); [|done].
  destruct (PyStr.split _ _) as [|part0 [|part1 [|? ?]]]; try done.
  cbv zeta.
  destruct (bool_decide_reflect (PyStr.strip_str part0 ≠ "")) as [Ha|];
    [|done].
  destruct (bool_decide_reflect (PyStr.strip_str part1 ≠ "")) as [Hb|];
    [|done].
  destruct (bool_decide_reflect
              (PyStr.strip_str part0 ≠ PyStr.strip_str part1))
    as [Hab|]; [|done].
  simpl. intros [= <-]. eexists _, _. split; [done|].
  repeat split; try done; apply strip_str_trimmed.
Qed.

Lemma add_pair_lookup (rank k : Z) (p : gset string)
    (m : gmap Z (gset (gset string))) :
  pairs_at (add_pair rank p m) k
  = if decide (k = rank) then pairs_at m rank ∪ {[p]} else pairs_at m k.
Proof.
  unfold pairs_at, add_pair. destruct (decide (k = rank)) as [->|Hne].
  - by rewrite lookup_insert_eq.
  - by rewrite lookup_insert_ne.
Qed.

Lemma well_ranked_add_pair (n rank : Z) (p : gset string)
    (m : gmap Z (gset (gset string))) :
  1 ≤ rank ≤ n → two_names p → well_ranked n m →
  well_ranked n (add_pair rank p m).
Proof.
  intros Hrank Hp Hm k s. unfold add_pair.
  destruct (decide (k = rank)) as [->|Hne].
  - rewrite lookup_insert_eq. intros [= <-]. split; [done|].
    split; [set_solver|].
    intros q [Hq| ->%elem_of_singleton]%elem_of_union; [|done].
    destruct (m !! rank) as [s|] eqn:E; simpl in Hq; [|set_solver].
    by apply (Hm rank s E).
  - rewrite lookup_insert_ne by done. apply Hm.
Qed.

Lemma well_ranked_mono (n n' : Z) (m : gmap Z (gset (gset string))) :
  n ≤ n' → well_ranked n m → well_ranked n' m.
Proof.
  intros Hn Hm k s Hk. destruct (Hm k s Hk) as (? & ? & ?).
  split; [lia|done].
Qed.

Lemma read_column_well_ranked (ws : worksheet) (start_row col rank n : Z)
    (m m' : gmap Z (gset (gset string))) :
  1 ≤ rank ≤ n → well_ranked n m →
  read_column ws start_row col rank m = Ok m' → well_ranked n m'.
Proof.
  intros Hrank Hm. unfold read_column.
  apply for_each_preserves; [|done].
  intros row t t' _ Ht.
  destruct (cell ws row (col + 1)) as [v|]; [|done]. simpl.
  destruct (pair_of_cell v) as [p|] eqn:E; intros [= <-]; [|done].
  apply well_ranked_add_pair; [done| |done].
  by apply (pair_of_cell_two_names v).
Qed.

Section Blocks.
Context (get_column_letter : Z → result string).

Lemma read_block_well_ranked (ws : worksheet) (label : string)
    (spec : cell_range) (m : gmap Z (gset (gset string)))
    (headers : list (string * string)) :
  read_block get_column_letter ws label spec = Ok (m, headers) →
  well_ranked (Z.of_nat (length headers)) m.
Proof.
  unfold read_block.
  destruct spec as [[[[start_col|] [start_row|]] [end_col|]] end_row];
    try done; try (intros [= <- <-]; by intros k s ?).
  cbv zeta. intros (st & Hst & [= <- <-])%bind_ok.
  assert (well_ranked (Z.of_nat (length st.1.2)) st.1.1
          ∧ st.2 = Z.of_nat (length st.1.2) + 1) as [H _]; [|done].
  revert Hst.
  apply (for_each_preserves
           (fun st : gmap Z (gset (gset string)) * list (string * string) * Z =>
              well_ranked (Z.of_nat (length st.1.2)) st.1.1
              ∧ st.2 = Z.of_nat (length st.1.2) + 1));
    [|by split; [intros k s ?|]].
  intros level [[m0 headers0] rank0] t' _ [Hm0 Hrank0].
  simpl in Hm0, Hrank0. case_bool_decide; [|by intros [= <-]].
  intros (m1 & Hm1 & (col_letter & _ & [= <-])%bind_ok)%bind_ok. simpl.
  rewrite length_app. simpl. split; [|lia].
  apply (read_column_well_ranked ws start_row (start_col + level) rank0
           _ m0); [lia| |done].
  apply (well_ranked_mono (Z.of_nat (length headers0))); [lia|done].
Qed.

Lemma read_rows_total (ws : worksheet) (col rank : Z) (rows : list Z)
    (m : gmap Z (gset (gset string))) :
  (∀ row, row ∈ rows → ∃ v, cell ws row (col + 1) = Ok v) →
  ∃ m',
    for_each rows
      (fun row pairs_by_rank =>
         let! cell_value := cell ws row (col + 1) in
         match pair_of_cell cell_value with
         | Some found => Ok (add_pair rank found pairs_by_rank)
         | None => Ok pairs_by_rank
         end) m = Ok m'
    ∧ ∀ k p, p ∈ pairs_at m' k
             ↔ p ∈ pairs_at m k
               ∨ (k = rank ∧ ∃ row, row ∈ rows
                                    ∧ cell_holds ws row (col + 1) p).
Proof.
  revert m. induction rows as [|row rows IH]; intros m Hread.
  - exists m. split; [done|]. intros k p. split; [auto|].
    by intros [?|(_ & row & ?%elem_of_nil & _)].
  - destruct (Hread row) as [v Hv]; [left|].
    cbn [for_each]. rewrite Hv. cbn [bind].
    destruct (pair_of_cell v) as [q|] eqn:Hq.
    + destruct (IH (add_pair rank q m)) as (m' & -> & Hm').
      { intros r Hr. apply Hread. by right. }
      exists m'. split; [done|]. intros k p.
      rewrite Hm', add_pair_lookup. split.
      * intros [Hp|(-> & r & Hr & Hc)].
        -- destruct (decide (k = rank)) as [->|Hne]; [|by left].
           apply elem_of_union in Hp as [Hp| ->%elem_of_singleton];
             [by left|].
           right. split; [done|]. exists row. split; [left|by exists v].
        -- right. split; [done|]. exists r. split; [by right|done].
      * intros [Hp|(-> & r & [->|Hr]%elem_of_cons & Hc)].
        -- left. destruct (decide (k = rank)) as [->|Hne]; [|done].
           apply elem_of_union. by left.
        -- left. rewrite decide_True by done.
           destruct Hc as (v' & Hv' & Hq'). rewrite Hv in Hv'.
           injection Hv' as <-. rewrite Hq in Hq'. injection Hq' as <-.
           apply elem_of_union. right. by apply elem_of_singleton.
        -- right. split; [done|]. by exists r.
    + destruct (IH m) as (m' & -> & Hm').
      { intros r Hr. apply Hread. by right. }
      exists m'. split; [done|]. intros k p. rewrite Hm'. split.
      * intros [Hp|(-> & r & Hr & Hc)]; [by left|].
        right. split; [done|]. exists r. split; [by right|done].
      * intros [Hp|(-> & r & [->|Hr]%elem_of_cons & Hc)]; [by left| |].
        -- destruct Hc as (v' & Hv' & Hq'). rewrite Hv in Hv'.
           injection Hv' as <-. by rewrite Hq in Hq'.
        -- right. split; [done|]. by exists r.
Qed.

Lemma read_column_total (ws : worksheet) (start_row col rank : Z)
    (m : gmap Z (gset (gset string))) :
  readable ws → 0 ≤ start_row → 0 ≤ col →
  ∃ m',
    read_column ws start_row col rank m = Ok m'
    ∧ ∀ k p, p ∈ pairs_at m' k
             ↔ p ∈ pairs_at m k
               ∨ (k = rank ∧ ∃ row, start_row + 1 ≤ row ≤ max_row ws
                                    ∧ cell_holds ws row (col + 1) p).
Proof.
  intros Hread Hrow Hcol. unfold read_column.
  destruct (read_rows_total ws col rank
              (seqZ (start_row + 1) (max_row ws + 1 - (start_row + 1))) m)
    as (m' & -> & Hm').
  { intros row Hr%elem_of_seqZ. apply Hread; lia. }
  exists m'. split; [done|]. intros k p. rewrite Hm'.
  split; (intros [?|(-> & row & Hr & Hc)]; [by left|]); right;
    (split; [done|]); exists row; (split; [|done]).
  - apply elem_of_seqZ in Hr. lia.
  - apply elem_of_seqZ. lia.
Qed.

Lemma read_levels_total (ws : worksheet) (label : string)
    (start_col start_row end_col : Z) (n : nat) :
  readable ws → letters_defined get_column_letter →
  0 ≤ start_row → 0 ≤ start_col → end_col + 1 ≤ 18278 →
  ∀ j m headers,
    0 ≤ j → j + Z.of_nat n ≤ end_col - start_col + 1 →
    ∃ m' headers',
      for_each (seqZ j (Z.of_nat n)) (fun level st =>
        let '(pairs_by_rank, headers, rank) := st in
        let col := start_col + level in
        if bool_decide (col ≤ end_col) then
          let! pairs_by_rank :=
            read_column ws start_row col rank pairs_by_rank in
          let! col_letter := get_column_letter (col + 1) in
          let header := label +:+ pretty rank +:+ ":" +:+ col_letter
                        +:+ "列" in
          Ok (pairs_by_rank, headers ++ [(header, EmptyString)], rank + 1)
        else Ok st) (m, headers, j + 1)
      = Ok (m', headers', j + Z.of_nat n + 1)
      ∧ length headers' = (length headers + n)%nat
      ∧ ∀ k p, p ∈ pairs_at m' k
               ↔ p ∈ pairs_at m k
                 ∨ (j + 1 ≤ k ≤ j + Z.of_nat n
                    ∧ ∃ row, start_row + 1 ≤ row ≤ max_row ws
                             ∧ cell_holds ws row (start_col + k) p).
Proof.
  intros Hread Hletters Hrow Hcol Hend.
  induction n as [|n IH]; intros j m headers Hj Hn.
  - exists m, headers. simpl. rewrite Z.add_0_r. split; [done|].
    split; [lia|]. intros k p. split; [auto|]. intros [?|[? _]]; [done|lia].
  - rewrite seqZ_cons by lia. cbn [for_each].
    rewrite bool_decide_eq_true_2 by lia.
    destruct (read_column_total ws start_row (start_col + j) (j + 1) m)
      as (m1 & -> & Hm1); [done|done|lia|]. cbn [bind].
    destruct (Hletters (start_col + j + 1)) as [l ->]; [lia|]. cbn [bind].
    replace (Z.pred (Z.of_nat (S n))) with (Z.of_nat n) by lia.
    destruct (IH (Z.succ j) m1
                (headers ++ [(label +:+ pretty (j + 1) +:+ ":" +:+ l
                              +:+ "列", EmptyString)]))
      as (m' & headers' & Hrun & Hlen & Hm'); [lia|lia|].
    exists m', headers'.
    replace (Z.succ j + 1) with (j + 1 + 1) in Hrun by lia.
    replace (Z.succ j + Z.of_nat n + 1) with (j + Z.of_nat (S n) + 1)
      in Hrun by lia.
    split; [exact Hrun|]. split.
    { rewrite Hlen, length_app. simpl. lia. }
    intros k p. rewrite Hm', Hm1. split.
    + intros [[?|(-> & row & Hr & Hc)]|(Hk & row & Hr & Hc)].
      * by left.
      * right. split; [lia|]. exists row. split; [done|].
        by replace (start_col + (j + 1)) with (start_col + j + 1) by lia.
      * right. split; [lia|]. by exists row.
    + intros [?|(Hk & row & Hr & Hc)]; [by left; left|].
      destruct (decide (k = j + 1)) as [->|Hne].
      * left; right. split; [done|]. exists row. split; [done|].
        by replace (start_col + j + 1) with (start_col + (j + 1)) by lia.
      * right. split; [lia|]. by exists row.
Qed.

Lemma read_block_total (ws : worksheet) (label : string)
    (start_col start_row end_col : Z) (end_row : option Z) :
  readable ws → letters_defined get_column_letter →
  0 ≤ start_row → 0 ≤ start_col → end_col + 1 ≤ 18278 →
  ∃ m headers,
    read_block get_column_letter ws label
      (Some start_col, Some start_row, Some end_col, end_row)
    = Ok (m, headers)
    ∧ length headers = Z.to_nat (end_col - start_col + 1)
    ∧ ∀ rank p, p ∈ pairs_at m rank
                ↔ 1 ≤ rank ≤ end_col - start_col + 1
                  ∧ ∃ row, start_row + 1 ≤ row ≤ max_row ws
                           ∧ cell_holds ws row (start_col + rank) p.
Proof.
  intros Hread Hletters Hrow Hcol Hend. unfold read_block. cbv zeta.
  unfold range.
  destruct (decide (0 ≤ end_col - start_col + 1)) as [Htot|Htot].
  - destruct (read_levels_total ws label start_col start_row end_col
                (Z.to_nat (end_col - start_col + 1)) Hread Hletters Hrow Hcol
                Hend 0 ∅ [])
      as (m & headers & Hrun & Hlen & Hm); [lia|lia|].
    exists m, headers. rewrite Z2Nat.id in Hrun by done.
    change (0 + 1) with 1 in Hrun. cbv zeta in Hrun. rewrite Hrun.
    cbn [bind].
    split; [done|]. split; [done|].
    intros rank p. rewrite Hm. unfold pairs_at. rewrite lookup_empty.
    simpl. split.
    + intros [?%elem_of_empty|[Hk Hc]]; [done|]. split; [lia|done].
    + intros [Hk Hc]. right. split; [lia|done].
  - exists ∅, []. unfold seqZ.
    replace (Z.to_nat (end_col - start_col + 1)) with 0%nat by lia.
    split; [done|]. split; [done|]. intros rank p.
    unfold pairs_at. rewrite lookup_empty. simpl.
    split; [by intros ?%elem_of_empty|]. intros [? _]. lia.
Qed.

Lemma column_index_from_string_range (str_col : string) (n : Z) :
  column_index_from_string U str_col = Ok n → 1 ≤ n ≤ 18278.
Proof.
  unfold column_index_from_string. cbv zeta.
  generalize (list_ascii_of_string (PyStr.upper_str U str_col)).
  intros cs.
  destruct (bool_decide _ && forallb _ cs) eqn:E; [|done].
  intros [= <-]. apply andb_true_iff in E as [Hlen Hall].
  apply bool_decide_eq_true in Hlen. rewrite forallb_forall in Hall.
  assert (∀ c, c ∈ cs → 65 ≤ PyStr.code c ≤ 90) as Hc.
  { intros c Hin%list_elem_of_In%Hall.
    apply andb_true_iff in Hin as [?%bool_decide_eq_true ?%bool_decide_eq_true].
    lia. }
  destruct cs as [|a [|b [|c [|d cs]]]]; simpl in Hlen |- *; try lia.
  - pose proof (Hc a ltac:(left)). lia.
  - pose proof (Hc a ltac:(left)).
    pose proof (Hc b ltac:(right; left)). lia.
  - pose proof (Hc a ltac:(left)).
    pose proof (Hc b ltac:(right; left)).
    pose proof (Hc c ltac:(right; right; left)). lia.
Qed.

Lemma parse_cell_range_shape (range_spec : string) :
  parse_cell_range U range_spec = all_absent
  ∨ ∃ start_col start_row end_col end_row,
      parse_cell_range U range_spec
      = (Some start_col, Some start_row, Some end_col, end_row)
      ∧ 0 ≤ start_col < 18278 ∧ 0 ≤ end_col < 18278.
Proof.
  unfold parse_cell_range.
  destruct (decide (range_spec = EmptyString)); [by left|].
  destruct (negb _); [by left|].
  destruct (parse_cell_range_try U range_spec) as [t|] eqn:E; [|by left].
  right. unfold parse_cell_range_try in E.
  destruct (PyStr.split _ _) as [|start [|end_ [|? ?]]]; try done.
  destruct (split_cell U start) as [start_col start_row].
  destruct (split_cell U end_) as [end_col end_row].
  apply bind_ok in E as (cn & Hcn%column_index_from_string_range & E).
  apply bind_ok in E as (ck & Hck%column_index_from_string_range & E).
  apply bind_ok in E as (sr & _ & E).
  apply bind_ok in E as (er & _ & [= <-]).
  eexists _, _, _, _. split; [done|]. lia.
Qed.

Lemma read_block_mirrors (ws : worksheet) (label range_spec : string) :
  readable ws → letters_defined get_column_letter →
  starts_on_sheet (parse_cell_range U range_spec) →
  ∃ m headers,
    read_block get_column_letter ws label (parse_cell_range U range_spec)
    = Ok (m, headers)
    ∧ mirrors_block ws (parse_cell_range U range_spec) m headers.
Proof.
  intros Hread Hletters Hstart.
  destruct (parse_cell_range_shape range_spec)
    as [E|(sc & sr & ec & er & E & Hsc & Hec)]; rewrite E in Hstart |- *.
  - by exists ∅, [].
  - destruct (read_block_total ws label sc sr ec er)
      as (m & headers & Hrun & Hlen & Hm);
      [done|done|by apply Hstart|lia|lia|by exists m, headers].
Qed.

Lemma load_preferences_ranked (ws : worksheet)
    (willing_range_spec unwilling_range_spec : string) :
  well_ranked
    (Z.of_nat (length (load_preferences_from_excel U get_column_letter ws
                         willing_range_spec unwilling_range_spec).1.2))
    (load_preferences_from_excel U get_column_letter ws
       willing_range_spec unwilling_range_spec).1.1.1
  ∧ well_ranked
      (Z.of_nat (length (load_preferences_from_excel U get_column_letter ws
                           willing_range_spec unwilling_range_spec).2))
      (load_preferences_from_excel U get_column_letter ws
         willing_range_spec unwilling_range_spec).1.1.2.
Proof.
  unfold load_preferences_from_excel.
  destruct (read_block _ ws "喜欢等级" _) as [[m hs]|] eqn:Ew;
    [|by split; intros k s ?].
  cbn [bind].
  destruct (read_block _ ws "不喜欢等级" _) as [[m' hs']|] eqn:Eu;
    [|by split; intros k s ?].
  cbn [bind fst snd]. split; by eapply read_block_well_ranked.
Qed.

(** X18. What the preference reader can return. For every worksheet, every
    pair of range specifications and whatever happens while reading, the two
    dictionaries returned by [load_preferences_from_excel] have ranks between
    1 and the number of headers returned with them, no empty set of pairs,
    and only pairs of two different, non-empty names without white space at
    their ends. *)
Theorem load_preferences_from_excel_well_ranked (ws : worksheet)
    (willing_range_spec unwilling_range_spec : string) :
  well_ranked
    (Z.of_nat (length (load_preferences_from_excel U get_column_letter ws
                         willing_range_spec unwilling_range_spec).1.2))
    (load_preferences_from_excel U get_column_letter ws
       willing_range_spec unwilling_range_spec).1.1.1
  ∧ well_ranked
      (Z.of_nat (length (load_preferences_from_excel U get_column_letter ws
                           willing_range_spec unwilling_range_spec).2))
      (load_preferences_from_excel U get_column_letter ws
         willing_range_spec unwilling_range_spec).1.1.2.
Proof.
  apply load_preferences_ranked.
Qed.

Lemma load_preferences_mirror_blocks (ws : worksheet)
    (willing_range_spec unwilling_range_spec : string) :
  readable ws → letters_defined get_column_letter →
  starts_on_sheet (parse_cell_range U willing_range_spec) →
  starts_on_sheet (parse_cell_range U unwilling_range_spec) →
  mirrors_block ws (parse_cell_range U willing_range_spec)
    (load_preferences_from_excel U get_column_letter ws
       willing_range_spec unwilling_range_spec).1.1.1
    (load_preferences_from_excel U get_column_letter ws
       willing_range_spec unwilling_range_spec).1.2
  ∧ mirrors_block ws (parse_cell_range U unwilling_range_spec)
      (load_preferences_from_excel U get_column_letter ws
         willing_range_spec unwilling_range_spec).1.1.2
      (load_preferences_from_excel U get_column_letter ws
         willing_range_spec unwilling_range_spec).2.
Proof.
  intros Hread Hletters Hw Hu. unfold load_preferences_from_excel.
  destruct (read_block_mirrors ws "喜欢等级" willing_range_spec)
    as (m & hs & -> & Hm); [done..|].
  destruct (read_block_mirrors ws "不喜欢等级" unwilling_range_spec)
    as (m' & hs' & -> & Hm'); [done..|].
  by cbn [bind fst snd].
Qed.

(** X19. The reader mirrors the sheet, down to its last row. On a worksheet
    whose cells can all be read, for ranges that start on the sheet,
    [load_preferences_from_excel] returns one header per column of each
    range and, at rank [k], exactly the pairs held by the cells of the
    [k]-th column of the range from its start row to the last row of the
    sheet: the end row of the range plays no part. A range that does not
    parse contributes nothing. *)
Theorem load_preferences_from_excel_mirrors (ws : worksheet)
    (willing_range_spec unwilling_range_spec : string) :
  readable ws → letters_defined get_column_letter →
  starts_on_sheet (parse_cell_range U willing_range_spec) →
  starts_on_sheet (parse_cell_range U unwilling_range_spec) →
  mirrors_block ws (parse_cell_range U willing_range_spec)
    (load_preferences_from_excel U get_column_letter ws
       willing_range_spec unwilling_range_spec).1.1.1
    (load_preferences_from_excel U get_column_letter ws
       willing_range_spec unwilling_range_spec).1.2
  ∧ mirrors_block ws (parse_cell_range U unwilling_range_spec)
      (load_preferences_from_excel U get_column_letter ws
         willing_range_spec unwilling_range_spec).1.1.2
      (load_preferences_from_excel U get_column_letter ws
         willing_range_spec unwilling_range_spec).2.
Proof.
  apply load_preferences_mirror_blocks.
Qed.

End Blocks.

End Preferences.

Lemma load_preferences_from_excel_mirrors_witness :
  (readable example_sheet ∧ letters_defined example_letters
   ∧ starts_on_sheet
       (DataProcessor.parse_cell_range PyStr.plain_tables "A1:A2")
   ∧ starts_on_sheet
       (DataProcessor.parse_cell_range PyStr.plain_tables "C1:C2"))
  ∧ mirrors_block example_sheet
      (DataProcessor.parse_cell_range PyStr.plain_tables "A1:A2")
      (DataProcessor.load_preferences_from_excel PyStr.plain_tables
         example_letters example_sheet "A1:A2" "C1:C2").1.1.1
      (DataProcessor.load_preferences_from_excel PyStr.plain_tables
         example_letters example_sheet "A1:A2" "C1:C2").1.2
  ∧ mirrors_block example_sheet
      (DataProcessor.parse_cell_range PyStr.plain_tables "C1:C2")
      (DataProcessor.load_preferences_from_excel PyStr.plain_tables
         example_letters example_sheet "A1:A2" "C1:C2").1.1.2
      (DataProcessor.load_preferences_from_excel PyStr.plain_tables
         example_letters example_sheet "A1:A2" "C1:C2").2.
Proof.
  assert (readable example_sheet) as H1
    by (intros row column _ _; eexists; reflexivity).
  assert (letters_defined example_letters) as H2
    by (intros n _; eexists; reflexivity).
  assert (starts_on_sheet
            (DataProcessor.parse_cell_range PyStr.plain_tables "A1:A2"))
    as H3.
  { intros start_row H. vm_compute in H. injection H as <-. lia. }
  assert (starts_on_sheet
            (DataProcessor.parse_cell_range PyStr.plain_tables "C1:C2"))
    as H4.
  { intros start_row H. vm_compute in H. injection H as <-. lia. }
  split; [done|].
  exact (load_preferences_from_excel_mirrors PyStr.plain_tables
           example_letters example_sheet "A1:A2" "C1:C2" H1 H2 H3 H4).
Defined.

(** ** From the preference sheet to the pair weights *)

Section ExcelWeights.
Import DataProcessor Optimizer.
Context (tables : PyStr.unicode).

Lemma items_of_elem {V : Type} (d : gmap Z V) (entries : list (Z * V))
    (e : Z * V) :
  items_of d entries → e ∈ entries ↔ d !! e.1 = Some e.2.
Proof.
  intros Hperm. unfold items_of in Hperm. rewrite Hperm.
  destruct e as [k v]. apply elem_of_map_to_list.
Qed.

Lemma pairs_at_elem (m : gmap Z (gset (gset string))) (rank : Z)
    (s : gset (gset string)) (p : gset string) :
  m !! rank = Some s → p ∈ s → p ∈ pairs_at m rank.
Proof. intros Hm Hp. unfold pairs_at. by rewrite Hm. Qed.

Lemma pairs_at_inv (m : gmap Z (gset (gset string))) (rank : Z)
    (p : gset string) :
  p ∈ pairs_at m rank → ∃ s, m !! rank = Some s ∧ p ∈ s.
Proof.
  unfold pairs_at. destruct (m !! rank) as [s|]; simpl; [eauto|].
  by intros ?%elem_of_empty.
Qed.

(** What [compute_pair_weights] makes of two well-ranked dictionaries. *)
Lemma ranked_pair_weights (willing unwilling : gmap Z (gset (gset string)))
    (n_willing n_unwilling : Z) (W U : ranked_pairs)
    (w_weights uw_weights : list float) :
  well_ranked n_willing willing →
  well_ranked n_unwilling unwilling →
  items_of willing W → items_of unwilling U →
  ∃ merged,
    compute_pair_weights W U w_weights uw_weights None = Ok merged
    ∧ (∀ p wt, merged !! p = Some wt →
         size p = 2%nat
         ∧ ((∃ rank, p ∈ pairs_at willing rank
                     ∧ rank ≤ Z.of_nat (length w_weights)
                     ∧ w_weights !! Z.to_nat (rank - 1) = Some wt)
            ∨ (∃ rank, p ∈ pairs_at unwilling rank
                       ∧ rank < Z.of_nat (length uw_weights)
                       ∧ uw_weights !! Z.to_nat rank = Some wt)))
    ∧ (∀ p, (∀ rank, p ∈ pairs_at willing rank →
               Z.of_nat (length w_weights) < rank) →
            (∀ rank, p ∈ pairs_at unwilling rank →
               Z.of_nat (length uw_weights) ≤ rank) →
            merged !! p = None).
Proof.
  intros Hw Hu HW HU.
  destruct (compute_pair_weights_rules W U w_weights uw_weights None)
    as (merged & Hrun & _ & _ & _ & Hnone).
  { intros e He%(items_of_elem willing)%Hw; [lia|done]. }
  { intros e He%(items_of_elem unwilling)%Hu; [lia|done]. }
  exists merged. split; [done|]. split.
  - intros p wt Hp.
    destruct (pair_weight_sources W U w_weights uw_weights None merged p wt
                Hrun Hp)
      as [(e & He & [Hg Hin] & Hidx)|[(e & He & [Hg Hin] & Hidx)
                                     |(l & t & ? & _)]]; [| |done].
    + apply (items_of_elem willing) in He; [|done].
      destruct (Hw _ _ He) as (Hrank & _ & Htwo). split.
      * by apply two_names_size, Htwo.
      * left. exists e.1. split; [by apply (pairs_at_elem _ _ e.2)|].
        split; [done|]. apply py_index_nonneg_inv; [lia|done].
    + apply (items_of_elem unwilling) in He; [|done].
      destruct (Hu _ _ He) as (Hrank & _ & Htwo). split.
      * by apply two_names_size, Htwo.
      * right. exists e.1. split; [by apply (pairs_at_elem _ _ e.2)|].
        split; [done|]. apply py_index_nonneg_inv; [lia|done].
  - intros p Hpw Hpu. apply Hnone.
    + intros e He%(items_of_elem willing) [Hg Hin]; [|done].
      specialize (Hpw e.1 (pairs_at_elem _ _ _ _ He Hin)). lia.
    + intros e He%(items_of_elem unwilling) [Hg Hin]; [|done].
      specialize (Hpu e.1 (pairs_at_elem _ _ _ _ He Hin)). lia.
    + by intros (l & t & ? & _).
Qed.

(** X20. From the sheet to the weights, with one dislike weight per
    unwilling column. Feed the two dictionaries of
    [load_preferences_from_excel] to [compute_pair_weights] together with
    as many dislike weights as the reader returned unwilling headers (the
    sliders of the application). The call raises nothing; every key of the
    merged map has exactly two names, so line 51 of
    [solve_top_n_assignments] accepts the map; a weight comes from willing
    rank [r] as [w_weights[r-1]] or from unwilling rank [r] as
    [uw_weights[r]], the weight of the next level; and a pair found only in
    the last unwilling column gets no weight at all. *)
Theorem excel_pair_weights (get_column_letter : Z → result string)
    (ws : worksheet) (willing_range_spec unwilling_range_spec : string)
    (W U : ranked_pairs) (w_weights uw_weights : list float) :
  let loaded :=
    load_preferences_from_excel tables get_column_letter ws willing_range_spec
      unwilling_range_spec in
  items_of loaded.1.1.1 W → items_of loaded.1.1.2 U →
  length uw_weights = length loaded.2 →
  ∃ merged,
    compute_pair_weights W U w_weights uw_weights None = Ok merged
    ∧ (∀ p wt, merged !! p = Some wt →
         size p = 2%nat
         ∧ ((∃ rank, p ∈ pairs_at loaded.1.1.1 rank
                     ∧ rank ≤ Z.of_nat (length w_weights)
                     ∧ w_weights !! Z.to_nat (rank - 1) = Some wt)
            ∨ (∃ rank, p ∈ pairs_at loaded.1.1.2 rank
                       ∧ rank < Z.of_nat (length loaded.2)
                       ∧ uw_weights !! Z.to_nat rank = Some wt)))
    ∧ (∀ p, (∀ rank, p ∉ pairs_at loaded.1.1.1 rank) →
            (∀ rank, p ∈ pairs_at loaded.1.1.2 rank →
               rank = Z.of_nat (length loaded.2)) →
            merged !! p = None)
    ∧ (∀ items, (∀ p wt, (p, wt) ∈ items → merged !! p = Some wt) →
                keys_are_pairs items).
Proof.
  intros loaded HW HU Hlen.
  destruct (load_preferences_ranked tables get_column_letter ws
              willing_range_spec
              unwilling_range_spec) as [Hw Hu].
  fold loaded in Hw, Hu.
  destruct (ranked_pair_weights _ _ _ _ W U w_weights uw_weights Hw Hu HW HU)
    as (merged & Hrun & Hsrc & Hnone).
  exists merged. split; [done|]. split; [|split].
  - intros p wt Hp. destruct (Hsrc p wt Hp) as [Hsz Hfrom].
    split; [done|]. by rewrite <- Hlen.
  - intros p Hpw Hpu. apply Hnone.
    + intros rank Hin. by destruct (Hpw rank).
    + intros rank Hin. rewrite (Hpu rank Hin). lia.
  - intros items Hitems p wt Hin _.
    destruct (Hsrc p wt (Hitems p wt Hin)) as [-> _]. lia.
Qed.

End ExcelWeights.

Lemma excel_pair_weights_witness :
  (items_of example_loaded.1.1.1 (map_to_list example_loaded.1.1.1)
   ∧ items_of example_loaded.1.1.2 (map_to_list example_loaded.1.1.2)
   ∧ length ((fun _ => (-5)%float) <$> example_loaded.2)
     = length example_loaded.2)
  ∧ ∃ merged,
      DataProcessor.compute_pair_weights
        (map_to_list example_loaded.1.1.1)
        (map_to_list example_loaded.1.1.2)
        [5%float]
        ((fun _ => (-5)%float) <$> example_loaded.2)
        None = Ok merged
      ∧ ∀ items, (∀ p wt, (p, wt) ∈ items → merged !! p = Some wt) →
                 keys_are_pairs items.
Proof.
  assert (items_of example_loaded.1.1.1 (map_to_list example_loaded.1.1.1))
    as H1 by apply (reflexivity (R := Permutation)).
  assert (items_of example_loaded.1.1.2 (map_to_list example_loaded.1.1.2))
    as H2 by apply (reflexivity (R := Permutation)).
  assert (length ((fun _ => (-5)%float) <$> example_loaded.2)
          = length example_loaded.2) as H3 by apply length_fmap.
  split; [exact (conj H1 (conj H2 H3))|].
  destruct (excel_pair_weights PyStr.plain_tables example_letters
              example_sheet "A1:A2" "C1:C2" _ _ [5%float] _ H1 H2 H3)
    as (merged & Hrun & _ & _ & Hkeys).
  exists merged. exact (conj Hrun Hkeys).
Defined.

(** ** Preferences typed by hand *)

Section CustomText.
Import DataProcessor.
Context (py_float : string → option float).

Lemma parse_line_elem (line : string) (acc : list (string * string * float))
    (t : string * string * float) :
  t ∈ parse_line py_float acc line
  ↔ t ∈ acc ∨ line_gives py_float line t.
Proof.
  unfold parse_line, line_gives.
  destruct (PyStr.split ","%char line) as [|a [|b [|c [|? ?]]]];
    try (split; [auto|]; by intros [?|(? & ? & ? & [=] & _)]).
  cbv zeta.
  destruct (py_float (PyStr.strip_str c)) as [w|] eqn:Hw.
  - destruct (bool_decide_reflect (PyStr.strip_str a ≠ "")) as [Ha|Ha];
      [destruct (bool_decide_reflect (PyStr.strip_str b ≠ ""))
         as [Hb|Hb]|]; simpl.
    + rewrite elem_of_app, list_elem_of_singleton. split.
      * intros [?| ->]; [by left|]. right. by exists a, b, c.
      * intros [?|(a' & b' & c' & [= <- <- <-] & H1 & H2 & H3 & _)];
          [by left|]. right. destruct t as [[n1 n2] w']. simpl in *.
        congruence.
    + split; [auto|].
      intros [?|(a' & b' & c' & [= <- <- <-] & H1 & H2 & _ & _ & H5)];
        [done|]. by rewrite H2 in H5.
    + split; [auto|].
      intros [?|(a' & b' & c' & [= <- <- <-] & H1 & H2 & _ & H4 & _)];
        [done|]. by rewrite H1 in H4.
  - split; [auto|].
    intros [?|(a' & b' & c' & [= <- <- <-] & _ & _ & H3 & _)]; [done|].
    congruence.
Qed.

Lemma parse_lines_elem (lines : list string)
    (acc : list (string * string * float)) (t : string * string * float) :
  t ∈ foldl (parse_line py_float) acc lines
  ↔ t ∈ acc ∨ ∃ line, line ∈ lines ∧ line_gives py_float line t.
Proof.
  revert acc. induction lines as [|line lines IH]; intros acc; simpl.
  - split; [auto|]. by intros [?|(? & ?%elem_of_nil & _)].
  - rewrite IH, parse_line_elem. split.
    + intros [[?|?]|(l & Hl & ?)]; [by left| |].
      * right. exists line. split; [left|done].
      * right. exists l. split; [by right|done].
    + intros [?|(l & [->|Hl]%elem_of_cons & ?)];
        [by left; left|by left; right|].
      right. by exists l.
Qed.

(** X21. What [parse_custom_weights] keeps. A triple [(name1, name2, w)] is
    in the result exactly when the text is not empty and some line of the
    stripped text has three comma-separated fields whose first two, stripped,
    are the non-empty names and whose third, stripped, is a float literal of
    value [w]. The names then have no white space at their ends. Nothing
    else is checked: the two names may coincide, and a line in the form
    name, word, name is dropped unless its last field reads as a number. *)
Theorem parse_custom_weights_entries (text name1 name2 : string)
    (weight : float) :
  (name1, name2, weight) ∈ parse_custom_weights py_float text
  ↔ text ≠ EmptyString
    ∧ trimmed name1 ∧ trimmed name2
    ∧ ∃ line, line ∈ PyStr.split "010"%char (PyStr.strip_str text)
              ∧ line_gives py_float line (name1, name2, weight).
Proof.
  unfold parse_custom_weights.
  destruct (decide (text = EmptyString)) as [->|Hne].
  - split; [by intros ?%elem_of_nil|by intros [? _]].
  - rewrite parse_lines_elem. split.
    + intros [?%elem_of_nil|(line & Hl & Hg)]; [done|].
      split; [done|].
      destruct Hg as (a & b & c & Hs & Ha & Hb & H). simpl in Ha, Hb.
      split; [rewrite Ha; apply strip_str_trimmed|].
      split; [rewrite Hb; apply strip_str_trimmed|].
      exists line. split; [done|]. by exists a, b, c.
    + intros (_ & _ & _ & H). by right.
Qed.

End CustomText.

(** ** From typed preferences to the pair weights *)

Section Manual.
Import DataProcessor Optimizer App.

Lemma manual_preferences_fmap (manual_prefs : list (string * string * float))
    (preferences : list (string * string * string)) :
  manual_preferences manual_prefs preferences
  = preferences
    ++ ((fun t : string * string * float =>
           (t.1.1, if ltb 0 t.2 then "喜欢" else "不喜欢", t.1.2))
        <$> manual_prefs).
Proof.
  unfold manual_preferences. revert preferences.
  induction manual_prefs as [|[[n1 n2] w] l IH]; intros preferences; simpl.
  - by rewrite app_nil_r.
  - rewrite IH. by rewrite <- app_assoc.
Qed.

Section Grouping.
Context (like_weights dislike_weights : list float).

Lemma group_step (manual_prefs : list (string * string * float))
    (cw cu : gmap Z (gset (gset string))) :
  ∃ cw' cu',
    foldl (group_entry like_weights dislike_weights)
          (cw, cu)
          ((fun t : string * string * float =>
              (t.1.1, if ltb 0 t.2 then "喜欢" else "不喜欢", t.1.2))
           <$> manual_prefs)
    = (cw', cu')
    ∧ (∀ k p, p ∈ pairs_at cw' k
              ↔ p ∈ pairs_at cw k
                ∨ (k = typed_level like_weights
                   ∧ typed_like manual_prefs p))
    ∧ (∀ k p, p ∈ pairs_at cu' k
              ↔ p ∈ pairs_at cu k
                ∨ (k = typed_level dislike_weights
                   ∧ typed_dislike manual_prefs p))
    ∧ ((∀ k s, cw !! k = Some s → s ≠ ∅) → ∀ k s, cw' !! k = Some s → s ≠ ∅)
    ∧ ((∀ k s, cu !! k = Some s → s ≠ ∅) → ∀ k s, cu' !! k = Some s → s ≠ ∅).
Proof.
  revert cw cu. induction manual_prefs as [|[[n1 n2] w] l IH]; intros cw cu.
  - exists cw, cu. split; [done|].
    split; [|split; [|done]]; intros k p; (split; [auto|]);
      by intros [?|(_ & ? & ? & ? & ?%elem_of_nil & _)].
  - cbn [fmap list_fmap foldl fst snd]. unfold group_entry at 2.
    cbn [fst snd].
    assert (∀ (m : gmap Z (gset (gset string))) lvl q,
              (∀ k s, m !! k = Some s → s ≠ ∅) →
              ∀ k s, add_pair lvl q m !! k = Some s → s ≠ ∅) as Hne.
    { intros m lvl q Hm k s. unfold add_pair.
      destruct (decide (k = lvl)) as [->|Hk].
      - rewrite lookup_insert_eq. intros [= <-]. set_solver.
      - rewrite lookup_insert_ne by done. apply Hm. }
    destruct (ltb 0 w) eqn:Hw.
    + rewrite decide_True by done. cbv zeta.
      destruct (IH (add_pair (typed_level like_weights) {[n1; n2]} cw) cu)
        as (cw' & cu' & Hrun & Hcw & Hcu & Hnw & Hnu).
      exists cw', cu'. split; [exact Hrun|]. split; [|split; [|split]].
      * intros k p. rewrite Hcw, add_pair_lookup. split.
        -- intros [Hp|(-> & n1' & n2' & w' & Hin & Hw' & ->)].
           ++ destruct (decide (k = typed_level like_weights)) as [->|Hk];
                [|by left].
              apply elem_of_union in Hp as [?| ->%elem_of_singleton];
                [by left|].
              right. split; [done|]. exists n1, n2, w.
              split; [left|done].
           ++ right. split; [done|]. exists n1', n2', w'.
              split; [by right|done].
        -- intros [Hp|(-> & n1' & n2' & w' & [Heq|Hin]%elem_of_cons
                       & Hw' & ->)].
           ++ left.
              destruct (decide (k = typed_level like_weights)) as [->|Hk];
                [|done].
              apply elem_of_union. by left.
           ++ injection Heq as -> -> ->. left.
              rewrite decide_True by done. apply elem_of_union. right.
              by apply elem_of_singleton.
           ++ right. split; [done|]. by exists n1', n2', w'.
      * intros k p. rewrite Hcu. split.
        -- intros [?|(-> & n1' & n2' & w' & Hin & Hw' & ->)]; [by left|].
           right. split; [done|]. exists n1', n2', w'.
           split; [by right|done].
        -- intros [?|(-> & n1' & n2' & w' & [Heq|Hin]%elem_of_cons
                      & Hw' & ->)]; [by left| |].
           ++ injection Heq as -> -> ->. congruence.
           ++ right. split; [done|]. by exists n1', n2', w'.
      * intros Hm. apply Hnw. by apply Hne.
      * done.
    + rewrite decide_False by done. rewrite decide_True by done. cbv zeta.
      destruct (IH cw (add_pair (typed_level dislike_weights) {[n1; n2]} cu))
        as (cw' & cu' & Hrun & Hcw & Hcu & Hnw & Hnu).
      exists cw', cu'. split; [exact Hrun|]. split; [|split; [|split]].
      * intros k p. rewrite Hcw. split.
        -- intros [?|(-> & n1' & n2' & w' & Hin & Hw' & ->)]; [by left|].
           right. split; [done|]. exists n1', n2', w'.
           split; [by right|done].
        -- intros [?|(-> & n1' & n2' & w' & [Heq|Hin]%elem_of_cons
                      & Hw' & ->)]; [by left| |].
           ++ injection Heq as -> -> ->. congruence.
           ++ right. split; [done|]. by exists n1', n2', w'.
      * intros k p. rewrite Hcu, add_pair_lookup. split.
        -- intros [Hp|(-> & n1' & n2' & w' & Hin & Hw' & ->)].
           ++ destruct (decide (k = typed_level dislike_weights))
                as [->|Hk]; [|by left].
              apply elem_of_union in Hp as [?| ->%elem_of_singleton];
                [by left|].
              right. split; [done|]. exists n1, n2, w.
              split; [left|done].
           ++ right. split; [done|]. exists n1', n2', w'.
              split; [by right|done].
        -- intros [Hp|(-> & n1' & n2' & w' & [Heq|Hin]%elem_of_cons
                       & Hw' & ->)].
           ++ left.
              destruct (decide (k = typed_level dislike_weights))
                as [->|Hk]; [|done].
              apply elem_of_union. by left.
           ++ injection Heq as -> -> ->. left.
              rewrite decide_True by done. apply elem_of_union. right.
              by apply elem_of_singleton.
           ++ right. split; [done|]. by exists n1', n2', w'.
      * done.
      * intros Hm. apply Hnu. by apply Hne.
Qed.

Lemma group_preferences_spec (manual_prefs : list (string * string * float)) :
  let grouped :=
    group_preferences (manual_preferences manual_prefs []) like_weights
      dislike_weights in
  (∀ k p, p ∈ pairs_at grouped.1 k
          ↔ k = typed_level like_weights ∧ typed_like manual_prefs p)
  ∧ (∀ k p, p ∈ pairs_at grouped.2 k
            ↔ k = typed_level dislike_weights
              ∧ typed_dislike manual_prefs p)
  ∧ (∀ k s, grouped.1 !! k = Some s → s ≠ ∅)
  ∧ (∀ k s, grouped.2 !! k = Some s → s ≠ ∅).
Proof.
  intros grouped. subst grouped. unfold group_preferences.
  rewrite manual_preferences_fmap, app_nil_l.
  destruct (group_step manual_prefs ∅ ∅)
    as (cw & cu & -> & Hcw & Hcu & Hnw & Hnu).
  cbn [fst snd]. split; [|split; [|split]].
  - intros k p. rewrite Hcw. unfold pairs_at. rewrite lookup_empty. simpl.
    split; [by intros [?%elem_of_empty|?]|auto].
  - intros k p. rewrite Hcu. unfold pairs_at. rewrite lookup_empty. simpl.
    split; [by intros [?%elem_of_empty|?]|auto].
  - apply Hnw. intros k s. by rewrite lookup_empty.
  - apply Hnu. intros k s. by rewrite lookup_empty.
Qed.

End Grouping.

Lemma items_single (d : gmap Z (gset (gset string))) (entries : ranked_pairs)
    (level : Z) (pre post : ranked_pairs) (e e' : Z * gset (gset string)) :
  items_of d entries → (∀ k s, d !! k = Some s → k = level) →
  entries = pre ++ e :: post → e' ∈ post → False.
Proof.
  intros Hitems Hkeys -> He'.
  assert (NoDup (pre ++ e :: post)) as Hnd.
  { unfold items_of in Hitems. rewrite Hitems. apply NoDup_map_to_list. }
  apply NoDup_app in Hnd as (_ & _ & [Hnotin _]%NoDup_cons).
  assert (d !! e.1 = Some e.2) as He.
  { apply (items_of_elem d (pre ++ e :: post)); [done|].
    apply elem_of_app. right. left. }
  assert (d !! e'.1 = Some e'.2) as He2.
  { apply (items_of_elem d (pre ++ e :: post)); [done|].
    apply elem_of_app. right. by right. }
  assert (e'.1 = e.1) as Hk
    by (by rewrite (Hkeys _ _ He), (Hkeys _ _ He2)).
  rewrite Hk, He in He2. injection He2 as Hv.
  apply Hnotin. destruct e, e'. simpl in *. by subst.
Qed.

Lemma typed_level_guards (weights : list float) :
  (weights ≠ [] → typed_level weights ≤ Z.of_nat (length weights)
                  ∧ py_index weights (typed_level weights - 1)
                    = match head weights with
                      | Some w => Ok w
                      | None => Raise IndexError
                      end)
  ∧ (weights ≠ [] → 0 ≤ typed_level weights < Z.of_nat (length weights)
                    ∧ weights !! Z.to_nat (typed_level weights)
                      = typed_dislike_weight weights)
  ∧ (weights = [] → typed_level weights = 1)
  ∧ - Z.of_nat (length weights) < typed_level weights.
Proof.
  unfold typed_level.
  destruct weights as [|a [|b l]]; simpl; repeat split; try done; try lia.
Qed.

(** The weights that reach the typed pairs. *)
Lemma manual_weights_rules (manual_prefs : list (string * string * float))
    (like_weights dislike_weights : list float) (W U : ranked_pairs) :
  items_of (group_preferences (manual_preferences manual_prefs [])
              like_weights dislike_weights).1 W →
  items_of (group_preferences (manual_preferences manual_prefs [])
              like_weights dislike_weights).2 U →
  ∃ merged,
    compute_pair_weights W U like_weights dislike_weights None = Ok merged
    ∧ (∀ p, typed_dislike manual_prefs p → dislike_weights ≠ [] →
            merged !! p = typed_dislike_weight dislike_weights)
    ∧ (∀ p, typed_like manual_prefs p →
            ¬ typed_dislike manual_prefs p ∨ dislike_weights = [] →
            merged !! p = head like_weights)
    ∧ (∀ p, ¬ typed_like manual_prefs p →
            ¬ typed_dislike manual_prefs p ∨ dislike_weights = [] →
            merged !! p = None).
Proof.
  intros HW HU.
  destruct (group_preferences_spec like_weights dislike_weights manual_prefs)
    as (Hcw & Hcu & Hnw & Hnu).
  set (cw := (group_preferences (manual_preferences manual_prefs [])
                like_weights dislike_weights).1) in *.
  set (cu := (group_preferences (manual_preferences manual_prefs [])
                like_weights dislike_weights).2) in *.
  destruct (typed_level_guards like_weights) as (Hlg & _ & Hl0 & Hlneg).
  destruct (typed_level_guards dislike_weights) as (_ & Hdg & Hd0 & Hdneg).
  assert (∀ k s, cw !! k = Some s → k = typed_level like_weights) as Hkw.
  { intros k s Hs. destruct (set_choose_L s) as [p Hp]; [by eapply Hnw|].
    by apply (Hcw k p), (pairs_at_elem _ _ s). }
  assert (∀ k s, cu !! k = Some s → k = typed_level dislike_weights) as Hku.
  { intros k s Hs. destruct (set_choose_L s) as [p Hp]; [by eapply Hnu|].
    by apply (Hcu k p), (pairs_at_elem _ _ s). }
  assert (∀ e, e ∈ W → e.1 = typed_level like_weights) as HWk.
  { intros e He%(items_of_elem cw); [|done]. by eapply Hkw. }
  assert (∀ e, e ∈ U → e.1 = typed_level dislike_weights) as HUk.
  { intros e He%(items_of_elem cu); [|done]. by eapply Hku. }
  destruct (compute_pair_weights_rules W U like_weights dislike_weights None)
    as (merged & Hrun & Hwill & Hunw & _ & Hnone).
  { intros e He. rewrite (HWk e He). lia. }
  { intros e He. rewrite (HUk e He). lia. }
  assert (∀ p, ¬ in_custom None p) as Hnc by (by intros p (l & t & ? & _)).
  assert (∀ p, ¬ typed_dislike manual_prefs p ∨ dislike_weights = [] →
            ∀ e, e ∈ U → ¬ at_unwilling_rank dislike_weights e p) as Hnou.
  { intros p Hcase e He [Hg Hin]. destruct Hcase as [Hnd| ->].
    - apply Hnd. apply (items_of_elem cu) in He; [|done].
      by apply (Hcu e.1 p), (pairs_at_elem _ _ e.2).
    - rewrite (HUk e He), (Hd0 eq_refl) in Hg. simpl in Hg. lia. }
  exists merged. split; [done|]. split; [|split].
  - intros p Hp Hne. destruct (Hdg Hne) as [Hrange Hlook].
    assert (p ∈ pairs_at cu (typed_level dislike_weights)) as Hin
      by (by apply Hcu).
    apply pairs_at_inv in Hin as (s & Hs & Hin).
    assert ((typed_level dislike_weights, s) ∈ U) as He
      by (by apply (items_of_elem cu)).
    apply list_elem_of_split in He as (pre & post & HUeq).
    destruct (Hunw p pre (typed_level dislike_weights, s) post HUeq)
      as (wt & _ & Hm & Hidx).
    + split; [simpl; lia|done].
    + intros e' He' _.
      by apply (items_single cu U (typed_level dislike_weights) pre post
                  (typed_level dislike_weights, s) e').
    + apply Hnc.
    + rewrite Hm, <- Hlook. symmetry. apply Hidx. simpl. lia.
  - intros p Hp Hcase.
    destruct (decide (like_weights = [])) as [->|Hne].
    + simpl. apply Hnone; [|by apply Hnou|apply Hnc].
      intros e He [Hg _]. rewrite (HWk e He), (Hl0 eq_refl) in Hg.
      simpl in Hg. lia.
    + destruct (Hlg Hne) as [Hguard Hidx].
      assert (p ∈ pairs_at cw (typed_level like_weights)) as Hin
        by (by apply Hcw).
      apply pairs_at_inv in Hin as (s & Hs & Hin).
      assert ((typed_level like_weights, s) ∈ W) as He
        by (by apply (items_of_elem cw)).
      apply list_elem_of_split in He as (pre & post & HWeq).
      destruct (Hwill p pre (typed_level like_weights, s) post HWeq)
        as (wt & Hwt & Hm & _).
      * by split.
      * intros e' He' _.
        by apply (items_single cw W (typed_level like_weights) pre post
                    (typed_level like_weights, s) e').
      * by apply Hnou.
      * apply Hnc.
      * rewrite Hm. simpl in Hwt. rewrite Hidx in Hwt.
        destruct (head like_weights); congruence.
  - intros p Hp Hcase. apply Hnone; [|by apply Hnou|apply Hnc].
    intros e He [_ Hin]. apply Hp.
    apply (items_of_elem cw) in He; [|done].
    by apply (Hcw e.1 p), (pairs_at_elem _ _ e.2).
Qed.

(** X22. A typed weight counts for its sign only. For preferences typed by
    hand and no pairs read from a sheet, the application files every typed
    pair at one level and [compute_pair_weights] raises nothing. A pair
    typed with a weight that is not positive gets the only dislike weight,
    or the second one when there are several; otherwise a pair typed with a
    positive weight gets the first like weight; every other pair gets no
    weight. The number typed never reaches the map. *)
Theorem typed_weights_by_sign (manual_prefs : list (string * string * float))
    (like_weights dislike_weights : list float) (W U : ranked_pairs) :
  items_of (group_preferences (manual_preferences manual_prefs [])
              like_weights dislike_weights).1 W →
  items_of (group_preferences (manual_preferences manual_prefs [])
              like_weights dislike_weights).2 U →
  ∃ merged,
    compute_pair_weights W U like_weights dislike_weights None = Ok merged
    ∧ (∀ p, typed_dislike manual_prefs p → dislike_weights ≠ [] →
            merged !! p = typed_dislike_weight dislike_weights)
    ∧ (∀ p, typed_like manual_prefs p →
            ¬ typed_dislike manual_prefs p ∨ dislike_weights = [] →
            merged !! p = head like_weights)
    ∧ (∀ p, ¬ typed_like manual_prefs p →
            ¬ typed_dislike manual_prefs p ∨ dislike_weights = [] →
            merged !! p = None).
Proof.
  apply manual_weights_rules.
Qed.

Lemma typed_weights_by_sign_witness :
  (items_of (group_preferences
               (manual_preferences [("Ann", "Bob", 3%float)] [])
               [5%float] [(-5)%float]).1
     (map_to_list
        (group_preferences
           (manual_preferences [("Ann", "Bob", 3%float)] [])
           [5%float] [(-5)%float]).1)
   ∧ items_of (group_preferences
                 (manual_preferences [("Ann", "Bob", 3%float)] [])
                 [5%float] [(-5)%float]).2
       (map_to_list
          (group_preferences
             (manual_preferences [("Ann", "Bob", 3%float)] [])
             [5%float] [(-5)%float]).2))
  ∧ ∃ merged,
      compute_pair_weights
        (map_to_list
           (group_preferences
              (manual_preferences [("Ann", "Bob", 3%float)] [])
              [5%float] [(-5)%float]).1)
        (map_to_list
           (group_preferences
              (manual_preferences [("Ann", "Bob", 3%float)] [])
              [5%float] [(-5)%float]).2)
        [5%float] [(-5)%float] None = Ok merged.
Proof.
  assert (items_of (group_preferences
                      (manual_preferences [("Ann", "Bob", 3%float)] [])
                      [5%float] [(-5)%float]).1
            (map_to_list
               (group_preferences
                  (manual_preferences [("Ann", "Bob", 3%float)] [])
                  [5%float] [(-5)%float]).1)) as H1
    by apply (reflexivity (R := Permutation)).
  assert (items_of (group_preferences
                      (manual_preferences [("Ann", "Bob", 3%float)] [])
                      [5%float] [(-5)%float]).2
            (map_to_list
               (group_preferences
                  (manual_preferences [("Ann", "Bob", 3%float)] [])
                  [5%float] [(-5)%float]).2)) as H2
    by apply (reflexivity (R := Permutation)).
  split; [exact (conj H1 H2)|].
  destruct (typed_weights_by_sign [("Ann", "Bob", 3%float)] [5%float]
              [(-5)%float] _ _ H1 H2) as (merged & Hrun & _).
  exists merged. exact Hrun.
Defined.

Lemma typed_dislike_dec (manual_prefs : list (string * string * float))
    (p : gset string) :
  typed_dislike manual_prefs p ∨ ¬ typed_dislike manual_prefs p.
Proof.
  induction manual_prefs as [|[[n1 n2] w] l IH].
  - right. by intros (? & ? & ? & ?%elem_of_nil & _).
  - destruct IH as [(a & b & v & Hin & Hv & ->)|IH].
    { left. exists a, b, v. split; [by right|done]. }
    destruct (ltb 0 w) eqn:Hw.
    + right. intros (a & b & v & [[= -> -> ->]|Hin]%elem_of_cons & Hv & ->);
        [congruence|].
      apply IH. by exists a, b, v.
    + destruct (decide (p = {[n1; n2]})) as [->|Hne].
      * left. exists n1, n2, w. split; [left|done].
      * right.
        intros (a & b & v & [[= -> -> ->]|Hin]%elem_of_cons & Hv & ->);
          [done|].
        apply IH. by exists a, b, v.
Qed.

(** X23. A name typed twice on one line stops the run. Let the like weights
    and the dislike weights be non-empty lists of weights that pass
    [abs(w) > 1e-9] (the sliders only offer such weights), and let a typed
    triple name the same person twice. Then the application still builds
    the pair weights without an error, and [solve_top_n_assignments]
    raises [IndexError] on them at line 51, for every people list, seat
    list, edge list and solver. *)
Theorem typed_same_name_raises
    (manual_prefs : list (string * string * float))
    (like_weights dislike_weights : list float) (W U : ranked_pairs)
    (name : string) (weight : float) :
  (name, name, weight) ∈ manual_prefs →
  like_weights ≠ [] → dislike_weights ≠ [] →
  Forall (fun w => significant w = true) like_weights →
  Forall (fun w => significant w = true) dislike_weights →
  items_of (group_preferences (manual_preferences manual_prefs [])
              like_weights dislike_weights).1 W →
  items_of (group_preferences (manual_preferences manual_prefs [])
              like_weights dislike_weights).2 U →
  ∃ merged,
    compute_pair_weights W U like_weights dislike_weights None = Ok merged
    ∧ ∀ pair_weights,
        (∀ p wt, merged !! p = Some wt → (p, wt) ∈ pair_weights) →
        ∀ solver progress_callback people seats oriented_edges top_n,
          solve_top_n_assignments solver progress_callback people seats
            pair_weights oriented_edges top_n
          = ([], Raise IndexError).
Proof.
  intros Hin Hlike Hdislike Hsl Hsd HW HU.
  destruct (manual_weights_rules manual_prefs like_weights dislike_weights
              W U HW HU) as (merged & Hrun & Hd & Hl & _).
  exists merged. split; [done|].
  assert (∃ wt, merged !! ({[name; name]} : gset string) = Some wt
                ∧ significant wt = true) as (wt & Hwt & Hsig).
  { assert (∃ wt, typed_dislike_weight dislike_weights = Some wt
                  ∧ significant wt = true) as (wd & Hwd & Hsd').
    { destruct dislike_weights as [|a [|b l]]; [done|..]; simpl.
      - exists a. split; [done|]. by inversion Hsd.
      - exists b. split; [done|]. inversion Hsd as [|? ? _ Hrest].
        by inversion Hrest. }
    assert (∃ wt, head like_weights = Some wt ∧ significant wt = true)
      as (wl & Hwl & Hsl').
    { destruct like_weights as [|a l]; [done|]. exists a.
      split; [done|]. by inversion Hsl. }
    destruct (typed_dislike_dec manual_prefs {[name; name]}) as [Htd|Htd].
    - exists wd. split; [|done]. rewrite <- Hwd. by apply Hd.
    - exists wl. split; [|done]. rewrite <- Hwl. apply Hl; [|by left].
      exists name, name, weight. split; [done|]. split; [|done].
      destruct (ltb 0 weight) eqn:Hw; [done|].
      destruct Htd. by exists name, name, weight. }
  intros pair_weights Hitems solver progress_callback people seats
    oriented_edges top_n.
  unfold solve_top_n_assignments.
  rewrite (weighted_pairs_short_key pair_weights {[name; name]} wt);
    [done|by apply Hitems|done|].
  rewrite union_idemp_L, size_singleton. lia.
Qed.

Lemma typed_same_name_raises_witness :
  ((("Ann", "Ann", 1%float) ∈ [("Ann", "Ann", 1%float)]
    ∧ [5%float] ≠ [] ∧ [(-5)%float] ≠ []
    ∧ Forall (fun w => significant w = true) [5%float]
    ∧ Forall (fun w => significant w = true) [(-5)%float])
   ∧ items_of (group_preferences
                 (manual_preferences [("Ann", "Ann", 1%float)] [])
                 [5%float] [(-5)%float]).1
       (map_to_list
          (group_preferences
             (manual_preferences [("Ann", "Ann", 1%float)] [])
             [5%float] [(-5)%float]).1)
   ∧ items_of (group_preferences
                 (manual_preferences [("Ann", "Ann", 1%float)] [])
                 [5%float] [(-5)%float]).2
       (map_to_list
          (group_preferences
             (manual_preferences [("Ann", "Ann", 1%float)] [])
             [5%float] [(-5)%float]).2))
  ∧ ∃ merged,
      compute_pair_weights
        (map_to_list
           (group_preferences
              (manual_preferences [("Ann", "Ann", 1%float)] [])
              [5%float] [(-5)%float]).1)
        (map_to_list
           (group_preferences
              (manual_preferences [("Ann", "Ann", 1%float)] [])
              [5%float] [(-5)%float]).2)
        [5%float] [(-5)%float] None = Ok merged
      ∧ solve_top_n_assignments (checking_solver two_seat_candidates) true
          ["Ann"; "Bob"] [(0, 0); (0, 1)] (map_to_list merged) [] 3
        = ([], Raise IndexError).
Proof.
  assert (("Ann", "Ann", 1%float) ∈ [("Ann", "Ann", 1%float)]) as H1 by left.
  assert ([5%float] ≠ []) as H2 by discriminate.
  assert ([(-5)%float] ≠ []) as H3 by discriminate.
  assert (Forall (fun w => significant w = true) [5%float]) as H4
    by (repeat constructor).
  assert (Forall (fun w => significant w = true) [(-5)%float]) as H5
    by (repeat constructor).
  assert (items_of (group_preferences
                      (manual_preferences [("Ann", "Ann", 1%float)] [])
                      [5%float] [(-5)%float]).1
            (map_to_list
               (group_preferences
                  (manual_preferences [("Ann", "Ann", 1%float)] [])
                  [5%float] [(-5)%float]).1)) as H6
    by apply (reflexivity (R := Permutation)).
  assert (items_of (group_preferences
                      (manual_preferences [("Ann", "Ann", 1%float)] [])
                      [5%float] [(-5)%float]).2
            (map_to_list
               (group_preferences
                  (manual_preferences [("Ann", "Ann", 1%float)] [])
                  [5%float] [(-5)%float]).2)) as H7
    by apply (reflexivity (R := Permutation)).
  split; [exact (conj (conj H1 (conj H2 (conj H3 (conj H4 H5))))
                   (conj H6 H7))|].
  destruct (typed_same_name_raises [("Ann", "Ann", 1%float)] [5%float]
              [(-5)%float] _ _ "Ann" 1%float H1 H2 H3 H4 H5 H6 H7)
    as (merged & Hrun & Hraise).
  exists merged. split; [exact Hrun|]. apply Hraise.
  intros p wt Hp. by apply elem_of_map_to_list.
Defined.

End Manual.

(** ** Detected ranges *)

Section Detect.
Import DataProcessor.
Context (U : PyStr.unicode).

(** *** Decimal literals *)

Lemma pretty_N_char_digit (d : N) :
  (d < 10)%N →
  PyStr.isdigit (pretty_N_char d) = true
  ∧ PyStr.code (pretty_N_char d) - 48 = Z.of_N d.
Proof.
  intros Hd.
  assert (d = 0 ∨ d = 1 ∨ d = 2 ∨ d = 3 ∨ d = 4 ∨ d = 5 ∨ d = 6 ∨ d = 7
          ∨ d = 8 ∨ d = 9)%N as Hcases by lia.
  repeat destruct Hcases as [->|Hcases]; try subst d; by vm_compute.
Qed.

Lemma digits_app (ds rest : list ascii) (acc : Z) (after_digit : bool) :
  Forall (fun c => PyStr.isdigit c = true) ds → ds ≠ [] →
  PyStr.digits acc after_digit (ds ++ rest)
  = PyStr.digits (foldl (fun a c => a * 10 + (PyStr.code c - 48)) acc ds)
      true rest.
Proof.
  intros Hds. revert acc after_digit.
  induction Hds as [|c ds Hc Hds IH]; intros acc after_digit Hne; [done|].
  simpl. rewrite Hc. destruct ds as [|c' ds]; [done|]. by apply IH.
Qed.

Lemma pretty_N_go_digits (x : N) (s : string) :
  ∃ ds,
    list_ascii_of_string (pretty_N_go x s) = ds ++ list_ascii_of_string s
    ∧ Forall (fun c => PyStr.isdigit c = true) ds
    ∧ ((0 < x)%N → ds ≠ [])
    ∧ ∀ acc, foldl (fun a c => a * 10 + (PyStr.code c - 48)) acc ds
             = acc * 10 ^ Z.of_nat (length ds) + Z.of_N x.
Proof.
  revert s. induction (N.lt_wf_0 x) as [x _ IH]; intros s.
  assert (x = 0 ∨ 0 < x)%N as [->|Hx] by lia.
  - rewrite pretty_N_go_0. exists []. split; [done|]. split; [done|].
    split; [lia|]. intros acc. simpl. lia.
  - rewrite pretty_N_go_step by done.
    destruct (IH (x `div` 10)%N (N.div_lt x 10 Hx ltac:(lia))
                (String (pretty_N_char (x `mod` 10)) s))
      as (ds & Hlist & Hds & _ & Hval).
    destruct (pretty_N_char_digit (x `mod` 10)%N) as [Hdig Hcode].
    { apply N.mod_lt. lia. }
    exists (ds ++ [pretty_N_char (x `mod` 10)]).
    split; [by rewrite Hlist, <- app_assoc|].
    split; [apply Forall_app; split; [done|by constructor]|].
    split; [by destruct ds|].
    intros acc. rewrite foldl_app, Hval, length_app. simpl. rewrite Hcode.
    rewrite Nat2Z.inj_add, Z.pow_add_r by lia.
    pose proof (N.div_mod x 10 ltac:(lia)) as Hdm.
    change (10 ^ Z.of_nat 1) with 10. lia.
Qed.

Lemma isdigit_facts (c : ascii) :
  PyStr.isdigit c = true →
  PyStr.c_isspace c = false ∧ PyStr.isalpha c = false
  ∧ c ≠ "-"%char ∧ c ≠ "+"%char ∧ PyStr.code c < 128.
Proof.
  unfold PyStr.isdigit, PyStr.c_isspace, PyStr.isalpha.
  intros [H1%bool_decide_eq_true H2%bool_decide_eq_true]%andb_true_iff.
  split; [|split; [|split; [|split]]].
  - apply orb_false_iff. split.
    + apply andb_false_iff. right. apply bool_decide_eq_false. lia.
    + apply bool_decide_eq_false. lia.
  - apply orb_false_iff. split; apply andb_false_iff.
    + left. apply bool_decide_eq_false. lia.
    + left. apply bool_decide_eq_false. lia.
  - intros ->. vm_compute in H1. by apply H1.
  - intros ->. vm_compute in H1. by apply H1.
  - lia.
Qed.

Lemma is_ascii_forall (s : string) :
  Forall (fun c => PyStr.code c < 128) (list_ascii_of_string s) →
  PyStr.is_ascii s = true.
Proof.
  intros H. unfold PyStr.is_ascii. apply forallb_forall.
  intros c Hc%list_elem_of_In. apply bool_decide_eq_true.
  by apply (proj1 (Forall_forall _ _) H).
Qed.

Lemma is_cont_ascii (c : ascii) :
  PyStr.code c < 128 → PyStr.is_cont c = false.
Proof.
  intros Hc. unfold PyStr.is_cont. apply andb_false_iff. left.
  apply bool_decide_eq_false. lia.
Qed.

Lemma filter_all {A : Type} (P : A → Prop) `{∀ x, Decision (P x)}
    (l : list A) :
  Forall P l → filter P l = l.
Proof.
  induction 1 as [|x l Hx Hl IH]; [done|].
  rewrite filter_cons, decide_True by done. by rewrite IH.
Qed.

Lemma length_list_ascii_of_string (s : string) :
  List.length (list_ascii_of_string s) = String.length s.
Proof. induction s as [|c s IH]; simpl; [done|]. by rewrite IH. Qed.

(** A positive number printed by [str] is a literal without sign whose
    characters are digits; [int] reads the number back unless the literal
    is too long. *)
Lemma pretty_positive_digits (m : Z) :
  1 ≤ m →
  ∃ ds, list_ascii_of_string (pretty m) = ds
        ∧ Forall (fun c => PyStr.isdigit c = true) ds ∧ ds ≠ []
        ∧ (PyStr.too_long U (Z.of_nat (String.length (pretty m))) = false →
           PyStr.int U (pretty m) = Ok m).
Proof.
  intros Hm. destruct m as [|p|p]; [lia| |lia].
  assert (∃ ds, list_ascii_of_string (pretty (Z.pos p)) = ds
                ∧ Forall (fun c => PyStr.isdigit c = true) ds ∧ ds ≠ []
                ∧ PyStr.digits 0 false ds = Some (Z.pos p))
    as (ds & Hlist & Hds & Hne & Hval).
  { unfold pretty, pretty_Z. unfold pretty, pretty_positive, pretty, pretty_N.
    rewrite decide_False by done.
    destruct (pretty_N_go_digits (N.pos p) "")
      as (ds & Hlist & Hds & Hne & Hval).
    simpl in Hlist. rewrite app_nil_r in Hlist.
    exists ds. split; [done|]. split; [done|]. split; [by apply Hne|].
    rewrite <- (app_nil_r ds), digits_app, Hval by (by try apply Hne).
    simpl. f_equal; lia. }
  exists ds. split; [done|]. split; [done|]. split; [done|].
  intros Hlen. unfold PyStr.int. rewrite is_ascii_forall.
  2:{ rewrite Hlist. eapply Forall_impl; [exact Hds|]. intros c Hc.
      by apply isdigit_facts in Hc as (_ & _ & _ & _ & ?). }
  unfold PyStr.ascii_int. cbv zeta. rewrite Hlist, strip_no_match.
  2:{ eapply Forall_impl; [exact Hds|]. intros c Hc.
      by apply isdigit_facts in Hc as [? _]. }
  destruct ds as [|c cs] eqn:E; [done|].
  assert (PyStr.isdigit c = true) as Hc
    by (by apply Forall_cons in Hds as [? _]).
  apply isdigit_facts in Hc as (_ & _ & Hminus & Hplus & _).
  rewrite !decide_False by done. rewrite Hval.
  rewrite filter_all by done.
  replace (Z.of_nat (List.length (c :: cs)))
    with (Z.of_nat (String.length (pretty (Z.pos p)))).
  2:{ by rewrite <- Hlist, length_list_ascii_of_string. }
  rewrite Hlen. f_equal; lia.
Qed.

(** *** Reading a detected range back *)

Lemma code_chr (n : Z) :
  0 ≤ n < 256 → PyStr.code (ascii_of_N (Z.to_N n)) = n.
Proof.
  intros Hn. unfold PyStr.code. rewrite N_ascii_embedding by lia. lia.
Qed.

(** On an ASCII string [split_cell] goes through the bytes. *)
Lemma split_cell_ascii (cs : list ascii) (col row : string) :
  Forall (fun c => PyStr.code c < 128) cs →
  foldl (fun '(col, row) ch =>
           if PyStr.char_isalpha U ch
           then (col +:+ string_of_list_ascii ch, row)
           else (col, row +:+ string_of_list_ascii ch))
        (col, row) (PyStr.chars cs)
  = foldl (fun '(col, row) c =>
             if PyStr.isalpha c then (col +:+ String c EmptyString, row)
             else (col, row +:+ String c EmptyString)) (col, row) cs.
Proof.
  intros Hcs. rewrite chars_ascii.
  2:{ eapply Forall_impl; [exact Hcs|]. apply is_cont_ascii. }
  revert col row. induction Hcs as [|c cs Hc Hcs IH]; intros col row; [done|].
  cbn [fmap list_fmap foldl]. unfold PyStr.char_isalpha at 2.
  cbn [PyStr.ascii_of_char]. rewrite bool_decide_eq_true_2 by done.
  cbn [string_of_list_ascii]. destruct (PyStr.isalpha c); apply IH.
Qed.

Lemma split_cell_tail (ds : list ascii) (col row : string) :
  Forall (fun c => PyStr.isdigit c = true) ds →
  foldl (fun '(col, row) c =>
           if PyStr.isalpha c then (col +:+ String c EmptyString, row)
           else (col, row +:+ String c EmptyString)) (col, row) ds
  = (col, row +:+ string_of_list_ascii ds).
Proof.
  intros Hds. revert row. induction Hds as [|c ds Hc Hds IH]; intros row.
  - simpl. f_equal. clear. induction row as [|x row IH]; [done|].
    rewrite string_app_cons. by f_equal.
  - cbn [foldl]. apply isdigit_facts in Hc as (_ & -> & _). rewrite IH.
    f_equal. by rewrite string_app_assoc.
Qed.

Lemma upper_str_letter (x : ascii) :
  PyStr.code x < 128 →
  PyStr.upper_str U (String x EmptyString)
  = String (PyStr.upper x) EmptyString.
Proof.
  intros Hx. unfold PyStr.upper_str, PyStr.is_ascii.
  cbn [list_ascii_of_string forallb].
  by rewrite bool_decide_eq_true_2 by done.
Qed.

Lemma label_cell (c : Z) (s : string) :
  1 ≤ c ≤ 58 →
  Forall (fun c => PyStr.isdigit c = true) (list_ascii_of_string s) →
  ∃ col row,
    split_cell U (String (ascii_of_N (Z.to_N (64 + c))) s) = (col, row)
    ∧ match label_column c with
      | Some x => column_index_from_string U col = Ok (x + 1) ∧ row = s
      | None => ∃ e, column_index_from_string U col = Raise e
      end.
Proof.
  intros Hc Hs. unfold split_cell.
  pose proof (code_chr (64 + c) ltac:(lia)) as Hcode.
  rewrite split_cell_ascii.
  2:{ cbn [list_ascii_of_string]. constructor; [lia|].
      eapply Forall_impl; [exact Hs|]. intros d Hd.
      by apply isdigit_facts in Hd as (_ & _ & _ & _ & ?). }
  cbn [list_ascii_of_string foldl].
  unfold label_column.
  destruct (decide (1 ≤ c ≤ 26)) as [Hup|Hup];
    [|destruct (decide (33 ≤ c ≤ 58)) as [Hlow|Hlow]].
  - rewrite (bool_decide_eq_true_2 (1 ≤ c ≤ 26)) by done.
    assert (PyStr.isalpha (ascii_of_N (Z.to_N (64 + c))) = true) as ->.
    { unfold PyStr.isalpha. rewrite Hcode. apply orb_true_iff. left.
      apply andb_true_iff. split; apply bool_decide_eq_true; lia. }
    rewrite split_cell_tail by done. eexists _, _. split; [done|].
    rewrite string_of_list_ascii_of_string. split; [|done].
    unfold column_index_from_string. cbv zeta. rewrite !string_app_nil_l.
    rewrite upper_str_letter by lia.
    cbn [list_ascii_of_string length forallb foldl andb].
    assert (PyStr.upper (ascii_of_N (Z.to_N (64 + c)))
            = ascii_of_N (Z.to_N (64 + c))) as ->.
    { unfold PyStr.upper. rewrite Hcode.
      by rewrite (bool_decide_eq_false_2 (97 ≤ 64 + c)) by lia. }
    rewrite Hcode.
    rewrite (bool_decide_eq_true_2 (1 ≤ 1 ≤ 3)%nat) by lia.
    rewrite (bool_decide_eq_true_2 (65 ≤ 64 + c)) by lia.
    rewrite (bool_decide_eq_true_2 (64 + c ≤ 90)) by lia.
    simpl. f_equal. lia.
  - rewrite (bool_decide_eq_false_2 (1 ≤ c ≤ 26)) by done.
    rewrite (bool_decide_eq_true_2 (33 ≤ c ≤ 58)) by done.
    assert (PyStr.isalpha (ascii_of_N (Z.to_N (64 + c))) = true) as ->.
    { unfold PyStr.isalpha. rewrite Hcode. apply orb_true_iff. right.
      apply andb_true_iff. split; apply bool_decide_eq_true; lia. }
    rewrite split_cell_tail by done. eexists _, _. split; [done|].
    rewrite string_of_list_ascii_of_string. split; [|done].
    unfold column_index_from_string. cbv zeta. rewrite !string_app_nil_l.
    rewrite upper_str_letter by lia.
    cbn [list_ascii_of_string length forallb foldl andb].
    assert (PyStr.code (PyStr.upper (ascii_of_N (Z.to_N (64 + c))))
            = 32 + c) as ->.
    { unfold PyStr.upper. rewrite Hcode.
      rewrite (bool_decide_eq_true_2 (97 ≤ 64 + c)) by lia.
      rewrite (bool_decide_eq_true_2 (64 + c ≤ 122)) by lia.
      cbn [andb]. rewrite code_chr by lia. lia. }
    rewrite (bool_decide_eq_true_2 (1 ≤ 1 ≤ 3)%nat) by lia.
    rewrite (bool_decide_eq_true_2 (65 ≤ 32 + c)) by lia.
    rewrite (bool_decide_eq_true_2 (32 + c ≤ 90)) by lia.
    simpl. f_equal. lia.
  - rewrite (bool_decide_eq_false_2 (1 ≤ c ≤ 26)) by done.
    rewrite (bool_decide_eq_false_2 (33 ≤ c ≤ 58)) by done.
    assert (PyStr.isalpha (ascii_of_N (Z.to_N (64 + c))) = false) as ->.
    { unfold PyStr.isalpha. rewrite Hcode. apply orb_false_iff.
      split; apply andb_false_iff.
      - right. apply bool_decide_eq_false. lia.
      - left. apply bool_decide_eq_false. lia. }
    rewrite split_cell_tail by done. eexists _, _. split; [done|].
    by eexists.
Qed.

Lemma contains_colon_label (c : Z) (s : string) :
  1 ≤ c ≤ 58 → PyStr.contains ":"%char s = false →
  PyStr.contains ":"%char (String (ascii_of_N (Z.to_N (64 + c))) s) = false.
Proof.
  intros Hc Hs. simpl. rewrite decide_False; [done|].
  intros Heq. pose proof (code_chr (64 + c) ltac:(lia)) as Hcode.
  rewrite Heq in Hcode. change (PyStr.code ":"%char) with 58 in Hcode. lia.
Qed.

(** The text of a range of columns up to column 58. *)
Lemma range_text_ok (a b m : Z) (text : string) :
  1 ≤ a ≤ 58 → 1 ≤ b ≤ 58 → 1 ≤ m →
  range_text U a b m = Ok text →
  text = String (ascii_of_N (Z.to_N (64 + a))) "1"
         +:+ String ":"%char
               (String (ascii_of_N (Z.to_N (64 + b))) (pretty m))
  ∧ PyStr.too_long U (Z.of_nat (String.length (pretty m))) = false.
Proof.
  intros Ha Hb Hm. unfold range_text, chr, PyStr.str_of_int. cbv zeta.
  rewrite (bool_decide_eq_true_2 (0 ≤ 64 + a < 128)) by lia.
  rewrite (bool_decide_eq_true_2 (0 ≤ 64 + b < 128)) by lia.
  cbn [bind]. rewrite (Z.abs_eq m) by lia.
  destruct (PyStr.too_long U _); [done|]. cbn [bind].
  by intros [= <-].
Qed.

(** What the parser makes of a detected range. *)
Lemma parse_range_text (a b m : Z) (text : string) :
  1 ≤ a ≤ 58 → 1 ≤ b ≤ 58 → 1 ≤ m →
  range_text U a b m = Ok text →
  parse_cell_range U text = detected_parse a b m.
Proof.
  intros Ha Hb Hm [-> Hlen]%range_text_ok; [|done..].
  destruct (pretty_positive_digits m Hm) as (ds & Hds & Hall & Hne & Hint).
  specialize (Hint Hlen).
  destruct (parse_one_colon U (String (ascii_of_N (Z.to_N (64 + a))) "1")
              (String (ascii_of_N (Z.to_N (64 + b))) (pretty m)))
    as [-> Hsplit].
  { by apply contains_colon_label. }
  { apply contains_colon_label; [done|].
    apply contains_pretty_Z; [|done]. intros d.
    unfold pretty_N_char. by repeat case_match. }
  unfold parse_cell_range_try. rewrite Hsplit.
  destruct (label_cell a "1" Ha) as (col1 & row1 & -> & H1).
  { by repeat constructor. }
  destruct (label_cell b (pretty m) Hb) as (col2 & row2 & -> & H2).
  { by rewrite Hds. }
  unfold detected_parse.
  destruct (label_column a) as [x|]; [|by destruct H1 as [e ->]].
  destruct H1 as [-> ->]. cbn [bind].
  destruct (label_column b) as [y|]; [|by destruct H2 as [e ->]].
  destruct H2 as [-> ->]. cbn [bind].
  rewrite decide_False by done.
  change (PyStr.int U "1") with (Ok 1 : result Z). cbn [bind].
  rewrite decide_False.
  2:{ intros Hempty. rewrite Hempty in Hds. by subst ds. }
  rewrite Hint. cbn [bind]. repeat f_equal; lia.
Qed.

Lemma range_text_nonempty (a b m : Z) (text : string) :
  range_text U a b m = Ok text → text ≠ EmptyString.
Proof.
  unfold range_text.
  intros (x & Hx & (y & _ & (z & _ & [= <-])%bind_ok)%bind_ok)%bind_ok.
  unfold chr in Hx. cbv zeta in Hx.
  repeat case_bool_decide; try done; by injection Hx as <-.
Qed.

(** *** What is detected *)

Lemma first_text_row_found (ws : worksheet) (col : Z) (rows : list Z)
    (row : Z) :
  first_text_row ws col rows = Ok (Some row) →
  row ∈ rows ∧ ∃ v, cell ws row col = Ok v ∧ has_text v = true.
Proof.
  induction rows as [|r rows IH]; simpl; [done|].
  destruct (cell ws r col) as [v|] eqn:Hv; [|done]. simpl.
  destruct (has_text v) eqn:Ht.
  - intros [= <-]. split; [left|by exists v].
  - intros [Hin Hrow]%IH. split; [by right|done].
Qed.

Lemma data_columns_spec (ws : worksheet) (l : list Z) :
  data_columns ws = Ok l →
  ∀ c, c ∈ l → 1 ≤ c ≤ max_column ws ∧ column_has_text ws c.
Proof.
  unfold data_columns.
  apply (for_each_preserves
           (fun l : list Z =>
              ∀ c, c ∈ l → 1 ≤ c ≤ max_column ws ∧ column_has_text ws c));
    [|by intros c ?%elem_of_nil].
  intros col t t' Hcol%elem_of_seqZ Ht.
  intros (found & Hfound & [= <-])%bind_ok.
  destruct found as [row|]; [|done].
  intros c [Hc| ->%list_elem_of_singleton]%elem_of_app; [by apply Ht|].
  split; [lia|]. apply first_text_row_found in Hfound
    as [Hrow%elem_of_seqZ (v & Hv & Htext)].
  exists row, v. split; [lia|done].
Qed.

Lemma py_index_elem {A : Type} (l : list A) (i : Z) (a : A) :
  py_index l i = Ok a → a ∈ l.
Proof.
  unfold py_index. destruct (bool_decide _); [done|].
  destruct (l !! _) eqn:E; [|done]. intros [= <-].
  by eapply list_elem_of_lookup_2.
Qed.

Lemma group_columns_spec (l : list Z) (groups : list (list Z)) :
  group_columns l = Ok groups →
  ∀ g, g ∈ groups → g ≠ [] ∧ ∀ c, c ∈ g → c ∈ l.
Proof.
  unfold group_columns.
  intros (first & Hfirst%py_index_elem & (st & Hst & [= <-])%bind_ok)%bind_ok.
  assert ((∀ g, g ∈ st.1 → g ≠ [] ∧ ∀ c, c ∈ g → c ∈ l)
          ∧ st.2 ≠ [] ∧ ∀ c, c ∈ st.2 → c ∈ l) as (Hgroups & Hne & Hcur).
  { revert Hst.
    apply (for_each_preserves
             (fun st : list (list Z) * list Z =>
                (∀ g, g ∈ st.1 → g ≠ [] ∧ ∀ c, c ∈ g → c ∈ l)
                ∧ st.2 ≠ [] ∧ ∀ c, c ∈ st.2 → c ∈ l)).
    - intros i [gs cur] t' _ (Hgs & Hne & Hcur). simpl in Hgs, Hne, Hcur.
      intros (col & Hcol%py_index_elem & (prev & _ & Hstep)%bind_ok)%bind_ok.
      case_bool_decide; injection Hstep as <-; simpl.
      + split; [done|]. split; [by destruct cur|].
        intros c [?| ->%list_elem_of_singleton]%elem_of_app; auto.
      + split; [|split; [done|]].
        * intros g [?| ->%list_elem_of_singleton]%elem_of_app; auto.
        * by intros c ->%list_elem_of_singleton.
    - simpl. split; [by intros g ?%elem_of_nil|]. split; [done|].
      by intros c ->%list_elem_of_singleton. }
  intros g [?| ->%list_elem_of_singleton]%elem_of_app; auto.
Qed.

Lemma find_max_row_in_cols_spec (ws : worksheet) (cols : list Z) (m : Z) :
  find_max_row_in_cols ws cols = Ok m → 1 ≤ m ∧ (m = 1 ∨ m ≤ max_row ws).
Proof.
  unfold find_max_row_in_cols.
  apply (for_each_preserves
           (fun m : Z => 1 ≤ m ∧ (m = 1 ∨ m ≤ max_row ws))); [|lia].
  intros col t t' _ Ht (found & Hfound & [= <-])%bind_ok.
  destruct found as [row|]; [|done].
  apply first_text_row_found in Hfound as [Hrow _].
  apply elem_of_reverse, elem_of_seqZ in Hrow. lia.
Qed.

Lemma foldl_min_spec (x : Z) (l : list Z) :
  foldl Z.min x l ∈ x :: l ∧ ∀ y, y ∈ x :: l → foldl Z.min x l ≤ y.
Proof.
  revert x. induction l as [|z l IH]; intros x; simpl.
  - split; [left|]. intros y ->%list_elem_of_singleton. lia.
  - destruct (IH (Z.min x z)) as [Hin Hle]. split.
    + apply elem_of_cons in Hin as [->|Hin]; [|by right; right].
      destruct (Z.min_spec x z) as [[_ ->]|[_ ->]]; [left|right; left].
    + intros y [->|[->|Hy]%elem_of_cons]%elem_of_cons.
      * specialize (Hle (Z.min x z) ltac:(left)). lia.
      * specialize (Hle (Z.min x z) ltac:(left)). lia.
      * apply Hle. by right.
Qed.

Lemma foldl_max_spec (x : Z) (l : list Z) :
  foldl Z.max x l ∈ x :: l ∧ ∀ y, y ∈ x :: l → y ≤ foldl Z.max x l.
Proof.
  revert x. induction l as [|z l IH]; intros x; simpl.
  - split; [left|]. intros y ->%list_elem_of_singleton. lia.
  - destruct (IH (Z.max x z)) as [Hin Hle]. split.
    + apply elem_of_cons in Hin as [->|Hin]; [|by right; right].
      destruct (Z.max_spec x z) as [[_ ->]|[_ ->]]; [right; left|left].
    + intros y [->|[->|Hy]%elem_of_cons]%elem_of_cons.
      * specialize (Hle (Z.max x z) ltac:(left)). lia.
      * specialize (Hle (Z.max x z) ltac:(left)). lia.
      * apply Hle. by right.
Qed.

Lemma detect_range_spec (ws : worksheet) (cols : list Z) (text : string) :
  detect_range U ws cols = Ok (Some text) →
  ∃ a b m,
    range_text U a b m = Ok text ∧ a ∈ cols ∧ b ∈ cols ∧ a ≤ b
    ∧ 1 ≤ m ∧ (m = 1 ∨ m ≤ max_row ws).
Proof.
  unfold detect_range. destruct cols as [|x l]; [done|].
  intros (m & Hm%find_max_row_in_cols_spec & H)%bind_ok.
  cbn [py_min py_max bind] in H.
  apply bind_ok in H as (t & Ht & [= <-]).
  destruct (foldl_min_spec x l) as [Hmin Hle].
  destruct (foldl_max_spec x l) as [Hmax _].
  eexists _, _, m. split; [done|]. split; [done|]. split; [done|].
  split; [by apply Hle|done].
Qed.

(** The text of every detected range. *)
Lemma detected_text (ws : worksheet) (text : string) :
  (auto_detect_preference_ranges U ws).1 = Some text
  ∨ (auto_detect_preference_ranges U ws).2 = Some text →
  ∃ a b m,
    range_text U a b m = Ok text ∧ 1 ≤ a ≤ b ∧ b ≤ max_column ws
    ∧ column_has_text ws a ∧ column_has_text ws b
    ∧ 1 ≤ m ∧ (m = 1 ∨ m ≤ max_row ws).
Proof.
  unfold auto_detect_preference_ranges.
  destruct (bool_decide (max_row ws = 1) && bool_decide (max_column ws = 1));
    [by intros [?|?]|].
  destruct (data_columns ws) as [l|] eqn:Hl; [|by intros [?|?]].
  cbn [bind]. destruct (bool_decide (length l < 2)%nat); [by intros [?|?]|].
  destruct (group_columns l) as [groups|] eqn:Hg; [|by intros [?|?]].
  cbn [bind]. cbv zeta.
  assert (∀ (i : nat) t,
            detect_range U ws (default [] (groups !! i)) = Ok (Some t) →
            ∃ a b m,
              range_text U a b m = Ok t ∧ 1 ≤ a ≤ b ∧ b ≤ max_column ws
              ∧ column_has_text ws a ∧ column_has_text ws b
              ∧ 1 ≤ m ∧ (m = 1 ∨ m ≤ max_row ws)) as Hrange.
  { intros i t (a & b & m & Ht & Ha & Hb & Hab & Hm)%detect_range_spec.
    destruct (groups !! i) as [g|] eqn:Hi; simpl in Ha, Hb;
      [|by apply elem_of_nil in Ha].
    apply list_elem_of_lookup_2 in Hi.
    destruct (group_columns_spec l groups Hg g Hi) as [_ Hsub].
    destruct (data_columns_spec ws l Hl a (Hsub a Ha)) as [? ?].
    destruct (data_columns_spec ws l Hl b (Hsub b Hb)) as [? ?].
    exists a, b, m. split; [done|]. split; [lia|]. split; [lia|].
    split; [done|]. split; [done|]. done. }
  destruct (detect_range U ws (default [] (groups !! 0%nat))) as [w|] eqn:Hw;
    [|by intros [?|?]].
  cbn [bind].
  destruct (detect_range U ws (default [] (groups !! 1%nat))) as [u|] eqn:Hu;
    [|by intros [?|?]].
  cbn [bind fst snd]. intros [->| ->]; by eapply Hrange.
Qed.

(** X24. What a detected range is, and how it is read back. Every range
    text returned by [auto_detect_preference_ranges] is built from two
    columns [a <= b] of the sheet that hold text and a row [m >= 1].
    On a sheet of at most 58 columns [parse_cell_range] reads it back as
    follows: as the columns [a] to [b] and the rows 1 to [m] when neither
    column lies beyond Z (column 26); as nothing when [a] or [b] is one of
    the columns 27 to 32, whose label is a sign; and for the columns 33 to
    58, whose label is a small letter, as the column 32 places to the
    left. *)
Theorem auto_detect_preference_ranges_parse (ws : worksheet)
    (text : string) :
  max_column ws ≤ 58 →
  (auto_detect_preference_ranges U ws).1 = Some text
  ∨ (auto_detect_preference_ranges U ws).2 = Some text →
  ∃ a b m,
    range_text U a b m = Ok text ∧ 1 ≤ a ≤ b ∧ b ≤ max_column ws
    ∧ column_has_text ws a ∧ column_has_text ws b
    ∧ 1 ≤ m ∧ (m = 1 ∨ m ≤ max_row ws)
    ∧ parse_cell_range U text = detected_parse a b m.
Proof.
  intros Hmax
    (a & b & m & Ht & Hab & Hb & Hta & Htb & Hm & Hrow)%detected_text.
  exists a, b, m. repeat (split; [done|]).
  apply (parse_range_text a b m); [lia..|done].
Qed.

(** X25. Detection followed by reading. With [auto_detect] on, on a sheet
    of at most 58 columns whose cells can all be read, a detected willing
    range replaces the given one and [load_preferences_from_excel] returns
    for it the block that the parser reads out of its text: the detected
    columns and all rows when the columns end by Z, no pair when a column
    27 to 32 is involved, and the columns 32 places to the left for the
    columns 33 to 58. The same holds for a detected unwilling range. *)
Theorem auto_detected_blocks (get_column_letter : Z → result string)
    (ws : worksheet) (willing_range_spec unwilling_range_spec : string) :
  readable ws → letters_defined get_column_letter →
  max_column ws ≤ 58 →
  starts_on_sheet (parse_cell_range U willing_range_spec) →
  starts_on_sheet (parse_cell_range U unwilling_range_spec) →
  let specs :=
    range_specs U ws true willing_range_spec unwilling_range_spec in
  let loaded :=
    load_preferences_from_excel U get_column_letter ws specs.1 specs.2 in
  (∀ text, (auto_detect_preference_ranges U ws).1 = Some text →
     ∃ a b m,
       range_text U a b m = Ok specs.1 ∧ 1 ≤ a ≤ b ∧ b ≤ max_column ws
       ∧ column_has_text ws a ∧ column_has_text ws b ∧ 1 ≤ m
       ∧ mirrors_block ws (detected_parse a b m) loaded.1.1.1 loaded.1.2)
  ∧ (∀ text, (auto_detect_preference_ranges U ws).2 = Some text →
       ∃ a b m,
         range_text U a b m = Ok specs.2 ∧ 1 ≤ a ≤ b ∧ b ≤ max_column ws
         ∧ column_has_text ws a ∧ column_has_text ws b ∧ 1 ≤ m
         ∧ mirrors_block ws (detected_parse a b m) loaded.1.1.2 loaded.2).
Proof.
  intros Hread Hletters Hmax Hw Hu specs loaded.
  assert (∀ a b m t, 1 ≤ a ≤ 58 → 1 ≤ b ≤ 58 → 1 ≤ m →
            range_text U a b m = Ok t →
            starts_on_sheet (parse_cell_range U t)) as Hstart.
  { intros a b m t Ha Hb Hm Ht.
    rewrite (parse_range_text a b m) by done.
    unfold detected_parse.
    destruct (label_column a), (label_column b); intros r; simpl;
      (try by intros [= <-]); done. }
  assert (starts_on_sheet (parse_cell_range U specs.1)
          ∧ starts_on_sheet (parse_cell_range U specs.2)) as [Hs1 Hs2].
  { subst specs. unfold range_specs.
    destruct (auto_detect_preference_ranges U ws) as [dw du] eqn:Hd.
    cbn [fst snd]. split.
    - destruct dw as [t|]; [|done].
      destruct (detected_text ws t)
        as (a & b & m & Ht & ? & ? & _ & _ & ? & _);
        [left; by rewrite Hd|].
      rewrite decide_False by (by eapply range_text_nonempty).
      apply (Hstart a b m); [lia..|done].
    - destruct du as [t|]; [|done].
      destruct (detected_text ws t)
        as (a & b & m & Ht & ? & ? & _ & _ & ? & _);
        [right; by rewrite Hd|].
      rewrite decide_False by (by eapply range_text_nonempty).
      apply (Hstart a b m); [lia..|done]. }
  destruct (load_preferences_mirror_blocks U get_column_letter ws specs.1
              specs.2 Hread Hletters Hs1 Hs2) as [Hm1 Hm2].
  fold loaded in Hm1, Hm2. split.
  - intros text Htext.
    destruct (detected_text ws text (or_introl Htext))
      as (a & b & m & Ht & Hab & Hb & Hta & Htb & Hm & _).
    assert (specs.1 = text) as Hspec.
    { subst specs. unfold range_specs.
      destruct (auto_detect_preference_ranges U ws) as [dw du].
      simpl in Htext. subst dw. cbn [fst].
      by rewrite decide_False by (by eapply range_text_nonempty). }
    exists a, b, m. rewrite Hspec. repeat (split; [done|]).
    rewrite Hspec, (parse_range_text a b m) in Hm1 by (done || lia). done.
  - intros text Htext.
    destruct (detected_text ws text (or_intror Htext))
      as (a & b & m & Ht & Hab & Hb & Hta & Htb & Hm & _).
    assert (specs.2 = text) as Hspec.
    { subst specs. unfold range_specs.
      destruct (auto_detect_preference_ranges U ws) as [dw du].
      simpl in Htext. subst du. cbn [snd].
      by rewrite decide_False by (by eapply range_text_nonempty). }
    exists a, b, m. rewrite Hspec. repeat (split; [done|]).
    rewrite Hspec, (parse_range_text a b m) in Hm2 by (done || lia). done.
Qed.

End Detect.

Lemma auto_detect_preference_ranges_parse_witness :
  (DataProcessor.max_column wide_sheet ≤ 58
   ∧ ((DataProcessor.auto_detect_preference_ranges PyStr.plain_tables
         wide_sheet).1 = Some "a1:b1"
      ∨ (DataProcessor.auto_detect_preference_ranges PyStr.plain_tables
           wide_sheet).2 = Some "a1:b1"))
  ∧ ∃ a b m,
      DataProcessor.range_text PyStr.plain_tables a b m = Ok "a1:b1"
      ∧ 1 ≤ a ≤ b ∧ b ≤ DataProcessor.max_column wide_sheet
      ∧ column_has_text wide_sheet a
      ∧ column_has_text wide_sheet b
      ∧ 1 ≤ m ∧ (m = 1 ∨ m ≤ DataProcessor.max_row wide_sheet)
      ∧ DataProcessor.parse_cell_range PyStr.plain_tables "a1:b1"
        = detected_parse a b m.
Proof.
  assert (DataProcessor.max_column wide_sheet ≤ 58) as H1 by (simpl; lia).
  assert ((DataProcessor.auto_detect_preference_ranges PyStr.plain_tables
             wide_sheet).1 = Some "a1:b1"
          ∨ (DataProcessor.auto_detect_preference_ranges PyStr.plain_tables
               wide_sheet).2 = Some "a1:b1")
    as H2 by (left; vm_compute; reflexivity).
  split; [exact (conj H1 H2)|].
  exact (auto_detect_preference_ranges_parse PyStr.plain_tables wide_sheet
           "a1:b1" H1 H2).
Defined.

Lemma auto_detected_blocks_witness :
  (readable wide_sheet ∧ letters_defined example_letters
   ∧ DataProcessor.max_column wide_sheet ≤ 58
   ∧ starts_on_sheet
       (DataProcessor.parse_cell_range PyStr.plain_tables "A1:B10")
   ∧ starts_on_sheet
       (DataProcessor.parse_cell_range PyStr.plain_tables "D1:E10"))
  ∧ ∀ text,
      (DataProcessor.auto_detect_preference_ranges PyStr.plain_tables
         wide_sheet).1 = Some text →
      ∃ a b m,
        DataProcessor.range_text PyStr.plain_tables a b m
        = Ok (DataProcessor.range_specs PyStr.plain_tables wide_sheet true
                "A1:B10" "D1:E10").1
        ∧ 1 ≤ a ≤ b ∧ b ≤ DataProcessor.max_column wide_sheet
        ∧ column_has_text wide_sheet a
        ∧ column_has_text wide_sheet b
        ∧ 1 ≤ m
        ∧ mirrors_block wide_sheet (detected_parse a b m)
            (DataProcessor.load_preferences_from_excel PyStr.plain_tables
               example_letters wide_sheet
               (DataProcessor.range_specs PyStr.plain_tables wide_sheet
                  true "A1:B10" "D1:E10").1
               (DataProcessor.range_specs PyStr.plain_tables wide_sheet
                  true "A1:B10" "D1:E10").2).1.1.1
            (DataProcessor.load_preferences_from_excel PyStr.plain_tables
               example_letters wide_sheet
               (DataProcessor.range_specs PyStr.plain_tables wide_sheet
                  true "A1:B10" "D1:E10").1
               (DataProcessor.range_specs PyStr.plain_tables wide_sheet
                  true "A1:B10" "D1:E10").2).1.2.
Proof.
  assert (readable wide_sheet) as H1
    by (intros row column _ _; eexists; reflexivity).
  assert (letters_defined example_letters) as H2
    by (intros n _; eexists; reflexivity).
  assert (DataProcessor.max_column wide_sheet ≤ 58) as H3 by (simpl; lia).
  assert (starts_on_sheet
            (DataProcessor.parse_cell_range PyStr.plain_tables "A1:B10"))
    as H4.
  { intros start_row H. vm_compute in H. injection H as <-. lia. }
  assert (starts_on_sheet
            (DataProcessor.parse_cell_range PyStr.plain_tables "D1:E10"))
    as H5.
  { intros start_row H. vm_compute in H. injection H as <-. lia. }
  split; [exact (conj H1 (conj H2 (conj H3 (conj H4 H5))))|].
  exact (proj1 (auto_detected_blocks PyStr.plain_tables example_letters
                  wide_sheet "A1:B10" "D1:E10" H1 H2 H3 H4 H5)).
Defined.
